(* ===== verification/_CoqProject ===== *)
-Q . S2P
Prelude.v
Text.v
BookJson.v
BooksRepository.v
Locking.v
Endpoints.v
JsNumber.v
JsValue.v
ClientBook.v
Filter.v
JsObject.v
Cart.v
Display.v
Sync.v
Api.v
Wire.v
Query.v
Views.v
Routing.v
JsonText.v
TextLayer.v
Cors.v
