(* ===== verification/Prelude.v ===== *)
(** * TiendaLibros: a verification development of the book shop

    The repository is a small book shop: an ASP.NET Core service
    (src/TiendaLibros/Program.cs) over a file-backed store
    (src/TiendaLibros/Data/BooksRepository.cs), and a React client
    (src/TiendaLibros/ClientApp/src/App.jsx) that polls the service, keeps a
    snapshot of the catalog, filters it and holds a cart.  Data flows from
    the store through the service's JSON API to the client's [loadBooks];
    the filter and the cart work on the client's snapshot.

    ** Files, in dependency order

    - [Prelude] (this file): the [result] error monad used by both sides,
      with [throw e] for a raised exception ([result_scope]), 32-bit
      wrap-around ([wrap32]) for C# [int] arithmetic, fold and filter
      lemmas, and the hint databases [tienda] (well-formedness, used by
      [eauto]) and [tienda_rw] (the monad's and the loops' equations, used
      by [autorewrite]).
    - [Text]: strings as lists of UTF-16 code units ([jstr]),
      [String.prototype.includes] and [trim], [string.IsNullOrWhiteSpace],
      decimal rendering of integers and its reading back ([digits_value]).
    - [BookJson]: the [book] record of Models/Book.cs (taken from the spec:
      that file is not in the sources) and System.Text.Json at the level of
      document trees: what [Save] writes, what [GetAll] reads back with
      case-insensitive names, and the exceptions both raise.
    - [BooksRepository]: every method of BooksRepository.cs as a function
      from the file's content to the outcome and the new content
      ([repo_op]), atomic because of the lock ([Locking] shows it).
      [Catalog] is the contract of the spec (max+1 ids, update and delete
      by id); [repr] relates a catalog to the file holding it.  Theorems: each method refines its contract
      operation ([Add_refines], [Update_refines], [Delete_refines],
      [GetById_refines]); [Save_GetAll_roundtrip]; the invariant of unique
      positive ids over every reachable file ([reach_wf], by induction on the
      [reach] relation); exceptions leave the file unchanged; and the ways
      the code departs from the spec: deleted maximum ids are reused, the
      unchecked [+ 1] wraps at [int.MaxValue] into duplicate ids, a [null]
      element in the file makes [Add] throw.
    - [Locking]: the singleton repository under concurrent requests.  Each
      method is split into its steps (enter [lock (_lock)], [GetAll],
      [Save] or not, leave), threads interleave under any scheduler
      ([thread_step]), and [run_call_split] shows the split is the method.
      Theorems: with the monitor, every execution that has come to rest is
      serializable ([locked_final], from an invariant over the reachable
      states: one owner inside the lock, a read that is still current, the
      written calls in order).  Without the monitor two [Add]s lose a book
      ([unlocked_lost_update]).  That the model's executions run to
      completion within four steps per call ([requests_complete],
      [steps_bounded]) is a fact of the split into phases, with or
      without the monitor, and checks the model rather than the code.
    - [Endpoints]: the six handlers of Program.cs (lines 63-113) written
      against an interface ([BookStore], with the laws [BookStoreLaws] the
      handlers rely on); the repository is an instance, its laws discharged
      by the refinement lemmas.  Theorems give each handler's status codes
      and effect (validation 400s, 404s, 201 with its location).
    - [JsNumber], [JsValue], [JsObject]: the parts of ECMAScript the client
      relies on, written out: Number(...) (StringToNumber with correct
      rounding through SpecFloat), Number::toString (shortest round-trip
      digits), property access, [??], truthiness, [===], Set equality, and
      ordinary objects with their property order (index keys ascending, then
      insertion order), refining finite maps ([to_map_set],
      [to_map_delete]).
    - [ClientBook]: [normalizeString], the record [loadBooks] builds from a
      payload element, and [defaultBooks].  NFD decomposition and
      [toLowerCase] are a parameter ([UnicodeTables]); [latin1_tables]
      instantiates it for the examples.
    - [Filter]: the filtering effect ([visible]) and the spec's search
      scenarios.
    - [Cart]: [addToCart], [removeFromCart], [updateQty] and the total, over
      [JsObject]; [CartSpec] is the spec's cart over a [gmap], and the
      handlers refine it on quantities ([cart_refines_quantities], with a
      [Proper] instance for the coarser equivalence [qty_equiv]), the
      cart invariant along every trace, the total, and the two places the
      code departs from the spec (snapshot replaced on add, [updateQty] on
      an absent id).
    - [Display]: the numbers the views print: Number.prototype.toFixed
      written out on the exact value of the double ([toFixed]), the
      [BookCard] price and the [Cart] view ([render_cart]).  Theorem: the
      Cart view shows "Carrito vacio" for an empty cart, otherwise one
      line per entry of [Object.values(cart)] keyed by the book's id with
      its title, author, card price text and quantity, and the reduce
      total printed by [toFixed(2)] ([render_cart_lines]); it throws on
      an entry without a book.  The runtime's own facts ([toFixed_nearest]:
      nearest with ties upward; [fixed_digits_read]) check the model of
      [toFixed].
    - [Sync]: the App component as a state machine: [fetchJson] with its
      cache-busting URL, [loadBooks] split at its [await] into
      [start_load] and [complete], the lifecycle effect ([mount],
      [unmount]), intervals, listeners and UI events as one [step] function,
      and [reachable] states.  Theorems: success and fallback of a load,
      teardown (resources released, later events inert), last completed
      write wins, one version increment per settled load, the visible list
      always filtered from the snapshot, the category list.
    - [Api]: services/api.js (not imported by App.jsx): [fetchJson],
      [encodeURIComponent]
      written out, [tryUrls] over three base URLs with the network as an
      oracle, [normalizeBook] and the three exported functions; theorems:
      encoded parameters hold no URL delimiter, the first success wins, and
      [getCategories] misreads a category list that starts with [null].
    - [Wire]: the network boundary: the body [Results.Ok] writes with
      the web JSON defaults ([web_json], camelCase names), the value
      [res.json()] gives ([json_value]) and the response [fetch] settles to
      ([to_response]).  Theorem: end to end, a successful [GET /api/books]
      on a file holding a catalog makes a mounted App publish exactly the
      records the specification derives from the catalog
      ([store_to_snapshot]); a corrupt file makes it fall back to the seed
      catalog.
    - [Query]: the [title] parameter from api.js to the handler: ASP.NET
      Core's query-string decoding written out ([query_param], [unescape]:
      [+] to space, [%XX] bytes decoded as UTF-8).  Theorems: decoding the
      output of [encodeURIComponent] gives the string back
      ([encode_unescape], through surrogate pairs and 1- to 4-byte UTF-8),
      so every URL [getBooks] requests delivers exactly its title to the
      handler ([getBooks_title_received]).
    - [Views]: what App renders (lines 159-240) as the data each view
      shows ([Filters], [BookCard], [BookList], the Cart view of [Display],
      the whole render [App], which throws when the Cart view does), what
      each control of the rendered page dispatches ([control_event]), the
      states a user reaches through the page ([ui_reachable], with an
      executable session runner [ui_run]), and components/*.jsx
      ([BookCardJsx], [BookListJsx], [CartJsx], [FiltersJsx]).  Theorems:
      the page always renders and its cart keys are the cart's keys
      ([ui_render_ok], from the cart invariant of [Cart]); every book in
      the state has non-nullish texts and a truthy cover ([books_typed]);
      components/BookList.jsx renders App's grid ([components_equiv]),
      while components/Filters.jsx would repeat "Todas".
    - [Routing]: the host's choices of Program.cs (web root, SPA
      fallback: [web_root], [spa_fallback]) and the route table of the
      minimal API ([route], with [parse_int32] for the [{id:int}]
      constraint), GET requests dispatched to the handlers with their query
      parameters ([handle_get]), requests of every method ([handle], the
      binding of the body an argument), and the network the client sees
      ([service]).  Theorems: api.js [getBooks] against the service
      resolves to exactly the catalog's books whose title contains the
      query ([getBooks_end_to_end], composing [Api], [Query], [Endpoints],
      [BooksRepository] and [Wire]); App.jsx's cache-busted request
      reaches [GET /api/books] unfiltered and a mounted App publishes the
      stored catalog ([loadBooks_end_to_end]); when the service answers
      every request, whatever the order and the interleaving of timers,
      listeners and mounts, App shows nothing until a load settles and the
      stored catalog from then on: every reachable state shows one of the
      two, and a state that shows the catalog keeps showing it after any
      event the environment delivers ([served_snapshot], from an invariant
      of [served_reachable] and [served_loaded_step]); the
      [Location] of a created book routes back to it
      ([created_location_resolves]).
    - [JsonText]: JSON as text.  The writer of System.Text.Json
      ([serialize_text]: [JavaScriptEncoder.Default] escaping in
      [escape_unit], compact or indented output in [enclose], numbers
      through a digit-string parameter [double_text]) and a reader of the
      RFC 8259 grammar ([parse_text]: [parse_chars] for strings and
      escapes, [scan_number] for number literals, the mutual
      [parse_value], [parse_elems], [parse_members]) into the text tree
      [jtext].  [dotnet_double_text] instantiates the parameter with the
      round-trip format of .NET Core 3.0 and later.  Lemmas about this
      model of the library, on which [TextLayer] rests: reading back what
      the writer wrote gives the written tree, in either layout
      ([parse_write], by induction on the tree with the list lemmas of
      section [Items]), and the output is plain ASCII ([serialize_text_ascii]).
    - [TextLayer]: the store and the bodies as text.  [server_read] is
      [JsonSerializer.Deserialize] on text (depth limit 64, lone surrogates
      refused, integer and double literals told apart by [number_node]);
      [json_parse] is the client's [JSON.parse] ([client_value], objects
      built member by member).  [BooksRepository_text], [GetAll_text] and
      [Save_text] are the repository on a file of characters, and
      [to_response_text] the response [fetch] settles to from the text
      Program.cs writes.  Theorems: what [Save] writes [GetAll] reads back
      ([save_text_roundtrip]); the text bodies give the client the values
      of the tree-level model of [Wire] ([text_response_refines], a
      consistency lemma between the two models of the boundary), so the
      theorems of [Wire] and [Routing] hold of the text; the text store
      refines the document store ([file_of_text_refines]); and a file cut
      short by a crash during [File.WriteAllText] is refused by [GetAll],
      checked at every cut point of a sample text
      ([truncated_save_rejected], an evaluation, not a general theorem).
    - [Cors]: the CORS policy of Program.cs (lines 25-31, [AllowReact])
      and [app.UseCors] (line 57, [with_cors]: ASP.NET Core's
      [CorsMiddleware] and [CorsService]) in front of the endpoints
      ([book_app]: every method as [Routing.handle] answers it),
      and the browser's side of api.js's [fetch(url)] ([browser_fetch]:
      the origin of the URL by [resolve], same-origin requests, simple
      cross-origin requests read through the CORS check, preflighted
      ones).  Theorems: from the service's own page or from
      [http://localhost:5173] a GET reads exactly what [handle_get]
      answers ([cors_get_refines]; for a same-origin page this is the
      network [service] of [Routing], [same_origin_service]); on the Vite
      page without a proxy, api.js [getBooks] reaches the service through
      its third URL ([getBooks_dev_page]); a DELETE from that page is
      preflighted, reaches [MapDelete] through [Routing.handle] and
      removes the book ([delete_dev_page]); a page of any other origin
      reads nothing and never delivers a preflighted request, so the file
      is untouched ([cors_blocks_other_origins]); so from such a page, for
      instance the Vite page opened as [http://127.0.0.1:5173], api.js
      [getBooks] rejects whatever the title ([getBooks_other_origin_rejects];
      [dev_page_origins] evaluates both pages).

    ** Bounds and fuel

    No definition uses fuel except [shortest_digits] (Number::toString),
    which tries 1 to 17 significant digits: 17 digits always identify a
    double, so 16 further attempts suffice.  Ids are unbounded integers in
    [Catalog]; the C# [int] is modelled by [wrap32], and the invariant
    [reach_wf] holds while at most [int32_max] books have been added (the
    add counter bounds the largest id).  The concurrency model has no
    bound: the number of threads is arbitrary and the step count is
    bounded by the [rank] measure.  [cache_buster_distinct] and
    [loadBooks_end_to_end] are stated for integral time stamps below
    2^53, where Number::toString prints integers exactly;
    [new Date().getTime()] is such a number (an integral count of
    milliseconds, and a time value is at most 8.64e15 in magnitude).
    The JSON reader [parse_value] recurses on a fuel argument, and
    [parse_text] gives it [S (2 * length s)]: a value spends one unit and each
    item of an array or object one more, and every value and every item
    starts with a character of its own (a bracket, a quote, a comma, a
    letter or a digit), so twice the length covers the nesting; the proof
    of [parse_write] shows the fuel suffices for every text the writer
    produces.  The digits of a
    double are a parameter of the writer ([double_text]) because the
    round-trip format is the shortest-digits search of [JsNumber]; the
    theorems over text assume for each written double only that its digits
    read back to it ([server_double_ok], [client_num_ok], decidable per
    book), which [dotnet_double_text] satisfies on the examples.

    ** Not modelled

    Swagger (lines 33-34 and 59-60: the OpenAPI document and its UI are
    tooling, not behaviour of the shop), the serving of static files by
    the host (the files themselves are the built client), the parts of
    the URL parser that api.js's literal URLs never exercise (userinfo,
    IPv6 hosts, IDNA),
    the binding of request bodies (POST, PUT) and Kestrel's decoding of
    the request path, other processes writing the file, the markup
    of the views (element tags, CSS classes, the header text), React's
    scheduling (a state update is assumed rendered before the next user
    event), the caret restoration of [handleQueryChange] (a DOM side
    effect) and console logging.  Of the file system, only the outcome of
    a crash during [File.WriteAllText] is modelled (a prefix of the text,
    [TextLayer]); the proof that [dotnet_double_text] round-trips every
    double is left out (it is checked per number instead), and the
    UTF-8 encoding of the file (which [Save] only sees as ASCII, by
    [serialize_text_ascii]) is not written out. *)

From Stdlib Require Export ZArith Lia.
From stdpp Require Export base list decidable option.

#[local] Open Scope Z_scope.

(** ** Results: the value of a computation that can raise an exception *)

Inductive result (E A : Type) : Type :=
| Ok (a : A)
| Err (e : E).
Arguments Ok {E A} a.
Arguments Err {E A} e.

(** [throw e]: the statement that raises [e], in the scope the files open. *)
Declare Scope result_scope.
Delimit Scope result_scope with result.
Notation "'throw' e" := (Err e) (at level 10, e at level 9) : result_scope.
Open Scope result_scope.

#[export] Instance result_ret E : MRet (result E) := fun _ a => Ok a.
#[export] Instance result_bind E : MBind (result E) :=
  fun _ _ f r => match r with Ok a => f a | Err e => Err e end.
#[export] Instance result_fmap E : FMap (result E) :=
  fun _ _ f r => match r with Ok a => Ok (f a) | Err e => Err e end.

(** [mapM] over a list, stopping at the first exception (a C# or JS loop whose
    body may throw). *)
Fixpoint mapR {E A B} (f : A -> result E B) (l : list A) : result E (list B) :=
  match l with
  | [] => Ok []
  | x :: l' => y ← f x; ys ← mapR f l'; Ok (y :: ys)
  end.

Lemma bind_Ok {E A B} (a : A) (f : A -> result E B) : (Ok a ≫= f) = f a.
Proof. reflexivity. Qed.

Lemma bind_Err {E A B} (e : E) (f : A -> result E B) : (Err e ≫= f) = Err e.
Proof. reflexivity. Qed.

(** A total [f] lifted into [mapR] is a [map]. *)
Lemma mapR_map_Ok {E A B} (f : A -> result E B) (g : A -> B) (l : list A) :
  Forall (fun x => f x = Ok (g x)) l -> mapR f l = Ok (map g l).
Proof. induction 1 as [|x l Hx _ IH]; simpl; [done|]. by rewrite Hx, IH. Qed.

(** A [mapR] that succeeds pairs every input with its image. *)
Lemma mapR_Forall2 {E A B} (f : A -> result E B) l l' :
  mapR f l = Ok l' -> Forall2 (fun x y => f x = Ok y) l l'.
Proof.
  revert l'. induction l as [|x l IH]; intros l' Hm; simpl in Hm; [by injection Hm as <-|].
  destruct (f x) as [y|e] eqn:Hx; [|done]. simpl in Hm.
  destruct (mapR f l) as [ys|e]; [|done]. injection Hm as <-. constructor; [done|by apply IH].
Qed.

(** What every image of [f] satisfies holds of the result of [mapR f]. *)
Lemma mapR_Forall {E A B} (f : A -> result E B) (P : B -> Prop) l l' :
  (forall x y, f x = Ok y -> P y) -> mapR f l = Ok l' -> Forall P l'.
Proof.
  intros HP Hm%mapR_Forall2. induction Hm; constructor; eauto.
Qed.

(** A failing [mapR] fails at an element of the list, with that element's error. *)
Lemma mapR_Err {E A B} (f : A -> result E B) l e :
  mapR f l = Err e -> exists x, x ∈ l /\ f x = Err e.
Proof.
  induction l as [|x l IH]; simpl; [done|].
  destruct (f x) eqn:Fx; simpl; [|intros [= <-]; exists x; split; [by left|done]].
  destruct (mapR f l); simpl; [done|]. intros [= <-]. destruct IH as (y & ? & ?); [done|].
  exists y. split; [by right|done].
Qed.

(** A property of every element holds of every sublist. *)
Lemma Forall_sublist {A} (P : A -> Prop) l1 l2 : l1 `sublist_of` l2 -> Forall P l2 -> Forall P l1.
Proof.
  induction 1 as [|x l1 l2 _ IH|x l1 l2 _ IH]; intros HF; [done| |];
    inversion HF; subst; [constructor|]; auto.
Qed.

(** ** 32-bit two's complement integers (C# [int]) *)

Definition int32_min : Z := - 2 ^ 31.
Definition int32_max : Z := 2 ^ 31 - 1.

(** Unchecked C# arithmetic wraps modulo 2^32 into [int32_min, int32_max]. *)
Definition wrap32 (z : Z) : Z := (z + 2 ^ 31) mod 2 ^ 32 - 2 ^ 31.

Definition in_int32 (z : Z) : Prop := int32_min <= z <= int32_max.
#[export] Instance in_int32_dec z : Decision (in_int32 z).
Proof. unfold in_int32. apply _. Defined.

Lemma wrap32_small z : in_int32 z -> wrap32 z = z.
Proof.
  unfold in_int32, int32_min, int32_max, wrap32. intros H.
  rewrite Z.mod_small; lia.
Qed.

Lemma wrap32_range z : in_int32 (wrap32 z).
Proof.
  unfold in_int32, int32_min, int32_max, wrap32.
  pose proof (Z.mod_pos_bound (z + 2 ^ 31) (2 ^ 32)). lia.
Qed.

Lemma wrap32_max_succ : wrap32 (int32_max + 1) = int32_min.
Proof. reflexivity. Qed.

(** ** Running maximum ([Enumerable.Max] as a left fold) *)

Lemma fold_max_ge_init (l : list Z) m : m <= fold_left Z.max l m.
Proof. revert m; induction l as [|x l IH]; intros m; simpl; [lia|]. specialize (IH (Z.max m x)). lia. Qed.

Lemma fold_max_ge (l : list Z) m x : x ∈ l -> x <= fold_left Z.max l m.
Proof.
  revert m; induction l as [|y l IH]; intros m Hx; [by apply elem_of_nil in Hx|]. simpl.
  apply elem_of_cons in Hx as [->|Hx]; [|by apply IH].
  pose proof (fold_max_ge_init l (Z.max m y)). lia.
Qed.

Lemma fold_max_le (l : list Z) m B : m <= B -> Forall (fun x => x <= B) l -> fold_left Z.max l m <= B.
Proof.
  intros Hm Hl. revert m Hm; induction Hl as [|x l Hx _ IH]; intros m Hm; simpl; [done|].
  apply IH. lia.
Qed.

Lemma fold_max_lower (l : list Z) m B : B <= m -> B <= fold_left Z.max l m.
Proof. pose proof (fold_max_ge_init l m). lia. Qed.

(** ** Filters *)

Lemma Forall_filter_weaken {A} (P Q : A -> Prop) `{!∀ x, Decision (P x)} (l : list A) :
  Forall Q l -> Forall Q (filter P l).
Proof. induction 1; [constructor|]. rewrite filter_cons. case_decide; auto. Qed.

Lemma filter_all {A} (P : A -> Prop) `{!∀ x, Decision (P x)} (l : list A) :
  Forall P l -> filter P l = l.
Proof. induction 1; [done|]. rewrite filter_cons, decide_True by done. by f_equal. Qed.

(** ** Hint databases (the tactics live with the component that uses them) *)

Create HintDb tienda discriminated.
#[export] Hint Resolve wrap32_range : tienda.
Create Rewrite HintDb tienda_rw.
#[export] Hint Rewrite @bind_Ok @bind_Err : tienda_rw.
