(* ===== verification/Text.v ===== *)
(** * Text: strings as both runtimes hold them

    .NET [string] and JavaScript strings are both sequences of UTF-16 code
    units; [jstr] is that sequence, one [N] per code unit.  This file holds
    the ordinal text operations the two sides share: equality, substring
    search ([String.prototype.includes], [string.Contains]), the two
    whitespace tables ([String.prototype.trim] and [char.IsWhiteSpace]) and
    the decimal rendering of integers. *)

From S2P Require Import Prelude.
From Stdlib Require Import Ascii String DecimalString DecimalN.
Export String.StringSyntax.

#[local] Open Scope N_scope.

Definition jstr := list N.

(** An ASCII literal as code units, e.g. [txt "Todas"]. *)
Definition txt (s : string) : jstr := map N_of_ascii (list_ascii_of_string s).
Arguments txt s%_string_scope.

(** ** Ordinal substring search *)

Fixpoint prefixb (p s : jstr) : bool :=
  match p, s with
  | [], _ => true
  | a :: p', b :: s' => bool_decide (a = b) && prefixb p' s'
  | _ :: _, [] => false
  end.

(** [includes s p] is JavaScript's [s.includes(p)] and C#'s ordinal
    [s.Contains(p)]: some suffix of [s] starts with [p]. *)
Fixpoint includes (s p : jstr) : bool :=
  prefixb p s || match s with [] => false | _ :: s' => includes s' p end.

(** ** Whitespace *)

(** ECMAScript WhiteSpace and LineTerminator code points, the set
    [String.prototype.trim] strips. *)
Definition js_ws (c : N) : bool :=
  bool_decide (c ∈ [0x9; 0xA; 0xB; 0xC; 0xD; 0x20; 0xA0; 0x1680; 0x2028; 0x2029;
                    0x202F; 0x205F; 0x3000; 0xFEFF])
  || (bool_decide (0x2000 <= c) && bool_decide (c <= 0x200A)).

Fixpoint drop_ws (s : jstr) : jstr :=
  match s with
  | c :: s' => if js_ws c then drop_ws s' else s
  | [] => []
  end.

(** [String.prototype.trim]: strip leading and trailing whitespace. *)
Definition js_trim (s : jstr) : jstr := rev (drop_ws (rev (drop_ws s))).

(** .NET [char.IsWhiteSpace]: the Unicode space, line and paragraph
    separators, the controls U+0009..U+000D and U+0085. *)
Definition cs_is_white_space (c : N) : bool :=
  bool_decide (c ∈ [0x20; 0x85; 0xA0; 0x1680; 0x2028; 0x2029; 0x202F; 0x205F; 0x3000])
  || (bool_decide (0x9 <= c) && bool_decide (c <= 0xD))
  || (bool_decide (0x2000 <= c) && bool_decide (c <= 0x200A)).

(** [string.IsNullOrWhiteSpace]; [None] is the C# null reference. *)
Definition is_null_or_white_space (s : option jstr) : bool :=
  match s with
  | None => true
  | Some s => forallb cs_is_white_space s
  end.

(** ** Decimal rendering of integers *)

Definition N_to_txt (n : N) : jstr := txt (NilEmpty.string_of_uint (N.to_uint n)).

Definition Z_to_txt (z : Z) : jstr :=
  if (z <? 0)%Z then N_of_ascii "-" :: N_to_txt (Z.abs_N z) else N_to_txt (Z.to_N z).

(** The value of a string of decimal digits, read left to right. *)
Definition digit_step (v : Z) (c : N) : Z := (10 * v + (Z.of_N c - 48))%Z.
Definition digits_value (d : jstr) : Z := fold_left digit_step d 0%Z.

Definition is_digit (c : N) : bool := bool_decide (48 <= c <= 57).

(** ** Lemmas *)

Lemma prefixb_spec p s : prefixb p s = true <-> exists v, s = p ++ v.
Proof.
  revert s; induction p as [|a p IH]; intros [|b s]; simpl.
  - split; eauto.
  - split; eauto.
  - split; [done|]. by intros [v ?].
  - rewrite andb_true_iff, bool_decide_eq_true, IH. split.
    + intros [-> [v ->]]. eauto.
    + intros [v Hv]. injection Hv as -> ->. eauto.
Qed.

Lemma includes_spec s p : includes s p = true <-> exists u v, s = u ++ p ++ v.
Proof.
  induction s as [|c s IH]; simpl; rewrite orb_true_iff, prefixb_spec.
  - split.
    + intros [[v Hv] | Hf]; [by exists [], v | discriminate].
    + intros ([|? u] & v & Hv); [by left; exists v | done].
  - rewrite IH. split.
    + intros [[v Hv] | (u & v & ->)]; [by exists [], v | by exists (c :: u), v].
    + intros ([|c' u] & v & Hv); [left; by exists v|].
      injection Hv as -> ->. right. eauto.
Qed.

Lemma includes_nil s : includes s [] = true.
Proof. apply includes_spec. by exists [], s. Qed.

Lemma txt_inj s1 s2 : txt s1 = txt s2 -> s1 = s2.
Proof.
  unfold txt. intros H.
  rewrite <- (string_of_list_ascii_of_string s1), <- (string_of_list_ascii_of_string s2).
  f_equal. revert H. generalize (list_ascii_of_string s2).
  induction (list_ascii_of_string s1) as [|a l IH]; intros [|b l'] H; try done.
  simpl in H. injection H as Hab Hl.
  rewrite <- (ascii_N_embedding a), <- (ascii_N_embedding b), Hab.
  by rewrite (IH l').
Qed.

Lemma N_to_txt_inj n m : N_to_txt n = N_to_txt m -> n = m.
Proof.
  unfold N_to_txt. intros H%txt_inj.
  apply (f_equal NilEmpty.uint_of_string) in H. rewrite !NilEmpty.usu in H.
  apply Unsigned.to_uint_inj. congruence.
Qed.

Lemma N_to_txt_head n : hd_error (N_to_txt n) <> Some (N_of_ascii "-").
Proof. unfold N_to_txt. by destruct (N.to_uint n). Qed.

Lemma Z_to_txt_inj z1 z2 : Z_to_txt z1 = Z_to_txt z2 -> z1 = z2.
Proof.
  unfold Z_to_txt. pose proof (N_to_txt_head (Z.abs_N z1)). pose proof (N_to_txt_head (Z.abs_N z2)).
  pose proof (N_to_txt_head (Z.to_N z1)). pose proof (N_to_txt_head (Z.to_N z2)).
  destruct (Z.ltb_spec z1 0), (Z.ltb_spec z2 0); intros E.
  - injection E as E%N_to_txt_inj. lia.
  - rewrite <- E in *. simpl in *. congruence.
  - rewrite E in *. simpl in *. congruence.
  - apply N_to_txt_inj in E. lia.
Qed.

(** ** Decimal digits *)

Lemma of_uint_acc_digits u acc :
  Zpos (Pos.of_uint_acc u acc) = fold_left digit_step (txt (NilEmpty.string_of_uint u)) (Zpos acc).
Proof.
  revert acc. induction u; intros acc; simpl; [done| ..];
    rewrite IHu; f_equal; unfold digit_step; simpl; lia.
Qed.

Lemma digits_value_uint u : digits_value (txt (NilEmpty.string_of_uint u)) = Z.of_N (Pos.of_uint u).
Proof.
  unfold digits_value. induction u; cbn [NilEmpty.string_of_uint Pos.of_uint Z.of_N]; [done| |..];
    [rewrite <- IHu; reflexivity|rewrite of_uint_acc_digits; reflexivity ..].
Qed.

(** Reading the digits [N_to_txt] prints gives the number back. *)
Lemma digits_value_N_to_txt n : digits_value (N_to_txt n) = Z.of_N n.
Proof. unfold N_to_txt. rewrite digits_value_uint. f_equal. apply DecimalN.Unsigned.of_to. Qed.

Lemma N_to_txt_digits n : Forall (fun c => is_digit c = true) (N_to_txt n).
Proof. unfold N_to_txt. induction (N.to_uint n); simpl; by constructor. Qed.

Lemma fold_digit_step_acc d v :
  fold_left digit_step d v = (v * 10 ^ Z.of_nat (List.length d) + fold_left digit_step d 0)%Z.
Proof.
  revert v. induction d as [|c d IH]; intros v; simpl; [lia|].
  rewrite IH, (IH (digit_step 0 c)). unfold digit_step. rewrite Nat2Z.inj_succ, Z.pow_succ_r by lia. lia.
Qed.

Lemma digits_value_app d1 d2 :
  digits_value (d1 ++ d2) = (digits_value d1 * 10 ^ Z.of_nat (List.length d2) + digits_value d2)%Z.
Proof. unfold digits_value. by rewrite fold_left_app, fold_digit_step_acc. Qed.

(** Leading zeros do not change the value. *)
Lemma digits_value_zeros k d : digits_value (repeat (N_of_ascii "0") k ++ d) = digits_value d.
Proof.
  rewrite digits_value_app. replace (digits_value (repeat _ k)) with 0%Z; [lia|].
  unfold digits_value. induction k as [|k IH]; [done|]. cbn [repeat fold_left]. exact IH.
Qed.

#[export] Hint Resolve includes_nil : tienda.
