(* ===== verification/BookJson.v ===== *)
(** * BookJson: the server's book record and its JSON form

    The [Book] model class (Models/Book.cs) is not part of the sources; its
    shape is taken from the spec (section 3): an [int] id, nullable strings
    for title, author, category and cover, a [double] price.  A
    [List<Book>] element is a reference, so a list of the store is a
    [list slot] where [None] is the null reference.

    [jnode] is the JSON document System.Text.Json reads and writes.  A
    number token is kept as what the reader can do with it: an integer
    literal ([IntLit], the only form [int] accepts) or another literal
    denoting a finite [double] ([DblLit]).  At this level a document is written and read back as the same
    tree; the text layer (indentation, escapes, the digits of a double) is
    modelled in [JsonText], and [TextLayer] shows that the text round trip
    gives the same catalog.

    [BooksRepository.Save] serializes with the default options (property
    names as declared), [GetAll] deserializes with
    [PropertyNameCaseInsensitive = true]; [serialize_list] and
    [deserialize_list] model the two calls. *)

From Stdlib Require Import Floats.
From S2P Require Import Prelude Text.

#[local] Open Scope Z_scope.

(** ** Exceptions the server code can raise *)

Inductive exn :=
| JsonException            (** malformed document or a value of the wrong type *)
| ArgumentException        (** the writer refuses a NaN or infinite double *)
| NullReferenceException   (** a member read through a null [Book] *)
| FileNotFoundException.   (** [File.ReadAllText] on a missing file *)

#[export] Instance exn_eq_dec : EqDecision exn.
Proof. solve_decision. Defined.

(** ** JSON documents *)

Inductive jnum :=
| IntLit (z : Z)
| DblLit (f : float).

Inductive jnode :=
| NNull
| NBool (b : bool)
| NNum (n : jnum)
| NStr (s : jstr)
| NArr (l : list jnode)
| NObj (ps : list (jstr * jnode)).

(** ** Models/Book.cs *)

Record book := mkBook {
  Id : Z;
  Title : option jstr;
  Author : option jstr;
  Category : option jstr;
  Price : float;
  Cover : option jstr
}.

Abbreviation slot := (option book).

(** [book.Id = nextId]: the repository assigns the id in place. *)
Definition set_Id (z : Z) (b : book) : book :=
  mkBook z (Title b) (Author b) (Category b) (Price b) (Cover b).

(** The object [new Book()] the deserializer starts from. *)
Definition default_book : book := mkBook 0 None None None 0%float None.

(** ** Ordinal case-insensitive names *)

(** The per-code-unit upper-case mapping of [StringComparer.OrdinalIgnoreCase]
    (.NET's invariant simple case mapping).  The table itself is the
    runtime's; the model only relies on its ASCII part, where it is the
    usual [a-z] to [A-Z] mapping. *)
Definition ascii_upper (c : N) : N :=
  if bool_decide (97 <= c <= 122)%N then (c - 32)%N else c.

Class OrdinalCasing := {
  cs_upper : N -> N;
  cs_upper_ascii : forall c, (c < 128)%N -> cs_upper c = ascii_upper c
}.

(** The ASCII part alone, a casing for documents whose names are ASCII. *)
#[export] Program Instance ascii_casing : OrdinalCasing := {| cs_upper c :=
  if bool_decide (c < 128)%N then ascii_upper c else c |}.
Next Obligation. intros c Hc; simpl. case_bool_decide; [done|lia]. Qed.

Section Json.
Context `{OrdinalCasing}.

Definition name_eq (a b : jstr) : bool := bool_decide (map cs_upper a = map cs_upper b).

(** ** Serialization ([JsonSerializer.Serialize(list)]) *)

Definition str_node (s : option jstr) : jnode :=
  match s with None => NNull | Some s => NStr s end.

(** The writer throws on a non-finite double (JSON has no NaN). *)
Definition double_node (f : float) : result exn jnode :=
  if is_finite f then Ok (NNum (DblLit f)) else throw ArgumentException.

Definition serialize_book (b : book) : result exn jnode :=
  p ← double_node (Price b);
  Ok (NObj [(txt "Id", NNum (IntLit (Id b)));
            (txt "Title", str_node (Title b));
            (txt "Author", str_node (Author b));
            (txt "Category", str_node (Category b));
            (txt "Price", p);
            (txt "Cover", str_node (Cover b))]).

Definition serialize_slot (s : slot) : result exn jnode :=
  match s with None => Ok NNull | Some b => serialize_book b end.

Definition serialize_list (l : list slot) : result exn jnode :=
  ns ← mapR serialize_slot l; Ok (NArr ns).

(** ** Deserialization ([JsonSerializer.Deserialize<List<Book>>]) *)

Definition int_of_node (n : jnode) : result exn Z :=
  match n with
  | NNum (IntLit z) => if decide (in_int32 z) then Ok z else throw JsonException
  | _ => throw JsonException
  end.

(** An integer literal read as a [double] is rounded to nearest; the reader
    refuses a literal beyond the double range. *)
Definition Z_to_double (z : Z) : float :=
  SF2Prim (SpecFloat.binary_normalize FloatOps.prec FloatOps.emax z 0 false).

Definition double_of_node (n : jnode) : result exn float :=
  match n with
  | NNum (IntLit z) => let f := Z_to_double z in
                       if is_finite f then Ok f else throw JsonException
  | NNum (DblLit f) => Ok f
  | _ => throw JsonException
  end.

Definition string_of_node (n : jnode) : result exn (option jstr) :=
  match n with
  | NNull => Ok None
  | NStr s => Ok (Some s)
  | _ => throw JsonException
  end.

(** One JSON property, matched case-insensitively against the six property
    names; an unknown property is skipped, a repeated one overwrites. *)
Definition set_property (b : book) (k : jstr) (v : jnode) : result exn book :=
  if name_eq k (txt "Id") then z ← int_of_node v;
    Ok (mkBook z (Title b) (Author b) (Category b) (Price b) (Cover b))
  else if name_eq k (txt "Title") then s ← string_of_node v;
    Ok (mkBook (Id b) s (Author b) (Category b) (Price b) (Cover b))
  else if name_eq k (txt "Author") then s ← string_of_node v;
    Ok (mkBook (Id b) (Title b) s (Category b) (Price b) (Cover b))
  else if name_eq k (txt "Category") then s ← string_of_node v;
    Ok (mkBook (Id b) (Title b) (Author b) s (Price b) (Cover b))
  else if name_eq k (txt "Price") then f ← double_of_node v;
    Ok (mkBook (Id b) (Title b) (Author b) (Category b) f (Cover b))
  else if name_eq k (txt "Cover") then s ← string_of_node v;
    Ok (mkBook (Id b) (Title b) (Author b) (Category b) (Price b) s)
  else Ok b.

Fixpoint set_properties (b : book) (ps : list (jstr * jnode)) : result exn book :=
  match ps with
  | [] => Ok b
  | (k, v) :: ps' => b' ← set_property b k v; set_properties b' ps'
  end.

Definition deserialize_slot (n : jnode) : result exn slot :=
  match n with
  | NNull => Ok None
  | NObj ps => b ← set_properties default_book ps; Ok (Some b)
  | _ => throw JsonException
  end.

(** [Deserialize<List<Book>>(json) ?? new List<Book>()]: a [null] document
    is the empty list. *)
Definition deserialize_list (n : jnode) : result exn (list slot) :=
  match n with
  | NNull => Ok []
  | NArr l => mapR deserialize_slot l
  | _ => throw JsonException
  end.

(** ** Round trip *)

(** A book the writer and the reader agree on: an [int] id and a finite
    price. *)
Definition wf_book (b : book) : Prop := in_int32 (Id b) /\ is_finite (Price b) = true.

Definition is_ascii (s : jstr) : Prop := Forall (fun c => (c < 128)%N) s.

Lemma map_cs_upper_ascii s : is_ascii s -> map cs_upper s = map ascii_upper s.
Proof.
  intros Hs. apply map_ext_Forall. eapply Forall_impl; [|exact Hs].
  intros c Hc. by apply cs_upper_ascii.
Qed.

Lemma name_eq_ascii a b :
  is_ascii a -> is_ascii b ->
  name_eq a b = bool_decide (map ascii_upper a = map ascii_upper b).
Proof. unfold name_eq. intros Ha Hb. by rewrite !map_cs_upper_ascii. Qed.

Lemma name_eq_refl a : name_eq a a = true.
Proof. by apply bool_decide_eq_true_2. Qed.

Ltac names_ascii :=
  rewrite ?name_eq_ascii by (unfold is_ascii; repeat constructor; vm_compute; done).

Lemma deserialize_serialize_book b n :
  in_int32 (Id b) -> serialize_book b = Ok n -> deserialize_slot n = Ok (Some b).
Proof.
  unfold serialize_book, double_node. intros Hid.
  destruct (is_finite (Price b)); [|done]. intros [= <-]. simpl.
  unfold set_property. rewrite name_eq_refl. names_ascii. simpl.
  rewrite decide_True by done. destruct b; simpl.
  by destruct Title0, Author0, Category0, Cover0.
Qed.

Lemma serialize_book_Ok b : wf_book b -> exists n, serialize_book b = Ok n.
Proof. unfold serialize_book, double_node. intros [_ ->]. by eexists. Qed.

Lemma serialize_book_nonfinite b :
  is_finite (Price b) = false -> serialize_book b = Err ArgumentException.
Proof. unfold serialize_book, double_node. by intros ->. Qed.

(** Writing a list of well-formed books and reading the document back gives
    the same list, element for element. *)
Lemma deserialize_serialize_list l n :
  Forall (fun s => from_option (fun b => in_int32 (Id b)) True s) l ->
  serialize_list l = Ok n -> deserialize_list n = Ok l.
Proof.
  unfold serialize_list. intros Hl.
  destruct (mapR serialize_slot l) as [ns|] eqn:E; [|done]. intros [= <-]. simpl.
  revert ns E. induction Hl as [|[b|] l Hb _ IH]; intros ns E; simpl in E.
  - by injection E as <-.
  - destruct (serialize_book b) as [nb|] eqn:Eb; [|done]. simpl in E.
    destruct (mapR serialize_slot l) as [ns'|]; [|done]. injection E as <-. simpl.
    rewrite (deserialize_serialize_book b nb Hb Eb). simpl. by rewrite (IH ns').
  - destruct (mapR serialize_slot l) as [ns'|]; [|done]. injection E as <-. simpl.
    by rewrite (IH ns').
Qed.

Lemma serialize_list_Ok l :
  Forall (fun s => from_option wf_book True s) l -> exists n, serialize_list l = Ok n.
Proof.
  unfold serialize_list. induction 1 as [|[b|] l Hb _ [n IH]]; simpl.
  - by eexists.
  - destruct (serialize_book_Ok b Hb) as [nb ->]. simpl.
    destruct (mapR serialize_slot l); [by eexists|done].
  - destruct (mapR serialize_slot l); [by eexists|done].
Qed.

End Json.
