(* ===== verification/BooksRepository.v ===== *)
(** * BooksRepository: the catalog store (Data/BooksRepository.cs)

    The repository owns one file, Data/books.json.  Every public method takes
    the object's lock, reads the whole file, works on the list in memory and,
    for a change, rewrites the whole file.  Under the lock the methods are
    atomic (Locking.v shows it), so each is one function [repo_op] from the file's
    content before the call to the method's outcome (a value or the
    exception it raises) and the content after the call.

    - [BooksRepository] is the constructor (it creates "[]" when the file is
      missing); [GetAll], [GetById], [Add], [Update], [Delete] and [Save] are
      the methods, written in the [repo_op] monad in the order of the C#
      statements.  [first_or_default], [max_id], [find_index] and
      [remove_all] are the LINQ and [List<T>] calls they make, with the
      NullReferenceException a null element raises when its [Id] is read.
    - [Catalog] is the abstract contract of the spec (section 4.1): a list of
      books, add with [max + 1], update by id, delete by id.  [repr] relates
      a catalog to the file holding it, and the [*_refines] theorems show
      each method implements its contract operation. *)

From Stdlib Require Import Floats.
From S2P Require Import Prelude Text BookJson.

#[local] Open Scope Z_scope.

(** ** The file *)

Inductive file_state :=
| FileMissing              (** no Data/books.json yet *)
| FileJson (doc : jnode)   (** a file holding a JSON document *)
| FileCorrupt.             (** a file whose text is not JSON *)

(** ** The repository monad *)

Definition repo_op (A : Type) : Type := file_state -> result exn A * file_state.

#[export] Instance repo_ret : MRet repo_op := fun _ a f => (Ok a, f).
#[export] Instance repo_bind : MBind repo_op := fun _ _ k m f =>
  match m f with
  | (Ok a, f') => k a f'
  | (Err e, f') => (Err e, f')
  end.

(** A pure step that may throw. *)
Definition lift {A} (r : result exn A) : repo_op A := fun f => (r, f).

Section Repository.
Context `{OrdinalCasing}.

(** ** BooksRepository.cs *)

(** The constructor: [if (!File.Exists(_filePath)) File.WriteAllText(_filePath, "[]")]. *)
Definition BooksRepository (f : file_state) : file_state :=
  match f with FileMissing => FileJson (NArr []) | _ => f end.

(** [GetAll]: read the text, deserialize it, [?? new List<Book>()]. *)
Definition GetAll : repo_op (list slot) := fun f =>
  match f with
  | FileMissing => (throw FileNotFoundException, f)
  | FileCorrupt => (throw JsonException, f)
  | FileJson d => (deserialize_list d, f)
  end.

(** [b.Id] on a list element. *)
Definition id_of (s : slot) : result exn Z :=
  match s with Some b => Ok (Id b) | None => throw NullReferenceException end.

(** The predicate [b => b.Id == id]. *)
Definition has_id (id : Z) (s : slot) : result exn bool :=
  z ← id_of s; Ok (bool_decide (z = id)).

(** [Enumerable.FirstOrDefault(pred)]: the first match, or null. *)
Fixpoint first_or_default (p : slot -> result exn bool) (l : list slot) : result exn slot :=
  match l with
  | [] => Ok None
  | s :: l' => b ← p s;
      match b with true => Ok s | false => first_or_default p l' end
  end.

(** [GetById(id) => GetAll().FirstOrDefault(b => b.Id == id)]. *)
Definition GetById (id : Z) : repo_op slot :=
  l ← GetAll; lift (first_or_default (has_id id) l).

(** [Enumerable.Max(b => b.Id)] over the rest of a non-empty list. *)
Fixpoint max_id (m : Z) (l : list slot) : result exn Z :=
  match l with
  | [] => Ok m
  | s :: l' => z ← id_of s; max_id (Z.max m z) l'
  end.

(** [list.Any() ? list.Max(b => b.Id) + 1 : 1], in unchecked [int]. *)
Definition next_id (l : list slot) : result exn Z :=
  match l with
  | [] => Ok 1
  | s :: l' => z ← id_of s; m ← max_id z l'; Ok (wrap32 (m + 1))
  end.

(** [Save]: serialize, then [File.WriteAllText]. *)
Definition Save (l : list slot) : repo_op unit := fun f =>
  match serialize_list l with
  | Ok d => (Ok tt, FileJson d)
  | Err e => (Err e, f)
  end.

(** [Add]: assign the next id to the book, append it, save. *)
Definition Add (b : book) : repo_op book :=
  l ← GetAll;
  nid ← lift (next_id l);
  let b' := set_Id nid b in
  Save (l ++ [Some b']);;
  mret b'.

(** [List<T>.FindIndex(pred)]; [None] is the [-1] of the C# code. *)
Fixpoint find_index (p : slot -> result exn bool) (l : list slot) : result exn (option nat) :=
  match l with
  | [] => Ok None
  | s :: l' => b ← p s;
      match b with
      | true => Ok (Some 0%nat)
      | false => i ← find_index p l'; Ok (option_map S i)
      end
  end.

(** [Update]: replace the element with the book's id, or report [false]. *)
Definition Update (b : book) : repo_op bool :=
  l ← GetAll;
  oi ← lift (find_index (has_id (Id b)) l);
  match oi with
  | None => mret false
  | Some i => Save (<[i := Some b]> l);; mret true
  end.

(** [List<T>.RemoveAll(pred)]: the kept elements, in order, and the number
    removed; the predicate is evaluated on every element. *)
Fixpoint remove_all (p : slot -> result exn bool) (l : list slot) : result exn (list slot * nat) :=
  match l with
  | [] => Ok ([], 0%nat)
  | s :: l' => b ← p s; r ← remove_all p l';
      Ok (match b with true => (r.1, S r.2) | false => (s :: r.1, r.2) end)
  end.

(** [Delete]: remove every element with the id; save only if one was. *)
Definition Delete (id : Z) : repo_op bool :=
  l ← GetAll;
  r ← lift (remove_all (has_id id) l);
  let removed := bool_decide (0 < r.2)%nat in
  (if removed then Save r.1 else mret tt);;
  mret removed.

End Repository.

(** ** The contract: an in-memory catalog *)

Module Catalog.

Abbreviation catalog := (list book).

(** The largest id; ids are unbounded integers here. *)
Definition cat_max (c : catalog) : Z :=
  match c with [] => 0 | b :: c' => fold_left Z.max (map Id c') (Id b) end.

(** [nextId = (list is empty) ? 1 : max(list.id) + 1]. *)
Definition cat_next_id (c : catalog) : Z :=
  match c with [] => 1 | _ => cat_max c + 1 end.

Definition add (b : book) (c : catalog) : book * catalog :=
  let b' := set_Id (cat_next_id c) b in (b', c ++ [b']).

Definition get (id : Z) (c : catalog) : option book :=
  snd <$> list_find (fun x => Id x = id) c.

(** Replace the record with the same id, or report NotFound. *)
Definition update (b : book) (c : catalog) : bool * catalog :=
  match list_find (fun x => Id x = Id b) c with
  | None => (false, c)
  | Some (i, _) => (true, <[i := b]> c)
  end.

Definition delete (id : Z) (c : catalog) : bool * catalog :=
  (bool_decide (Exists (fun x => Id x = id) c), filter (fun x => Id x ≠ id) c).

(** Ids are unique positive integers. *)
Definition wf (c : catalog) : Prop := NoDup (map Id c) /\ Forall (fun b => 0 < Id b) c.

End Catalog.

(** ** Running the monad *)

Lemma run_bind {A B} (m : repo_op A) (k : A -> repo_op B) f :
  (m ≫= k) f = match m f with (Ok a, f') => k a f' | (Err e, f') => (Err e, f') end.
Proof. reflexivity. Qed.

Lemma run_ret {A} (a : A) f : (mret a : repo_op A) f = (Ok a, f).
Proof. reflexivity. Qed.

Lemma run_lift {A} (r : result exn A) f : lift r f = (r, f).
Proof. reflexivity. Qed.

#[export] Hint Rewrite @run_bind @run_ret @run_lift : tienda_rw.

(** ** Lemmas on the element loops over a list without nulls *)

Lemma has_id_Some id b : has_id id (Some b) = Ok (bool_decide (Id b = id)).
Proof. reflexivity. Qed.

Lemma first_or_default_Some id c :
  first_or_default (has_id id) (map Some c) = Ok (Catalog.get id c).
Proof.
  unfold Catalog.get. induction c as [|b c IH]; [done|]. simpl.
  case_bool_decide; simpl; rewrite ?decide_True, ?decide_False by done; [done|].
  rewrite IH. by destruct (list_find _ c) as [[]|].
Qed.

Lemma max_id_Some m c : max_id m (map Some c) = Ok (fold_left Z.max (map Id c) m).
Proof. revert m; induction c as [|b c IH]; intros m; [done|]. apply IH. Qed.

Lemma find_index_Some id c :
  find_index (has_id id) (map Some c) = Ok (fst <$> list_find (fun x => Id x = id) c).
Proof.
  induction c as [|b c IH]; [done|]. simpl.
  case_bool_decide; simpl; rewrite ?decide_True, ?decide_False by done; [done|].
  rewrite IH. by destruct (list_find _ c) as [[]|].
Qed.

Lemma remove_all_Some id c :
  remove_all (has_id id) (map Some c) =
  Ok (map Some (filter (fun x => Id x ≠ id) c), length (filter (fun x => Id x = id) c)).
Proof.
  induction c as [|b c IH]; [done|]. simpl. rewrite IH. simpl.
  rewrite !filter_cons. case_bool_decide; repeat case_decide; simpl; by try congruence.
Qed.

#[export] Hint Rewrite first_or_default_Some max_id_Some find_index_Some remove_all_Some : tienda_rw.

Lemma length_filter_pos {A} (P : A -> Prop) `{!∀ x, Decision (P x)} (l : list A) :
  (0 < length (filter P l))%nat <-> Exists P l.
Proof.
  induction l as [|x l IH]; simpl.
  - split; [lia|]. by intros ?%Exists_nil.
  - rewrite filter_cons, Exists_cons. case_decide; simpl; [split; auto; lia|].
    rewrite IH. naive_solver.
Qed.

(** ** Refinement: the file-backed methods implement the catalog *)

Section Refinement.
Context `{OrdinalCasing}.

(** The file holds the serialized catalog, and every book of it can be
    written and read back. *)
Definition repr (c : Catalog.catalog) (f : file_state) : Prop :=
  Forall wf_book c /\ exists d, serialize_list (map Some c) = Ok d /\ f = FileJson d.

Lemma Forall_wf_slots c :
  Forall wf_book c -> Forall (fun s => from_option wf_book True s) (map Some c).
Proof. intros Hc. apply Forall_map. exact Hc. Qed.

Lemma Save_repr c f :
  Forall wf_book c -> exists f', Save (map Some c) f = (Ok tt, f') /\ repr c f'.
Proof.
  intros Hc. destruct (serialize_list_Ok _ (Forall_wf_slots c Hc)) as [d Hd].
  exists (FileJson d). unfold Save. rewrite Hd. split; [done|]. split; eauto.
Qed.

Lemma GetAll_repr c f : repr c f -> GetAll f = (Ok (map Some c), f).
Proof.
  intros (Hc & d & Hd & ->). simpl. rewrite (deserialize_serialize_list (map Some c) d); [done| |done].
  apply Forall_map. eapply Forall_impl; [|exact Hc]. by intros b [].
Qed.

(** Run a method on a file that holds a catalog: its read, then the loops
    over the list, which meet no null. *)
Ltac run_method Hr :=
  rewrite run_bind, (GetAll_repr _ _ Hr), ?run_bind, ?run_lift; autorewrite with tienda_rw.

(** The constructor on a fresh deployment yields the empty catalog. *)
Lemma BooksRepository_repr : repr [] (BooksRepository FileMissing).
Proof. split; [constructor|]. by eexists. Qed.

Lemma next_id_Some c :
  next_id (map Some c) = Ok (match c with [] => 1 | _ => wrap32 (Catalog.cat_max c + 1) end).
Proof. destruct c as [|b c]; [done|]. simpl. by rewrite max_id_Some. Qed.

(** Without overflow the C# computation is the contract's. *)
Lemma next_id_no_overflow c :
  in_int32 (Catalog.cat_next_id c) -> next_id (map Some c) = Ok (Catalog.cat_next_id c).
Proof.
  intros Hin. rewrite next_id_Some. destruct c as [|b c]; [done|].
  by rewrite wrap32_small.
Qed.

Lemma map_Some_insert (c : list book) i b :
  <[i := Some b]> (map Some c) = map Some (<[i := b]> c).
Proof. revert i; induction c as [|x c IH]; intros [|i]; simpl; f_equal; auto. Qed.


Lemma GetById_correct c f id : repr c f -> GetById id f = (Ok (Catalog.get id c), f).
Proof.
  intros Hr. unfold GetById. by run_method Hr.
Qed.

(** The id [Add] computes for a file holding [c], in unchecked [int]
    arithmetic. *)
Definition wrapped_next_id (c : Catalog.catalog) : Z :=
  match c with [] => 1 | _ => wrap32 (Catalog.cat_max c + 1) end.

Lemma wrapped_next_id_no_overflow c :
  in_int32 (Catalog.cat_next_id c) -> wrapped_next_id c = Catalog.cat_next_id c.
Proof. destruct c; [done|]. apply wrap32_small. Qed.

(** [Add] run on a file holding [c], whatever the ids are. *)
Lemma Add_run c f b :
  repr c f -> is_finite (Price b) = true ->
  exists f', Add b f = (Ok (set_Id (wrapped_next_id c) b), f') /\
             repr (c ++ [set_Id (wrapped_next_id c) b]) f'.
Proof.
  intros Hr Hp. unfold Add. run_method Hr. rewrite next_id_Some.
  fold (wrapped_next_id c). set (nid := wrapped_next_id c).
  assert (Hw : Forall wf_book (c ++ [set_Id nid b])).
  { apply Forall_app; split; [apply Hr|]. constructor; [|constructor]. split; [|done].
    subst nid. unfold wrapped_next_id. destruct c; [done|apply wrap32_range]. }
  destruct (Save_repr _ f Hw) as (f' & Hs & Hr'). rewrite map_app in Hs.
  exists f'. rewrite ?run_bind. simpl in *. by rewrite Hs.
Qed.

Lemma Add_correct c f b :
  repr c f -> is_finite (Price b) = true -> in_int32 (Catalog.cat_next_id c) ->
  exists f', Add b f = (Ok (Catalog.add b c).1, f') /\ repr (Catalog.add b c).2 f'.
Proof.
  intros Hr Hp Hn. destruct (Add_run c f b Hr Hp) as (f' & Hadd & Hr').
  rewrite wrapped_next_id_no_overflow in Hadd, Hr' by done. by exists f'.
Qed.

Lemma Update_correct c f b :
  repr c f -> is_finite (Price b) = true ->
  exists f', Update b f = (Ok (Catalog.update b c).1, f') /\ repr (Catalog.update b c).2 f'.
Proof.
  intros Hr Hb. unfold Update, Catalog.update. run_method Hr.
  destruct (list_find _ c) as [[i x]|] eqn:Hf; simpl; [|by exists f].
  apply list_find_Some in Hf as (Hi & Hx & _).
  assert (Hw : Forall wf_book (<[i := b]> c)).
  { apply Forall_insert; [apply Hr|]. split; [|done].
    rewrite <- Hx. apply (Forall_lookup_1 _ _ _ _ (proj1 Hr) Hi). }
  destruct (Save_repr _ f Hw) as (f' & Hs & Hr'). rewrite <- map_Some_insert in Hs.
  exists f'. rewrite ?run_bind. by rewrite Hs.
Qed.

Lemma Delete_correct c f id :
  repr c f ->
  exists f', Delete id f = (Ok (Catalog.delete id c).1, f') /\ repr (Catalog.delete id c).2 f'.
Proof.
  intros Hr. unfold Delete, Catalog.delete. run_method Hr. simpl.
  assert (Hw : Forall wf_book (filter (fun x => Id x ≠ id) c))
    by (apply Forall_filter_weaken, Hr).
  pose proof (length_filter_pos (fun x => Id x = id) c) as Hlen.
  case_bool_decide as Hpos.
  - destruct (Save_repr _ f Hw) as (f' & Hs & Hr'). exists f'.
    rewrite bool_decide_eq_true_2 by tauto. rewrite ?run_bind.
    match goal with |- context [Save ?l f] => replace (Save l f) with (@Ok exn unit tt, f') end; done.
  - exists f. rewrite bool_decide_eq_false_2 by tauto. rewrite ?run_bind, ?run_ret.
    split; [done|]. assert (Hfc : filter (fun x => Id x ≠ id) c = c).
    { apply filter_all. apply Forall_Exists_neg. tauto. }
    by rewrite Hfc.
Qed.

(** Round trip: after [Save] writes a list of books, [GetAll] reads back
    the same list, field for field. *)
Theorem Save_GetAll_roundtrip c f f' :
  Forall wf_book c -> Save (map Some c) f = (Ok tt, f') -> GetAll f' = (Ok (map Some c), f').
Proof.
  intros Hc Hs. destruct (Save_repr c f Hc) as (f'' & Hs' & Hr). rewrite Hs in Hs'.
  injection Hs' as <-. by apply GetAll_repr.
Qed.

(** [GetById] returns the first record with the id, or null. *)
Theorem GetById_refines c f id : repr c f -> GetById id f = (Ok (Catalog.get id c), f).
Proof. apply GetById_correct. Qed.

(** C1: [Add] assigns [max + 1] (1 on an empty file), appends and persists, as
    the contract does, as long as the next id fits in an [int] and the
    price can be written. *)
Theorem Add_refines c f b :
  repr c f -> is_finite (Price b) = true -> in_int32 (Catalog.cat_next_id c) ->
  exists f', Add b f = (Ok (Catalog.add b c).1, f') /\ repr (Catalog.add b c).2 f'.
Proof. apply Add_correct. Qed.

(** C6: [Update] replaces the record with the book's id and persists, or
    reports [false] and leaves the file as it was. *)
Theorem Update_refines c f b :
  repr c f -> is_finite (Price b) = true ->
  exists f', Update b f = (Ok (Catalog.update b c).1, f') /\ repr (Catalog.update b c).2 f'.
Proof. apply Update_correct. Qed.

(** C7: [Delete] removes every record with the id and persists when one was
    removed; otherwise it reports [false] and does not touch the file. *)
Theorem Delete_refines c f id :
  repr c f ->
  exists f', Delete id f = (Ok (Catalog.delete id c).1, f') /\ repr (Catalog.delete id c).2 f'.
Proof. apply Delete_correct. Qed.

End Refinement.

(** ** The contract's invariant: unique positive ids *)

Lemma cat_max_ge c x : x ∈ c -> Id x <= Catalog.cat_max c.
Proof.
  destruct c as [|b c]; [by intros ?%elem_of_nil|]. simpl.
  intros [->|Hx]%elem_of_cons; [apply fold_max_ge_init|].
  apply fold_max_ge. apply list_elem_of_fmap. eauto.
Qed.

Lemma cat_next_id_gt c x : x ∈ c -> Id x < Catalog.cat_next_id c.
Proof.
  intros Hx. pose proof (cat_max_ge c x Hx). destruct c; [by apply elem_of_nil in Hx|].
  simpl in *. lia.
Qed.

Lemma cat_next_id_pos c : Forall (fun b => 0 < Id b) c -> 0 < Catalog.cat_next_id c.
Proof.
  destruct c as [|b c]; [done|]. intros Hc%Forall_cons_1.
  pose proof (cat_max_ge (b :: c) b ltac:(left)). simpl in *. lia.
Qed.

Lemma add_wf c b : Catalog.wf c -> Catalog.wf (Catalog.add b c).2.
Proof.
  intros [Hnd Hpos]. simpl. split.
  - rewrite map_app. apply list.NoDup_app. split; [done|]. split; [|apply NoDup_singleton].
    intros z Hz ->%list_elem_of_singleton.
    apply list_elem_of_fmap in Hz as (x & Hx & Hin).
    pose proof (cat_next_id_gt c x Hin). simpl in Hx. lia.
  - apply Forall_app. split; [done|]. constructor; [|done]. by apply cat_next_id_pos.
Qed.

Lemma map_Id_insert (c : list book) i x b :
  c !! i = Some x -> Id x = Id b -> map Id (<[i := b]> c) = map Id c.
Proof.
  revert i; induction c as [|y c IH]; intros [|i] Hi Hx; simpl in *; try done.
  - injection Hi as ->. by rewrite Hx.
  - by rewrite (IH i).
Qed.

Lemma update_wf c b : Catalog.wf c -> Catalog.wf (Catalog.update b c).2.
Proof.
  unfold Catalog.update. intros [Hnd Hpos].
  destruct (list_find _ c) as [[i x]|] eqn:Hf; [|done]. simpl.
  apply list_find_Some in Hf as (Hi & Hx & _).
  split; [by rewrite (map_Id_insert c i x b)|].
  apply Forall_insert; [done|]. rewrite <- Hx.
  by apply (Forall_lookup_1 _ _ _ _ Hpos Hi).
Qed.

Lemma delete_wf c id : Catalog.wf c -> Catalog.wf (Catalog.delete id c).2.
Proof.
  intros [Hnd Hpos]. simpl. split; [|by apply Forall_filter_weaken].
  eapply sublist_NoDup; [exact Hnd|].
  apply fmap_sublist, sublist_filter.
Qed.

#[export] Hint Resolve add_wf update_wf delete_wf : tienda.

(** ** Exceptions leave the file as it was *)

Lemma GetAll_file f : (GetAll f).2 = f.
Proof. by destruct f. Qed.

Lemma Save_Err l f e f' : Save l f = (Err e, f') -> f' = f.
Proof. unfold Save. destruct (serialize_list l); congruence. Qed.

(** Peel the [GetAll] at the head of a method: it never changes the file. *)
Ltac peel_GetAll f :=
  rewrite run_bind; pose proof (GetAll_file f) as Hgf;
  destruct (GetAll f) as [[?l|?e] ?f0]; simpl in Hgf; subst; [|congruence].

(** A method whose final [Save] throws leaves the file as it was. *)
Ltac save_unchanged f :=
  destruct (Save _ f) as [[[]|?e2] ?f2] eqn:?Hs; [done|]; intros [= -> ->]; by eapply Save_Err.

(** A method that throws has not written the file: the write is its last
    statement, and a failing serialization happens before the write. *)
Theorem methods_throw_unchanged f e f' :
  (forall b, Add b f = (Err e, f') -> f' = f) /\
  (forall b, Update b f = (Err e, f') -> f' = f) /\
  (forall id, Delete id f = (Err e, f') -> f' = f).
Proof.
  split; [|split]; intros x; [unfold Add|unfold Update|unfold Delete]; peel_GetAll f;
    rewrite run_bind, run_lift.
  - destruct (next_id l) as [nid|]; [|congruence]. rewrite run_bind. save_unchanged f.
  - destruct (find_index _ l) as [[i|]|]; [|done|congruence]. rewrite run_bind. save_unchanged f.
  - destruct (remove_all _ l) as [r|]; [|congruence]. cbv zeta. rewrite run_bind.
    case_bool_decide; [|done]. save_unchanged f.
Qed.

(** ** Reachable files *)

Section Reachable.
Context `{OrdinalCasing}.

Lemma serialize_list_bad_last c b :
  Forall wf_book c -> is_finite (Price b) = false ->
  serialize_list (map Some c ++ [Some b]) = Err ArgumentException.
Proof.
  unfold serialize_list. intros Hc Hb. induction Hc as [|x c [_ Hx] _ IH]; simpl.
  - by rewrite serialize_book_nonfinite.
  - unfold serialize_book at 1, double_node at 1. rewrite Hx. simpl.
    by destruct (mapR serialize_slot _).
Qed.

(** A price the writer refuses makes [Add] throw before the write. *)
Lemma Add_nonfinite c f b :
  repr c f -> is_finite (Price b) = false -> Add b f = (Err ArgumentException, f).
Proof.
  intros Hr Hb. unfold Add. rewrite run_bind, (GetAll_repr c f Hr), run_bind, run_lift.
  rewrite (next_id_Some c), run_bind. unfold Save.
  by rewrite serialize_list_bad_last by (done || apply Hr).
Qed.

(** One element the writer refuses makes the whole serialization fail. *)
Lemma serialize_list_lookup_bad (l : list slot) i b :
  l !! i = Some (Some b) -> is_finite (Price b) = false ->
  exists e, serialize_list l = Err e.
Proof.
  unfold serialize_list. intros Hi Hb. revert i Hi.
  induction l as [|y l IH]; intros [|i] Hi; simpl in *; try done.
  - injection Hi as ->. cbn [serialize_slot]. rewrite serialize_book_nonfinite by done. by eexists.
  - destruct (serialize_slot y); simpl; [|by eexists].
    destruct (IH i Hi) as [e He]. destruct (mapR serialize_slot l); [done|]. by eexists.
Qed.

Lemma Update_nonfinite c f b r f' :
  repr c f -> is_finite (Price b) = false -> Update b f = (r, f') -> f' = f.
Proof.
  intros Hr Hb. unfold Update. rewrite run_bind, (GetAll_repr c f Hr), run_bind, run_lift.
  rewrite find_index_Some. destruct (list_find _ c) as [[i x]|] eqn:Hf; simpl; [|by intros [= _ ->]].
  rewrite run_bind. unfold Save. rewrite map_Some_insert.
  apply list_find_Some in Hf as (Hi & _).
  destruct (serialize_list_lookup_bad (map Some (<[i:=b]> c)) i b) as [e He]; [|done|].
  - rewrite list_lookup_fmap, list_lookup_insert_eq; [done|]. by eapply lookup_lt_Some.
  - rewrite He. by intros [= _ ->].
Qed.

Lemma cat_max_le c B : 0 <= B -> Forall (fun x => Id x <= B) c -> Catalog.cat_max c <= B.
Proof.
  destruct c as [|b c]; [done|]. intros HB [Hb Hc]%Forall_cons_1. simpl.
  apply fold_max_le; [done|]. by apply Forall_map.
Qed.

Lemma cat_max_nonneg_le c x : x ∈ c -> 0 <= Id x -> 0 <= Catalog.cat_max c.
Proof. intros Hx Hpos. pose proof (cat_max_ge c x Hx). lia. Qed.

(** The add counter bounds the ids: each [Add] assigns at most one more
    than the largest id present. *)
Inductive reach : nat -> file_state -> Prop :=
| reach_init : reach 0 (BooksRepository FileMissing)
| reach_add n f b r f' : reach n f -> Add b f = (r, f') -> reach (S n) f'
| reach_update n f b r f' : reach n f -> Update b f = (r, f') -> reach n f'
| reach_delete n f id r f' : reach n f -> Delete id f = (r, f') -> reach n f'.

Lemma cat_max_ids c1 c2 : map Id c1 = map Id c2 -> Catalog.cat_max c1 = Catalog.cat_max c2.
Proof. destruct c1, c2; simpl; intros; simplify_eq; congruence. Qed.

(** After an add the largest id is the one just assigned. *)
Lemma cat_max_add c b : Catalog.cat_max (Catalog.add b c).2 = Catalog.cat_next_id c.
Proof.
  destruct c as [|x c]; [done|]. simpl. rewrite map_app, fold_left_app. simpl.
  pose proof (cat_max_ge (x :: c)) as Hge. simpl in Hge.
  pose proof (fold_max_ge_init (map Id c) (Id x)). lia.
Qed.

(** C2: Every file a deployment reaches holds a catalog whose ids are unique
    and positive, as long as fewer than [int32_max] books have been added:
    the add counter bounds the largest id. *)
Theorem reach_wf n f :
  reach n f -> Z.of_nat n <= int32_max ->
  exists c, repr c f /\ Catalog.wf c /\ Catalog.cat_max c <= Z.of_nat n.
Proof.
  induction 1 as [|n f b r f' Hreach IH Hop|n f b r f' Hreach IH Hop|n f id r f' Hreach IH Hop];
    intros Hn; [|destruct IH as (c & Hr & Hwf & Hmax); [lia|] ..].
  - exists []. split; [apply BooksRepository_repr|]. split; [split; constructor|]. simpl. lia.
  - destruct (is_finite (Price b)) eqn:Hp.
    + assert (Hin : in_int32 (Catalog.cat_next_id c)).
      { pose proof (cat_next_id_pos c (proj2 Hwf)). unfold in_int32, int32_min.
        destruct c; simpl in *; lia. }
      destruct (Add_correct c f b Hr Hp Hin) as (f'' & Hadd & Hr'). rewrite Hop in Hadd.
      injection Hadd as -> ->. exists (Catalog.add b c).2. split; [done|]. split; [eauto with tienda|].
      rewrite cat_max_add. destruct c; simpl in *; lia.
    + rewrite (Add_nonfinite c f b Hr Hp) in Hop. injection Hop as <- <-.
      exists c. split; [done|]. split; [done|]. lia.
  - destruct (is_finite (Price b)) eqn:Hp.
    + destruct (Update_correct c f b Hr Hp) as (f'' & Hup & Hr'). rewrite Hop in Hup.
      injection Hup as -> ->. exists (Catalog.update b c).2. split; [done|].
      split; [eauto with tienda|]. unfold Catalog.update in *.
      destruct (list_find _ c) as [[i x]|] eqn:Hf; [|done]. simpl.
      apply list_find_Some in Hf as (Hi & Hx & _).
      by rewrite (cat_max_ids _ c (map_Id_insert c i x b Hi Hx)).
    + rewrite (Update_nonfinite c f b r f' Hr Hp Hop). eauto.
  - destruct (Delete_correct c f id Hr) as (f'' & Hdel & Hr'). rewrite Hop in Hdel.
    injection Hdel as -> ->. exists (Catalog.delete id c).2. split; [done|].
    split; [eauto with tienda|]. apply cat_max_le; [lia|].
    apply Forall_filter_weaken. apply Forall_forall. intros x Hx.
    apply list_elem_of_In in Hx. pose proof (cat_max_ge c x Hx). lia.
Qed.

End Reachable.

(** ** Scenarios of the spec (section 8) *)

Section Scenarios.
Context `{OrdinalCasing}.

(** A client issuing [Add] calls one after the other. *)
Fixpoint add_all (bs : list book) : repo_op (list book) :=
  match bs with
  | [] => mret []
  | b :: bs' => b' ← Add b; r ← add_all bs'; mret (b' :: r)
  end.

Lemma cat_next_id_add c b :
  Catalog.cat_next_id (Catalog.add b c).2 = Catalog.cat_next_id c + 1.
Proof. rewrite <- (cat_max_add c b). by destruct c. Qed.

Lemma add_all_from c f k bs :
  repr c f -> Catalog.cat_next_id c = Z.of_nat k + 1 ->
  Forall (fun b => is_finite (Price b) = true) bs ->
  Z.of_nat (k + length bs) <= int32_max ->
  exists bs' f', add_all bs f = (Ok bs', f') /\
                 map Id bs' = map Z.of_nat (seq (S k) (length bs)).
Proof.
  intros Hr Hk Hbs. revert c f k Hr Hk.
  induction Hbs as [|b bs Hb _ IH]; intros c f k Hr Hk Hlen; [by exists [], f|].
  assert (Hin : in_int32 (Catalog.cat_next_id c)).
  { unfold in_int32, int32_min. simpl in Hlen. lia. }
  destruct (Add_correct c f b Hr Hb Hin) as (f1 & Hadd & Hr1).
  destruct (IH _ f1 (S k) Hr1) as (bs' & f' & Hrun & Hids).
  { rewrite cat_next_id_add, Hk. lia. }
  { simpl in Hlen. lia. }
  exists (set_Id (Catalog.cat_next_id c) b :: bs'), f'. simpl.
  rewrite run_bind, Hadd, run_bind, Hrun. split; [done|]. simpl. rewrite Hids, Hk. f_equal. lia.
Qed.

(** Adds starting from a fresh deployment assign the ids 1, 2, 3, ... in
    call order. *)
Theorem add_all_sequential bs :
  Forall (fun b => is_finite (Price b) = true) bs -> Z.of_nat (length bs) <= int32_max ->
  exists bs' f', add_all bs (BooksRepository FileMissing) = (Ok bs', f') /\
                 map Id bs' = map Z.of_nat (seq 1 (length bs)).
Proof. intros Hbs Hlen. by apply (add_all_from [] _ 0); [apply BooksRepository_repr| | |]. Qed.

Lemma Delete_absent c f id :
  repr c f -> ~ Exists (fun x => Id x = id) c -> Delete id f = (Ok false, f).
Proof.
  intros Hr Hno. unfold Delete.
  rewrite run_bind, (GetAll_repr c f Hr), run_bind, run_lift, remove_all_Some. simpl.
  rewrite bool_decide_eq_false_2; [done|]. by rewrite length_filter_pos.
Qed.

(** [update(book)] with an id not in the catalog reports NotFound and does
    not write the file. *)
Theorem Update_not_found c f b :
  repr c f -> ~ Exists (fun x => Id x = Id b) c -> Update b f = (Ok false, f).
Proof.
  intros Hr Hno. unfold Update.
  rewrite run_bind, (GetAll_repr c f Hr), run_bind, run_lift, find_index_Some.
  apply not_Exists_Forall in Hno; [|apply _].
  assert (Hf : list_find (fun x => Id x = Id b) c = None) by by apply list_find_None.
  by rewrite Hf.
Qed.

(** Deleting the same id twice: the second call reports NotFound and the
    file stays as the first call left it. *)
Theorem Delete_twice c f id r f1 :
  repr c f -> Delete id f = (r, f1) -> Delete id f1 = (Ok false, f1).
Proof.
  intros Hr Hd. destruct (Delete_correct c f id Hr) as (f' & Hd' & Hr').
  rewrite Hd in Hd'. injection Hd' as -> ->.
  apply (Delete_absent _ _ _ Hr'). simpl. intros (x & Hx & Hid)%Exists_exists.
  apply list_elem_of_In, list_elem_of_filter in Hx as [Hne _]. done.
Qed.

(** C26: Adding after deleting the book just added reuses its id: the next id
    is recomputed from the ids present, so the deleted maximum comes back.
    (The spec, section 3, says ids are never reused after deletion.) *)
Theorem Add_Delete_Add_reuses c f b1 b2 x1 f1 :
  repr c f -> is_finite (Price b1) = true -> is_finite (Price b2) = true ->
  in_int32 (Catalog.cat_next_id c) -> Add b1 f = (Ok x1, f1) ->
  exists f2 f3 x2, Delete (Id x1) f1 = (Ok true, f2) /\ Add b2 f2 = (Ok x2, f3) /\ Id x2 = Id x1.
Proof.
  intros Hr Hp1 Hp2 Hin Hadd.
  destruct (Add_correct c f b1 Hr Hp1 Hin) as (f1' & Hadd' & Hr1).
  rewrite Hadd in Hadd'. injection Hadd' as -> ->. simpl.
  destruct (Delete_correct _ f1' (Catalog.cat_next_id c) Hr1) as (f2 & Hdel & Hr2).
  simpl in Hdel, Hr2.
  assert (Hf : filter (fun x => Id x ≠ Catalog.cat_next_id c)
                 (c ++ [set_Id (Catalog.cat_next_id c) b1]) = c).
  { rewrite list.filter_app, filter_all.
    - rewrite filter_cons, decide_False by (simpl; tauto). apply app_nil_r.
    - apply list.Forall_forall. intros x Hx. pose proof (cat_next_id_gt c x Hx). lia. }
  rewrite Hf in Hr2.
  destruct (Add_correct c f2 b2 Hr2 Hp2 Hin) as (f3 & Hadd2 & _).
  exists f2, f3, (set_Id (Catalog.cat_next_id c) b2). split; [|by split].
  rewrite Hdel, bool_decide_eq_true_2; [done|].
  apply Exists_app. right. by constructor.
Qed.

Lemma cat_max_snoc c x : c ≠ [] -> Catalog.cat_max (c ++ [x]) = Z.max (Catalog.cat_max c) (Id x).
Proof. destruct c as [|y c]; [done|]. intros _. simpl. by rewrite map_app, fold_left_app. Qed.

(** C27: When the largest id is [int.MaxValue], [list.Max(b => b.Id) + 1] wraps
    to [int.MinValue]: the next two adds both get [int.MinValue], and the
    catalog holds two books with the same, negative, id. *)
Theorem Add_overflow_duplicate c f b1 b2 :
  repr c f -> c ≠ [] -> Catalog.cat_max c = int32_max ->
  is_finite (Price b1) = true -> is_finite (Price b2) = true ->
  exists f1 f2, Add b1 f = (Ok (set_Id int32_min b1), f1) /\
                Add b2 f1 = (Ok (set_Id int32_min b2), f2) /\
                repr (c ++ [set_Id int32_min b1; set_Id int32_min b2]) f2 /\
                ~ Catalog.wf (c ++ [set_Id int32_min b1; set_Id int32_min b2]).
Proof.
  intros Hr Hne Hmax Hp1 Hp2.
  assert (H1 : wrapped_next_id c = int32_min)
    by (unfold wrapped_next_id; destruct c; [done|]; by rewrite Hmax).
  destruct (Add_run c f b1 Hr Hp1) as (f1 & Hadd1 & Hr1). rewrite H1 in Hadd1, Hr1.
  assert (H2 : wrapped_next_id (c ++ [set_Id int32_min b1]) = int32_min).
  { unfold wrapped_next_id. rewrite cat_max_snoc, Hmax by done. by destruct c. }
  destruct (Add_run _ f1 b2 Hr1 Hp2) as (f2 & Hadd2 & Hr2). rewrite H2 in Hadd2, Hr2.
  exists f1, f2. rewrite <- app_assoc in Hr2. do 3 (split; [done|]).
  intros [Hnd _]. rewrite map_app in Hnd. apply list.NoDup_app in Hnd as (_ & _ & Hnd).
  simpl in Hnd. apply list.NoDup_cons in Hnd as [Hin _]. apply Hin. by left.
Qed.

Lemma max_id_null m l : None ∈ l -> max_id m l = Err NullReferenceException.
Proof.
  revert m. induction l as [|s l IH]; intros m Hl; [by apply elem_of_nil in Hl|].
  apply elem_of_cons in Hl as [<-|Hl]; [done|]. destruct s; simpl; [by apply IH|done].
Qed.

(** C28: A null element in the file (the deserializer accepts one) makes [Add]
    throw a NullReferenceException while computing the next id. *)
Theorem Add_null_element f l b :
  GetAll f = (Ok l, f) -> None ∈ l -> Add b f = (Err NullReferenceException, f).
Proof.
  intros Hg Hl. unfold Add. rewrite run_bind, Hg, run_bind, run_lift.
  destruct l as [|s l]; [by apply elem_of_nil in Hl|]. simpl.
  apply elem_of_cons in Hl as [<-|Hl]; [done|].
  destruct s; simpl; [|done]. by rewrite max_id_null.
Qed.

End Scenarios.

(** ** Examples on concrete files *)

(** A book as the POST body carries it (the id is assigned by [Add]). *)
Definition sample_book (t : String.string) (p : float) : book :=
  mkBook 0 (Some (txt t)) (Some (txt "Paulo Coelho")) (Some (txt "Ficcion")) p None.
Arguments sample_book t%_string_scope p%_float_scope.

(** The file [Save] writes for a catalog. *)
Definition file_of (c : Catalog.catalog) : file_state :=
  match serialize_list (map Some c) with Ok d => FileJson d | Err _ => FileCorrupt end.

Definition sample_catalog : Catalog.catalog :=
  [set_Id 1 (sample_book "El alquimista" 12.5); set_Id 2 (sample_book "Sapiens" 15)].

Ltac solve_repr :=
  split; [repeat constructor; vm_compute; try reflexivity; discriminate|];
  eexists; split; vm_compute; reflexivity.

Lemma Add_refines_witness :
  repr sample_catalog (file_of sample_catalog) /\
  exists f', Add (sample_book "Cien anos" 12.5) (file_of sample_catalog) =
             (Ok (set_Id 3 (sample_book "Cien anos" 12.5)), f') /\
             repr (sample_catalog ++ [set_Id 3 (sample_book "Cien anos" 12.5)]) f'.
Proof.
  split; [solve_repr|].
  apply (Add_refines sample_catalog (file_of sample_catalog) (sample_book "Cien anos" 12.5));
    [solve_repr | vm_compute; reflexivity | vm_compute; split; discriminate].
Defined.

Lemma GetById_refines_witness :
  repr sample_catalog (file_of sample_catalog) /\
  GetById 2 (file_of sample_catalog) = (Ok (Catalog.get 2 sample_catalog), file_of sample_catalog).
Proof. split; [solve_repr|]. apply GetById_refines. solve_repr. Defined.

Lemma Update_refines_witness :
  repr sample_catalog (file_of sample_catalog) /\ is_finite 20%float = true /\
  exists f', Update (set_Id 2 (sample_book "Sapiens" 20)) (file_of sample_catalog) =
             (Ok (Catalog.update (set_Id 2 (sample_book "Sapiens" 20)) sample_catalog).1, f') /\
             repr (Catalog.update (set_Id 2 (sample_book "Sapiens" 20)) sample_catalog).2 f'.
Proof.
  split; [solve_repr|]. split; [reflexivity|].
  apply Update_refines; [solve_repr|reflexivity].
Defined.

Lemma Delete_refines_witness :
  repr sample_catalog (file_of sample_catalog) /\
  exists f', Delete 1 (file_of sample_catalog) = (Ok (Catalog.delete 1 sample_catalog).1, f') /\
             repr (Catalog.delete 1 sample_catalog).2 f'.
Proof. split; [solve_repr|]. apply Delete_refines. solve_repr. Defined.

Lemma Save_GetAll_roundtrip_witness :
  Forall wf_book sample_catalog /\
  Save (map Some sample_catalog) FileMissing = (Ok tt, file_of sample_catalog) /\
  GetAll (file_of sample_catalog) = (Ok (map Some sample_catalog), file_of sample_catalog).
Proof.
  assert (Hc : Forall wf_book sample_catalog) by (repeat constructor; vm_compute; try reflexivity; discriminate).
  assert (Hs : Save (map Some sample_catalog) FileMissing = (Ok tt, file_of sample_catalog))
    by (vm_compute; reflexivity).
  split_and!; [exact Hc|exact Hs|]. exact (Save_GetAll_roundtrip _ _ _ Hc Hs).
Defined.

(** The file after one add on a fresh deployment. *)
Definition file_after_one_add : file_state :=
  (Add (sample_book "El alquimista" 12.5) (BooksRepository FileMissing)).2.

Lemma reach_wf_witness :
  reach 1 file_after_one_add /\ Z.of_nat 1 <= int32_max /\
  exists c, repr c file_after_one_add /\ Catalog.wf c /\ Catalog.cat_max c <= Z.of_nat 1.
Proof.
  assert (Hr : reach 1 file_after_one_add).
  { eapply reach_add; [apply reach_init|]. unfold file_after_one_add.
    apply surjective_pairing. }
  split; [exact Hr|]. split; [vm_compute; discriminate|].
  apply (reach_wf 1 _ Hr). vm_compute. discriminate.
Defined.

Lemma add_all_sequential_witness :
  Forall (fun b => is_finite (Price b) = true)
         [sample_book "A" 12.5; sample_book "B" 15; sample_book "C" 20] /\
  Z.of_nat 3 <= int32_max /\
  exists bs' f', add_all [sample_book "A" 12.5; sample_book "B" 15; sample_book "C" 20]
                         (BooksRepository FileMissing) = (Ok bs', f') /\
                 map Id bs' = map Z.of_nat (seq 1 3).
Proof.
  assert (Hf : Forall (fun b => is_finite (Price b) = true)
                      [sample_book "A" 12.5; sample_book "B" 15; sample_book "C" 20])
    by (repeat constructor).
  split; [exact Hf|]. split; [vm_compute; discriminate|].
  apply (add_all_sequential _ Hf). vm_compute. discriminate.
Defined.

Lemma Add_Delete_Add_reuses_witness :
  repr sample_catalog (file_of sample_catalog) /\
  exists f1, Add (sample_book "C" 12.5) (file_of sample_catalog) =
             (Ok (set_Id 3 (sample_book "C" 12.5)), f1) /\
  exists f2 f3 x2, Delete 3 f1 = (Ok true, f2) /\ Add (sample_book "D" 15) f2 = (Ok x2, f3) /\
                   Id x2 = 3.
Proof.
  split; [solve_repr|].
  eexists. split; [vm_compute; reflexivity|].
  apply (Add_Delete_Add_reuses sample_catalog (file_of sample_catalog)
           (sample_book "C" 12.5) (sample_book "D" 15) (set_Id 3 (sample_book "C" 12.5)));
    [solve_repr | reflexivity | reflexivity | vm_compute; split; discriminate |
     vm_compute; reflexivity].
Defined.

(** A catalog whose largest id is [int.MaxValue]. *)
Definition full_catalog : Catalog.catalog := [set_Id int32_max (sample_book "Z" 12.5)].

Lemma Add_overflow_duplicate_witness :
  repr full_catalog (file_of full_catalog) /\ Catalog.cat_max full_catalog = int32_max /\
  exists f1 f2, Add (sample_book "A" 12.5) (file_of full_catalog) =
                  (Ok (set_Id int32_min (sample_book "A" 12.5)), f1) /\
                Add (sample_book "B" 15) f1 = (Ok (set_Id int32_min (sample_book "B" 15)), f2) /\
                repr (full_catalog ++ [set_Id int32_min (sample_book "A" 12.5);
                                       set_Id int32_min (sample_book "B" 15)]) f2 /\
                ~ Catalog.wf (full_catalog ++ [set_Id int32_min (sample_book "A" 12.5);
                                               set_Id int32_min (sample_book "B" 15)]).
Proof.
  split; [solve_repr|]. split; [reflexivity|].
  apply Add_overflow_duplicate; [solve_repr|discriminate|reflexivity|reflexivity|reflexivity].
Defined.

Lemma methods_throw_unchanged_witness :
  Add (sample_book "A" 12.5) FileCorrupt = (Err JsonException, FileCorrupt) /\ FileCorrupt = FileCorrupt.
Proof.
  split; [reflexivity|].
  apply (proj1 (methods_throw_unchanged FileCorrupt JsonException FileCorrupt)
           (sample_book "A" 12.5)).
  reflexivity.
Defined.

Lemma Update_not_found_witness :
  repr sample_catalog (file_of sample_catalog) /\
  ~ Exists (fun x => Id x = 7) sample_catalog /\
  Update (set_Id 7 (sample_book "X" 12.5)) (file_of sample_catalog) = (Ok false, file_of sample_catalog).
Proof.
  assert (Hno : ~ Exists (fun x => Id x = 7) sample_catalog).
  { intros Hx. apply Exists_exists in Hx as (x & Hx & Hid).
    repeat (destruct Hx as [<-|Hx]; [discriminate|]). destruct Hx. }
  split; [solve_repr|]. split; [exact Hno|].
  apply (Update_not_found sample_catalog _ (set_Id 7 (sample_book "X" 12.5))); [solve_repr|exact Hno].
Defined.

Lemma Delete_twice_witness :
  repr sample_catalog (file_of sample_catalog) /\
  Delete 1 (file_of sample_catalog) =
    ((Delete 1 (file_of sample_catalog)).1, (Delete 1 (file_of sample_catalog)).2) /\
  Delete 1 (Delete 1 (file_of sample_catalog)).2 = (Ok false, (Delete 1 (file_of sample_catalog)).2).
Proof.
  split; [solve_repr|]. split; [apply surjective_pairing|].
  apply (Delete_twice sample_catalog (file_of sample_catalog) 1 (Delete 1 (file_of sample_catalog)).1);
    [solve_repr | apply surjective_pairing].
Defined.

(** A file holding [[null]]. *)
Definition null_file : file_state := FileJson (NArr [NNull]).

Lemma Add_null_element_witness :
  GetAll null_file = (Ok [None], null_file) /\ ((None : slot) ∈ ([None] : list slot)) /\
  Add (sample_book "A" 12.5) null_file = (Err NullReferenceException, null_file).
Proof.
  split; [reflexivity|]. split; [left|].
  apply (Add_null_element null_file [None]); [reflexivity|left].
Defined.
