(* ===== verification/Locking.v ===== *)
(** * Locking: concurrent calls to the repository (Data/BooksRepository.cs)

    ASP.NET Core serves requests on pool threads, and Program.cs registers
    one [BooksRepository] for all of them, so several methods can run at
    once on the same object.  Each method is a [lock (_lock)] block that
    reads the whole file ([GetAll]), works on the list in memory and may
    rewrite the whole file ([Save]).  Here each call is split into those
    steps: the thread enters the monitor ([Ready] to [Entered]), reads the
    file ([Loaded]), writes it or decides not to ([Finished]) and leaves the
    monitor ([Returned]).  [thread_step] is one step of one thread; which
    thread moves is left to the scheduler ([sched_step]).

    - [run_call_split]: the split is the atomic method of [BooksRepository]
      when nothing runs in between.
    - [locked_final]: with the monitor every complete execution is
      serializable: the final file and each call's result are those of the
      calls run one after another, in the order in which they wrote.
    - [no_deadlock], [steps_bounded]: a state where no thread can move has
      every call returned, and an execution has at most four steps per
      call, so every schedule ends with all calls returned.
    - [unlocked_lost_update]: without the monitor two [Add]s can read the
      same list, both assign id 1, and the second write erases the first
      book: no sequential order gives that file. *)

From Stdlib Require Import Floats.
From stdpp Require Import relations.
From S2P Require Import Prelude Text BookJson BooksRepository.

#[local] Open Scope Z_scope.

(** ** Calls and their steps *)

(** A call of a public method, with its argument. *)
Inductive call :=
| CGetAll
| CGetById (id : Z)
| CAdd (b : book)
| CUpdate (b : book)
| CDelete (id : Z).

(** What the methods return. *)
Inductive value :=
| VList (l : list slot)
| VSlot (s : slot)
| VBook (b : book)
| VBool (r : bool).

Section Locking.
Context `{OrdinalCasing}.

(** The methods of [BooksRepository], run atomically. *)
Definition run_call (c : call) : repo_op value :=
  match c with
  | CGetAll => l ← GetAll; mret (VList l)
  | CGetById id => s ← GetById id; mret (VSlot s)
  | CAdd b => r ← Add b; mret (VBook r)
  | CUpdate b => r ← Update b; mret (VBool r)
  | CDelete id => r ← Delete id; mret (VBool r)
  end.

(** What a method does with the list [GetAll] returned: its result (or
    the exception it throws) and the list it passes to [Save], if it saves.
    [GetById]'s [FirstOrDefault] runs after the lock of [GetAll] is left;
    it works on the method's own list, so where it runs does not matter. *)
Definition plan (c : call) (l : list slot) : result exn value * option (list slot) :=
  match c with
  | CGetAll => (Ok (VList l), None)
  | CGetById id => (VSlot <$> first_or_default (has_id id) l, None)
  | CAdd b =>
      match next_id l with
      | Ok nid => let b' := set_Id nid b in (Ok (VBook b'), Some (l ++ [Some b']))
      | Err e => (Err e, None)
      end
  | CUpdate b =>
      match find_index (has_id (Id b)) l with
      | Ok None => (Ok (VBool false), None)
      | Ok (Some i) => (Ok (VBool true), Some (<[i := Some b]> l))
      | Err e => (Err e, None)
      end
  | CDelete id =>
      match remove_all (has_id id) l with
      | Ok r =>
          let removed := bool_decide (0 < r.2)%nat in
          (Ok (VBool removed), if removed then Some r.1 else None)
      | Err e => (Err e, None)
      end
  end.

(** The part of the method after its read: the write, on the file as it is
    at that moment. *)
Definition write_phase (c : call) (r : result exn (list slot)) (f : file_state)
    : result exn value * file_state :=
  match r with
  | Err e => (Err e, f)
  | Ok l =>
      match plan c l with
      | (Ok v, Some l') =>
          match Save l' f with
          | (Ok _, f') => (Ok v, f')
          | (Err e, f') => (Err e, f')
          end
      | (r', _) => (r', f)
      end
  end.

(** Where a thread is in its call. *)
Inductive phase :=
| Ready (c : call)                               (** the request has called the method *)
| Entered (c : call)                             (** inside [lock (_lock)] *)
| Loaded (c : call) (r : result exn (list slot)) (** [GetAll] has read the file *)
| Finished (r : result exn value)                (** written, still inside the lock *)
| Returned (r : result exn value).               (** the lock is released *)

(** The file, the thread owning the monitor, and the request threads. *)
Record sys := mkSys {
  sys_file : file_state;
  sys_owner : option nat;
  sys_threads : list phase
}.

(** One step of thread [t].  [locking] is [true] for the code as written;
    [false] drops the [lock] statement.  [Monitor.Enter] blocks while another
    thread owns the monitor; an exception leaves it as a return does. *)
Definition thread_step (locking : bool) (t : nat) (s : sys) : option sys :=
  let '(mkSys f o ths) := s in
  match ths !! t with
  | Some (Ready c) =>
      if locking then
        match o with
        | None => Some (mkSys f (Some t) (<[t := Entered c]> ths))
        | Some _ => None
        end
      else Some (mkSys f o (<[t := Entered c]> ths))
  | Some (Entered c) => Some (mkSys f o (<[t := Loaded c (GetAll f).1]> ths))
  | Some (Loaded c r) =>
      let '(res, f') := write_phase c r f in Some (mkSys f' o (<[t := Finished res]> ths))
  | Some (Finished res) => Some (mkSys f (if locking then None else o) (<[t := Returned res]> ths))
  | _ => None
  end.

(** Some thread moves. *)
Definition sched_step (locking : bool) (s s' : sys) : Prop := exists t, thread_step locking t s = Some s'.

(** The requests [cs], one thread each, on the file [f0]. *)
Definition init (f0 : file_state) (cs : list call) : sys := mkSys f0 None (map Ready cs).

(** A schedule: the threads to move, in order. *)
Fixpoint run_schedule (locking : bool) (ts : list nat) (s : sys) : option sys :=
  match ts with
  | [] => Some s
  | t :: ts' => s1 ← thread_step locking t s; run_schedule locking ts' s1
  end.

(** The calls run one after another. *)
Fixpoint seq_run (cs : list call) (f : file_state) : list (result exn value) * file_state :=
  match cs with
  | [] => ([], f)
  | c :: cs' =>
      let '(r, f1) := run_call c f in
      let '(rs, f2) := seq_run cs' f1 in (r :: rs, f2)
  end.

(** The calls of the threads [order]. *)
Definition calls (cs : list call) (order : list nat) : list call :=
  map (fun t => default CGetAll (cs !! t)) order.

Definition outcome (p : phase) : option (result exn value) :=
  match p with Finished r | Returned r => Some r | _ => None end.

Definition holds (p : phase) : bool :=
  match p with Entered _ | Loaded _ _ | Finished _ => true | _ => false end.

Definition call_of (p : phase) : option call :=
  match p with Ready c | Entered c | Loaded c _ => Some c | _ => None end.

Definition returned (p : phase) : bool :=
  match p with Returned _ => true | _ => false end.

Definition outcome_at (ths : list phase) (t : nat) : option (result exn value) :=
  ths !! t ≫= outcome.

End Locking.

(** ** The split is the method *)

Section Split.
Context `{OrdinalCasing}.

(** With nothing in between, reading and then writing is the method. *)
Lemma run_call_split c f : run_call c f = write_phase c (GetAll f).1 f.
Proof.
  destruct c; unfold run_call, GetById, Add, Update, Delete; rewrite ?run_bind;
    destruct f as [|d|]; simpl; try done; destruct (deserialize_list d) as [l|e]; simpl; try done;
    rewrite ?run_bind, ?run_lift.
  - by destruct (first_or_default _ l).
  - destruct (next_id l); [|done]. simpl. rewrite run_bind. by destruct (Save _ _) as [[[]|] ?].
  - destruct (find_index _ l) as [[i|]|]; [|done|done]. simpl. rewrite run_bind.
    by destruct (Save _ _) as [[[]|] ?].
  - destruct (remove_all _ l) as [r|]; [|done]. simpl. rewrite run_bind.
    case_bool_decide; [|done]. by destruct (Save _ _) as [[[]|] ?].
Qed.

End Split.

(** ** The invariant of the locked executions *)

Section Serial.
Context `{OrdinalCasing}.
Variables (f0 : file_state) (cs : list call).

(** The monitor is owned by exactly the thread inside a [lock] block. *)
Definition owner_ok (s : sys) : Prop :=
  forall t, sys_owner s = Some t <-> exists p, sys_threads s !! t = Some p /\ holds p = true.

(** One thread per request, each running its own call. *)
Definition calls_ok (s : sys) : Prop :=
  length (sys_threads s) = length cs /\
  forall t p c, sys_threads s !! t = Some p -> call_of p = Some c -> cs !! t = Some c.

(** A thread that has read the file read what the file still holds. *)
Definition loaded_ok (s : sys) : Prop :=
  forall t c r, sys_threads s !! t = Some (Loaded c r) -> r = (GetAll (sys_file s)).1.

(** [order] lists the threads that have written, in the order they wrote,
    and the file and their results are those of the sequential run. *)
Definition order_ok (s : sys) (order : list nat) : Prop :=
  NoDup order /\
  (forall t, t ∈ order <-> is_Some (outcome_at (sys_threads s) t)) /\
  sys_file s = (seq_run (calls cs order) f0).2 /\
  Forall2 (fun t r => outcome_at (sys_threads s) t = Some r) order (seq_run (calls cs order) f0).1.

Definition serial_inv (s : sys) : Prop :=
  owner_ok s /\ calls_ok s /\ loaded_ok s /\ exists order, order_ok s order.

Lemma seq_run_snoc l c f :
  seq_run (l ++ [c]) f =
  ((seq_run l f).1 ++ [(run_call c (seq_run l f).2).1], (run_call c (seq_run l f).2).2).
Proof.
  revert f. induction l as [|c' l IH]; intros f; simpl.
  - by destruct (run_call c f).
  - destruct (run_call c' f) as [r f1]. rewrite IH. by destruct (seq_run l f1).
Qed.

Lemma outcome_at_frame ths t p p' t' :
  ths !! t = Some p -> outcome p' = outcome p ->
  outcome_at (<[t := p']> ths) t' = outcome_at ths t'.
Proof.
  intros Ht Ho. unfold outcome_at. rewrite list_lookup_insert.
  case_decide as Hd; [|done]. destruct Hd as [<- _]. by rewrite Ht.
Qed.

Lemma order_ok_frame f o o' ths t p p' order :
  ths !! t = Some p -> outcome p' = outcome p ->
  order_ok (mkSys f o ths) order -> order_ok (mkSys f o' (<[t := p']> ths)) order.
Proof.
  intros Ht Ho (Hnd & Hin & Hf & Hr). split_and!; simpl in *; [done| |done|].
  - intros t'. by rewrite (outcome_at_frame _ _ _ _ _ Ht Ho).
  - eapply Forall2_impl; [|exact Hr]. intros t' r. by rewrite (outcome_at_frame _ _ _ _ _ Ht Ho).
Qed.

Lemma calls_ok_frame f f' o o' ths t p p' :
  ths !! t = Some p -> (forall c, call_of p' = Some c -> call_of p = Some c) ->
  calls_ok (mkSys f o ths) -> calls_ok (mkSys f' o' (<[t := p']> ths)).
Proof.
  intros Ht Hc [Hl Hcs]. split; simpl in *; [by rewrite length_insert|].
  intros t' q c. rewrite list_lookup_insert. case_decide as Hd.
  - destruct Hd as [<- _]. intros [= <-] Hq. eauto.
  - eauto.
Qed.

Lemma owner_ok_frame f f' o o' ths t p p' :
  owner_ok (mkSys f o ths) -> ths !! t = Some p ->
  (forall t', t' <> t -> o' = Some t' <-> o = Some t') ->
  (o' = Some t <-> holds p' = true) ->
  owner_ok (mkSys f' o' (<[t := p']> ths)).
Proof.
  intros Hown Ht Hne Heq t'. simpl. rewrite list_lookup_insert.
  assert (t < length ths)%nat by (by apply lookup_lt_Some in Ht).
  case_decide as Hd.
  - destruct Hd as [<- _]. rewrite Heq. split; [eauto|]. by intros (q & [= <-] & ?).
  - assert (t' <> t) by (intros ->; tauto). rewrite Hne by done. apply Hown.
Qed.

(** Only the owner is inside a [lock] block. *)
Lemma holds_owner s t t' p :
  owner_ok s -> sys_owner s = Some t -> sys_threads s !! t' = Some p -> holds p = true -> t' = t.
Proof. intros Hown Ho Ht' Hh. assert (sys_owner s = Some t') as Ho' by (apply Hown; eauto). congruence. Qed.

Lemma loaded_ok_frame f' o' ths t p' :
  (forall c r, p' = Loaded c r -> r = (GetAll f').1) ->
  (forall t' c r, t' <> t -> ths !! t' = Some (Loaded c r) -> r = (GetAll f').1) ->
  loaded_ok (mkSys f' o' (<[t := p']> ths)).
Proof.
  intros Hp Hother t' c r. simpl. rewrite list_lookup_insert. case_decide as Hd.
  - intros [= ->]. eauto.
  - intros Hl. eapply Hother; [|exact Hl]. intros ->. apply Hd. split; [done|].
    by apply lookup_lt_Some in Hl.
Qed.

Lemma serial_inv_init : serial_inv (init f0 cs).
Proof.
  split_and!.
  - intros t. simpl. split; [done|]. intros (p & Hp & Hh).
    apply list_lookup_fmap_Some in Hp as (c & -> & _). done.
  - split; simpl; [by rewrite length_map|]. intros t p c Hp.
    apply list_lookup_fmap_Some in Hp as (c' & -> & ?). by intros [= <-].
  - intros t c r Hp. simpl in Hp. apply list_lookup_fmap_Some in Hp as (c' & ? & _). done.
  - exists []. split_and!; simpl; [constructor| |done|constructor].
    intros t. unfold outcome_at. rewrite list_lookup_fmap.
    split; [by intros ?%list.elem_of_nil|]. by destruct (cs !! t) as [] ; intros [? ?].
Qed.

Lemma order_ok_write f o ths t c r res f' order :
  ths !! t = Some (Loaded c r) -> cs !! t = Some c -> r = (GetAll f).1 ->
  write_phase c r f = (res, f') ->
  order_ok (mkSys f o ths) order ->
  order_ok (mkSys f' o (<[t := Finished res]> ths)) (order ++ [t]).
Proof.
  intros Ht Hc -> Hw (Hnd & Hin & Hf & Hr). simpl in *.
  assert (Hnot : t ∉ order) by (rewrite Hin; unfold outcome_at; rewrite Ht; by intros [? ?]).
  assert (Hcalls : calls cs (order ++ [t]) = calls cs order ++ [c])
    by (unfold calls; rewrite map_app; simpl; by rewrite Hc).
  assert (Hnew : outcome_at (<[t := Finished res]> ths) t = Some res).
  { unfold outcome_at. rewrite list_lookup_insert_eq; [done|]. by apply lookup_lt_Some in Ht. }
  assert (Hold : forall t' r', outcome_at ths t' = Some r' ->
                               outcome_at (<[t := Finished res]> ths) t' = Some r').
  { intros t' r' Ho. unfold outcome_at in *. rewrite list_lookup_insert_ne; [done|].
    intros ->. by rewrite Ht in Ho. }
  unfold order_ok. simpl. rewrite Hcalls, seq_run_snoc, <- Hf, run_call_split, Hw. simpl. split_and!.
  - apply list.NoDup_app. split_and!; [done| |apply NoDup_singleton].
    intros x Hx ->%list_elem_of_singleton. done.
  - intros t'. rewrite list.elem_of_app, list_elem_of_singleton, Hin.
    destruct (decide (t' = t)) as [->|Hne].
    + rewrite Hnew. split; [by eauto|]. auto.
    + unfold outcome_at. rewrite list_lookup_insert_ne by congruence. naive_solver.
  - done.
  - apply Forall2_app; [|by constructor]. eapply Forall2_impl; [|exact Hr]. exact Hold.
Qed.

Lemma owner_holds f o ths t p :
  owner_ok (mkSys f o ths) -> ths !! t = Some p -> holds p = true -> o = Some t.
Proof. intros Hown Ht Hh. apply (Hown t). eauto. Qed.

(** A step that does not write: the file stays, the thread keeps its call
    and its outcome, and the monitor changes hands as the conditions say. *)
Lemma serial_inv_frame f o o' ths t p p' :
  serial_inv (mkSys f o ths) -> ths !! t = Some p ->
  outcome p' = outcome p ->
  (forall c, call_of p' = Some c -> call_of p = Some c) ->
  (forall c r, p' = Loaded c r -> r = (GetAll f).1) ->
  (forall t', t' <> t -> o' = Some t' <-> o = Some t') ->
  (o' = Some t <-> holds p' = true) ->
  serial_inv (mkSys f o' (<[t := p']> ths)).
Proof.
  intros (Hown & Hcalls & Hload & order & Hord) Ht Ho Hc Hl Hne Heq. split_and!.
  - eapply owner_ok_frame; [exact Hown|exact Ht|exact Hne|exact Heq].
  - eapply calls_ok_frame; [exact Ht|exact Hc|exact Hcalls].
  - eapply loaded_ok_frame; [exact Hl|]. intros t' c' r' _ Hl'. exact (Hload _ _ _ Hl').
  - exists order. eapply order_ok_frame; [exact Ht|exact Ho|exact Hord].
Qed.

(** Every step of the locked code keeps the invariant. *)
Lemma serial_inv_step t s s' :
  serial_inv s -> thread_step true t s = Some s' -> serial_inv s'.
Proof.
  destruct s as [f o ths]. intros Hi. pose proof Hi as (Hown & Hcalls & Hload & order & Hord).
  simpl. destruct (ths !! t) as [p|] eqn:Ht; [|done].
  destruct p as [c|c|c r|res|res]; try done.
  - destruct o as [t0|]; [done|]. intros [= <-].
    eapply serial_inv_frame; [exact Hi|exact Ht|done|done|done| |done].
    intros t' Hne. split; congruence.
  - intros [= <-]. pose proof (owner_holds _ _ _ _ _ Hown Ht eq_refl) as ->.
    eapply serial_inv_frame; [exact Hi|exact Ht|done|done|by intros ? ? [= _ <-]|done|done].
  - destruct (write_phase c r f) as [res f'] eqn:Hw. intros [= <-].
    pose proof (owner_holds _ _ _ _ _ Hown Ht eq_refl) as ->. split_and!.
    + eapply owner_ok_frame; [exact Hown|exact Ht|done|done].
    + eapply calls_ok_frame; [exact Ht| |exact Hcalls]. done.
    + eapply loaded_ok_frame; [done|]. intros t' c' r' Hne Hl.
      by pose proof (holds_owner (mkSys f (Some t) ths) _ _ _ Hown eq_refl Hl eq_refl).
    + exists (order ++ [t]). eapply order_ok_write; [exact Ht| |eapply Hload; exact Ht|exact Hw|exact Hord].
      eapply (proj2 Hcalls); [exact Ht|done].
  - intros [= <-]. pose proof (owner_holds _ _ _ _ _ Hown Ht eq_refl) as ->.
    eapply serial_inv_frame; [exact Hi|exact Ht|done|done|done| |done].
    intros t' Hne. split; congruence.
Qed.

(** The invariant holds on every state the locked code reaches. *)
Lemma serial_inv_reach s : rtc (sched_step true) (init f0 cs) s -> serial_inv s.
Proof.
  assert (Hgen : forall s1 s2, serial_inv s1 -> rtc (sched_step true) s1 s2 -> serial_inv s2).
  { intros s1 s2 Hi Hr. induction Hr as [|s1 s2 s3 [t Hst] _ IH]; [done|].
    apply IH. eapply serial_inv_step; [exact Hi|exact Hst]. }
  intros Hr. eapply Hgen; [apply serial_inv_init|exact Hr].
Qed.

(** A state where no thread can move has every call returned: the owner
    of the monitor can always move, and with the monitor free any thread
    that has not returned can enter. *)
Lemma stuck_returned s :
  serial_inv s -> (forall t, thread_step true t s = None) ->
  Forall (fun p => returned p = true) (sys_threads s).
Proof.
  destruct s as [f o ths]. intros (Hown & _) Hstuck. apply Forall_lookup_2. intros t p Ht. simpl in Ht.
  assert (Hmove : forall t q, ths !! t = Some q -> holds q = true -> False).
  { intros t' q Hq Hh. pose proof (Hstuck t') as Hs. simpl in Hs. rewrite Hq in Hs.
    destruct q as [|c|c r|res|]; try done. by destruct (write_phase c r f). }
  destruct p as [c| | |res|res]; [|exfalso; exact (Hmove _ _ Ht eq_refl) ..|done].
  destruct o as [t0|].
  - destruct (proj1 (Hown t0) eq_refl) as (q & Hq & Hh). exfalso. eauto.
  - pose proof (Hstuck t) as Hs. simpl in Hs. by rewrite Ht in Hs.
Qed.

End Serial.

(** ** Termination and progress *)

(** The steps a thread has still to take. *)
Definition rank (p : phase) : nat :=
  match p with Ready _ => 4 | Entered _ => 3 | Loaded _ _ => 2 | Finished _ => 1 | Returned _ => 0 end.

Definition pending (s : sys) : nat := sum_list (map rank (sys_threads s)).

Lemma sum_list_insert ths t p p' :
  ths !! t = Some p -> (sum_list (map rank (<[t := p']> ths)) + rank p = sum_list (map rank ths) + rank p')%nat.
Proof.
  revert t. induction ths as [|q ths IH]; intros [|t] Ht; simpl in *; try done.
  - injection Ht as ->. lia.
  - specialize (IH t Ht). lia.
Qed.

Section Termination.
Context `{OrdinalCasing}.

Lemma thread_step_pending b t s s' : thread_step b t s = Some s' -> (pending s' < pending s)%nat.
Proof.
  destruct s as [f o ths]. unfold pending. simpl.
  destruct (ths !! t) as [p|] eqn:Ht; [|done].
  destruct p as [c|c|c r|res|res]; try done;
    [destruct b; [destruct o|]| |destruct (write_phase c r f)|]; try done; intros [= <-]; simpl;
    match goal with |- context [<[t := ?q]> ths] => pose proof (sum_list_insert ths t _ q Ht) end;
    simpl in *; lia.
Qed.

Lemma nsteps_pending b n s s' : nsteps (sched_step b) n s s' -> (n + pending s' <= pending s)%nat.
Proof.
  induction 1 as [|n s1 s2 s3 [t Hst] _ IH]; [lia|].
  pose proof (thread_step_pending _ _ _ _ Hst). lia.
Qed.

Lemma pending_init f0 cs : pending (init f0 cs) = (4 * length cs)%nat.
Proof. unfold pending. simpl. induction cs as [|c cs IH]; simpl in *; lia. Qed.

(** A schedule that runs is an execution. *)
Lemma run_schedule_nsteps b ts s s' :
  run_schedule b ts s = Some s' -> nsteps (sched_step b) (length ts) s s'.
Proof.
  revert s. induction ts as [|t ts IH]; intros s Hr; simpl in Hr.
  - injection Hr as ->. constructor.
  - destruct (thread_step b t s) as [s1|] eqn:Hs; [|done].
    econstructor; [by exists t|]. by apply IH.
Qed.

Lemma thread_step_out b t s : sys_threads s !! t = None -> thread_step b t s = None.
Proof. destruct s as [f o ths]. simpl. by intros ->. Qed.

(** Either some thread can move, or none can; decided over the threads. *)
Lemma can_move b s : (exists s', sched_step b s s') \/ (forall t, thread_step b t s = None).
Proof.
  destruct (decide (Exists (fun t => is_Some (thread_step b t s)) (seq 0 (length (sys_threads s)))))
    as [Hex|Hno].
  - left. apply Exists_exists in Hex as (t & _ & [s' Hs]). by exists s', t.
  - right. intros t. destruct (decide (t < length (sys_threads s))%nat) as [Hlt|Hge].
    + apply eq_None_not_Some. intros Hs. apply Hno, Exists_exists. exists t.
      split; [apply in_seq; lia|done].
    + apply thread_step_out, lookup_ge_None_2. lia.
Qed.

End Termination.

(** Under the serialization invariant every state runs on until every
    call has returned: by induction on the steps still to take. *)
Section Completion.
Context `{OrdinalCasing}.
Variables (f0 : file_state) (cs : list call).

Lemma run_to_completion s :
  serial_inv f0 cs s ->
  exists s', rtc (sched_step true) s s' /\ Forall (fun p => returned p = true) (sys_threads s').
Proof.
  remember (pending s) as n eqn:Hn. revert s Hn.
  induction n as [n IH] using lt_wf_ind. intros s -> Hi.
  destruct (can_move true s) as [[s1 [t Hs]]|Hstuck].
  - destruct (IH (pending s1) (thread_step_pending _ _ _ _ Hs) s1 eq_refl) as (s' & Hr & Hall);
      [exact (serial_inv_step f0 cs t s s1 Hi Hs)|].
    exists s'. split; [|done]. eapply rtc_l; [by exists t|exact Hr].
  - exists s. split; [done|exact (stuck_returned f0 cs s Hi Hstuck)].
Qed.

End Completion.


(** ** Theorems *)

Section Theorems.
Context `{OrdinalCasing}.

(** C11: With the monitor, every execution that has come to rest is
    serializable: all calls have returned, and there is an order of the
    threads such that the final file and each thread's result are those of
    running the calls one after another in that order. *)
Theorem locked_final f0 cs s :
  rtc (sched_step true) (init f0 cs) s ->
  (forall t, thread_step true t s = None) ->
  exists order,
    order ≡ₚ seq 0 (length cs) /\
    sys_file s = (seq_run (calls cs order) f0).2 /\
    Forall2 (fun t r => sys_threads s !! t = Some (Returned r)) order (seq_run (calls cs order) f0).1.
Proof.
  intros Hr Hstuck. pose proof (serial_inv_reach f0 cs s Hr) as Hi.
  pose proof (stuck_returned f0 cs s Hi Hstuck) as Hall.
  destruct Hi as (_ & [Hlen _] & _ & order & Hnd & Hin & Hf & Hres).
  assert (Hret : forall t r, outcome_at (sys_threads s) t = Some r -> sys_threads s !! t = Some (Returned r)).
  { intros t r Ho. unfold outcome_at in Ho. destruct (sys_threads s !! t) as [p|] eqn:Ht; [|done].
    rewrite list.Forall_forall in Hall. pose proof (Hall p (list_elem_of_lookup_2 _ _ _ Ht)).
    destruct p; simpl in *; congruence. }
  exists order. split_and!; [|done|].
  - apply NoDup_Permutation; [done|apply NoDup_seq|]. intros t.
    rewrite Hin, elem_of_seq, <- Hlen. unfold outcome_at.
    rewrite list.Forall_forall in Hall. split.
    + intros [r Hr']. destruct (sys_threads s !! t) as [p|] eqn:Ht; [|done].
      apply lookup_lt_Some in Ht. lia.
    + intros [_ Hlt]. destruct (lookup_lt_is_Some_2 (sys_threads s) t Hlt) as [p Ht]. rewrite Ht.
      pose proof (Hall p (list_elem_of_lookup_2 _ _ _ Ht)). destruct p; simpl in *; by eauto.
  - eapply Forall2_impl; [|exact Hres]. exact Hret.
Qed.

(** Every execution, with or without the monitor, takes at most four
    steps per call: every schedule ends. *)
Theorem steps_bounded b f0 cs n s :
  nsteps (sched_step b) n (init f0 cs) s -> (n <= 4 * length cs)%nat.
Proof. intros Hn. pose proof (nsteps_pending _ _ _ _ Hn). rewrite pending_init in *. lia. Qed.

(** With the monitor no request waits forever: a reachable state in
    which some call has not returned always has a thread that can move
    (no deadlock), and every reachable state runs on to a state in which
    every call has returned. *)
Theorem requests_complete f0 cs s :
  rtc (sched_step true) (init f0 cs) s ->
  (Exists (fun p => returned p = false) (sys_threads s) -> exists s', sched_step true s s') /\
  exists s', rtc (sched_step true) s s' /\ Forall (fun p => returned p = true) (sys_threads s').
Proof.
  intros Hr. pose proof (serial_inv_reach f0 cs s Hr) as Hi. split.
  - intros Hex. destruct (can_move true s) as [Hm|Hstuck]; [done|].
    pose proof (stuck_returned f0 cs s Hi Hstuck) as Hall. exfalso.
    apply Exists_exists in Hex as (p & Hp & Hnot). rewrite Forall_forall in Hall.
    rewrite (Hall p Hp) in Hnot. done.
  - exact (run_to_completion f0 cs s Hi).
Qed.

End Theorems.

(** ** Two concurrent Adds *)

Definition empty_file : file_state := BooksRepository FileMissing.

Definition two_adds : list call := [CAdd (sample_book "A" 12.5); CAdd (sample_book "B" 15)].

(** Each thread enters, then the other; each reads, writes and leaves in turn. *)
Definition interleaved : list nat := [0; 1; 0; 1; 0; 1; 0; 1]%nat.

(** Without the monitor both threads read the empty list, both give
    their book the id 1, and the second write erases the first book: no
    sequential order of the two calls leaves that file. *)
Example unlocked_lost_update :
  exists s, run_schedule false interleaved (init empty_file two_adds) = Some s /\
    sys_threads s = [Returned (Ok (VBook (set_Id 1 (sample_book "A" 12.5))));
                     Returned (Ok (VBook (set_Id 1 (sample_book "B" 15))))] /\
    sys_file s = file_of [set_Id 1 (sample_book "B" 15)] /\
    forall order, order ≡ₚ [0; 1]%nat -> sys_file s <> (seq_run (calls two_adds order) empty_file).2.
Proof.
  eexists. split; [vm_compute; reflexivity|]. split_and!; [vm_compute; reflexivity|vm_compute; reflexivity|].
  intros order Hp. symmetry in Hp. apply Permutation_length_2_inv in Hp as [-> | ->]; vm_compute; discriminate.
Qed.

(** With the monitor, the same requests keep both books. *)
Definition locked_schedule : list nat := [0; 0; 0; 0; 1; 1; 1; 1]%nat.

Lemma rtc_run_schedule b ts s s' : run_schedule b ts s = Some s' -> rtc (sched_step b) s s'.
Proof. intros Hr. eapply rtc_nsteps_2, run_schedule_nsteps, Hr. Qed.

(** Where the locked run of [locked_schedule] ends. *)
Definition locked_end : sys :=
  mkSys (file_of [set_Id 1 (sample_book "A" 12.5); set_Id 2 (sample_book "B" 15)]) None
        [Returned (Ok (VBook (set_Id 1 (sample_book "A" 12.5))));
         Returned (Ok (VBook (set_Id 2 (sample_book "B" 15))))].

Lemma locked_final_witness :
  rtc (sched_step true) (init empty_file two_adds) locked_end /\
  (forall t, thread_step true t locked_end = None) /\
  exists order,
    order ≡ₚ seq 0 (length two_adds) /\
    sys_file locked_end = (seq_run (calls two_adds order) empty_file).2 /\
    Forall2 (fun t r => sys_threads locked_end !! t = Some (Returned r)) order
            (seq_run (calls two_adds order) empty_file).1.
Proof.
  assert (Hr : rtc (sched_step true) (init empty_file two_adds) locked_end)
    by (apply (rtc_run_schedule true locked_schedule); vm_compute; reflexivity).
  assert (Hs : forall t, thread_step true t locked_end = None) by (intros [|[|t]]; reflexivity).
  split_and!; [exact Hr|exact Hs|]. exact (locked_final _ _ _ Hr Hs).
Defined.

(** Thread 0 has entered the monitor and read the file; thread 1 waits. *)
Definition midway : list nat := [0; 0]%nat.

Lemma requests_complete_witness :
  rtc (sched_step true) (init empty_file two_adds) (default (init empty_file two_adds)
        (run_schedule true midway (init empty_file two_adds))) /\
  (Exists (fun p => returned p = false)
     (sys_threads (default (init empty_file two_adds) (run_schedule true midway (init empty_file two_adds)))) ->
   exists s', sched_step true (default (init empty_file two_adds)
                                 (run_schedule true midway (init empty_file two_adds))) s') /\
  exists s', rtc (sched_step true) (default (init empty_file two_adds)
                                      (run_schedule true midway (init empty_file two_adds))) s' /\
             Forall (fun p => returned p = true) (sys_threads s').
Proof.
  assert (Hr : rtc (sched_step true) (init empty_file two_adds)
                 (default (init empty_file two_adds) (run_schedule true midway (init empty_file two_adds))))
    by (apply (rtc_run_schedule true midway); vm_compute; reflexivity).
  split; [exact Hr|]. exact (requests_complete _ _ _ Hr).
Defined.

Lemma steps_bounded_witness :
  nsteps (sched_step true) (length locked_schedule) (init empty_file two_adds) locked_end /\
  (length locked_schedule <= 4 * length two_adds)%nat.
Proof.
  assert (Hn : nsteps (sched_step true) (length locked_schedule) (init empty_file two_adds) locked_end)
    by (apply run_schedule_nsteps; vm_compute; reflexivity).
  split; [exact Hn|]. exact (steps_bounded _ _ _ _ _ Hn).
Defined.
