(* ===== verification/Endpoints.v ===== *)
(** * Endpoints: the catalog service of Program.cs

    Program.cs maps six minimal-API handlers onto the repository, which is
    registered as a singleton.  Each handler validates its input, makes at
    most one repository call and turns the outcome into an HTTP result;
    an exception of the repository becomes a server error.

    The handlers only use the five repository methods, so they are written
    against an interface: [BookStore] lists the methods as state-passing
    functions, [BookStoreLaws] states what the service relies on (each
    method implements its [Catalog] contract operation on a state that
    represents a catalog).  The theorems of [Section Service] are proved
    from the laws alone; [repo_store] and [repo_store_laws] discharge them
    for [BooksRepository] with its refinement lemmas.

    [GET /api/categories] sorts with [OrderBy(c => c)], the culture-aware
    default string comparer; the comparer is a parameter [cmp] of the
    section, assumed to be a total preorder. *)

From Stdlib Require Import Floats Ascii.
From stdpp Require Import sets sorting.
From S2P Require Import Prelude Text BookJson BooksRepository.

#[local] Open Scope Z_scope.

(** ** HTTP results *)

Inductive http_result :=
| OkBooks (l : list slot)                 (** [Results.Ok(books)] *)
| OkBook (b : book)                       (** [Results.Ok(book)] *)
| OkCategories (l : list (option jstr))   (** [Results.Ok(cats)] *)
| NotFound                                (** [Results.NotFound()] *)
| BadRequest (msg : jstr)                 (** [Results.BadRequest(msg)] *)
| Created (location : jstr) (b : book)    (** [Results.Created(uri, created)] *)
| NoContent                               (** [Results.NoContent()] *)
| ServerError (e : exn).                  (** an unhandled exception: status 500 *)

(** ** The repository interface *)

Class BookStore (S : Type) := {
  st_all : S -> result exn (list slot) * S;
  st_get : Z -> S -> result exn slot * S;
  st_add : book -> S -> result exn book * S;
  st_update : book -> S -> result exn bool * S;
  st_delete : Z -> S -> result exn bool * S
}.

(** What the service relies on: on a state representing a catalog, each
    method is its contract operation (for a price that can be written and
    a next id that fits in an [int]). *)
Class BookStoreLaws (S : Type) `{BookStore S} := {
  st_repr : Catalog.catalog -> S -> Prop;
  st_all_law c s : st_repr c s -> st_all s = (Ok (map Some c), s);
  st_get_law c s id : st_repr c s -> st_get id s = (Ok (Catalog.get id c), s);
  st_add_law c s b :
    st_repr c s -> is_finite (Price b) = true -> in_int32 (Catalog.cat_next_id c) ->
    exists s', st_add b s = (Ok (Catalog.add b c).1, s') /\ st_repr (Catalog.add b c).2 s';
  st_update_law c s b :
    st_repr c s -> is_finite (Price b) = true ->
    exists s', st_update b s = (Ok (Catalog.update b c).1, s') /\ st_repr (Catalog.update b c).2 s';
  st_delete_law c s id :
    st_repr c s ->
    exists s', st_delete id s = (Ok (Catalog.delete id c).1, s') /\ st_repr (Catalog.delete id c).2 s'
}.

(** ** Helpers *)

(** [Where] with a predicate that may throw. *)
Fixpoint filterR {E A} (p : A -> result E bool) (l : list A) : result E (list A) :=
  match l with
  | [] => Ok []
  | x :: l' => b ← p x; r ← filterR p l'; Ok (match b with true => x :: r | false => r end)
  end.

(** [Distinct()]: the first occurrence of each value, in order. *)
Fixpoint distinct {A} `{EqDecision A} (seen : list A) (l : list A) : list A :=
  match l with
  | [] => []
  | x :: l' => if decide (x ∈ seen) then distinct seen l' else x :: distinct (x :: seen) l'
  end.

Section Service.
Context `{OrdinalCasing}.
Context {S : Type} `{BookStore S}.
Variable cmp : option jstr -> option jstr -> comparison.

(** [s.Contains(q, StringComparison.OrdinalIgnoreCase)] *)
Definition contains_ic (s q : jstr) : bool := includes (map cs_upper s) (map cs_upper q).

Definition title_matches (q : jstr) (b : slot) : result exn bool :=
  match b with
  | None => throw NullReferenceException
  | Some b => Ok (match Title b with Some t => contains_ic t q | None => false end)
  end.

Definition category_matches (q : jstr) (b : slot) : result exn bool :=
  match b with
  | None => throw NullReferenceException
  | Some b => Ok (negb (is_null_or_white_space (Category b)) &&
                  match Category b with Some c => contains_ic c q | None => false end)
  end.

Definition category_of (b : slot) : result exn (option jstr) :=
  match b with None => throw NullReferenceException | Some b => Ok (Category b) end.

(** [OrderBy(c => c)]: a stable sort by the comparer. *)
Definition order_by (l : list (option jstr)) : list (option jstr) :=
  merge_sort (fun x y => cmp x y <> Gt) l.

Definition respond (r : result exn http_result) : http_result :=
  match r with Ok h => h | Err e => ServerError e end.

(** GET /api/books?title= *)
Definition get_books (title : option jstr) (s : S) : http_result * S :=
  let '(r, s') := st_all s in
  (respond (books ← r;
            if is_null_or_white_space title then Ok (OkBooks books)
            else OkBooks <$> filterR (title_matches (from_option id [] title)) books), s').

(** GET /api/books/{id} *)
Definition get_book (id : Z) (s : S) : http_result * S :=
  let '(r, s') := st_get id s in
  (respond (b ← r; Ok (match b with None => NotFound | Some b => OkBook b end)), s').

(** GET /api/categories?name= *)
Definition get_categories (name : option jstr) (s : S) : http_result * S :=
  let '(r, s') := st_all s in
  (respond (books ← r;
            if is_null_or_white_space name
            then cats ← mapR category_of books; Ok (OkCategories (order_by (distinct [] cats)))
            else OkBooks <$> filterR (category_matches (from_option id [] name)) books), s').

Definition books_route : jstr := txt "/api/books/".

(** POST /api/books *)
Definition post_book (b : book) (s : S) : http_result * S :=
  if is_null_or_white_space (Title b) then (BadRequest (txt "Title required"), s)
  else let '(r, s') := st_add b s in
       (respond (created ← r; Ok (Created (books_route ++ Z_to_txt (Id created)) created)), s').

(** PUT /api/books/{id} *)
Definition put_book (id : Z) (b : book) (s : S) : http_result * S :=
  if decide (id <> Id b) then (BadRequest (txt "Id mismatch"), s)
  else let '(r, s') := st_update b s in
       (respond (ok ← r; Ok (match ok with true => NoContent | false => NotFound end)), s').

(** DELETE /api/books/{id} *)
Definition delete_book (id : Z) (s : S) : http_result * S :=
  let '(r, s') := st_delete id s in
  (respond (ok ← r; Ok (match ok with true => NoContent | false => NotFound end)), s').

End Service.

(** ** The repository implements the interface *)

#[export] Instance repo_store `{OrdinalCasing} : BookStore file_state := {|
  st_all := GetAll;
  st_get := GetById;
  st_add := Add;
  st_update := Update;
  st_delete := Delete
|}.

#[export] Instance repo_store_laws `{OrdinalCasing} : BookStoreLaws file_state := {|
  st_repr := repr;
  st_all_law := GetAll_repr;
  st_get_law := GetById_correct;
  st_add_law := Add_correct;
  st_update_law := Update_correct;
  st_delete_law := Delete_correct
|}.

(** ** Lemmas *)

Lemma filterR_Ok {E A} (f : A -> bool) (l : list A) :
  filterR (fun x => @Ok E bool (f x)) l = Ok (filter (fun x => f x = true) l).
Proof.
  induction l as [|x l IH]; simpl; [done|]. rewrite IH. simpl.
  rewrite filter_cons. by destruct (f x); case_decide.
Qed.

Lemma filterR_map_Some {E A} (p : option A -> result E bool) (f : A -> bool) (l : list A) :
  (forall x, p (Some x) = Ok (f x)) ->
  filterR p (map Some l) = Ok (map Some (filter (fun x => f x = true) l)).
Proof.
  intros Hp. induction l as [|x l IH]; simpl; [done|]. rewrite Hp, IH. simpl.
  rewrite filter_cons. by destruct (f x); case_decide.
Qed.

Lemma distinct_elem {A} `{EqDecision A} (seen l : list A) x :
  x ∈ distinct seen l <-> x ∈ l /\ x ∉ seen.
Proof.
  revert seen. induction l as [|y l IH]; intros seen; simpl; [set_solver|].
  case_decide as Hy; rewrite ?list.elem_of_cons, IH; split.
  - intros [Hl Hn]. split; [by right|done].
  - intros [[Ex|Hl] Hn]; [subst x; contradiction|done].
  - intros [Ex|[Hl Hn]]; [subst x; split; [by left|done]|].
    split; [by right|]. intros Hs. apply Hn. apply list.elem_of_cons. by right.
  - intros [[Ex|Hl] Hn]; [by left|]. destruct (decide (x = y)) as [Ex|Hne]; [by left|].
    right. split; [done|]. intros Hs. apply list.elem_of_cons in Hs as [?|?]; [done|by apply Hn].
Qed.

Lemma distinct_NoDup {A} `{EqDecision A} (seen l : list A) : NoDup (distinct seen l).
Proof.
  revert seen. induction l as [|y l IH]; intros seen; simpl; [constructor|].
  case_decide; [done|]. apply list.NoDup_cons. split; [|done].
  rewrite distinct_elem. intros [_ Hn]. apply Hn. by left.
Qed.

Lemma mapR_category_of c : mapR category_of (map Some c) = Ok (map Category c).
Proof. induction c as [|b c IH]; simpl; [done|by rewrite IH]. Qed.

Section ServiceTheorems.
Context `{OrdinalCasing}.
Context {S : Type} `{BookStoreLaws S}.
Variable cmp : option jstr -> option jstr -> comparison.
Hypothesis cmp_total : forall x y, cmp x y <> Gt \/ cmp y x <> Gt.

#[local] Instance cmp_le_total : Total (fun x y => cmp x y <> Gt).
Proof. intros x y. apply cmp_total. Qed.

Definition title_hit (q : jstr) (b : book) : bool :=
  match Title b with Some t => contains_ic t q | None => false end.

(** [POST /api/books] rejects a blank title with 400 and no store
    call; otherwise the book is added with the next id and the response is
    201 Created at [/api/books/<id>] with the stored record. *)
Theorem post_book_spec c s b :
  st_repr c s -> is_finite (Price b) = true -> in_int32 (Catalog.cat_next_id c) ->
  (is_null_or_white_space (Title b) = true -> post_book b s = (BadRequest (txt "Title required"), s)) /\
  (is_null_or_white_space (Title b) = false ->
   exists s', post_book b s = (Created (books_route ++ Z_to_txt (Catalog.cat_next_id c))
                                       (Catalog.add b c).1, s') /\
              st_repr (Catalog.add b c).2 s').
Proof.
  intros Hr Hp Hn. unfold post_book. split; intros Ht; rewrite Ht; [done|].
  destruct (st_add_law c s b Hr Hp Hn) as (s' & -> & Hr'). by exists s'.
Qed.

(** [PUT /api/books/{id}] answers 400 without touching the store when
    the path id differs from the body's; otherwise 204 when a record with
    the id was replaced and 404 (catalog unchanged) when there was none. *)
Theorem put_book_spec c s id b :
  st_repr c s -> is_finite (Price b) = true ->
  (id <> Id b -> put_book id b s = (BadRequest (txt "Id mismatch"), s)) /\
  (id = Id b -> exists s',
     put_book id b s = ((if (Catalog.update b c).1 then NoContent else NotFound), s') /\
     st_repr (Catalog.update b c).2 s').
Proof.
  intros Hr Hp. unfold put_book. split; intros Hid.
  - by rewrite decide_True.
  - rewrite decide_False by (intros Hn; exact (Hn Hid)). destruct (st_update_law c s b Hr Hp) as (s' & -> & Hr').
    exists s'. split; [|done]. simpl. by destruct (Catalog.update b c).1.
Qed.

(** [DELETE /api/books/{id}] answers 204 when a record with the id
    existed (and removes it) and 404 otherwise. *)
Theorem delete_book_spec c s id :
  st_repr c s ->
  exists s', delete_book id s =
             ((if bool_decide (Exists (fun x => Id x = id) c) then NoContent else NotFound), s') /\
             st_repr (filter (fun x => Id x <> id) c) s'.
Proof.
  intros Hr. unfold delete_book. destruct (st_delete_law c s id Hr) as (s' & -> & Hr').
  exists s'. split; [|done]. simpl. by case_bool_decide.
Qed.

(** [GET /api/books/{id}] answers the first record with the id, or 404. *)
Theorem get_book_spec c s id :
  st_repr c s ->
  get_book id s = (match Catalog.get id c with None => NotFound | Some b => OkBook b end, s).
Proof. intros Hr. unfold get_book. by rewrite (st_get_law c s id Hr). Qed.

(** [GET /api/books?title=] answers the whole catalog for a blank
    title and otherwise the records whose title contains it, ignoring case,
    in catalog order. *)
Theorem get_books_spec c s title :
  st_repr c s ->
  get_books title s =
    (OkBooks (map Some (if is_null_or_white_space title then c
                        else filter (fun b => title_hit (from_option id [] title) b = true) c)), s).
Proof.
  intros Hr. unfold get_books. rewrite (st_all_law c s Hr). simpl.
  destruct (is_null_or_white_space title); [done|].
  by rewrite (filterR_map_Some _ (title_hit (from_option id [] title))).
Qed.

(** C32: [GET /api/categories] without a name answers each category of the
    catalog once, sorted by the comparer; a record without a category
    contributes [null]. *)
Theorem get_categories_spec c s name :
  st_repr c s -> is_null_or_white_space name = true ->
  exists l, get_categories cmp name s = (OkCategories l, s) /\
    NoDup l /\ (forall x, x ∈ l <-> x ∈ map Category c) /\ Sorted (fun x y => cmp x y <> Gt) l.
Proof.
  intros Hr Hn. unfold get_categories. rewrite (st_all_law c s Hr). simpl. rewrite Hn.
  rewrite mapR_category_of.
  eexists. split; [reflexivity|]. unfold order_by. split_and!.
  - rewrite (merge_sort_Permutation _ _). apply distinct_NoDup.
  - intros x. rewrite (merge_sort_Permutation _ _), distinct_elem. set_solver.
  - apply Sorted_merge_sort. exact cmp_le_total.
Qed.

End ServiceTheorems.

(** ** Examples on concrete files *)

(** A comparer that ranks every string equal: [OrderBy] then keeps the
    order of [Distinct]. *)
Definition cmp_all_equal (x y : option jstr) : comparison := Eq.

Lemma cmp_all_equal_total x y : cmp_all_equal x y <> Gt \/ cmp_all_equal y x <> Gt.
Proof. left. discriminate. Qed.

Definition uncategorized_catalog : Catalog.catalog :=
  sample_catalog ++ [mkBook 3 (Some (txt "Sin categoria")) None None 10%float None].

Lemma post_book_spec_witness :
  st_repr sample_catalog (file_of sample_catalog) /\ is_finite (Price (sample_book "Cien anos" 12.5)) = true /\
  in_int32 (Catalog.cat_next_id sample_catalog) /\
  (is_null_or_white_space (Title (sample_book "Cien anos" 12.5)) = true ->
   post_book (sample_book "Cien anos" 12.5) (file_of sample_catalog) =
     (BadRequest (txt "Title required"), file_of sample_catalog)) /\
  (is_null_or_white_space (Title (sample_book "Cien anos" 12.5)) = false ->
   exists s', post_book (sample_book "Cien anos" 12.5) (file_of sample_catalog) =
                (Created (books_route ++ Z_to_txt (Catalog.cat_next_id sample_catalog))
                         (Catalog.add (sample_book "Cien anos" 12.5) sample_catalog).1, s') /\
              st_repr (Catalog.add (sample_book "Cien anos" 12.5) sample_catalog).2 s').
Proof.
  assert (H1 : st_repr sample_catalog (file_of sample_catalog)) by solve_repr.
  assert (H2 : is_finite (Price (sample_book "Cien anos" 12.5)) = true) by reflexivity.
  assert (H3 : in_int32 (Catalog.cat_next_id sample_catalog)) by (vm_compute; split; discriminate).
  split_and!; [exact H1|exact H2|exact H3|..];
    apply (post_book_spec sample_catalog _ (sample_book "Cien anos" 12.5) H1 H2 H3).
Defined.

Lemma put_book_spec_witness :
  st_repr sample_catalog (file_of sample_catalog) /\ is_finite (Price (set_Id 7 (sample_book "Otro" 12.5))) = true /\
  (7 <> Id (set_Id 7 (sample_book "Otro" 12.5)) ->
   put_book 7 (set_Id 7 (sample_book "Otro" 12.5)) (file_of sample_catalog) =
     (BadRequest (txt "Id mismatch"), file_of sample_catalog)) /\
  (7 = Id (set_Id 7 (sample_book "Otro" 12.5)) -> exists s',
     put_book 7 (set_Id 7 (sample_book "Otro" 12.5)) (file_of sample_catalog) =
       ((if (Catalog.update (set_Id 7 (sample_book "Otro" 12.5)) sample_catalog).1
         then NoContent else NotFound), s') /\
     st_repr (Catalog.update (set_Id 7 (sample_book "Otro" 12.5)) sample_catalog).2 s').
Proof.
  assert (H1 : st_repr sample_catalog (file_of sample_catalog)) by solve_repr.
  assert (H2 : is_finite (Price (set_Id 7 (sample_book "Otro" 12.5))) = true) by reflexivity.
  split_and!; [exact H1|exact H2|..]; apply (put_book_spec sample_catalog _ 7 _ H1 H2).
Defined.

Lemma delete_book_spec_witness :
  st_repr sample_catalog (file_of sample_catalog) /\
  exists s', delete_book 2 (file_of sample_catalog) =
             ((if bool_decide (Exists (fun x => Id x = 2) sample_catalog) then NoContent else NotFound), s') /\
             st_repr (filter (fun x => Id x <> 2) sample_catalog) s'.
Proof.
  assert (H1 : st_repr sample_catalog (file_of sample_catalog)) by solve_repr.
  split; [exact H1|]. exact (delete_book_spec sample_catalog _ 2 H1).
Defined.

Lemma get_book_spec_witness :
  st_repr sample_catalog (file_of sample_catalog) /\
  get_book 5 (file_of sample_catalog) =
    (match Catalog.get 5 sample_catalog with None => NotFound | Some b => OkBook b end,
     file_of sample_catalog).
Proof.
  assert (H1 : st_repr sample_catalog (file_of sample_catalog)) by solve_repr.
  split; [exact H1|]. exact (get_book_spec sample_catalog _ 5 H1).
Defined.

Lemma get_books_spec_witness :
  st_repr sample_catalog (file_of sample_catalog) /\
  get_books (Some (txt "SAP")) (file_of sample_catalog) =
    (OkBooks (map Some (if is_null_or_white_space (Some (txt "SAP")) then sample_catalog
                        else filter (fun b => title_hit (from_option id [] (Some (txt "SAP"))) b = true)
                                    sample_catalog)), file_of sample_catalog).
Proof.
  assert (H1 : st_repr sample_catalog (file_of sample_catalog)) by solve_repr.
  split; [exact H1|]. exact (get_books_spec sample_catalog _ (Some (txt "SAP")) H1).
Defined.

(** With a record without a category, the category list holds [null]. *)
Lemma get_categories_spec_witness :
  (forall x y, cmp_all_equal x y <> Gt \/ cmp_all_equal y x <> Gt) /\
  st_repr uncategorized_catalog (file_of uncategorized_catalog) /\
  is_null_or_white_space None = true /\
  exists l, get_categories cmp_all_equal None (file_of uncategorized_catalog) =
              (OkCategories l, file_of uncategorized_catalog) /\
    NoDup l /\ (forall x, x ∈ l <-> x ∈ map Category uncategorized_catalog) /\
    Sorted (fun x y => cmp_all_equal x y <> Gt) l.
Proof.
  assert (H1 : st_repr uncategorized_catalog (file_of uncategorized_catalog)) by solve_repr.
  assert (H2 : is_null_or_white_space None = true) by reflexivity.
  split_and!; [exact cmp_all_equal_total|exact H1|exact H2|].
  exact (get_categories_spec cmp_all_equal cmp_all_equal_total uncategorized_catalog _ None H1 H2).
Defined.
