(* ===== verification/JsNumber.v ===== *)
(** * JsNumber: the conversions between JavaScript numbers and strings

    The client converts values with [Number(...)] (ToNumber, which parses a
    string with StringToNumber) and [String(...)] or template literals
    (ToString, which prints a number with Number::toString).  A JavaScript
    number is an IEEE binary64 value, a primitive [float] here.  Both
    conversions are written out after ECMA-262 (sections 7.1.4.1.1 and
    6.1.6.1.20) on the exact rational value of the float:

    - [string_to_number]: trim the ECMAScript whitespace, accept the empty
      string (0), [Infinity] with a sign, the [0x]/[0o]/[0b] integer forms and
      the decimal literals, and round the exact value to the nearest double
      (ties to even) with SpecFloat's division and rounding;
    - [number_to_string]: NaN, zeros and infinities by name; an integer of
      magnitude at most 2^53 by its decimal digits (every such integer is a
      double, so no shorter digit string rounds to it); otherwise the shortest digit string
      [s] (at most 17 digits) whose value [s * 10^(n-k)] rounds back to the
      number, closest to it, laid out in the five cases of the standard. *)

From Stdlib Require Import Floats Ascii.
From S2P Require Import Prelude Text.

#[local] Open Scope Z_scope.

(** ** Exact values *)

(** A finite float as [(negative, m, e)] with absolute value [m * 2^e]. *)
Definition float_parts (f : float) : option (bool * Z * Z) :=
  match Prim2SF f with
  | S754_zero s => Some (s, 0, 0)
  | S754_finite s m e => Some (s, Zpos m, e)
  | _ => None
  end.

(** The double nearest to [num / den] (ties to even), with sign [neg];
    [num >= 0], [den > 0]. *)
Definition round_ratio (neg : bool) (num den : Z) : float :=
  if decide (num = 0) then (if neg then (-0)%float else 0%float)
  else
    let '(q, e, l) := SpecFloat.SFdiv_core_binary FloatOps.prec FloatOps.emax num 0 den 0 in
    SF2Prim (SpecFloat.binary_round_aux FloatOps.prec FloatOps.emax neg q e l).

(** The double nearest to [m * 10^e]. *)
Definition round_decimal (neg : bool) (m e : Z) : float :=
  if decide (0 <= e) then round_ratio neg (m * 10 ^ e) 1 else round_ratio neg m (10 ^ (- e)).

(** ** StringToNumber *)

Definition digit_value (radix : Z) (c : N) : option Z :=
  let v := if decide (48 <= c <= 57)%N then Some (Z.of_N c - 48)
           else if decide (97 <= c <= 122)%N then Some (Z.of_N c - 87)
           else if decide (65 <= c <= 90)%N then Some (Z.of_N c - 55)
           else None in
  match v with Some d => if decide (d < radix) then Some d else None | None => None end.

(** The longest prefix of digits in [radix]: its value, its length, the rest. *)
Fixpoint take_digits (radix : Z) (s : jstr) (acc : Z) (n : nat) : Z * nat * jstr :=
  match s with
  | c :: s' => match digit_value radix c with
               | Some d => take_digits radix s' (acc * radix + d) (S n)
               | None => (acc, n, s)
               end
  | [] => (acc, n, [])
  end.

Definition chr (a : Ascii.ascii) : N := N_of_ascii a.
Arguments chr a%_char_scope.

(** [ExponentPart]: [e] or [E], an optional sign, at least one digit. *)
Definition parse_exponent (s : jstr) : option (Z * jstr) :=
  match s with
  | c :: s' =>
      if decide (c = chr "e" \/ c = chr "E") then
        let '(sg, s'') := match s' with
                          | d :: t => if decide (d = chr "+") then (1, t)
                                      else if decide (d = chr "-") then (-1, t) else (1, s')
                          | [] => (1, s')
                          end in
        let '(v, n, r) := take_digits 10 s'' 0 0 in
        if decide (n = 0%nat) then None else Some (sg * v, r)
      else Some (0, s)
  | [] => Some (0, [])
  end.

(** [StrUnsignedDecimalLiteral] as [m * 10^e], when [s] is exactly one. *)
Definition parse_unsigned_decimal (s : jstr) : option (Z * Z) :=
  let '(ip, ni, r) := take_digits 10 s 0 0 in
  let '(m, nd, r') :=
    match r with
    | c :: t => if decide (c = chr ".") then
                  let '(fp, nf, r'') := take_digits 10 t ip 0 in (fp, nf, r'')
                else (ip, 0%nat, r)
    | [] => (ip, 0%nat, r)
    end in
  if decide (ni = 0%nat /\ nd = 0%nat) then None
  else match parse_exponent r' with
       | Some (ex, []) => Some (m, ex - Z.of_nat nd)
       | _ => None
       end.

Definition infinity_txt : jstr := txt "Infinity".

Definition parse_non_decimal (s : jstr) : option Z :=
  match s with
  | z :: x :: t =>
      if decide (z = chr "0") then
        let radix := if decide (x = chr "x" \/ x = chr "X") then 16
                     else if decide (x = chr "o" \/ x = chr "O") then 8
                     else if decide (x = chr "b" \/ x = chr "B") then 2 else 0 in
        if decide (radix = 0) then None
        else let '(v, n, r) := take_digits radix t 0 0 in
             if decide (n <> 0%nat /\ r = []) then Some v else None
      else None
  | _ => None
  end.

(** StringToNumber ([Number("...")]). *)
Definition string_to_number (s : jstr) : float :=
  let t := js_trim s in
  if decide (t = []) then 0%float
  else match parse_non_decimal t with
  | Some v => round_ratio false v 1
  | None =>
      let '(neg, u) := match t with
                       | c :: u => if decide (c = chr "-") then (true, u)
                                   else if decide (c = chr "+") then (false, u) else (false, t)
                       | [] => (false, t)
                       end in
      if decide (u = infinity_txt) then (if neg then neg_infinity else infinity)
      else match parse_unsigned_decimal u with
           | Some (m, e) => round_decimal neg m e
           | None => nan
           end
  end.

(** ** Number::toString *)

(** The integer value of an integral float. *)
Definition float_to_Z_exact (f : float) : option Z :=
  match float_parts f with
  | Some (neg, m, e) =>
      let v := if decide (0 <= e) then Some (m * 2 ^ e)
               else if decide (m mod 2 ^ (- e) = 0) then Some (m / 2 ^ (- e)) else None in
      (fun z => if neg then - z else z) <$> v
  | None => None
  end.

Definition ndigits (z : Z) : Z := Z.of_nat (length (N_to_txt (Z.to_N z))).

(** [num / den] rounded to the nearest integer, ties to even. *)
Definition round_half_even (num den : Z) : Z :=
  let q := num / den in let r := num mod den in
  if decide (2 * r < den) then q
  else if decide (2 * r > den) then q + 1
  else if Z.even q then q else q + 1.

(** The [n] with [10^(n-1) <= num/den < 10^n]. *)
Definition decimal_exponent (num den : Z) : Z :=
  let j := ndigits num - ndigits den in
  let below := if decide (0 <= j) then bool_decide (num < 10 ^ j * den)
               else bool_decide (num * 10 ^ (- j) < den) in
  if below then j else j + 1.

(** For [k] digits: the digits [s] nearest to [num/den] and the exponent [n]. *)
Definition digits_for (num den n k : Z) : Z * Z :=
  let s := if decide (0 <= k - n) then round_half_even (num * 10 ^ (k - n)) den
           else round_half_even num (den * 10 ^ (n - k)) in
  if decide (s = 10 ^ k) then (10 ^ (k - 1), n + 1) else (s, n).

(** The shortest [k] (from [k], at most [fuel] more) whose digits round
    back to [x]. *)
Fixpoint shortest_digits (x : float) (num den n k : Z) (fuel : nat) : Z * Z * Z :=
  let '(s, n') := digits_for num den n k in
  match fuel with
  | O => (s, n', k)
  | S fuel' => if PrimFloat.Leibniz.eqb (round_decimal false s (n' - k)) x then (s, n', k)
               else shortest_digits x num den n (k + 1) fuel'
  end.

Definition zeros (n : Z) : jstr := repeat (chr "0") (Z.to_nat n).

Definition exponent_txt (e : Z) : jstr :=
  chr "e" :: (if decide (e < 0) then chr "-" else chr "+") :: N_to_txt (Z.abs_N e).

(** The five layouts of Number::toString for digits [s] (k of them) and
    exponent [n]. *)
Definition layout (s n k : Z) : jstr :=
  let d := N_to_txt (Z.to_N s) in
  if decide (k <= n /\ n <= 21) then d ++ zeros (n - k)
  else if decide (0 < n /\ n <= 21) then take (Z.to_nat n) d ++ chr "." :: drop (Z.to_nat n) d
  else if decide (-6 < n /\ n <= 0) then chr "0" :: chr "." :: zeros (- n) ++ d
  else if decide (k = 1) then d ++ exponent_txt (n - 1)
  else take 1 d ++ chr "." :: drop 1 d ++ exponent_txt (n - 1).

(** Number::toString(x) in radix 10. *)
Definition number_to_string (x : float) : jstr :=
  if PrimFloat.is_nan x then txt "NaN"
  else match float_parts x with
  | None => if PrimFloat.ltb x 0%float then txt "-Infinity" else txt "Infinity"
  | Some (neg, m, e) =>
      let sign := if neg then [chr "-"] else [] in
      if decide (m = 0) then txt "0"
      else match float_to_Z_exact x with
      | Some z => if decide (Z.abs z <= 2 ^ 53) then Z_to_txt z
                  else let '(s, n, k) := shortest_digits (PrimFloat.abs x) (Z.abs z) 1
                                           (decimal_exponent (Z.abs z) 1) 1 16 in
                       sign ++ layout s n k
      | None =>
          let num := if decide (0 <= e) then m * 2 ^ e else m in
          let den := if decide (0 <= e) then 1 else 2 ^ (- e) in
          let '(s, n, k) := shortest_digits (PrimFloat.abs x) num den (decimal_exponent num den) 1 16 in
          sign ++ layout s n k
      end
  end.

(** ** Lemmas *)

Lemma float_parts_not_nan f p : float_parts f = Some p -> PrimFloat.is_nan f = false.
Proof.
  unfold float_parts, PrimFloat.is_nan. rewrite FloatAxioms.eqb_spec.
  destruct (Prim2SF f) as [s|s| |s m e _]; intros [=]; unfold SpecFloat.SFeqb, SpecFloat.SFcompare;
    destruct s; rewrite ?Pos.compare_refl, ?Z.compare_refl; reflexivity.
Qed.

(** An integral number of magnitude at most 2^53 prints as its decimal
    digits (the time stamps of [Date.prototype.getTime] are such numbers). *)
Lemma number_to_string_int f z :
  float_to_Z_exact f = Some z -> Z.abs z <= 2 ^ 53 -> number_to_string f = Z_to_txt z.
Proof.
  intros Hz Hb. unfold number_to_string.
  destruct (float_parts f) as [[[neg m] e]|] eqn:Hp; [|unfold float_to_Z_exact in Hz; by rewrite Hp in Hz].
  rewrite (float_parts_not_nan f _ Hp).
  destruct (decide (m = 0)) as [->|Hm]; [|by rewrite Hz, decide_True].
  unfold float_to_Z_exact in Hz. rewrite Hp in Hz.
  destruct (decide (0 <= e)); [|destruct (decide _)]; simpl in Hz; try done;
    rewrite ?Z.mul_0_l, ?Zdiv_0_l in Hz; destruct neg; injection Hz as <-; reflexivity.
Qed.
