(* ===== verification/JsValue.v ===== *)
(** * JsValue: the JavaScript values the client handles

    [jsval] is a value of the client: the primitives and the arrays and plain
    objects [res.json()] produces.  [JObj] lists the own properties of a plain
    object (each key once, as [JSON.parse] leaves them).  Every array or
    object of a payload is a distinct allocation, so reference comparisons
    ([===], [Set]) treat two of them as different.

    The operations are the abstract operations of ECMA-262 the client code
    invokes: property access [o.p] (a TypeError on [null]/[undefined]),
    [a ?? b], truthiness ([!x], [x || y], [filter(Boolean)]), [Number(x)]
    (ToNumber), [String(x)] and template literals (ToString), [===] against a
    string, and the SameValueZero comparison of [new Set(...)]. *)

From Stdlib Require Import Floats Ascii.
From S2P Require Import Prelude Text JsNumber.

#[local] Open Scope Z_scope.

Inductive jsval :=
| JUndef
| JNull
| JBool (b : bool)
| JNum (f : float)
| JStr (s : jstr)
| JArr (l : list jsval)
| JObj (ps : list (jstr * jsval)).

(** The exceptions the client code can raise. *)
Inductive js_exn :=
| TypeError     (** a property read on [null] or [undefined] *)
| FetchError    (** a rejected [fetch], a non-2xx status or a malformed body *)
| URIError.     (** [encodeURIComponent] on a lone surrogate *)

#[export] Instance js_exn_eq_dec : EqDecision js_exn.
Proof. solve_decision. Defined.

(** ** Property access *)

Fixpoint assoc {A} (k : jstr) (ps : list (jstr * A)) : option A :=
  match ps with
  | [] => None
  | (k', v) :: ps' => if decide (k = k') then Some v else assoc k ps'
  end.

(** [o.k] for the data property names the client reads (none of them is
    inherited from a prototype): [undefined] when absent. *)
Definition get (o : jsval) (k : jstr) : result js_exn jsval :=
  match o with
  | JUndef | JNull => throw TypeError
  | JObj ps => Ok (from_option id JUndef (assoc k ps))
  | _ => Ok JUndef
  end.

(** ** [??], truthiness *)

Definition nullish (v : jsval) : bool :=
  match v with JUndef | JNull => true | _ => false end.

(** [a ?? b] *)
Definition coalesce (a b : jsval) : jsval := if nullish a then b else a.

(** ToBoolean. *)
Definition truthy (v : jsval) : bool :=
  match v with
  | JUndef | JNull => false
  | JBool b => b
  | JNum f => negb (PrimFloat.is_nan f || PrimFloat.eqb f 0%float)
  | JStr s => bool_decide (s <> [])
  | JArr _ | JObj _ => true
  end.

(** [a || b] *)
Definition js_or (a b : jsval) : jsval := if truthy a then a else b.

(** ** ToString and ToNumber *)

Definition join (sep : jstr) (l : list jstr) : jstr :=
  match l with
  | [] => []
  | s :: l' => s ++ concat (map (fun t => sep ++ t) l')
  end.

(** ToString; an array is joined with commas ([null] and [undefined]
    elements print as empty), a plain object prints as [[object Object]]. *)
Fixpoint to_string (v : jsval) : jstr :=
  match v with
  | JUndef => txt "undefined"
  | JNull => txt "null"
  | JBool b => if b then txt "true" else txt "false"
  | JNum f => number_to_string f
  | JStr s => s
  | JArr l => join [chr ","] (map (fun e => match e with
                                            | JUndef | JNull => []
                                            | _ => to_string e
                                            end) l)
  | JObj _ => txt "[object Object]"
  end.

(** ToNumber; an array or object goes through its string form. *)
Definition to_number (v : jsval) : float :=
  match v with
  | JUndef => nan
  | JNull => 0%float
  | JBool b => if b then 1%float else 0%float
  | JNum f => f
  | JStr s => string_to_number s
  | JArr _ => string_to_number (to_string v)
  | JObj _ => nan
  end.

(** ** Comparisons *)

(** [v === s] for a string [s]. *)
Definition strict_eq_str (v : jsval) (s : jstr) : bool :=
  match v with JStr t => bool_decide (t = s) | _ => false end.

(** SameValueZero, the equality of [Set]: NaN equals NaN, [+0] equals [-0];
    arrays and objects are distinct allocations. *)
Definition same_value_zero (a b : jsval) : bool :=
  match a, b with
  | JUndef, JUndef | JNull, JNull => true
  | JBool x, JBool y => Bool.eqb x y
  | JNum x, JNum y => PrimFloat.eqb x y || (PrimFloat.is_nan x && PrimFloat.is_nan y)
  | JStr x, JStr y => bool_decide (x = y)
  | _, _ => false
  end.

(** [Array.from(new Set(l))]: the first occurrence of each value, in order. *)
Fixpoint dedup_values (seen : list jsval) (l : list jsval) : list jsval :=
  match l with
  | [] => []
  | v :: l' => if existsb (same_value_zero v) seen then dedup_values seen l'
               else v :: dedup_values (v :: seen) l'
  end.

Definition set_from (l : list jsval) : list jsval := dedup_values [] l.
