(* ===== verification/ClientBook.v ===== *)
(** * ClientBook: the book record the client holds (App.jsx)

    [loadBooks] turns every element of the [/api/books] payload into a plain
    object with [id], [title], [author], [category], [price], [cover] and
    [searchTitle]; the seed catalog [defaultBooks] gets the same shape.  This
    file models that record ([cbook]), the per-record normalization (the
    callback of [data.map]) and [normalizeString], with the seed data as
    written in App.jsx (the titles keep the code units of the source file,
    U+0144 in "Cien ańos"). *)

From Stdlib Require Import Floats Ascii.
From S2P Require Import Prelude Text JsNumber JsValue.

#[local] Open Scope Z_scope.
#[local] Set Warnings "-inexact-float".

(** ** Unicode tables *)

(** [String.prototype.normalize('NFD')] and [toLowerCase()] read the
    Unicode character database, which the model does not copy: they are
    parameters of the client model. *)
Class UnicodeTables := {
  nfd : jstr -> jstr;
  to_lower : jstr -> jstr
}.

(** ** normalizeString (App.jsx) *)

Definition is_combining_mark (c : N) : bool := bool_decide (0x300 <= c <= 0x36F)%N.

(** [.replace(/[̀-ͯ]/g, '')] *)
Definition strip_marks (s : jstr) : jstr := filter (fun c => is_combining_mark c = false) s.

Section Normalize.
Context `{UnicodeTables}.

(** [if (!s) return ''; return String(s).normalize('NFD').replace(...).toLowerCase();] *)
Definition normalizeString (s : jsval) : jstr :=
  if truthy s then to_lower (strip_marks (nfd (to_string s))) else [].

(** ** The normalized record *)

Record cbook := mkCBook {
  b_id : jsval;
  b_title : jsval;
  b_author : jsval;
  b_category : jsval;
  b_price : float;
  b_cover : jsval;
  b_searchTitle : jstr
}.

(** [o.k1 ?? o.k2]: the second read only when the first is nullish. *)
Definition get_either (o : jsval) (k1 k2 : jstr) : result js_exn jsval :=
  v ← get o k1; if nullish v then get o k2 else Ok v.

Definition placeholder_prefix : jstr := txt "https://via.placeholder.com/120x160?text=".

(** The callback of [data.map(o => ...)] in [loadBooks], reads in source
    order; reading a field of [null] or [undefined] throws a TypeError. *)
Definition normalize_record (o : jsval) : result js_exn cbook :=
  id ← get_either o (txt "id") (txt "Id");
  title ← get_either o (txt "title") (txt "Title");
  author ← get_either o (txt "author") (txt "Author");
  category ← get_either o (txt "category") (txt "Category");
  price ← get_either o (txt "price") (txt "Price");
  cover ← get o (txt "cover");
  cover' ← (if strict_eq_str cover (txt "string") || negb (truthy cover)
            then t ← get o (txt "title");
                 Ok (JStr (placeholder_prefix ++ to_string (js_or t (JStr (txt "Libro")))))
            else Ok cover);
  let title' := coalesce title (JStr []) in
  Ok (mkCBook id title' (coalesce author (JStr [])) (coalesce category (JStr []))
              (to_number (coalesce price (JNum 0))) cover' (normalizeString title')).

(** ** defaultBooks *)

Definition cien_anos : jstr := txt "Cien a" ++ [0x144%N] ++ txt "os de soledad".

(** The three seed records of App.jsx, [{ ...b, searchTitle: normalizeString(b.title) }]. *)
Definition seed (id : float) (title author category : jstr) (price : float) (cover : jstr) : cbook :=
  mkCBook (JNum id) (JStr title) (JStr author) (JStr category)
          price (JStr cover) (normalizeString (JStr title)).

Definition defaultBooks : list cbook :=
  [seed 1%float (txt "El alquimista") (txt "Paulo Coelho") (txt "Ficcion") 9.99%float
        (txt "https://via.placeholder.com/120x160?text=Alquimista");
   seed 2%float cien_anos (txt "Gabriel Garc" ++ [0xED%N] ++ txt "a Marquez") (txt "Clasicos") 12.5%float
        (txt "https://via.placeholder.com/120x160?text=Cien+A" ++ [0x144%N] ++ txt "os");
   seed 3%float (txt "Sapiens") (txt "Yuval Noah Harari") (txt "Divulgacion") 15%float
        (txt "https://via.placeholder.com/120x160?text=Sapiens")].

End Normalize.

(** ** A Latin-1 table for the examples *)

(** Canonical decompositions of the precomposed Latin-1 capitals (and
    U+0143); the small letters are these plus 0x20. *)
Definition upper_decomp : list (N * (N * N)) :=
  [(0xC0,(0x41,0x300)); (0xC1,(0x41,0x301)); (0xC2,(0x41,0x302)); (0xC3,(0x41,0x303));
   (0xC4,(0x41,0x308)); (0xC5,(0x41,0x30A)); (0xC7,(0x43,0x327)); (0xC8,(0x45,0x300));
   (0xC9,(0x45,0x301)); (0xCA,(0x45,0x302)); (0xCB,(0x45,0x308)); (0xCC,(0x49,0x300));
   (0xCD,(0x49,0x301)); (0xCE,(0x49,0x302)); (0xCF,(0x49,0x308)); (0xD1,(0x4E,0x303));
   (0xD2,(0x4F,0x300)); (0xD3,(0x4F,0x301)); (0xD4,(0x4F,0x302)); (0xD5,(0x4F,0x303));
   (0xD6,(0x4F,0x308)); (0xD9,(0x55,0x300)); (0xDA,(0x55,0x301)); (0xDB,(0x55,0x302));
   (0xDC,(0x55,0x308)); (0xDD,(0x59,0x301))]%N.

Definition latin_decomp : list (N * (N * N)) :=
  upper_decomp ++ map (fun '(c, (b, m)) => (c + 0x20, (b + 0x20, m))%N) upper_decomp ++
  [(0xFF, (0x79, 0x308)); (0x143, (0x4E, 0x301)); (0x144, (0x6E, 0x301))]%N.

Fixpoint table_lookup {A} (c : N) (t : list (N * A)) : option A :=
  match t with
  | [] => None
  | (k, v) :: t' => if decide (c = k) then Some v else table_lookup c t'
  end.

Definition nfd_latin (s : jstr) : jstr :=
  concat (map (fun c => match table_lookup c latin_decomp with
                        | Some (b, m) => [b; m]
                        | None => [c]
                        end) s).

Definition lower_latin_unit (c : N) : N :=
  if decide (0x41 <= c <= 0x5A \/ (0xC0 <= c <= 0xDE /\ c <> 0xD7))%N then (c + 0x20)%N
  else if decide (c = 0x143)%N then 0x144%N else c.

(** Exact on text made of Latin-1 characters and U+0143/U+0144 without
    combining marks, the text of the examples. *)
#[export] Instance latin1_tables : UnicodeTables := {|
  nfd := nfd_latin;
  to_lower := map lower_latin_unit
|}.

(** ** Lemmas and theorems *)

Section NormalizeTheorems.
Context `{UnicodeTables}.

(** Normalizing a record fails, with a TypeError, exactly when the
    element is [null] or [undefined]; every other JSON value normalizes. *)
Theorem normalize_record_Err o :
  (exists e, normalize_record o = Err e) <-> nullish o = true.
Proof.
  split.
  - intros [e E]. destruct o; unfold normalize_record, get_either, get in E; simpl in E; try done;
      repeat (case_match; simpl in E); congruence.
  - destruct o; try done; by eexists.
Qed.

Definition lower_record (id title author category price : jsval) : jsval :=
  JObj [(txt "id", id); (txt "title", title); (txt "author", author);
        (txt "category", category); (txt "price", price)].

Definition upper_record (id title author category price : jsval) : jsval :=
  JObj [(txt "Id", id); (txt "Title", title); (txt "Author", author);
        (txt "Category", category); (txt "Price", price)].

(** Either casing of the field names gives the same id, title, author,
    category, price and search key; the cover placeholder does not: it
    reads [o.title] only, so a record in PascalCase gets the generic
    ['Libro'] placeholder even when it has a title. *)
Theorem normalize_casing id title author category price :
  nullish id = false ->
  exists bl bu,
    normalize_record (lower_record id title author category price) = Ok bl /\
    normalize_record (upper_record id title author category price) = Ok bu /\
    b_id bl = b_id bu /\ b_title bl = b_title bu /\ b_author bl = b_author bu /\
    b_category bl = b_category bu /\ b_price bl = b_price bu /\
    b_searchTitle bl = b_searchTitle bu /\
    b_cover bl = JStr (placeholder_prefix ++ to_string (js_or title (JStr (txt "Libro")))) /\
    b_cover bu = JStr (placeholder_prefix ++ txt "Libro").
Proof.
  intros Hid. unfold normalize_record, get_either, lower_record, upper_record. simpl.
  rewrite Hid. simpl.
  destruct (nullish title) eqn:Ht, (nullish author) eqn:Ha, (nullish category) eqn:Hc,
    (nullish price) eqn:Hp; simpl; do 2 eexists; split_and!; try reflexivity;
    unfold coalesce, js_or; rewrite ?Ht, ?Ha, ?Hc, ?Hp; simpl;
    try (destruct title; simpl in *; congruence).
Qed.

End NormalizeTheorems.

(** The price is converted with [Number(...)] and kept as it is: a
    negative price stays negative. *)
Example normalize_negative_price :
  (b_price <$> normalize_record (JObj [(txt "price", JStr (txt "-5"))])) = Ok (-5)%float.
Proof. vm_compute. reflexivity. Qed.

Lemma normalize_casing_witness :
  nullish (JNum 3) = false /\
  exists bl bu,
    normalize_record (lower_record (JNum 3) (JStr (txt "Sapiens")) (JStr (txt "Harari"))
                                   (JStr (txt "Divulgacion")) (JNum 15)) = Ok bl /\
    normalize_record (upper_record (JNum 3) (JStr (txt "Sapiens")) (JStr (txt "Harari"))
                                   (JStr (txt "Divulgacion")) (JNum 15)) = Ok bu /\
    b_id bl = b_id bu /\ b_title bl = b_title bu /\ b_author bl = b_author bu /\
    b_category bl = b_category bu /\ b_price bl = b_price bu /\
    b_searchTitle bl = b_searchTitle bu /\
    b_cover bl = JStr (placeholder_prefix ++ to_string (js_or (JStr (txt "Sapiens")) (JStr (txt "Libro")))) /\
    b_cover bu = JStr (placeholder_prefix ++ txt "Libro").
Proof.
  assert (H : nullish (JNum 3) = false) by reflexivity.
  split; [exact H|]. exact (normalize_casing _ _ _ _ _ H).
Defined.
