(* ===== verification/Filter.v ===== *)
(** * Filter: the filtering effect of App.jsx

    The second [useEffect] of [App] recomputes the visible list from
    [allBooks], [query] and [category]:
    the query is trimmed and folded by [normalizeString], a book passes when
    its [searchTitle] contains the folded query (an empty query lets every
    book pass), and a category other than [''] and the sentinel ['Todas']
    keeps the books whose [category] is that string ([===]).  [visible] is
    that computation; the theorems characterise its result and check the
    scenarios of the spec on a table of Latin-1 letters. *)

From Stdlib Require Import Floats Ascii.
From S2P Require Import Prelude Text JsNumber JsValue ClientBook.

#[local] Open Scope Z_scope.
#[local] Set Warnings "-inexact-float".

Definition todas : jstr := txt "Todas".

Section Filter.
Context `{UnicodeTables}.

Definition matches_query (qnorm : jstr) (b : cbook) : Prop :=
  includes (b_searchTitle b) qnorm = true.

Definition in_category (category : jstr) (b : cbook) : Prop :=
  strict_eq_str (b_category b) category = true.

#[export] Instance matches_query_dec qnorm b : Decision (matches_query qnorm b).
Proof. unfold matches_query. apply _. Defined.

#[export] Instance in_category_dec category b : Decision (in_category category b).
Proof. unfold in_category. apply _. Defined.

(** The body of the effect, [setBooks(result)]. *)
Definition visible (allBooks : list cbook) (query category : jstr) : list cbook :=
  let qnorm := normalizeString (JStr (js_trim query)) in
  let r1 := if decide (qnorm <> []) then filter (matches_query qnorm) allBooks else allBooks in
  if decide (category <> [] /\ category <> todas) then filter (in_category category) r1 else r1.

(** ** What the effect keeps *)

(** The folded query a book's title is searched for. *)
Definition folded_query (query : jstr) : jstr := normalizeString (JStr (js_trim query)).

Definition category_filter_on (category : jstr) : Prop := category <> [] /\ category <> todas.

(** C5: A book is visible exactly when it is in the snapshot, its folded
    title contains the folded query (or the query folds to nothing), and
    its category is the selected one (or the selection is empty or the
    sentinel). *)
Theorem visible_spec allBooks query category b :
  b ∈ visible allBooks query category <->
  b ∈ allBooks /\
  (folded_query query = [] \/ matches_query (folded_query query) b) /\
  (~ category_filter_on category \/ in_category category b).
Proof.
  unfold visible, folded_query, category_filter_on. cbv zeta.
  destruct (decide (normalizeString (JStr (js_trim query)) <> [])) as [Hq|Hq];
    destruct (decide (category <> [] /\ category <> todas)) as [Hc|Hc];
    rewrite ?list_elem_of_filter; try apply dec_stable in Hq; tauto.
Qed.

(** The result keeps the order of [allBooks] and only drops books. *)
Lemma visible_sublist allBooks query category :
  visible allBooks query category `sublist_of` allBooks.
Proof.
  unfold visible. cbv zeta.
  destruct (decide _); destruct (decide _); try done;
    [etrans; apply sublist_filter | apply sublist_filter | apply sublist_filter].
Qed.

Lemma visible_nil query category : visible [] query category = [].
Proof. unfold visible. cbv zeta. by repeat destruct (decide _). Qed.

(** The sentinel ['Todas'] and the empty selection both switch the
    category filter off. *)
Lemma visible_todas allBooks query :
  visible allBooks query todas = visible allBooks query [].
Proof.
  unfold visible. cbv zeta.
  rewrite !decide_False by tauto. done.
Qed.

(** Filtering the visible list again changes nothing. *)
Lemma visible_idempotent allBooks query category :
  visible (visible allBooks query category) query category = visible allBooks query category.
Proof.
  unfold visible. cbv zeta.
  destruct (decide _); destruct (decide _);
    rewrite ?list_filter_filter; try done; apply list_filter_iff; naive_solver.
Qed.

End Filter.

(** ** The scenarios of the spec (section 8) *)

Definition catalog_book (title category : jstr) : cbook :=
  mkCBook (JNum 1%float) (JStr title) (JStr (txt "Paulo Coelho")) (JStr category) 9.99%float
          (JStr []) (normalizeString (JStr title)).

Definition nino : jstr := [0x4E; 0x69; 0xF1; 0x6F]%N.
Definition enie_i : jstr := [0xD1; 0x69]%N.

(** The scenarios of the spec: the query "Ñi" finds "Niño" and "xyz" does
    not; "alqui" finds "El alquimista" under the sentinel and nothing under
    another category. *)
Example filter_scenarios :
  visible [catalog_book nino (txt "Ficcion")] enie_i [] = [catalog_book nino (txt "Ficcion")] /\
  visible [catalog_book nino (txt "Ficcion")] (txt "xyz") [] = [] /\
  visible [catalog_book (txt "El alquimista") (txt "Ficcion")] (txt "alqui") todas =
    [catalog_book (txt "El alquimista") (txt "Ficcion")] /\
  visible [catalog_book (txt "El alquimista") (txt "Ficcion")] (txt "alqui") (txt "Clasicos") = [].
Proof. repeat split; vm_compute; reflexivity. Qed.
