(* ===== verification/JsObject.v ===== *)
(** * JsObject: ordinary JavaScript objects used as dictionaries

    The cart of App.jsx is a plain object keyed by book id and updated with
    [{ ...prev, [id]: v }] and [delete copy[id]]; its total is computed over
    [Object.values(cart)].  The order of [Object.values] is the order of
    [[OwnPropertyKeys]] (ECMA-262 10.1.11.1): first the array-index keys
    (canonical numeric strings of integers below 2^32 - 1) in ascending
    numeric order, then the other string keys in creation order.

    [obj A] is an object's own data properties in that order.  A spread
    copies the properties in that order, so [{ ...prev }] is [prev]; setting
    an existing key keeps its place, a new index key goes among the index
    keys by value, a new string key goes last ([obj_set]); [delete] removes
    the key ([obj_delete]).  [obj_wf] is the shape every object has: unique
    keys, index keys first and ascending. *)

From stdpp Require Import gmap sorting.
From S2P Require Import Prelude Text JsNumber JsValue.

#[local] Open Scope Z_scope.

(** ** Array indices *)

(** [Some n] when [k] is the canonical decimal string of an [n < 2^32 - 1]. *)
Definition array_index (k : jstr) : option N :=
  match k with
  | [] => None
  | _ => let '(v, _, r) := take_digits 10 k 0 0 in
         if decide (r = [] /\ v < 2 ^ 32 - 1 /\ N_to_txt (Z.to_N v) = k)
         then Some (Z.to_N v) else None
  end.

Lemma array_index_inj k1 k2 n : array_index k1 = Some n -> array_index k2 = Some n -> k1 = k2.
Proof.
  unfold array_index.
  destruct k1 as [|c1 k1]; [done|]; destruct k2 as [|c2 k2]; [done|].
  destruct (take_digits 10 (c1 :: k1) 0 0) as [[v1 ?] r1].
  destruct (take_digits 10 (c2 :: k2) 0 0) as [[v2 ?] r2].
  case_decide as H1; [|done]; case_decide as H2; [|done].
  intros [= E1] [= E2]. destruct H1 as (_ & _ & <-), H2 as (_ & _ & <-). by rewrite E1, E2.
Qed.

(** ** Objects *)

Abbreviation obj A := (list (jstr * A)).

Section Obj.
Context {A : Type}.
Implicit Types (o : obj A) (k : jstr) (v : A).

Definition obj_get o k : option A := assoc k o.

Definition obj_values o : list A := map snd o.

(** A new index key [n] goes before the first string key or larger index. *)
Fixpoint insert_index (n : N) k v o : obj A :=
  match o with
  | [] => [(k, v)]
  | (k', v') :: o' =>
      match array_index k' with
      | Some n' => if decide (n < n')%N then (k, v) :: o else (k', v') :: insert_index n k v o'
      | None => (k, v) :: o
      end
  end.

(** [{ ...o, [k]: v }] *)
Definition obj_set o k v : obj A :=
  if decide (k ∈ map fst o) then map (fun p => if decide (p.1 = k) then (k, v) else p) o
  else match array_index k with
       | Some n => insert_index n k v o
       | None => o ++ [(k, v)]
       end.

(** [const copy = { ...o }; delete copy[k]] *)
Definition obj_delete o k : obj A := filter (fun p => p.1 <> k) o.

(** ** Property order *)

Definition key_before (k1 k2 : jstr) : Prop :=
  match array_index k1, array_index k2 with
  | Some a, Some b => (a < b)%N
  | Some _, None => True
  | None, Some _ => False
  | None, None => True
  end.

Definition obj_wf o : Prop :=
  NoDup (map fst o) /\ StronglySorted key_before (map fst o).

End Obj.

(** The dictionary an object denotes: a later duplicate would be shadowed,
    as [assoc] reads the first binding. *)
Definition to_map {A} (o : obj A) : gmap jstr A := list_to_map o.

(** ** Lemmas *)

#[export] Instance key_before_trans : Transitive key_before.
Proof.
  intros k1 k2 k3. unfold key_before.
  destruct (array_index k1), (array_index k2), (array_index k3); naive_solver lia.
Qed.

Lemma StronglySorted_sublist {B} (R : relation B) l1 l2 :
  l1 `sublist_of` l2 -> StronglySorted R l2 -> StronglySorted R l1.
Proof.
  induction 1 as [|x l1 l2 Hs IH|x l1 l2 Hs IH]; intros H; [constructor| |].
  - apply StronglySorted_cons in H as [HF HS]. apply StronglySorted_cons.
    split; [|auto]. rewrite list.Forall_forall in *. eauto using elem_of_sublist.
  - apply StronglySorted_cons in H as [_ HS]. auto.
Qed.

Section ObjLemmas.
Context {A : Type}.
Implicit Types (o : obj A) (k : jstr) (v : A).

Lemma assoc_app k o1 o2 :
  assoc k (o1 ++ o2) = match assoc k o1 with Some v => Some v | None => assoc k o2 end.
Proof. induction o1 as [|[k' v'] o1 IH]; simpl; [done|]. case_decide; auto. Qed.

Lemma assoc_None k o : assoc k o = None <-> k ∉ map fst o.
Proof.
  induction o as [|[k' v'] o IH]; simpl; [set_solver|].
  rewrite list.elem_of_cons. case_decide; naive_solver.
Qed.

Lemma lookup_to_map o k : to_map o !! k = assoc k o.
Proof.
  induction o as [|[k' v'] o IH]; [done|].
  unfold to_map in *. rewrite list_to_map_cons. simpl. case_decide as E.
  - subst. by rewrite lookup_insert_eq.
  - by rewrite lookup_insert_ne.
Qed.

(** A new index key lands between two parts of the object. *)
Lemma insert_index_split n k v o :
  exists o1 o2, o = o1 ++ o2 /\ insert_index n k v o = o1 ++ (k, v) :: o2.
Proof.
  induction o as [|[k' v'] o IH]; simpl.
  - by exists [], [].
  - destruct (array_index k'); [case_decide|].
    + by exists [], ((k', v') :: o).
    + destruct IH as (o1 & o2 & -> & ->). by exists ((k', v') :: o1), o2.
    + by exists [], ((k', v') :: o).
Qed.

Lemma insert_index_perm n k v o : insert_index n k v o ≡ₚ (k, v) :: o.
Proof.
  destruct (insert_index_split n k v o) as (o1 & o2 & -> & ->).
  by rewrite Permutation_middle.
Qed.

Lemma keys_replace o k v :
  map fst (map (fun p => if decide (p.1 = k) then (k, v) else p) o) = map fst o.
Proof. induction o as [|[k' v'] o IH]; simpl; [done|]. case_decide; simpl; congruence. Qed.

Lemma assoc_replace o k v k' :
  k ∈ map fst o ->
  assoc k' (map (fun p => if decide (p.1 = k) then (k, v) else p) o) =
  if decide (k' = k) then Some v else assoc k' o.
Proof.
  induction o as [|[k1 v1] o IH]; simpl; [set_solver|]. rewrite list.elem_of_cons.
  intros Hk. destruct (decide (k1 = k)) as [->|Hne]; simpl.
  - case_decide; [done|]. destruct (decide (k' = k)); [done|].
    clear IH Hk. induction o as [|[k2 v2] o IH']; simpl; [done|].
    repeat (case_decide; simpl); subst; congruence.
  - destruct Hk as [?|Hk]; [congruence|]. rewrite IH by done. simpl.
    repeat case_decide; subst; congruence.
Qed.

Lemma obj_get_set o k v k' :
  obj_get (obj_set o k v) k' = if decide (k' = k) then Some v else obj_get o k'.
Proof.
  unfold obj_get, obj_set. case_decide as Hin; [by apply assoc_replace|].
  destruct (array_index k) as [n|].
  - destruct (insert_index_split n k v o) as (o1 & o2 & -> & ->).
    rewrite map_app, list.elem_of_app in Hin.
    rewrite !assoc_app. simpl. destruct (assoc k' o1) eqn:E1.
    + case_decide; [subst; assert (assoc k o1 = None) by (apply assoc_None; naive_solver); congruence|done].
    + by case_decide.
  - rewrite assoc_app. simpl. destruct (assoc k' o) eqn:E.
    + case_decide; [subst; assert (assoc k o = None) by (apply assoc_None; naive_solver); congruence|done].
    + by case_decide.
Qed.

Lemma assoc_filter_ne o k k' :
  assoc k' (filter (fun p => p.1 <> k) o) = if decide (k' = k) then None else assoc k' o.
Proof.
  induction o as [|[k1 v1] o IH]; simpl; [by case_decide|].
  rewrite filter_cons. simpl. repeat (case_decide; simpl); subst; congruence.
Qed.

Lemma obj_get_delete o k k' :
  obj_get (obj_delete o k) k' = if decide (k' = k) then None else obj_get o k'.
Proof. apply assoc_filter_ne. Qed.

(** [obj_set] and [obj_delete] refine [insert] and [delete] on the
    dictionary the object denotes. *)
Lemma to_map_set o k v : to_map (obj_set o k v) = <[k:=v]> (to_map o).
Proof.
  apply map_eq. intros k'. rewrite lookup_to_map.
  change (assoc k' (obj_set o k v)) with (obj_get (obj_set o k v) k'). rewrite obj_get_set.
  case_decide; subst; [by rewrite lookup_insert_eq|by rewrite lookup_insert_ne, lookup_to_map].
Qed.

Lemma to_map_delete o k : to_map (obj_delete o k) = delete k (to_map o).
Proof.
  apply map_eq. intros k'. rewrite lookup_to_map.
  change (assoc k' (obj_delete o k)) with (obj_get (obj_delete o k) k'). rewrite obj_get_delete.
  case_decide; subst; [by rewrite lookup_delete_eq|by rewrite lookup_delete_ne, lookup_to_map].
Qed.

Lemma insert_index_sorted n k v o :
  array_index k = Some n -> k ∉ map fst o ->
  StronglySorted key_before (map fst o) ->
  StronglySorted key_before (map fst (insert_index n k v o)).
Proof.
  intros Hk. induction o as [|[k' v'] o IH]; simpl; intros Hin HS.
  { repeat constructor. }
  rewrite list.elem_of_cons in Hin. apply StronglySorted_cons in HS as [HF HS].
  assert (HF' : key_before k k' -> Forall (key_before k) (map fst o)).
  { intros Hb. eapply list.Forall_impl; [exact HF|]. intros x. by trans k'. }
  destruct (array_index k') as [n'|] eqn:Ek'; [case_decide|]; simpl.
  - assert (Hb : key_before k k') by (unfold key_before; rewrite Hk, Ek'; done).
    apply StronglySorted_cons. split; [constructor; auto|]. constructor; auto.
  - apply StronglySorted_cons. split; [|apply IH; naive_solver].
    rewrite (insert_index_perm n k v o). simpl. constructor; [|done].
    unfold key_before. rewrite Hk, Ek'.
    destruct (decide (n = n')) as [->|]; [|lia].
    destruct Hin. left. eapply array_index_inj; eauto.
  - assert (Hb : key_before k k') by (unfold key_before; rewrite Hk, Ek'; done).
    apply StronglySorted_cons. split; [constructor; auto|]. constructor; auto.
Qed.

Lemma obj_set_wf o k v : obj_wf o -> obj_wf (obj_set o k v).
Proof.
  unfold obj_wf, obj_set. intros [HN HS]. case_decide as Hin.
  - by rewrite keys_replace.
  - destruct (array_index k) as [n|] eqn:Ek.
    + split; [|by apply insert_index_sorted].
      rewrite (insert_index_perm n k v o). simpl. by apply list.NoDup_cons.
    + rewrite map_app. simpl. split.
      * apply list.NoDup_app. split_and!; [done| |by apply NoDup_singleton].
        intros x Hx. rewrite list_elem_of_singleton. by intros ->.
      * apply StronglySorted_app_2; [|done|repeat constructor].
        intros x1 x2 _ ->%list_elem_of_singleton. unfold key_before. rewrite Ek.
        by destruct (array_index x1).
Qed.

Lemma obj_delete_sublist o k : map fst (obj_delete o k) `sublist_of` map fst o.
Proof. apply fmap_sublist, sublist_filter. Qed.

Lemma obj_delete_wf o k : obj_wf o -> obj_wf (obj_delete o k).
Proof.
  intros [HN HS]. split.
  - eapply sublist_NoDup; [done|apply obj_delete_sublist].
  - eapply StronglySorted_sublist; [apply obj_delete_sublist|done].
Qed.

Lemma obj_values_set o k v x :
  x ∈ obj_values (obj_set o k v) -> x = v \/ x ∈ obj_values o.
Proof.
  unfold obj_values, obj_set. case_decide.
  - rewrite !list_elem_of_fmap. intros ([k1 v1] & -> & Hp). rewrite list_elem_of_fmap in Hp.
    destruct Hp as ([k2 v2] & Hp & Hin). simpl in *. case_decide; simplify_eq; [by left|].
    right. by exists (k2, v2).
  - destruct (array_index k) as [n|].
    + rewrite (insert_index_perm n k v o). simpl. rewrite list.elem_of_cons. naive_solver.
    + rewrite map_app. simpl. rewrite list.elem_of_app, list_elem_of_singleton. naive_solver.
Qed.

Lemma obj_values_delete o k x : x ∈ obj_values (obj_delete o k) -> x ∈ obj_values o.
Proof.
  unfold obj_values, obj_delete. rewrite !list_elem_of_fmap.
  intros (p & -> & Hp). apply list_elem_of_filter in Hp. naive_solver.
Qed.

Lemma assoc_elem_of o k v : assoc k o = Some v -> (k, v) ∈ o.
Proof.
  induction o as [|[k' v'] o IH]; simpl; [done|]. rewrite list.elem_of_cons.
  case_decide; [intros [= ->]; subst; by left|auto].
Qed.

Lemma obj_get_Some_in o k : k ∈ map fst o -> exists v, obj_get o k = Some v.
Proof.
  unfold obj_get. destruct (assoc k o) eqn:E; [eauto|]. by intros ?%assoc_None.
Qed.

Lemma obj_set_Forall (P : jstr * A -> Prop) o k v :
  Forall P o -> P (k, v) -> Forall P (obj_set o k v).
Proof.
  intros HP Hkv. unfold obj_set. case_decide.
  - apply Forall_fmap. eapply list.Forall_impl; [exact HP|]. intros p ?. simpl. by case_decide.
  - destruct (array_index k) as [n|].
    + rewrite (insert_index_perm n k v o). by constructor.
    + apply Forall_app. split; [done|by constructor].
Qed.

Lemma obj_delete_Forall (P : jstr * A -> Prop) o k : Forall P o -> Forall P (obj_delete o k).
Proof. apply Forall_filter_weaken. Qed.

(** Deleting an absent key gives the object back. *)
Lemma obj_delete_absent o k : k ∉ map fst o -> obj_delete o k = o.
Proof.
  intros Hk. apply filter_all. rewrite list.Forall_forall. intros [k' v'] Hin E.
  simpl in E. subst. apply Hk, list_elem_of_fmap. by exists (k, v').
Qed.

End ObjLemmas.
