(* ===== verification/Cart.v ===== *)
(** * Cart: the cart handlers of App.jsx

    The cart is the React state [cart], a plain object from the property key
    of a book id to an entry [{ book, qty }].  The handlers replace it by a
    new object computed from the previous one:

    - [addToCart(book)]: [{ ...prev, [book.id]: { book, qty: ex ? ex.qty + 1 : 1 } }];
    - [removeFromCart(id)]: a copy of [prev] without the key;
    - [updateQty(id, qty)]: [removeFromCart(id)] when [qty <= 0], else
      [{ ...prev, [id]: { ...prev[id], qty } }], where [prev[id]] may be
      [undefined] (its spread is empty);
    - the [Cart] view sums [it.book.price * it.qty] over [Object.values(cart)]
      from [0], reading [it.book.price] (a TypeError when [it.book] is absent).

    The quantity input calls [updateQty(it.book.id, Number(e.target.value))].

    [CartSpec] is the cart of the specification (section 4.4) over a finite
    map: the stored book is the one of the first add, [setQuantity] of an
    absent id does nothing.  The code refines it on quantities; the two
    places where the code does something else are theorems of their own. *)

From Stdlib Require Import Floats.
From stdpp Require Import gmap.
From S2P Require Import Prelude Text JsNumber JsValue ClientBook JsObject.

#[local] Open Scope Z_scope.
#[local] Set Warnings "-inexact-float".

(** ** Entries and handlers *)

(** [{ book, qty }]; [{ ...undefined, qty }] has no [book]. *)
Record cart_entry := mkEntry {
  ce_book : option cbook;
  ce_qty : float
}.

Abbreviation cart := (obj cart_entry).

(** ToPropertyKey of an id: its string form ([1] and ['1'] are one key). *)
Definition key_of (id : jsval) : jstr := to_string id.

Definition addToCart (book : cbook) (prev : cart) : cart :=
  let k := key_of (b_id book) in
  let qty := match obj_get prev k with
             | Some ex => (ce_qty ex + 1)%float
             | None => 1%float
             end in
  obj_set prev k (mkEntry (Some book) qty).

Definition removeFromCart (id : jsval) (prev : cart) : cart := obj_delete prev (key_of id).

Definition updateQty (id : jsval) (qty : float) (prev : cart) : cart :=
  if PrimFloat.leb qty 0 then removeFromCart id prev
  else let k := key_of id in
       obj_set prev k (mkEntry (from_option ce_book None (obj_get prev k)) qty).

(** [onChange={e => updateQty(it.book.id, Number(e.target.value))}] *)
Definition qty_input_change (id : jsval) (value : jstr) (prev : cart) : cart :=
  updateQty id (string_to_number value) prev.

(** [list.reduce((s, it) => s + it.book.price * it.qty, s)] *)
Fixpoint sum_entries (s : float) (l : list cart_entry) : result js_exn float :=
  match l with
  | [] => Ok s
  | it :: l' => match ce_book it with
                | Some b => sum_entries (s + b_price b * ce_qty it)%float l'
                | None => throw TypeError
                end
  end.

Definition cart_total (c : cart) : result js_exn float := sum_entries 0%float (obj_values c).

(** The actions a user can take on the cart. *)
Inductive cart_action :=
| AddToCart (book : cbook)
| RemoveFromCart (id : jsval)
| UpdateQty (id : jsval) (qty : float).

Definition cart_step (a : cart_action) (c : cart) : cart :=
  match a with
  | AddToCart b => addToCart b c
  | RemoveFromCart id => removeFromCart id c
  | UpdateQty id q => updateQty id q c
  end.

Definition run_cart (l : list cart_action) (c : cart) : cart := fold_left (fun c a => cart_step a c) l c.

(** ** The cart of the specification *)

Module CartSpec.

Abbreviation cmap := (gmap jstr cart_entry).

Definition add (m : cmap) (b : cbook) : cmap :=
  let k := key_of (b_id b) in
  match m !! k with
  | Some e => <[k := mkEntry (ce_book e) (ce_qty e + 1)%float]> m
  | None => <[k := mkEntry (Some b) 1%float]> m
  end.

Definition remove (m : cmap) (k : jstr) : cmap := delete k m.

Definition setQuantity (m : cmap) (k : jstr) (q : float) : cmap :=
  if PrimFloat.leb q 0 then delete k m
  else match m !! k with
       | Some e => <[k := mkEntry (ce_book e) q]> m
       | None => m
       end.

Definition spec_step (a : cart_action) (m : cmap) : cmap :=
  match a with
  | AddToCart b => add m b
  | RemoveFromCart id => remove m (key_of id)
  | UpdateQty id q => setQuantity m (key_of id) q
  end.

Definition spec_run (l : list cart_action) (m : cmap) : cmap := fold_left (fun m a => spec_step a m) l m.

(** Two carts with the same quantities under the same keys. *)
Definition qty_equiv (m1 m2 : cmap) : Prop := ce_qty <$> m1 = ce_qty <$> m2.

End CartSpec.

(** The actions on which the code and the specification agree: an update of
    a positive quantity names an id that is in the cart. *)
Definition action_ok (a : cart_action) (c : cart) : Prop :=
  match a with
  | UpdateQty id q => PrimFloat.leb q 0 = true \/ key_of id ∈ map fst c
  | _ => True
  end.

Fixpoint trace_ok (l : list cart_action) (c : cart) : Prop :=
  match l with
  | [] => True
  | a :: l' => action_ok a c /\ trace_ok l' (cart_step a c)
  end.

(** ** The cart invariant *)

(** Every entry holds a book, stored under the key of that book's id; the
    keys are unique and in property order. *)
Definition entry_ok (p : jstr * cart_entry) : Prop :=
  match ce_book p.2 with Some b => p.1 = key_of (b_id b) | None => False end.

Definition cart_inv (c : cart) : Prop := obj_wf c /\ Forall entry_ok c.

(** ** Lemmas *)

Lemma qty_of_absent (c : cart) k : k ∉ map fst c -> obj_get c k = None.
Proof. apply assoc_None. Qed.

Lemma to_map_addToCart b c :
  to_map (addToCart b c) =
  <[key_of (b_id b) := mkEntry (Some b) (match to_map c !! key_of (b_id b) with
                                         | Some ex => (ce_qty ex + 1)%float
                                         | None => 1%float end)]> (to_map c).
Proof. unfold addToCart. by rewrite to_map_set, lookup_to_map. Qed.

#[export] Instance qty_equiv_equivalence : Equivalence CartSpec.qty_equiv.
Proof. unfold CartSpec.qty_equiv. split; repeat intro; congruence. Qed.

Lemma qty_equiv_lookup m1 m2 k :
  CartSpec.qty_equiv m1 m2 -> ce_qty <$> m1 !! k = ce_qty <$> m2 !! k.
Proof. intros E. by rewrite <-!lookup_fmap, E. Qed.

Lemma qty_equiv_insert m1 m2 k e1 e2 :
  CartSpec.qty_equiv m1 m2 -> ce_qty e1 = ce_qty e2 ->
  CartSpec.qty_equiv (<[k := e1]> m1) (<[k := e2]> m2).
Proof. unfold CartSpec.qty_equiv. intros E Eq. by rewrite !fmap_insert, E, Eq. Qed.

Lemma qty_equiv_delete m1 m2 k :
  CartSpec.qty_equiv m1 m2 -> CartSpec.qty_equiv (delete k m1) (delete k m2).
Proof. unfold CartSpec.qty_equiv. intros E. by rewrite !fmap_delete, E. Qed.

(** The specification's steps only look at quantities to compute quantities. *)
#[export] Instance step_qty_proper a : Proper (CartSpec.qty_equiv ==> CartSpec.qty_equiv) (CartSpec.spec_step a).
Proof.
  intros m1 m2 E. pose proof (fun k => qty_equiv_lookup m1 m2 k E) as L.
  destruct a as [b|id|id q]; simpl.
  - unfold CartSpec.add. specialize (L (key_of (b_id b))).
    destruct (m1 !! _), (m2 !! _); simplify_eq/=; apply qty_equiv_insert; simpl; congruence.
  - by apply qty_equiv_delete.
  - unfold CartSpec.setQuantity. destruct (PrimFloat.leb q 0); [by apply qty_equiv_delete|].
    specialize (L (key_of id)).
    destruct (m1 !! _), (m2 !! _); simplify_eq/=; [by apply qty_equiv_insert|done].
Qed.

#[export] Instance run_qty_proper l : Proper (CartSpec.qty_equiv ==> CartSpec.qty_equiv) (CartSpec.spec_run l).
Proof.
  induction l as [|a l IH]; intros m1 m2 E; simpl; [done|]. apply IH. by rewrite E.
Qed.

Lemma cart_step_refines a c :
  action_ok a c -> CartSpec.qty_equiv (to_map (cart_step a c)) (CartSpec.spec_step a (to_map c)).
Proof.
  destruct a as [b|id|id q]; simpl; intros Hok.
  - rewrite to_map_addToCart. unfold CartSpec.add.
    destruct (to_map c !! _); by apply qty_equiv_insert.
  - unfold removeFromCart, CartSpec.remove. by rewrite to_map_delete.
  - unfold updateQty, CartSpec.setQuantity, removeFromCart.
    destruct (PrimFloat.leb q 0) eqn:Hq; [by rewrite to_map_delete|].
    destruct Hok as [?|Hin]; [congruence|].
    destruct (obj_get_Some_in c _ Hin) as [e He].
    rewrite to_map_set, lookup_to_map. change (assoc _ c) with (obj_get c (key_of id)).
    rewrite He. by apply qty_equiv_insert.
Qed.

Lemma sum_entries_Err s l :
  (exists e, e ∈ l /\ ce_book e = None) -> sum_entries s l = Err TypeError.
Proof.
  revert s. induction l as [|it l IH]; simpl; intros s (e & Hin & He); [set_solver|].
  rewrite list.elem_of_cons in Hin. destruct Hin as [->|Hin]; [by rewrite He|].
  destruct (ce_book it); [|done]. apply IH. eauto.
Qed.

Lemma entry_ok_get c k e : Forall entry_ok c -> obj_get c k = Some e ->
  exists b, ce_book e = Some b /\ k = key_of (b_id b).
Proof.
  intros HF He%assoc_elem_of. rewrite list.Forall_forall in HF.
  specialize (HF _ He). unfold entry_ok in HF. simpl in HF. destruct (ce_book e); eauto; done.
Qed.

Lemma cart_step_inv a c : action_ok a c -> cart_inv c -> cart_inv (cart_step a c).
Proof.
  intros Hok [Hwf HF]. destruct a as [b|id|id q]; simpl.
  - split; [by apply obj_set_wf|]. apply obj_set_Forall; [done|]. by unfold entry_ok.
  - split; [by apply obj_delete_wf|by apply obj_delete_Forall].
  - unfold updateQty, removeFromCart. destruct (PrimFloat.leb q 0) eqn:Hq.
    { split; [by apply obj_delete_wf|by apply obj_delete_Forall]. }
    destruct Hok as [?|Hin]; [congruence|].
    destruct (obj_get_Some_in c _ Hin) as [e He]. rewrite He. simpl.
    destruct (entry_ok_get c _ e HF He) as (b & Hb & Hk).
    split; [by apply obj_set_wf|]. apply obj_set_Forall; [done|]. unfold entry_ok; simpl; by rewrite Hb.
Qed.

(** ** Theorems *)

(** C4: The cart handlers refine the cart of the specification on
    quantities: along any sequence of add, remove and set-quantity actions in
    which every positive set-quantity names an id in the cart, the
    quantities under every key are those the specification computes. *)
Theorem cart_refines_quantities l c :
  trace_ok l c -> CartSpec.qty_equiv (to_map (run_cart l c)) (CartSpec.spec_run l (to_map c)).
Proof.
  revert c. induction l as [|a l IH]; intros c; simpl; [done|]. intros [Ha Hl].
  etrans; [apply IH, Hl|]. apply run_qty_proper, cart_step_refines, Ha.
Qed.

(** Every handler keeps the cart invariant along such a sequence: one
    entry per key, keys in property order, and every entry holding the book
    whose id is its key; from the empty cart. *)
Theorem cart_inv_run l : trace_ok l [] -> cart_inv (run_cart l []).
Proof.
  assert (forall c, cart_inv c -> trace_ok l c -> cart_inv (run_cart l c)) as H.
  { induction l as [|a l IH]; intros c Hc; simpl; [done|]. intros [Ha Hl].
    apply IH; [by apply cart_step_inv|done]. }
  intros. apply H; [|done]. split; [split; constructor|constructor].
Qed.

(** Under the invariant the total is a number: the sum, in the order of
    [Object.values], of price times quantity, starting from [0]. *)
Theorem cart_total_Ok c :
  cart_inv c ->
  cart_total c = Ok (fold_left (fun s it => s + from_option b_price 0 (ce_book it) * ce_qty it)%float
                               (obj_values c) 0%float).
Proof.
  intros [_ HF]. unfold cart_total, obj_values.
  enough (forall s, sum_entries s (map snd c) =
            Ok (fold_left (fun s it => s + from_option b_price 0 (ce_book it) * ce_qty it)%float
                          (map snd c) s)) by auto.
  induction HF as [|[k e] c He HF IH]; intros s; simpl; [done|].
  unfold entry_ok in He. simpl in He. destruct (ce_book e); [apply IH|done].
Qed.

(** C30: [updateQty] with a positive quantity for an id that is not in the
    cart inserts an entry without a book ([{ ...undefined, qty }]); the
    specification makes it a no-op, and the cart's total then throws a
    TypeError reading [it.book.price]. *)
Theorem updateQty_absent_total id q c :
  key_of id ∉ map fst c -> PrimFloat.leb q 0 = false ->
  cart_total (updateQty id q c) = Err TypeError.
Proof.
  intros Hin Hq. unfold updateQty, cart_total. rewrite Hq.
  rewrite (qty_of_absent c _ Hin). simpl. apply sum_entries_Err.
  exists (mkEntry None q). split; [|done].
  apply list_elem_of_fmap. exists (key_of id, mkEntry None q). split; [done|].
  apply (assoc_elem_of (A:=cart_entry)). change (obj_get (obj_set c (key_of id) (mkEntry None q)) (key_of id) = Some (mkEntry None q)).
  rewrite obj_get_set. by rewrite decide_True.
Qed.

(** C29: Adding a book already in the cart replaces the stored book by the
    one added now: the code keeps the latest snapshot, not the first one as
    the specification says, so the two carts differ whenever the books do. *)
Theorem addToCart_replaces_snapshot b c e :
  obj_get c (key_of (b_id b)) = Some e -> ce_book e <> Some b ->
  obj_get (addToCart b c) (key_of (b_id b)) = Some (mkEntry (Some b) (ce_qty e + 1)%float) /\
  to_map (addToCart b c) <> CartSpec.add (to_map c) b.
Proof.
  intros He Hb. unfold addToCart. rewrite He, obj_get_set, decide_True by done. split; [done|].
  intros E. apply (f_equal (lookup (key_of (b_id b)))) in E.
  rewrite to_map_set, lookup_insert_eq in E. unfold CartSpec.add in E.
  rewrite lookup_to_map in E. change (assoc _ c) with (obj_get c (key_of (b_id b))) in E.
  rewrite He, lookup_insert_eq in E. congruence.
Qed.

(** Clearing the quantity field ([Number('')] is [0]) removes the
    book from the cart. *)
Theorem qty_input_empty_removes id c : qty_input_change id [] c = removeFromCart id c.
Proof. reflexivity. Qed.

(** Removing an id that is not in the cart leaves it unchanged. *)
Theorem removeFromCart_absent id c : key_of id ∉ map fst c -> removeFromCart id c = c.
Proof. apply obj_delete_absent. Qed.

(** ** Scenarios *)

Definition book_a : cbook :=
  match defaultBooks with b :: _ => b | [] => mkCBook JUndef JUndef JUndef JUndef 0 JUndef [] end.

Definition book_c : cbook := match defaultBooks with [_; _; c] => c | _ => book_a end.

(** [book_a] as a later refresh could deliver it, with another price. *)
Definition book_a' : cbook := mkCBook (b_id book_a) (b_title book_a) (b_author book_a)
  (b_category book_a) 5%float (b_cover book_a) (b_searchTitle book_a).

Definition add_twice_then_zero : list cart_action :=
  [AddToCart book_a; AddToCart book_a; UpdateQty (b_id book_a) 0%float].

(** The cart scenario of the specification: adding the 9.99 book twice
    gives one entry of quantity 2 and a total of 19.98; setting its quantity
    to 0 removes it and the total is 0. *)
Example cart_scenario :
  run_cart [AddToCart book_a; AddToCart book_a] [] = [(txt "1", mkEntry (Some book_a) 2%float)] /\
  cart_total (run_cart [AddToCart book_a; AddToCart book_a] []) = Ok 19.98%float /\
  run_cart add_twice_then_zero [] = [] /\
  cart_total (run_cart add_twice_then_zero []) = Ok 0%float.
Proof. vm_compute. repeat split. Qed.

Lemma cart_refines_quantities_witness :
  trace_ok add_twice_then_zero [] /\
  CartSpec.qty_equiv (to_map (run_cart add_twice_then_zero [])) (CartSpec.spec_run add_twice_then_zero (to_map [])).
Proof.
  assert (H : trace_ok add_twice_then_zero []) by (simpl; split_and!; auto; by left).
  split; [exact H|]. apply cart_refines_quantities, H.
Defined.

Lemma cart_inv_run_witness :
  trace_ok [AddToCart book_a; AddToCart book_c] [] /\
  cart_inv (run_cart [AddToCart book_a; AddToCart book_c] []).
Proof.
  assert (H : trace_ok [AddToCart book_a; AddToCart book_c] []) by (simpl; auto).
  split; [exact H|]. apply cart_inv_run, H.
Defined.

Definition cart_two_a : cart := [(txt "1", mkEntry (Some book_a) 2%float)].

Lemma cart_total_Ok_witness :
  cart_inv cart_two_a /\
  cart_total cart_two_a =
    Ok (fold_left (fun s it => s + from_option b_price 0 (ce_book it) * ce_qty it)%float
                  (obj_values cart_two_a) 0%float).
Proof.
  assert (H : cart_inv cart_two_a).
  { split; [split|].
    - apply NoDup_singleton.
    - repeat constructor.
    - constructor; [vm_compute; reflexivity|constructor]. }
  split; [exact H|]. apply cart_total_Ok, H.
Defined.

Lemma updateQty_absent_total_witness :
  (key_of (JNum 7) ∉ map fst cart_two_a) /\ PrimFloat.leb 3 0 = false /\
  cart_total (updateQty (JNum 7) 3 cart_two_a) = Err TypeError.
Proof.
  assert (H1 : key_of (JNum 7) ∉ map fst cart_two_a) by (vm_compute; set_solver).
  assert (H2 : PrimFloat.leb 3 0 = false) by reflexivity.
  split_and!; [exact H1|exact H2|]. apply updateQty_absent_total; [exact H1|exact H2].
Defined.

Lemma addToCart_replaces_snapshot_witness :
  obj_get cart_two_a (key_of (b_id book_a')) = Some (mkEntry (Some book_a) 2%float) /\
  ce_book (mkEntry (Some book_a) 2%float) <> Some book_a' /\
  obj_get (addToCart book_a' cart_two_a) (key_of (b_id book_a')) =
    Some (mkEntry (Some book_a') (ce_qty (mkEntry (Some book_a) 2%float) + 1)%float) /\
  to_map (addToCart book_a' cart_two_a) <> CartSpec.add (to_map cart_two_a) book_a'.
Proof.
  assert (H1 : obj_get cart_two_a (key_of (b_id book_a')) = Some (mkEntry (Some book_a) 2%float))
    by (vm_compute; reflexivity).
  assert (H2 : ce_book (mkEntry (Some book_a) 2%float) <> Some book_a')
    by (vm_compute; congruence).
  destruct (addToCart_replaces_snapshot book_a' cart_two_a _ H1 H2) as [H3 H4].
  split_and!; [exact H1|exact H2|exact H3|exact H4].
Defined.

Lemma removeFromCart_absent_witness :
  (key_of (JNum 7) ∉ map fst cart_two_a) /\ removeFromCart (JNum 7) cart_two_a = cart_two_a.
Proof.
  assert (H : key_of (JNum 7) ∉ map fst cart_two_a) by (vm_compute; set_solver).
  split; [exact H|]. apply removeFromCart_absent, H.
Defined.
