(* ===== verification/Display.v ===== *)
(** * Display: the numbers the views print (App.jsx)

    The views only read the state, with one computation each: [BookCard]
    prints [Number(book.price).toFixed(2)] (line 183); the [Cart] view
    computes [total] (lines 199-200), prints "Carrito vacio" for an empty
    cart and otherwise one line per entry with
    [Number(it.book.price).toFixed(2)] (line 213) and
    [total.toFixed(2)] (line 223).

    [toFixed] is Number.prototype.toFixed (ECMA-262, 21.1.3.3) on the exact
    value [num / den] of the double: the integer [n] nearest to
    [x * 10^f] (the larger one on a tie), printed with its last [f] digits
    after a point.  [toFixed_nearest] states the choice of [n] as the
    standard does, [fixed_digits_read] that the text reads back as
    [n / 10^f] with exactly [f] decimals, and [render_cart_Err] when the
    Cart view throws. *)

From Stdlib Require Import Floats Ascii.
From S2P Require Import Prelude Text JsNumber JsValue ClientBook JsObject Cart.

#[local] Open Scope Z_scope.
#[local] Set Warnings "-inexact-float".

(** ** Number.prototype.toFixed *)

(** The integer nearest to [num / den] ([den > 0]), the larger on a tie. *)
Definition round_half_up (num den : Z) : Z :=
  let q := num / den in if decide (2 * (num mod den) < den) then q else q + 1.

(** A finite double as [(x < 0, num, den)] with [|x| = num / den]; [-0] is
    not below zero. *)
Definition exact_value (x : float) : option (bool * Z * Z) :=
  match float_parts x with
  | Some (neg, m, e) =>
      Some (neg && bool_decide (m <> 0),
            if decide (0 <= e) then m * 2 ^ e else m,
            if decide (0 <= e) then 1 else 2 ^ (- e))
  | None => None
  end.

(** Steps 11.b-c: the digits of [n] ("0" for zero); for [f > 0], padded
    with zeros to [f + 1] digits and split by a point before the last [f]. *)
Definition fixed_digits (f : nat) (n : Z) : jstr :=
  let m := N_to_txt (Z.to_N n) in
  match f with
  | O => m
  | S _ =>
      let k := length m in
      let '(m', k') := if decide (k <= f)%nat then (repeat (chr "0") (S f - k) ++ m, S f) else (m, k) in
      take (k' - f) m' ++ chr "." :: drop (k' - f) m'
  end.

(** [x.toFixed(f)]: NaN and the infinities through Number::toString
    (step 6); a sign for [x < 0] (steps 8-9); [|x| >= 10^21] through
    Number::toString (step 10); otherwise the fixed digits (step 11). *)
Definition toFixed (x : float) (f : nat) : jstr :=
  match exact_value x with
  | None => number_to_string x
  | Some (neg, num, den) =>
      let s := if neg then [chr "-"] else [] in
      if decide (10 ^ 21 * den <= num) then s ++ number_to_string (PrimFloat.abs x)
      else s ++ fixed_digits f (round_half_up (num * 10 ^ Z.of_nat f) den)
  end.

(** ** The views *)

(** [${Number(book.price).toFixed(2)}] in [BookCard]. *)
Definition card_price (book : cbook) : jstr := toFixed (to_number (JNum (b_price book))) 2.

(** One [<li>] of the Cart view: its key, title, author, price and quantity. *)
Record cart_line := mkLine {
  l_key : jsval;
  l_title : jsval;
  l_author : jsval;
  l_price : jstr;
  l_qty : float
}.

Inductive cart_view :=
| EmptyCart                                        (** <p>Carrito vacio</p> *)
| CartLines (lines : list cart_line) (total : jstr). (** the list and "Total: $..." *)

(** [list.map(it => <li key={it.book.id}> ... )]: reading [it.book.id] of
    an entry without a book throws. *)
Definition line_of (it : cart_entry) : result js_exn cart_line :=
  match ce_book it with
  | Some b => Ok (mkLine (b_id b) (b_title b) (b_author b)
                         (toFixed (to_number (JNum (b_price b))) 2) (ce_qty it))
  | None => throw TypeError
  end.

(** The [Cart] component: the total is computed before the emptiness test. *)
Definition render_cart (c : cart) : result js_exn cart_view :=
  let list := obj_values c in
  total ← sum_entries 0%float list;
  match list with
  | [] => Ok EmptyCart
  | _ => lines ← mapR line_of list; Ok (CartLines lines (toFixed total 2))
  end.

(** ** Lemmas *)

Lemma exact_value_pos x neg num den :
  exact_value x = Some (neg, num, den) -> 0 <= num /\ 0 < den.
Proof.
  unfold exact_value, float_parts.
  destruct (Prim2SF x) as [s|s| |s m e ?]; intros [= _ <- <-]; [lia|].
  case_decide; [split; [apply Z.mul_nonneg_nonneg; [lia|apply Z.pow_nonneg; lia]|lia]|].
  split; [lia|apply Z.pow_pos_nonneg; lia].
Qed.

(** The rounding leaves a remainder in [-den/2, den/2). *)
Lemma round_half_up_range num den :
  0 < den -> - den <= 2 * (num - round_half_up num den * den) < den.
Proof.
  intros Hd. unfold round_half_up.
  pose proof (Z.div_mod num den ltac:(lia)). pose proof (Z.mod_pos_bound num den Hd).
  case_decide; nia.
Qed.

(** An [n] whose remainder is in [-den/2, den/2) is the nearest integer to
    [N / den], and the larger of two nearest ones. *)
Lemma nearest_of_range N den n :
  0 < den -> - den <= 2 * (N - n * den) < den ->
  (forall n', Z.abs (n * den - N) <= Z.abs (n' * den - N)) /\
  (forall n', Z.abs (n * den - N) = Z.abs (n' * den - N) -> n' <= n).
Proof.
  intros Hd Hr. split; intros n';
    (assert (n' <= n - 1 \/ n' = n \/ n + 1 <= n') as [Hn|[->|Hn]] by lia); nia.
Qed.

(** [take j] and [drop j] of a list of at least [j >= 1] elements. *)
Lemma split_at (l : jstr) j :
  (1 <= j <= length l)%nat ->
  take j l <> [] /\ take j l ++ drop j l = l /\ length (drop j l) = (length l - j)%nat.
Proof.
  intros Hj. split_and!; [|apply take_drop|apply length_drop].
  intros Ht. apply (f_equal length) in Ht. rewrite length_take in Ht. simpl in Ht. lia.
Qed.

Lemma sum_entries_books s l t :
  sum_entries s l = Ok t -> Forall (fun it => is_Some (ce_book it)) l.
Proof.
  revert s. induction l as [|it l IH]; intros s; simpl; [constructor|].
  destruct (ce_book it) eqn:Hb; [|done]. intros Hs. constructor; [by eexists|exact (IH _ Hs)].
Qed.

(** The line of an entry holding a book. *)
Definition line_ok (it : cart_entry) (l : cart_line) : Prop :=
  exists b, ce_book it = Some b /\ l_key l = b_id b /\ l_title l = b_title b /\
            l_author l = b_author b /\ l_price l = card_price b /\ l_qty l = ce_qty it.

Lemma mapR_line_of l :
  Forall (fun it => is_Some (ce_book it)) l ->
  exists lines, mapR line_of l = Ok lines /\ Forall2 line_ok l lines.
Proof.
  induction 1 as [|it l [b Hb] _ (lines & Hl & HF)]; [by exists []|].
  exists (mkLine (b_id b) (b_title b) (b_author b) (card_price b) (ce_qty it) :: lines).
  split; [|constructor; [exists b; by split_and!|done]].
  cbn [mapR]. rewrite Hl. unfold line_of. by rewrite Hb.
Qed.

(** ** Theorems *)

(** [x.toFixed(f)] for a finite [x] below [10^21] in magnitude prints
    the sign of [x < 0] and the digits of an [n >= 0] for which
    [n / 10^f - |x|] is as close to zero as possible, the larger [n] when
    two are (ECMA-262 21.1.3.3, step 11.a). *)
Theorem toFixed_nearest x f neg num den :
  exact_value x = Some (neg, num, den) -> num < 10 ^ 21 * den ->
  exists n, toFixed x f = (if neg then [chr "-"] else []) ++ fixed_digits f n /\ 0 <= n /\
    (forall n', Z.abs (n * den - num * 10 ^ Z.of_nat f) <= Z.abs (n' * den - num * 10 ^ Z.of_nat f)) /\
    (forall n', Z.abs (n * den - num * 10 ^ Z.of_nat f) = Z.abs (n' * den - num * 10 ^ Z.of_nat f) ->
                n' <= n).
Proof.
  intros Hx Hlt. destruct (exact_value_pos _ _ _ _ Hx) as [Hnum Hden].
  set (N := num * 10 ^ Z.of_nat f).
  assert (HN : 0 <= N) by (apply Z.mul_nonneg_nonneg; [lia|apply Z.pow_nonneg; lia]).
  pose proof (round_half_up_range N den Hden) as Hr.
  exists (round_half_up N den). unfold toFixed. rewrite Hx, decide_False by lia.
  split_and!; [done|nia|apply nearest_of_range; lia ..].
Qed.

(** For [f > 0] the digits of [n >= 0] print as [a.b] with [b] of
    exactly [f] digits and [a] not empty, all decimal digits, and reading
    [a] and [b] together gives [n] back: the text denotes [n / 10^f]. *)
Theorem fixed_digits_read f n :
  (0 < f)%nat -> 0 <= n ->
  exists a b, fixed_digits f n = a ++ chr "." :: b /\ length b = f /\ a <> [] /\
    Forall (fun c => is_digit c = true) (a ++ b) /\ digits_value (a ++ b) = n.
Proof.
  intros Hf Hn. destruct f as [|f]; [lia|]. unfold fixed_digits.
  pose proof (N_to_txt_digits (Z.to_N n)) as Hdig.
  pose proof (digits_value_N_to_txt (Z.to_N n)) as Hval. rewrite Z2N.id in Hval by done.
  set (m := N_to_txt (Z.to_N n)) in *. case_decide as Hk.
  - set (m' := repeat (chr "0") (S (S f) - length m) ++ m).
    assert (Hlen : length m' = S (S f)) by (subst m'; rewrite length_app, repeat_length; lia).
    destruct (split_at m' (S (S f) - S f)) as (Ha & Hab & Hb); [lia|].
    exists (take (S (S f) - S f) m'), (drop (S (S f) - S f) m'). rewrite Hab.
    split_and!; [done|lia|done| |].
    + apply Forall_app. split; [apply Forall_forall; intros c ->%repeat_spec; done|exact Hdig].
    + subst m'. unfold chr. by rewrite digits_value_zeros.
  - destruct (split_at m (length m - S f)) as (Ha & Hab & Hb); [lia|].
    exists (take (length m - S f) m), (drop (length m - S f) m). rewrite Hab.
    split_and!; [done|lia|done|exact Hdig|exact Hval].
Qed.

(** C34: The Cart view (App.jsx lines 198-228) of a cart whose total
    [Object.values(cart).reduce((s, it) => s + it.book.price * it.qty, 0)]
    evaluates: "Carrito vacio" when the cart is empty, otherwise one line
    per entry of [Object.values(cart)], in that order, keyed by the book's
    id and showing its title, its author, the same price text as its
    [BookCard] and the entry's quantity, with that total printed by
    [toFixed(2)]. *)
Theorem render_cart_lines c total :
  cart_total c = Ok total ->
  (c = [] /\ render_cart c = Ok EmptyCart) \/
  (c <> [] /\ exists lines, render_cart c = Ok (CartLines lines (toFixed total 2)) /\
                            Forall2 line_ok (obj_values c) lines).
Proof.
  intros Ht. unfold render_cart. unfold cart_total in Ht. rewrite Ht. simpl.
  destruct c as [|p c]; [by left|right]. split; [done|].
  destruct (mapR_line_of _ (sum_entries_books _ _ _ Ht)) as (lines & Hl & HF).
  exists lines. simpl in *. by rewrite Hl.
Qed.

(** ** Checks on the spec's numbers *)

Example toFixed_samples :
  toFixed 19.98 2 = txt "19.98" /\ toFixed 9.99 2 = txt "9.99" /\ toFixed 12.5 2 = txt "12.50" /\
  toFixed 0 2 = txt "0.00" /\ toFixed (-0) 2 = txt "0.00" /\ toFixed (-5) 2 = txt "-5.00" /\
  toFixed 1.005 2 = txt "1.00" /\ toFixed (0.1 + 0.2) 2 = txt "0.30" /\ toFixed 0.005 2 = txt "0.01" /\
  toFixed 1e21 2 = txt "1e+21" /\ toFixed nan 2 = txt "NaN".
Proof. vm_compute. split_and!; reflexivity. Qed.

(** After [updateQty] on an id not in the cart, rendering the Cart view
    throws, and with it the whole [App] render. *)
Example render_after_absent_updateQty :
  render_cart (updateQty (JNum 7) 3 cart_two_a) = Err TypeError.
Proof. vm_compute. reflexivity. Qed.

(** ** Witnesses *)

Lemma toFixed_nearest_witness :
  exact_value 19.98 = Some (false, 5623870034678907, 281474976710656) /\
  5623870034678907 < 10 ^ 21 * 281474976710656 /\
  exists n, toFixed 19.98 2 = [] ++ fixed_digits 2 n /\ 0 <= n /\
    (forall n', Z.abs (n * 281474976710656 - 5623870034678907 * 10 ^ Z.of_nat 2) <=
                Z.abs (n' * 281474976710656 - 5623870034678907 * 10 ^ Z.of_nat 2)) /\
    (forall n', Z.abs (n * 281474976710656 - 5623870034678907 * 10 ^ Z.of_nat 2) =
                Z.abs (n' * 281474976710656 - 5623870034678907 * 10 ^ Z.of_nat 2) -> n' <= n).
Proof.
  assert (Hx : exact_value 19.98 = Some (false, 5623870034678907, 281474976710656)) by (vm_compute; reflexivity).
  assert (Hlt : 5623870034678907 < 10 ^ 21 * 281474976710656) by (vm_compute; reflexivity).
  split; [exact Hx|]. split; [exact Hlt|]. exact (toFixed_nearest _ 2 _ _ _ Hx Hlt).
Defined.

Lemma fixed_digits_read_witness :
  (0 < 2)%nat /\ 0 <= 1998 /\
  exists a b, fixed_digits 2 1998 = a ++ chr "." :: b /\ length b = 2%nat /\ a <> [] /\
    Forall (fun c => is_digit c = true) (a ++ b) /\ digits_value (a ++ b) = 1998.
Proof.
  assert (Hf : (0 < 2)%nat) by lia. assert (Hn : 0 <= 1998) by lia.
  split; [exact Hf|]. split; [exact Hn|]. exact (fixed_digits_read 2 1998 Hf Hn).
Defined.

Lemma render_cart_lines_witness :
  cart_total cart_two_a = Ok 19.98%float /\
  ((cart_two_a = [] /\ render_cart cart_two_a = Ok EmptyCart) \/
   (cart_two_a <> [] /\ exists lines, render_cart cart_two_a = Ok (CartLines lines (toFixed 19.98 2)) /\
                                     Forall2 line_ok (obj_values cart_two_a) lines)).
Proof.
  assert (Ht : cart_total cart_two_a = Ok 19.98%float) by (vm_compute; reflexivity).
  split; [exact Ht|]. exact (render_cart_lines _ _ Ht).
Defined.
