(* ===== verification/Sync.v ===== *)
(** * Sync: the catalog synchronization of App.jsx

    The component [App] holds its state in React hooks ([books], [allBooks],
    [categories], [query], [category], [cart], [booksVersion]) and two refs
    ([pollingRef], [isMounted]).  [app] is that state together with the
    browser resources the component acquires: the intervals still armed,
    the window listeners still registered, and the [fetch] requests in flight
    (by their URL).

    - [fetchJson] (lines 10-19): the URL gets a cache-busting [_t=<time>]
      parameter; a rejected fetch, a non-2xx status or a body [res.json()]
      cannot parse is an exception ([fetch_result]).
    - [loadBooks] (lines 40-79) is split at its only suspension point: a
      call starts a request ([start_load]); its completion ([complete])
      normalizes the payload, checks [isMounted] and publishes the snapshot,
      or, when anything in the [try] block throws, publishes [defaultBooks].
    - the lifecycle effect (lines 82-108) is [Mount] and [Unmount]; the
      interval, the [visibilitychange] and [focus] listeners and the
      refresh button start loads ([Tick], [Visibility], [Focus], [Refresh]).
    - the filtering effect (lines 111-118) runs after every step that
      changes one of its dependencies ([filter_effect]); the model runs it
      within the step, which is when React runs it relative to the next
      event.

    [step] is one event; [reachable] the states the events reach from the
    initial render. *)

From Stdlib Require Import Floats Ascii.
From stdpp Require Import sets.
From S2P Require Import Prelude Text JsNumber JsValue ClientBook Filter JsObject Cart.

#[local] Open Scope Z_scope.
#[local] Set Warnings "-inexact-float".

(** ** fetchJson *)

(** What a [fetch] settles to: a network failure, or a response with its
    [ok] flag and its parsed body ([None] when [res.json()] rejects). *)
Inductive response :=
| NetworkFailure
| HttpResponse (ok : bool) (body : option jsval).

(** [url + (url.includes('?') ? '&' : '?') + '_t=' + new Date().getTime()] *)
Definition cache_buster_url (url : jstr) (time : float) : jstr :=
  url ++ (if includes url [chr "?"] then [chr "&"] else [chr "?"]) ++ txt "_t=" ++
  number_to_string time.

(** The settled value of [fetchJson(url)]. *)
Definition fetch_result (r : response) : result js_exn jsval :=
  match r with
  | NetworkFailure => throw FetchError
  | HttpResponse ok body =>
      if ok then match body with Some v => Ok v | None => throw FetchError end
      else throw FetchError
  end.

Definition api_books : jstr := txt "/api/books".

(** ** The state of App *)

Inductive listener := VisibilityListener | FocusListener.

#[export] Instance listener_eq_dec : EqDecision listener.
Proof. solve_decision. Defined.

Inductive visibility_state := Visible | Hidden.

Record app := mkApp {
  books : list cbook;
  allBooks : list cbook;
  categories : list jsval;
  query : jstr;
  category : jstr;
  cart : Cart.cart;
  booksVersion : float;
  pollingRef : option nat;
  isMounted : bool;
  timers : list nat;             (** intervals armed by [setInterval] *)
  next_timer : nat;              (** the handle the next [setInterval] returns *)
  listeners : list listener;     (** window listeners registered *)
  in_flight : list jstr          (** URLs of the requests not yet settled *)
}.

(** The first render: the [useState] initial values; [isMounted] is
    [useRef(true)]. *)
Definition init_app : app :=
  mkApp [] [] [] [] todas [] 0%float None true [] 1 [] [].

Section Sync.
Context `{UnicodeTables}.

(** ** loadBooks *)

(** [(Array.isArray(data) ? data : []).map(o => ...)] *)
Definition normalize_payload (data : jsval) : result js_exn (list cbook) :=
  mapR normalize_record (match data with JArr l => l | _ => [] end).

(** [['Todas', ...Array.from(new Set(l.map(b => b.category))).filter(Boolean)]] *)
Definition categories_of (l : list cbook) : list jsval :=
  JStr todas :: filter (fun v => truthy v = true) (set_from (map b_category l)).

(** The body of the filtering effect: [setBooks(result)]. *)
Definition filter_effect (s : app) : app :=
  mkApp (visible (allBooks s) (query s) (category s)) (allBooks s) (categories s) (query s)
        (category s) (cart s) (booksVersion s) (pollingRef s) (isMounted s) (timers s)
        (next_timer s) (listeners s) (in_flight s).

(** [setAllBooks(l); setCategories(...); setBooksVersion(v => v + 1)], then
    the filtering effect (its dependencies [allBooks] and [booksVersion]
    changed). *)
Definition publish (l : list cbook) (s : app) : app :=
  filter_effect
    (mkApp (books s) l (categories_of l) (query s) (category s) (cart s)
           (booksVersion s + 1)%float (pollingRef s) (isMounted s) (timers s)
           (next_timer s) (listeners s) (in_flight s)).

(** The part of [loadBooks] after [await fetchJson(...)] settles: the new
    state and the value the promise of [loadBooks] resolves to. *)
Definition complete (r : response) (s : app) : app * jsval :=
  match data ← fetch_result r; normalize_payload data with
  | Ok normalized =>
      if isMounted s then (publish normalized s, JBool true) else (s, JUndef)
  | Err _ =>
      if isMounted s then (publish defaultBooks s, JBool false) else (s, JBool false)
  end.

(** The part of [loadBooks] before the [await]: a request to the cache-busted
    URL is in flight. *)
Definition start_load (time : float) (s : app) : app :=
  mkApp (books s) (allBooks s) (categories s) (query s) (category s) (cart s)
        (booksVersion s) (pollingRef s) (isMounted s) (timers s) (next_timer s)
        (listeners s) (in_flight s ++ [cache_buster_url api_books time]).

(** ** The lifecycle effect *)

(** [isMounted.current = true; loadBooks(); pollingRef.current =
    window.setInterval(...); addEventListener(...) x2] *)
Definition mount (time : float) (s : app) : app :=
  let s1 := start_load time (mkApp (books s) (allBooks s) (categories s) (query s) (category s)
                                   (cart s) (booksVersion s) (pollingRef s) true (timers s)
                                   (next_timer s) (listeners s) (in_flight s)) in
  mkApp (books s1) (allBooks s1) (categories s1) (query s1) (category s1) (cart s1)
        (booksVersion s1) (Some (next_timer s1)) (isMounted s1) (timers s1 ++ [next_timer s1])
        (S (next_timer s1)) (listeners s1 ++ [VisibilityListener; FocusListener]) (in_flight s1).

(** The cleanup: [isMounted.current = false], the interval cleared when
    [pollingRef.current !== null], both listeners removed. *)
Definition unmount (s : app) : app :=
  mkApp (books s) (allBooks s) (categories s) (query s) (category s) (cart s)
        (booksVersion s) None false
        (match pollingRef s with Some h => filter (fun t => t <> h) (timers s) | None => timers s end)
        (next_timer s)
        (filter (fun l => l <> VisibilityListener /\ l <> FocusListener) (listeners s))
        (in_flight s).

Definition set_query (q : jstr) (s : app) : app :=
  filter_effect (mkApp (books s) (allBooks s) (categories s) q (category s) (cart s)
                       (booksVersion s) (pollingRef s) (isMounted s) (timers s)
                       (next_timer s) (listeners s) (in_flight s)).

Definition set_category (c : jstr) (s : app) : app :=
  filter_effect (mkApp (books s) (allBooks s) (categories s) (query s) c (cart s)
                       (booksVersion s) (pollingRef s) (isMounted s) (timers s)
                       (next_timer s) (listeners s) (in_flight s)).

Definition set_cart (c : Cart.cart) (s : app) : app :=
  mkApp (books s) (allBooks s) (categories s) (query s) (category s) c
        (booksVersion s) (pollingRef s) (isMounted s) (timers s)
        (next_timer s) (listeners s) (in_flight s).

(** Request [i] of the requests in flight settles with [r]. *)
Definition settle (i : nat) (r : response) (s : app) : option app :=
  match in_flight s !! i with
  | Some _ =>
      let s1 := mkApp (books s) (allBooks s) (categories s) (query s) (category s) (cart s)
                      (booksVersion s) (pollingRef s) (isMounted s) (timers s)
                      (next_timer s) (listeners s) (delete i (in_flight s)) in
      Some (complete r s1).1
  | None => None
  end.

(** ** Events *)

Inductive event :=
| Mount (time : float)                       (** the lifecycle effect runs *)
| Unmount                                    (** its cleanup runs *)
| Tick (handle : nat) (time : float)         (** an interval fires *)
| Visibility (v : visibility_state) (time : float)
| Focus (time : float)
| Refresh (time : float)                     (** the Refrescar button *)
| Settle (i : nat) (r : response)            (** a request in flight settles *)
| QueryInput (q : jstr)                      (** [handleQueryChange] *)
| CategorySelect (c : jstr)                  (** the select's [onChange] *)
| CartEvent (a : cart_action).               (** the cart handlers *)

(** One event; [None] when it cannot happen in [s]: the effect runs once
    per mount, an interval fires only while armed, a listener only while
    registered, and the page's controls exist only while mounted. *)
Definition step (e : event) (s : app) : option app :=
  match e with
  | Mount t => if decide (listeners s = []) then Some (mount t s) else None
  | Unmount => if decide (listeners s <> []) then Some (unmount s) else None
  | Tick h t => if decide (h ∈ timers s) then Some (start_load t s) else None
  | Visibility v t =>
      if decide (VisibilityListener ∈ listeners s)
      then Some (match v with Visible => start_load t s | Hidden => s end) else None
  | Focus t => if decide (FocusListener ∈ listeners s) then Some (start_load t s) else None
  | Refresh t => if isMounted s then Some (start_load t s) else None
  | Settle i r => settle i r s
  | QueryInput q => if isMounted s then Some (set_query q s) else None
  | CategorySelect c => if isMounted s then Some (set_category c s) else None
  | CartEvent a => if isMounted s then Some (set_cart (cart_step a (cart s)) s) else None
  end.

Inductive reachable : app -> Prop :=
| reach_init : reachable init_app
| reach_step e s s' : reachable s -> step e s = Some s' -> reachable s'.

End Sync.

(** ** Lemmas *)

Section SyncLemmas.
Context `{UnicodeTables}.

(** What a settled load publishes: the normalized payload, or the seed
    catalog when the [try] block throws. *)
Definition loaded (r : response) : list cbook :=
  match data ← fetch_result r; normalize_payload data with
  | Ok l => l
  | Err _ => defaultBooks
  end.

Definition snapshot (s : app) : list cbook * list cbook * list jsval :=
  (books s, allBooks s, categories s).

Lemma complete_mounted r s : isMounted s = true -> (complete r s).1 = publish (loaded r) s.
Proof. intros Hm. unfold complete, loaded. by destruct (_ ≫= _); rewrite Hm. Qed.

Lemma complete_unmounted r s : isMounted s = false -> (complete r s).1 = s.
Proof. intros Hm. unfold complete. by destruct (_ ≫= _); rewrite Hm. Qed.

Lemma snapshot_publish l s :
  snapshot (publish l s) = (visible l (query s) (category s), l, categories_of l).
Proof. reflexivity. Qed.

Lemma publish_publish l1 l2 s : snapshot (publish l2 (publish l1 s)) = snapshot (publish l2 s).
Proof. reflexivity. Qed.

(** [Set] membership of a string: SameValueZero on strings is equality. *)
Lemma same_value_zero_str c v : same_value_zero (JStr c) v = true <-> v = JStr c.
Proof.
  destruct v; simpl; split; intros E; try done; try congruence.
  - apply bool_decide_eq_true in E. by subst.
  - injection E as ->. by apply bool_decide_eq_true.
Qed.

Lemma dedup_values_str c seen l :
  JStr c ∈ dedup_values seen l <-> JStr c ∈ l /\ JStr c ∉ seen.
Proof.
  revert seen. induction l as [|v l IH]; intros seen; simpl.
  { split; [intros ?%list.elem_of_nil; done|intros [?%list.elem_of_nil _]; done]. }
  destruct (existsb (same_value_zero v) seen) eqn:E.
  - rewrite IH, list.elem_of_cons. split; [naive_solver|].
    intros [[Ev|Hin] Hs]; [|done]. subst v. exfalso. apply Hs.
    apply existsb_exists in E as (w & Hw & Hsv). apply same_value_zero_str in Hsv. subst.
    by apply list_elem_of_In.
  - rewrite !list.elem_of_cons, IH, list.elem_of_cons. split.
    + intros [Ev|[Hin Hs]]; [|naive_solver]. subst v. split; [by left|].
      intros Hin%list_elem_of_In. assert (existsb (same_value_zero (JStr c)) seen = true) as E'.
      { apply existsb_exists. exists (JStr c). split; [done|]. by apply same_value_zero_str. }
      congruence.
    + intros [[Ev|Hin] Hs]; [by left|].
      destruct (same_value_zero (JStr c) v) eqn:Esv; [left; symmetry; by apply same_value_zero_str|].
      assert (JStr c <> v).
      { intros <-. assert (same_value_zero (JStr c) (JStr c) = true) by
          (by apply same_value_zero_str). congruence. }
      right. split; [done|]. set_solver.
Qed.

(** A string occurs at most once in a deduplicated list. *)
Lemma dedup_values_str_once c seen l l1 l2 :
  dedup_values seen l = l1 ++ JStr c :: l2 -> JStr c ∉ l2.
Proof.
  revert seen l1. induction l as [|v l IH]; intros seen l1 E; simpl in E.
  { by destruct l1. }
  destruct (existsb (same_value_zero v) seen); [by eapply IH|].
  destruct l1 as [|w l1]; simpl in E; injection E as E1 E2; [|by eapply IH].
  subst v. rewrite <- E2, dedup_values_str. intros [_ Hs]. apply Hs. by left.
Qed.

Definition resources_ok (s : app) : Prop :=
  timers s = option_list (pollingRef s) /\
  ((listeners s = [] /\ pollingRef s = None) \/
   (listeners s = [VisibilityListener; FocusListener] /\ isMounted s = true /\
    exists h, pollingRef s = Some h)) /\
  (isMounted s = false -> listeners s = []).

Definition books_ok (s : app) : Prop := books s = visible (allBooks s) (query s) (category s).

Lemma settle_Some i r s s' :
  settle i r s = Some s' ->
  s' = (complete r (mkApp (books s) (allBooks s) (categories s) (query s) (category s) (cart s)
                       (booksVersion s) (pollingRef s) (isMounted s) (timers s)
                       (next_timer s) (listeners s) (delete i (in_flight s)))).1.
Proof. unfold settle. case_match; congruence. Qed.

(** A settlement keeps every field but the snapshot, the version and the
    requests in flight. *)
Lemma complete_fields r s :
  let s' := (complete r s).1 in
  query s' = query s /\ category s' = category s /\ cart s' = cart s /\
  pollingRef s' = pollingRef s /\ isMounted s' = isMounted s /\ timers s' = timers s /\
  listeners s' = listeners s /\ in_flight s' = in_flight s.
Proof.
  cbv zeta. destruct (isMounted s) eqn:Hm;
    [rewrite complete_mounted by done|rewrite complete_unmounted by done]; done.
Qed.

(** The fields the lifecycle effect owns. *)
Definition same_resources (s s' : app) : Prop :=
  timers s' = timers s /\ pollingRef s' = pollingRef s /\ listeners s' = listeners s /\
  isMounted s' = isMounted s.

Lemma settle_frame i r s s' : settle i r s = Some s' -> same_resources s s'.
Proof.
  intros ->%settle_Some. unfold same_resources.
  edestruct complete_fields as (_ & _ & _ & -> & -> & -> & -> & _). done.
Qed.

(** Every event but the lifecycle effect leaves its fields alone. *)
Lemma step_frame e s s' :
  step e s = Some s' -> (exists t, e = Mount t) \/ e = Unmount \/ same_resources s s'.
Proof.
  destruct e; simpl; intros Hs; [left; eauto|right; left; done|..]; right; right;
    try (by eapply settle_frame); repeat (case_decide || case_match); simplify_eq; done.
Qed.

Lemma resources_ok_frame s s' : same_resources s s' -> resources_ok s -> resources_ok s'.
Proof. unfold resources_ok. intros (-> & -> & -> & ->) ?. done. Qed.

Lemma resources_ok_step e s s' : resources_ok s -> step e s = Some s' -> resources_ok s'.
Proof.
  intros Hr Hs. destruct (step_frame e s s' Hs) as [[t ->]|[->|Hf]];
    [| |by eapply resources_ok_frame]; destruct Hr as (Ht & Hl & Hm); simpl in Hs.
  - case_decide; simplify_eq. destruct Hl as [[El Ep]|[? _]]; [|congruence].
    unfold resources_ok. simpl. rewrite Ht, El, Ep. split_and!; [done| |done]. right. eauto.
  - case_decide; simplify_eq. destruct Hl as [[? _]|[El [_ [h Ep]]]]; [congruence|].
    unfold resources_ok, unmount. rewrite Ht, El, Ep. simpl.
    rewrite filter_cons_False, filter_nil by naive_solver.
    rewrite !filter_cons_False, filter_nil by naive_solver. auto.
Qed.

End SyncLemmas.

Section SyncTheorems.
Context `{UnicodeTables}.

(** A settlement publishes on a mounted component and only updates the
    requests in flight otherwise. *)
Lemma step_settle i r s s' :
  step (Settle i r) s = Some s' ->
  (isMounted s = true /\ s' = publish (loaded r) (mkApp (books s) (allBooks s) (categories s) (query s)
       (category s) (cart s) (booksVersion s) (pollingRef s) (isMounted s) (timers s)
       (next_timer s) (listeners s) (delete i (in_flight s)))) \/
  (isMounted s = false /\ s' = mkApp (books s) (allBooks s) (categories s) (query s)
       (category s) (cart s) (booksVersion s) (pollingRef s) (isMounted s) (timers s)
       (next_timer s) (listeners s) (delete i (in_flight s))).
Proof.
  intros ->%settle_Some. destruct (isMounted s) eqn:Hm; [left|right];
    [rewrite complete_mounted|rewrite complete_unmounted]; simpl; auto.
Qed.

Lemma reachable_resources_ok s : reachable s -> resources_ok s.
Proof.
  induction 1 as [|e s s' _ IH Hs]; [|by eapply resources_ok_step].
  unfold resources_ok. simpl. split_and!; auto.
Qed.

Lemma books_ok_step e s s' : books_ok s -> step e s = Some s' -> books_ok s'.
Proof.
  intros Hb Hs. destruct e;
    try (destruct (step_settle _ _ _ _ Hs) as [[Hm ->]|[Hm ->]]; unfold books_ok in *; done);
    simpl in Hs; repeat (case_decide || case_match); simplify_eq; unfold books_ok in *; done.
Qed.

Lemma filter_split {A} (P : A -> Prop) `{!∀ x, Decision (P x)} d t1 x t2 :
  filter P d = t1 ++ x :: t2 -> exists d1 d2, d = d1 ++ x :: d2 /\ t2 = filter P d2.
Proof.
  revert t1. induction d as [|y d IH]; intros t1 E; [by destruct t1|].
  rewrite filter_cons in E. case_decide.
  - destruct t1 as [|z t1]; simpl in E; injection E as -> E.
    + by exists [], d.
    + destruct (IH t1 E) as (d1 & d2 & -> & ->). by exists (z :: d1), d2.
  - destruct (IH t1 E) as (d1 & d2 & -> & ->). by exists (y :: d1), d2.
Qed.

(** ** Theorems *)

(** C10: A load that settles while the component is mounted with a payload
    that normalizes publishes it: [allBooks] is the normalized list,
    [categories] its categories after the sentinel, [booksVersion] grows
    by one, the visible list is refiltered, and [loadBooks] resolves to
    [true]. *)
Theorem load_success r s data l :
  isMounted s = true -> fetch_result r = Ok data -> normalize_payload data = Ok l ->
  let '(s', ret) := complete r s in
  ret = JBool true /\ allBooks s' = l /\ categories s' = categories_of l /\
  booksVersion s' = (booksVersion s + 1)%float /\ books s' = visible l (query s) (category s).
Proof. intros Hm Hr Hn. unfold complete. rewrite Hr. simpl. rewrite Hn, Hm. done. Qed.

(** C3: When anything in the [try] block throws (a rejected fetch, a
    non-2xx status, a body that is not JSON, a record that cannot be read),
    a mounted component publishes the seed catalog [defaultBooks] instead,
    [booksVersion] grows by exactly one and [loadBooks] resolves to [false]:
    no exception leaves [loadBooks]. *)
Theorem load_fallback r s e :
  isMounted s = true -> (data ← fetch_result r; normalize_payload data) = Err e ->
  let '(s', ret) := complete r s in
  ret = JBool false /\ allBooks s' = defaultBooks /\ categories s' = categories_of defaultBooks /\
  booksVersion s' = (booksVersion s + 1)%float /\
  books s' = visible defaultBooks (query s) (category s).
Proof. intros Hm He. unfold complete. rewrite He, Hm. done. Qed.

(** C9: Last completed write wins: when two loads settle one after the
    other on a mounted component, the snapshot (visible list, full list and
    categories) is the one the second load alone would have produced. *)
Theorem last_completed_wins i j r1 r2 s s1 s2 :
  isMounted s = true -> settle i r1 s = Some s1 -> settle j r2 s1 = Some s2 ->
  snapshot s2 = snapshot (publish (loaded r2) s).
Proof.
  intros Hm ->%settle_Some ->%settle_Some.
  rewrite (complete_mounted r1) by done. simpl.
  rewrite complete_mounted by done. done.
Qed.

(** In every reachable state the armed intervals are exactly the one
    [pollingRef] holds, the two window listeners are registered exactly
    while the lifecycle effect is set up, and a torn-down component holds
    no listener. *)
Theorem reachable_resources s : reachable s -> resources_ok s.
Proof. apply reachable_resources_ok. Qed.

(** C8: Teardown makes the component quiescent: in a reachable state
    where [isMounted] is false, no interval, listener or control can start a
    load, and every event but a new mount leaves the snapshot, the version
    and the cart unchanged. *)
Theorem unmounted_quiescent s e s' :
  reachable s -> isMounted s = false -> step e s = Some s' ->
  (exists t, e = Mount t) \/
  (snapshot s' = snapshot s /\ booksVersion s' = booksVersion s /\ cart s' = cart s /\
   in_flight s' `sublist_of` in_flight s).
Proof.
  intros Hr Hm Hs. destruct (reachable_resources_ok s Hr) as (Ht & Hl & Hm').
  specialize (Hm' Hm). destruct Hl as [[_ Hp]|[_ [? _]]]; [|congruence].
  rewrite Hp in Ht. simpl in Ht.
  destruct e; simpl in Hs; rewrite ?Hm, ?Ht, ?Hm' in Hs; eauto;
    repeat case_decide; simplify_eq; try set_solver.
  apply settle_Some in Hs as ->. rewrite complete_unmounted by done. right.
  unfold settle in *. simpl. split_and!; try done. apply sublist_delete.
Qed.

(** The visible list is always the filter of the current snapshot by
    the current query and category. *)
Theorem reachable_books_visible s : reachable s -> books s = visible (allBooks s) (query s) (category s).
Proof.
  induction 1 as [|e s s' _ IH Hs]; [|by eapply books_ok_step].
  symmetry. apply visible_nil.
Qed.

(** [booksVersion] grows by exactly one on each load that settles while
    mounted and is left alone by every other event. *)
Theorem version_step e s s' :
  step e s = Some s' ->
  booksVersion s' = match e with
                    | Settle _ _ => if isMounted s then (booksVersion s + 1)%float else booksVersion s
                    | _ => booksVersion s
                    end.
Proof.
  intros Hs. destruct e;
    try (destruct (step_settle _ _ _ _ Hs) as [[Hm ->]|[Hm ->]]; rewrite ?Hm; done);
    simpl in Hs; repeat (case_decide || case_match); simplify_eq; done.
Qed.

(** The category list is the sentinel followed by the distinct
    non-empty string categories of the snapshot: a string [c] is listed
    exactly when it is the sentinel or a non-empty category of a book. *)
Theorem categories_of_spec l c :
  JStr c ∈ categories_of l <-> c = todas \/ (c <> [] /\ JStr c ∈ map b_category l).
Proof.
  unfold categories_of, set_from. rewrite list.elem_of_cons, list_elem_of_filter, dedup_values_str.
  simpl. rewrite bool_decide_eq_true. split.
  - intros [E|(Hc & Hin & _)]; [left; congruence|by right].
  - intros [->|[Hc Hin]]; [by left|right]. split_and!; [done|done|set_solver].
Qed.

(** After the sentinel, no string is listed twice. *)
Theorem categories_of_once l t t1 c t2 :
  categories_of l = JStr todas :: t -> t = t1 ++ JStr c :: t2 -> JStr c ∉ t2.
Proof.
  unfold categories_of. intros [= <-] E.
  destruct (filter_split _ _ _ _ _ E) as (d1 & d2 & Ed & ->).
  intros Hin%list_elem_of_filter. destruct Hin as [_ Hin].
  by apply (dedup_values_str_once c [] (map b_category l) d1 d2).
Qed.

(** A book whose category is the string ['Todas'] makes the sentinel
    appear twice in the list of categories. *)
Theorem categories_of_todas_twice l :
  JStr todas ∈ map b_category l -> exists t, categories_of l = JStr todas :: t /\ JStr todas ∈ t.
Proof.
  intros Hin. exists (filter (fun v => truthy v = true) (set_from (map b_category l))).
  split; [done|]. apply list_elem_of_filter. split; [done|]. unfold set_from.
  apply dedup_values_str. set_solver.
Qed.

(** A response whose body is JSON but not an array counts as a
    success: the component publishes an empty catalog (only the sentinel
    category) and [loadBooks] resolves to [true]; the seed catalog is not
    used. *)
Theorem load_non_array r s data :
  isMounted s = true -> fetch_result r = Ok data -> (forall l, data <> JArr l) ->
  let '(s', ret) := complete r s in
  ret = JBool true /\ allBooks s' = [] /\ categories s' = [JStr todas] /\ books s' = [].
Proof.
  intros Hm Hr Hd. unfold complete. rewrite Hr. simpl.
  unfold normalize_payload. destruct data; try (by edestruct Hd); simpl; rewrite Hm;
    split_and!; try done; apply visible_nil.
Qed.

(** C31: A payload with a [null] (or missing) element throws a TypeError in
    the normalization, and the whole server catalog is replaced by the
    seed catalog. *)
Theorem load_null_element r s l :
  isMounted s = true -> fetch_result r = Ok (JArr l) -> (exists o, o ∈ l /\ nullish o = true) ->
  (complete r s).1 = publish defaultBooks s.
Proof.
  intros Hm Hr (o & Hin & Ho). unfold complete. rewrite Hr. simpl.
  destruct (normalize_payload (JArr l)) as [l'|e] eqn:En; [|by rewrite Hm].
  exfalso. unfold normalize_payload in En.
  assert (forall l0, o ∈ l0 -> exists e, mapR normalize_record l0 = Err e) as Hall.
  { clear En Hin. induction l0 as [|x l0 IH]; intros Hx; [set_solver|].
    simpl. apply list.elem_of_cons in Hx as [Ex|Hx].
    - subst x. destruct o; try done; by eexists.
    - destruct (normalize_record x); simpl; [|by eexists].
      destruct (IH Hx) as [e ->]. by eexists. }
  destruct (Hall l Hin) as [e He]. congruence.
Qed.

(** Two loads started at different integral times (milliseconds of
    [Date.prototype.getTime], below 2^53) request different URLs. *)
Theorem cache_buster_distinct url t1 t2 z1 z2 :
  float_to_Z_exact t1 = Some z1 -> float_to_Z_exact t2 = Some z2 ->
  Z.abs z1 <= 2 ^ 53 -> Z.abs z2 <= 2 ^ 53 -> z1 <> z2 ->
  cache_buster_url url t1 <> cache_buster_url url t2.
Proof.
  intros H1 H2 B1 B2 Hne E. unfold cache_buster_url in E.
  rewrite (number_to_string_int t1 z1), (number_to_string_int t2 z2) in E by done.
  apply app_inv_head, app_inv_head, app_inv_head in E. by apply Hne, Z_to_txt_inj.
Qed.

End SyncTheorems.

(** ** Scenarios *)

Definition mounted0 : app := mount 0%float init_app.

Definition payload1 : jsval :=
  JArr [lower_record (JNum 1) (JStr (txt "El alquimista")) (JStr (txt "Paulo Coelho"))
                     (JStr (txt "Ficcion")) (JNum 9.99)].

Definition resp1 : response := HttpResponse true (Some payload1).

Definition books1 : list cbook :=
  match normalize_payload payload1 with Ok l => l | Err _ => [] end.

Lemma mounted0_reachable : reachable mounted0.
Proof. eapply (reach_step (Mount 0) init_app); [constructor|reflexivity]. Qed.

Lemma load_success_witness :
  isMounted mounted0 = true /\ fetch_result resp1 = Ok payload1 /\
  normalize_payload payload1 = Ok books1 /\
  (let '(s', ret) := complete resp1 mounted0 in
   ret = JBool true /\ allBooks s' = books1 /\ categories s' = categories_of books1 /\
   booksVersion s' = (booksVersion mounted0 + 1)%float /\
   books s' = visible books1 (query mounted0) (category mounted0)).
Proof.
  assert (H1 : isMounted mounted0 = true) by reflexivity.
  assert (H2 : fetch_result resp1 = Ok payload1) by reflexivity.
  assert (H3 : normalize_payload payload1 = Ok books1) by (vm_compute; reflexivity).
  split_and!; [exact H1|exact H2|exact H3|]. exact (load_success resp1 mounted0 payload1 books1 H1 H2 H3).
Defined.

(** The fallback scenario of the specification: the fetch fails with a
    network error. *)
Lemma load_fallback_witness :
  isMounted mounted0 = true /\
  (data ← fetch_result NetworkFailure; normalize_payload data) = Err FetchError /\
  (let '(s', ret) := complete NetworkFailure mounted0 in
   ret = JBool false /\ allBooks s' = defaultBooks /\ categories s' = categories_of defaultBooks /\
   booksVersion s' = (booksVersion mounted0 + 1)%float /\
   books s' = visible defaultBooks (query mounted0) (category mounted0)).
Proof.
  assert (H1 : isMounted mounted0 = true) by reflexivity.
  assert (H2 : (data ← fetch_result NetworkFailure; normalize_payload data) = Err FetchError)
    by reflexivity.
  split_and!; [exact H1|exact H2|]. exact (load_fallback NetworkFailure mounted0 FetchError H1 H2).
Defined.

Definition two_loads : app := start_load 5%float mounted0.

Lemma last_completed_wins_witness :
  isMounted two_loads = true /\
  exists s1 s2, settle 0 NetworkFailure two_loads = Some s1 /\ settle 0 resp1 s1 = Some s2 /\
    snapshot s2 = snapshot (publish (loaded resp1) two_loads).
Proof.
  assert (H1 : isMounted two_loads = true) by reflexivity.
  split; [exact H1|].
  destruct (settle 0 NetworkFailure two_loads) as [s1|] eqn:E1; [|vm_compute in E1; discriminate E1].
  pose proof (settle_Some _ _ _ _ E1) as Es1.
  destruct (settle 0 resp1 s1) as [s2|] eqn:E2; [|subst s1; vm_compute in E2; discriminate E2].
  exists s1, s2. split_and!; [reflexivity|exact E2|].
  exact (last_completed_wins 0 0 NetworkFailure resp1 two_loads s1 s2 H1 E1 E2).
Defined.

Definition unmounted0 : app := unmount mounted0.

Lemma unmounted0_reachable : reachable unmounted0.
Proof. eapply (reach_step Unmount mounted0); [apply mounted0_reachable|reflexivity]. Qed.

Lemma reachable_resources_witness : reachable unmounted0 /\ resources_ok unmounted0.
Proof.
  split; [apply unmounted0_reachable|]. apply reachable_resources, unmounted0_reachable.
Defined.

Lemma unmounted_quiescent_witness :
  reachable unmounted0 /\ isMounted unmounted0 = false /\
  exists s', step (Settle 0 resp1) unmounted0 = Some s' /\
  ((exists t, Settle 0 resp1 = Mount t) \/
   (snapshot s' = snapshot unmounted0 /\ booksVersion s' = booksVersion unmounted0 /\
    cart s' = cart unmounted0 /\ in_flight s' `sublist_of` in_flight unmounted0)).
Proof.
  assert (H2 : isMounted unmounted0 = false) by reflexivity.
  split_and!; [apply unmounted0_reachable|exact H2|].
  destruct (step (Settle 0 resp1) unmounted0) as [s'|] eqn:E; [|vm_compute in E; discriminate E].
  exists s'. split; [reflexivity|].
  exact (unmounted_quiescent unmounted0 (Settle 0 resp1) s' unmounted0_reachable H2 E).
Defined.

Lemma reachable_books_visible_witness :
  reachable unmounted0 /\
  books unmounted0 = visible (allBooks unmounted0) (query unmounted0) (category unmounted0).
Proof.
  split; [apply unmounted0_reachable|]. apply reachable_books_visible, unmounted0_reachable.
Defined.

Lemma version_step_witness :
  exists s', step (Settle 0 resp1) mounted0 = Some s' /\
  booksVersion s' = (if isMounted mounted0 then (booksVersion mounted0 + 1)%float
                     else booksVersion mounted0).
Proof.
  destruct (step (Settle 0 resp1) mounted0) as [s'|] eqn:E; [|vm_compute in E; discriminate E].
  exists s'. split; [reflexivity|]. exact (version_step (Settle 0 resp1) mounted0 s' E).
Defined.

Definition seed_categories_tail : list jsval := [JStr (txt "Ficcion"); JStr (txt "Clasicos");
                                                JStr (txt "Divulgacion")].

Lemma categories_of_once_witness :
  categories_of defaultBooks = JStr todas :: seed_categories_tail /\
  seed_categories_tail = [] ++ JStr (txt "Ficcion") :: [JStr (txt "Clasicos"); JStr (txt "Divulgacion")] /\
  JStr (txt "Ficcion") ∉ [JStr (txt "Clasicos"); JStr (txt "Divulgacion")].
Proof.
  assert (H1 : categories_of defaultBooks = JStr todas :: seed_categories_tail) by (vm_compute; reflexivity).
  assert (H2 : seed_categories_tail =
               [] ++ JStr (txt "Ficcion") :: [JStr (txt "Clasicos"); JStr (txt "Divulgacion")])
    by reflexivity.
  split_and!; [exact H1|exact H2|]. exact (categories_of_once _ _ _ _ _ H1 H2).
Defined.

Definition todas_book : cbook := catalog_book (txt "Sapiens") todas.

Lemma categories_of_todas_twice_witness :
  JStr todas ∈ map b_category [todas_book] /\
  exists t, categories_of [todas_book] = JStr todas :: t /\ JStr todas ∈ t.
Proof.
  assert (H : JStr todas ∈ map b_category [todas_book]) by (simpl; left).
  split; [exact H|]. exact (categories_of_todas_twice [todas_book] H).
Defined.

Definition resp_object : response := HttpResponse true (Some (JObj [(txt "books", payload1)])).

Lemma load_non_array_witness :
  isMounted mounted0 = true /\ fetch_result resp_object = Ok (JObj [(txt "books", payload1)]) /\
  (forall l, JObj [(txt "books", payload1)] <> JArr l) /\
  (let '(s', ret) := complete resp_object mounted0 in
   ret = JBool true /\ allBooks s' = [] /\ categories s' = [JStr todas] /\ books s' = []).
Proof.
  assert (H1 : isMounted mounted0 = true) by reflexivity.
  assert (H2 : fetch_result resp_object = Ok (JObj [(txt "books", payload1)])) by reflexivity.
  assert (H3 : forall l, JObj [(txt "books", payload1)] <> JArr l) by discriminate.
  split_and!; [exact H1|exact H2|exact H3|]. exact (load_non_array _ _ _ H1 H2 H3).
Defined.

Definition resp_null : response := HttpResponse true (Some (JArr [JNull])).

Lemma load_null_element_witness :
  isMounted mounted0 = true /\ fetch_result resp_null = Ok (JArr [JNull]) /\
  (exists o, o ∈ [JNull] /\ nullish o = true) /\
  (complete resp_null mounted0).1 = publish defaultBooks mounted0.
Proof.
  assert (H1 : isMounted mounted0 = true) by reflexivity.
  assert (H2 : fetch_result resp_null = Ok (JArr [JNull])) by reflexivity.
  assert (H3 : exists o, o ∈ [JNull] /\ nullish o = true) by (exists JNull; split; [left|reflexivity]).
  split_and!; [exact H1|exact H2|exact H3|]. exact (load_null_element _ _ _ H1 H2 H3).
Defined.

Lemma cache_buster_distinct_witness :
  float_to_Z_exact 1700000000000%float = Some 1700000000000 /\
  float_to_Z_exact 1700000000001%float = Some 1700000000001 /\
  Z.abs 1700000000000 <= 2 ^ 53 /\ Z.abs 1700000000001 <= 2 ^ 53 /\
  1700000000000 <> 1700000000001 /\
  cache_buster_url api_books 1700000000000%float <> cache_buster_url api_books 1700000000001%float.
Proof.
  assert (H1 : float_to_Z_exact 1700000000000%float = Some 1700000000000) by (vm_compute; reflexivity).
  assert (H2 : float_to_Z_exact 1700000000001%float = Some 1700000000001) by (vm_compute; reflexivity).
  assert (H3 : Z.abs 1700000000000 <= 2 ^ 53) by lia.
  assert (H4 : Z.abs 1700000000001 <= 2 ^ 53) by lia.
  assert (H5 : 1700000000000 <> 1700000000001) by lia.
  split_and!; [exact H1|exact H2|exact H3|exact H4|exact H5|].
  exact (cache_buster_distinct _ _ _ _ _ H1 H2 H3 H4 H5).
Defined.
