(* ===== verification/Api.v ===== *)
(** * Api: the service helpers of services/api.js

    api.js exports three async functions that fetch the catalog without
    the cache buster of App.jsx, trying three base URLs in turn
    ([tryUrls]): the Vite proxy, then the two default Kestrel addresses.
    [getBooks] and [getCategoryBooks] append an optional query parameter
    encoded with [encodeURIComponent]; all three normalize the payload with
    [normalizeBook], which accepts either casing of each field.

    The network is an oracle [net] telling what a [fetch] of each URL
    settles to; each function returns its outcome (the value its promise
    resolves to, or the exception it rejects with) and the URLs it
    requested, in order.  App.jsx does not import this module. *)

From Stdlib Require Import Floats Ascii.
From stdpp Require Import sets.
From S2P Require Import Prelude Text JsNumber JsValue ClientBook Sync.

#[local] Open Scope Z_scope.

(** ** encodeURIComponent *)

(** The characters [encodeURIComponent] leaves alone:
    [A-Z a-z 0-9 - _ . ! ~ * ' ( )]. *)
Definition uri_unreserved (c : N) : bool :=
  bool_decide ((65 <= c <= 90) \/ (97 <= c <= 122) \/ (48 <= c <= 57))%N ||
  bool_decide (c ∈ map chr ["-"; "_"; "."; "!"; "~"; "*"; "'"; "("; ")"]%char).

Definition hex_digit (d : N) : N := if decide (d < 10)%N then (48 + d)%N else (55 + d)%N.

(** [%XX] for one byte. *)
Definition pct (b : N) : jstr := [chr "%"; hex_digit (b / 16); hex_digit (b mod 16)].

(** The UTF-8 bytes of a code point. *)
Definition utf8 (cp : N) : list N :=
  if decide (cp < 0x80)%N then [cp]
  else if decide (cp < 0x800)%N then [0xC0 + cp / 64; 0x80 + cp mod 64]%N
  else if decide (cp < 0x10000)%N then [0xE0 + cp / 4096; 0x80 + (cp / 64) mod 64; 0x80 + cp mod 64]%N
  else [0xF0 + cp / 262144; 0x80 + (cp / 4096) mod 64; 0x80 + (cp / 64) mod 64; 0x80 + cp mod 64]%N.

Definition is_high_surrogate (c : N) : bool := bool_decide (0xD800 <= c <= 0xDBFF)%N.
Definition is_low_surrogate (c : N) : bool := bool_decide (0xDC00 <= c <= 0xDFFF)%N.

(** [encodeURIComponent(s)]: a URIError on a lone surrogate. *)
Fixpoint encode_uri (s : jstr) : result js_exn jstr :=
  match s with
  | [] => Ok []
  | c :: s' =>
      if uri_unreserved c then r ← encode_uri s'; Ok (c :: r)
      else if is_low_surrogate c then throw URIError
      else if is_high_surrogate c then
        match s' with
        | c2 :: s'' =>
            if is_low_surrogate c2 then
              r ← encode_uri s'';
              Ok (concat (map pct (utf8 ((c - 0xD800) * 0x400 + (c2 - 0xDC00) + 0x10000)%N)) ++ r)
            else throw URIError
        | [] => throw URIError
        end
      else r ← encode_uri s'; Ok (concat (map pct (utf8 c)) ++ r)
  end.

(** ** fetchJson and tryUrls *)

(** [fetchJson(url)]: the parsed body of a response with [res.ok], an
    [Error] otherwise (no cache-busting, unlike App.jsx). *)
Definition fetchJson (net : jstr -> response) (url : jstr) : result js_exn jsval := fetch_result (net url).
Arguments fetchJson net url /.

(** [tryUrls(paths)]: the first successful [fetchJson], else the last
    error ([lastErr ?? new Error(...)]); with the URLs requested. *)
Fixpoint tryUrls (net : jstr -> response) (paths : list jstr) (lastErr : option js_exn) :
    result js_exn jsval * list jstr :=
  match paths with
  | [] => (Err (from_option id FetchError lastErr), [])
  | p :: ps =>
      match fetchJson net p with
      | Ok data => (Ok data, [p])
      | Err e => let '(r, req) := tryUrls net ps (Some e) in (r, p :: req)
      end
  end.

(** ** normalizeBook *)

Record api_book := mkApiBook {
  a_id : jsval;
  a_title : jsval;
  a_author : jsval;
  a_category : jsval;
  a_price : float;
  a_cover : jsval
}.

(** [normalizeBook(o)]: [null] for a falsy [o]. *)
Definition normalizeBook (o : jsval) : result js_exn (option api_book) :=
  if negb (truthy o) then Ok None
  else id ← get_either o (txt "id") (txt "Id");
       title ← get_either o (txt "title") (txt "Title");
       author ← get_either o (txt "author") (txt "Author");
       category ← get_either o (txt "category") (txt "Category");
       price ← get_either o (txt "price") (txt "Price");
       cover ← get_either o (txt "cover") (txt "Cover");
       Ok (Some (mkApiBook id (coalesce title (JStr [])) (coalesce author (JStr []))
                           (coalesce category (JStr [])) (to_number (coalesce price (JNum 0)))
                           (coalesce cover JNull))).

(** [.filter(Boolean)] on a list of records and [null]s. *)
Fixpoint filter_some {A} (l : list (option A)) : list A :=
  match l with
  | [] => []
  | Some x :: l' => x :: filter_some l'
  | None :: l' => filter_some l'
  end.

(** [data.map(normalizeBook).filter(Boolean)] *)
Definition normalize_all (l : list jsval) : result js_exn (list api_book) :=
  bs ← mapR normalizeBook l; Ok (filter_some bs).

(** ** The three exported functions *)

Definition bases (path : jstr) : list jstr :=
  [path; txt "https://localhost:5001" ++ path; txt "http://localhost:5000" ++ path].

(** [title ? `?<param>=${encodeURIComponent(title)}` : ''] *)
Definition query_part (param : jstr) (v : jsval) : result js_exn jstr :=
  if truthy v then e ← encode_uri (to_string v); Ok ([chr "?"] ++ param ++ [chr "="] ++ e)
  else Ok [].

Definition is_string (v : jsval) : bool := match v with JStr _ => true | _ => false end.

(** [getBooks(title)] *)
Definition getBooks (net : jstr -> response) (title : jsval) : result js_exn (list api_book) * list jstr :=
  match query_part (txt "title") title with
  | Err e => (Err e, [])
  | Ok q =>
      let '(r, req) := tryUrls net (bases (api_books ++ q)) None in
      (data ← r; match data with JArr l => normalize_all l | _ => Ok [] end, req)
  end.

(** [getCategories()] *)
Definition getCategories (net : jstr -> response) : result js_exn (list jsval) * list jstr :=
  let '(r, req) := tryUrls net (bases (txt "/api/categories")) None in
  (data ← r;
   match data with
   | JArr [] => Ok []
   | JArr (d0 :: rest) =>
       if is_string d0 then Ok (d0 :: rest)
       else bs ← normalize_all (d0 :: rest); Ok (set_from (map a_category bs))
   | _ => Ok []
   end, req).

(** [getCategoryBooks(name)] *)
Definition getCategoryBooks (net : jstr -> response) (name : jsval) : result js_exn (list api_book) * list jstr :=
  match query_part (txt "name") name with
  | Err e => (Err e, [])
  | Ok q =>
      let '(r, req) := tryUrls net (bases (txt "/api/categories" ++ q)) None in
      (data ← r;
       match data with
       | JArr [] => Ok []
       | JArr (d0 :: rest) => if is_string d0 then Ok [] else normalize_all (d0 :: rest)
       | _ => Ok []
       end, req)
  end.

(** ** Theorems *)

(** The characters that end or split a query parameter. *)
Definition url_delims : list N := map chr ["&"; "#"; "="; "?"; "/"; "+"; " "; ":"]%char.

Lemma url_delims_values x :
  x ∈ url_delims -> (x = 32 \/ x = 35 \/ x = 38 \/ x = 43 \/ x = 47 \/ x = 58 \/ x = 61 \/ x = 63)%N.
Proof.
  unfold url_delims. simpl. intros Hx.
  repeat (apply list.elem_of_cons in Hx as [->|Hx]; [lia|]).
  by apply list.elem_of_nil in Hx.
Qed.

Lemma hex_digit_not_delim d : hex_digit d ∉ url_delims.
Proof. intros Hd%url_delims_values. unfold hex_digit in Hd. case_decide; lia. Qed.

Lemma unreserved_not_delim c : uri_unreserved c = true -> c ∉ url_delims.
Proof.
  intros Hu Hd. unfold url_delims in Hd. simpl in Hd.
  repeat (apply list.elem_of_cons in Hd as [->|Hd]; [discriminate Hu|]).
  by apply list.elem_of_nil in Hd.
Qed.

Lemma pct_not_delim bs : Forall (fun c => c ∉ url_delims) (concat (map pct bs)).
Proof.
  induction bs as [|b bs IH]; simpl; [constructor|].
  repeat constructor; [|apply hex_digit_not_delim|apply hex_digit_not_delim|exact IH].
  intros Hd%url_delims_values. revert Hd. vm_compute. intuition discriminate.
Qed.

(** [encodeURIComponent] never outputs a character that would end the
    parameter or start another one. *)
Theorem encode_uri_no_delims s e : encode_uri s = Ok e -> Forall (fun c => c ∉ url_delims) e.
Proof.
  revert s e. fix IH 1. intros [|c s] e; simpl; [intros [= <-]; constructor|].
  destruct (uri_unreserved c) eqn:Hu.
  { destruct (encode_uri s) eqn:Hs; simpl; [|done]. intros [= <-].
    constructor; [by apply unreserved_not_delim|exact (IH _ _ Hs)]. }
  destruct (is_low_surrogate c); [done|]. destruct (is_high_surrogate c).
  - destruct s as [|c2 s]; [done|]. destruct (is_low_surrogate c2); [|done].
    destruct (encode_uri s) eqn:Hs; simpl; [|done]. intros [= <-].
    apply Forall_app. split; [apply pct_not_delim|exact (IH _ _ Hs)].
  - destruct (encode_uri s) eqn:Hs; simpl; [|done]. intros [= <-].
    apply Forall_app. split; [apply pct_not_delim|exact (IH _ _ Hs)].
Qed.

(** [tryUrls] requests the URLs in order up to the first that succeeds and
    resolves to its payload. *)
Theorem tryUrls_first_success net pre p post e0 data :
  Forall (fun q => exists e, fetch_result (net q) = Err e) pre ->
  fetch_result (net p) = Ok data ->
  tryUrls net (pre ++ p :: post) e0 = (Ok data, pre ++ [p]).
Proof.
  intros Hpre Hp. revert e0. induction Hpre as [|q pre [e He] _ IH]; intros e0; simpl.
  - by rewrite Hp.
  - rewrite He, IH. done.
Qed.

(** When every URL fails, [tryUrls] has requested all of them and rejects
    with the last error. *)
Theorem tryUrls_all_fail net paths e0 :
  paths <> [] -> Forall (fun q => fetch_result (net q) = Err FetchError) paths ->
  tryUrls net paths e0 = (Err FetchError, paths).
Proof.
  intros Hne Hf. revert e0 Hne. induction Hf as [|q ps Hq _ IH]; intros e0 Hne; [done|]. simpl.
  rewrite Hq. destruct ps as [|q' ps]; [done|]. rewrite IH by done. done.
Qed.

(** What [normalizeBook] makes of a string: strings have none of the
    fields, so a non-empty one gives an empty record. *)
Definition empty_api_book : api_book := mkApiBook JUndef (JStr []) (JStr []) (JStr []) 0%float JNull.

Definition str_book (c : jstr) : option api_book :=
  if bool_decide (c <> []) then Some empty_api_book else None.

Lemma mapR_normalizeBook_strs cats : mapR normalizeBook (map JStr cats) = Ok (map str_book cats).
Proof.
  induction cats as [|c cats IH]; [done|]. cbn [mapR map]. rewrite IH.
  unfold normalizeBook, str_book. simpl. case_bool_decide; reflexivity.
Qed.

Lemma filter_some_str_books cats :
  filter_some (map str_book cats) = replicate (length (filter (fun c => c <> []) cats)) empty_api_book.
Proof.
  induction cats as [|c cats IH]; [done|]. simpl. unfold str_book at 1.
  rewrite filter_cons. case_bool_decide; case_decide; simpl; rewrite ?IH; done.
Qed.

Lemma set_from_empty_books n : set_from (map a_category (replicate (S n) empty_api_book)) = [JStr []].
Proof. unfold set_from. simpl. f_equal. induction n as [|n IH]; [done|]. exact IH. Qed.

(** C33: When the first category the service lists is [null] (a book without a
    category, sorted first), [getCategories] takes the strings for books:
    it reads their [category] fields, which strings do not have, and
    answers [['']] instead of the category names. *)
Theorem getCategories_null_first net cats :
  net (txt "/api/categories") = HttpResponse true (Some (JArr (JNull :: map JStr cats))) ->
  (exists c, c ∈ cats /\ c <> []) ->
  getCategories net = (Ok [JStr []], [txt "/api/categories"]).
Proof.
  intros Hnet (c & Hin & Hc). unfold getCategories. simpl. rewrite Hnet. simpl.
  unfold normalize_all. simpl. rewrite mapR_normalizeBook_strs. simpl.
  rewrite filter_some_str_books.
  destruct (length (filter (fun c => c <> []) cats)) as [|n] eqn:Hl.
  - exfalso. apply length_zero_iff_nil in Hl.
    assert (c ∈ filter (fun c => c <> []) cats) as Hf by (apply list_elem_of_filter; done).
    rewrite Hl in Hf. by apply list.elem_of_nil in Hf.
  - by rewrite set_from_empty_books.
Qed.

Lemma tryUrls_head net p ps e0 : exists rest, (tryUrls net (p :: ps) e0).2 = p :: rest.
Proof.
  simpl. destruct (fetch_result (net p)); [by eexists|].
  destruct (tryUrls net ps (Some e)). by eexists.
Qed.

Lemma getBooks_requests net title q :
  query_part (txt "title") title = Ok q ->
  (getBooks net title).2 = (tryUrls net (bases (api_books ++ q)) None).2.
Proof. intros Hq. unfold getBooks. rewrite Hq. by destruct (tryUrls net (bases (api_books ++ q)) None). Qed.

(** The first URL [getBooks] requests carries the encoded title as its
    only query parameter. *)
Theorem getBooks_first_url net title e :
  truthy title = true -> encode_uri (to_string title) = Ok e ->
  exists rest, (getBooks net title).2 = (api_books ++ [chr "?"] ++ txt "title" ++ [chr "="] ++ e) :: rest.
Proof.
  intros Ht He. rewrite (getBooks_requests net title ([chr "?"] ++ txt "title" ++ [chr "="] ++ e)).
  - apply tryUrls_head.
  - unfold query_part. by rewrite Ht, He.
Qed.

(** ** Examples *)

Definition net_null_category (u : jstr) : response :=
  if decide (u = txt "/api/categories")
  then HttpResponse true (Some (JArr [JNull; JStr (txt "Ficcion"); JStr (txt "Clasicos")]))
  else NetworkFailure.

Lemma getCategories_null_first_witness :
  net_null_category (txt "/api/categories") =
    HttpResponse true (Some (JArr (JNull :: map JStr [txt "Ficcion"; txt "Clasicos"]))) /\
  (exists c, c ∈ [txt "Ficcion"; txt "Clasicos"] /\ c <> []) /\
  getCategories net_null_category = (Ok [JStr []], [txt "/api/categories"]).
Proof.
  assert (H1 : net_null_category (txt "/api/categories") =
    HttpResponse true (Some (JArr (JNull :: map JStr [txt "Ficcion"; txt "Clasicos"])))) by reflexivity.
  assert (H2 : exists c, c ∈ [txt "Ficcion"; txt "Clasicos"] /\ c <> [])
    by (exists (txt "Ficcion"); split; [left|discriminate]).
  split_and!; [exact H1|exact H2|]. exact (getCategories_null_first _ _ H1 H2).
Defined.

(** A title with [&] and [=] stays one parameter; the proxy URL is tried
    first and the Kestrel addresses after it. *)
Example getBooks_encodes_title :
  (getBooks (fun _ => NetworkFailure) (JStr (txt "a&b=c"))) =
    (Err FetchError, [txt "/api/books?title=a%26b%3Dc";
                      txt "https://localhost:5001/api/books?title=a%26b%3Dc";
                      txt "http://localhost:5000/api/books?title=a%26b%3Dc"]).
Proof. vm_compute. reflexivity. Qed.
