(* ===== verification/Wire.v ===== *)
(** * Wire: from the store to the client's snapshot (Program.cs to App.jsx)

    The data flow of the shop: [GET /api/books] reads the store, the
    minimal API writes [Results.Ok(books)] with the web defaults of
    System.Text.Json (camelCase property names, [null] written for an
    absent string), and the client's [res.json()] parses the text back.
    This file models that boundary and composes the components across it.

    - [web_json]: the body of a 200 response, [serialize_list] of
      [BookJson] with the camelCase naming policy; [json_value]: the
      ECMAScript value [JSON.parse] builds from it.  An [int] is exact in a
      double; a double is written with its shortest round-trip digits,
      which [JSON.parse] reads back to the same double.  The JSON text
      is modelled in [JsonText]; [TextLayer] shows that the text bodies
      give the values computed here.
    - [to_response]: the response [fetch] settles to, by status (2xx is
      [ok]); a [204] has no body, so [res.json()] rejects.
    - [store_to_snapshot]: after a successful [GET /api/books] on a file
      holding a catalog, a mounted App publishes exactly the records the
      specification derives from the catalog ([client_book]): the id as a
      number, missing strings as [''], the price unchanged, the placeholder
      cover for a missing, empty or ["string"] cover. *)

From Stdlib Require Import Floats Ascii.
From S2P Require Import Prelude Text BookJson BooksRepository Endpoints JsNumber JsValue ClientBook Filter JsObject Cart Sync Api.

#[local] Open Scope Z_scope.

(** ** The response body *)

(** [JsonNamingPolicy.CamelCase] on the property names of [Book], which are
    single capitalized words: the first letter lower-cased. *)
Definition camel (k : jstr) : jstr :=
  match k with
  | c :: r => (if decide (65 <= c <= 90)%N then (c + 32)%N else c) :: r
  | [] => []
  end.

Fixpoint camel_node (n : jnode) : jnode :=
  match n with
  | NArr l => NArr (map camel_node l)
  | NObj ps => NObj (map (fun '(k, v) => (camel k, camel_node v)) ps)
  | _ => n
  end.

Section Wire.
Context `{OrdinalCasing}.

(** [Results.Ok(books)]: the list serialized with the web defaults. *)
Definition web_json (l : list slot) : result exn jnode := camel_node <$> serialize_list l.

(** [JSON.parse] of the text of a document. *)
Fixpoint json_value (n : jnode) : jsval :=
  match n with
  | NNull => JNull
  | NBool b => JBool b
  | NNum (IntLit z) => JNum (Z_to_double z)
  | NNum (DblLit f) => JNum f
  | NStr s => JStr s
  | NArr l => JArr (map json_value l)
  | NObj ps => JObj (map (fun '(k, v) => (k, json_value v)) ps)
  end.

(** What [fetch] settles to for a handler's result: [ok] for a 2xx status,
    with the parsed body when there is one.  A serialization exception
    while writing a 200 becomes a 500. *)
Definition to_response (h : http_result) : response :=
  match h with
  | OkBooks l =>
      match web_json l with
      | Ok n => HttpResponse true (Some (json_value n))
      | Err _ => HttpResponse false None
      end
  | OkBook b =>
      match camel_node <$> serialize_book b with
      | Ok n => HttpResponse true (Some (json_value n))
      | Err _ => HttpResponse false None
      end
  | OkCategories l => HttpResponse true (Some (JArr (map (fun c => json_value (str_node c)) l)))
  | Created _ b =>
      match camel_node <$> serialize_book b with
      | Ok n => HttpResponse true (Some (json_value n))
      | Err _ => HttpResponse false None
      end
  | NoContent => HttpResponse true None
  | NotFound | BadRequest _ | ServerError _ => HttpResponse false None
  end.

End Wire.

(** ** What the client shows for a stored book *)

Section Shown.
Context `{UnicodeTables}.

(** The record the specification (sections 3 and 4.2) derives from a
    stored book: missing strings become [''], the price is kept, the cover
    placeholder is parameterized by the title or ['Libro'] when the title
    is empty. *)
Definition client_book (b : book) : cbook :=
  let t := default [] (Title b) in
  let ph := JStr (placeholder_prefix ++ (if decide (t = []) then txt "Libro" else t)) in
  mkCBook (JNum (Z_to_double (Id b))) (JStr t) (JStr (default [] (Author b)))
          (JStr (default [] (Category b))) (Price b)
          (match Cover b with
           | Some cv => if decide (cv = txt "string" \/ cv = []) then ph else JStr cv
           | None => ph
           end)
          (normalizeString (JStr t)).

End Shown.

(** ** Lemmas *)

Definition opt_val (s : option jstr) : jsval := match s with None => JNull | Some s => JStr s end.

(** The object [JSON.parse] gives for a stored book. *)
Definition web_obj (b : book) : jsval :=
  JObj [(txt "id", JNum (Z_to_double (Id b))); (txt "title", opt_val (Title b));
        (txt "author", opt_val (Author b)); (txt "category", opt_val (Category b));
        (txt "price", JNum (Price b)); (txt "cover", opt_val (Cover b))].

Section Proofs.
Context `{OrdinalCasing} `{UnicodeTables}.

Lemma serialize_web b :
  is_finite (Price b) = true -> exists n, serialize_book b = Ok n /\ json_value (camel_node n) = web_obj b.
Proof.
  intros Hp. eexists. unfold serialize_book, double_node. rewrite Hp. split; [reflexivity|].
  by destruct b as [? [] [] [] ? []].
Qed.

(** The body of [Results.Ok] for a list of storable books, as the client
    parses it. *)
Lemma web_json_value c :
  Forall wf_book c -> json_value <$> web_json (map Some c) = Ok (JArr (map web_obj c)).
Proof.
  unfold web_json, serialize_list. induction 1 as [|b c [_ Hp] _ IH]; [done|].
  destruct (serialize_web b Hp) as (n & Hn & Hv).
  cbn [map mapR serialize_slot]. rewrite Hn.
  destruct (mapR serialize_slot (map Some c)) as [ns|e]; cbn [mbind result_bind fmap result_fmap] in IH |- *;
    [|done].
  injection IH as IH. simpl. by rewrite Hv, IH.
Qed.

Lemma get_web b :
  get (web_obj b) (txt "id") = Ok (JNum (Z_to_double (Id b))) /\
  get (web_obj b) (txt "title") = Ok (opt_val (Title b)) /\
  get (web_obj b) (txt "author") = Ok (opt_val (Author b)) /\
  get (web_obj b) (txt "category") = Ok (opt_val (Category b)) /\
  get (web_obj b) (txt "price") = Ok (JNum (Price b)) /\
  get (web_obj b) (txt "cover") = Ok (opt_val (Cover b)) /\
  get (web_obj b) (txt "Title") = Ok JUndef /\ get (web_obj b) (txt "Author") = Ok JUndef /\
  get (web_obj b) (txt "Category") = Ok JUndef.
Proof. split_and!; reflexivity. Qed.

Lemma cover_cond cv :
  strict_eq_str (JStr cv) (txt "string") || negb (truthy (JStr cv)) =
  bool_decide (cv = txt "string" \/ cv = []).
Proof. unfold strict_eq_str, truthy. repeat case_bool_decide; naive_solver. Qed.

(** Normalizing the parsed object of a stored book gives the record the
    specification derives from it. *)
Lemma normalize_web_obj b : normalize_record (web_obj b) = Ok (client_book b).
Proof.
  destruct (get_web b) as (Hid & Ht & Ha & Hc & Hp & Hcv & HT & HA & HC).
  unfold normalize_record, get_either. rewrite Hid, Ht, HT, Ha, HA, Hc, HC, Hp, Hcv.
  unfold client_book. cbn [mbind result_bind].
  destruct (Title b) as [[|x t]|]; destruct (Author b) as [a|]; destruct (Category b) as [c|];
    cbn [mbind result_bind nullish opt_val coalesce default];
    (destruct (Cover b) as [cv|]; cbn [opt_val];
     [rewrite cover_cond; case_bool_decide; [rewrite decide_True by done|rewrite decide_False by done]|]);
    reflexivity.
Qed.
End Proofs.

(** ** The data flow *)

Section Flow.
Context `{OrdinalCasing} `{UnicodeTables}.

Lemma normalize_web c : mapR normalize_record (map web_obj c) = Ok (map client_book c).
Proof. induction c as [|b c IH]; [done|]. simpl. by rewrite normalize_web_obj, IH. Qed.

(** C12: End to end: on a file that holds a catalog, [GET /api/books]
    answers without touching the file, and when its response settles on a
    mounted App, [loadBooks] publishes exactly the records the
    specification derives from the catalog, in the catalog's order, and
    resolves to [true]. *)
Theorem store_to_snapshot c f s :
  repr c f -> isMounted s = true ->
  (get_books None f).2 = f /\
  complete (to_response (get_books None f).1) s = (publish (map client_book c) s, JBool true).
Proof.
  intros Hr Hm. unfold get_books. cbn [st_all repo_store]. rewrite (GetAll_repr c f Hr).
  split; [done|]. cbn -[web_json].
  pose proof (web_json_value c (proj1 Hr)) as Hw.
  destruct (web_json (map Some c)) as [n|e]; [|done]. injection Hw as Hw.
  unfold complete. simpl. rewrite Hw. unfold normalize_payload. rewrite normalize_web. simpl.
  by rewrite Hm.
Qed.

End Flow.

(** A corrupt catalog file makes [GET /api/books] answer 500, and the
    client falls back to its seed catalog. *)
Example corrupt_store_fallback :
  complete (to_response (get_books None FileCorrupt).1) mounted0 =
  (publish defaultBooks mounted0, JBool false).
Proof. reflexivity. Qed.

(** A comparer for the examples: [null] first, as [Comparer<string>.Default]
    ranks it, then code unit by code unit. *)
Fixpoint units_cmp (a b : jstr) : comparison :=
  match a, b with
  | [], [] => Eq
  | [], _ => Lt
  | _, [] => Gt
  | x :: a', y :: b' => match N.compare x y with Eq => units_cmp a' b' | c => c end
  end.

Definition null_first_cmp (x y : option jstr) : comparison :=
  match x, y with
  | None, None => Eq
  | None, Some _ => Lt
  | Some _, None => Gt
  | Some a, Some b => units_cmp a b
  end.

(** The network as api.js sees the service on [file]: [/api/categories]
    answers what [GET /api/categories] answers, every other URL fails. *)
Definition served_categories (file : file_state) (u : jstr) : response :=
  if decide (u = txt "/api/categories")
  then to_response (get_categories null_first_cmp None file).1 else NetworkFailure.

(** From the store to api.js: one book without a category makes
    [GET /api/categories] answer [[null, "Ficcion"]], and [getCategories]
    of api.js resolves to [['']] instead of the category names. *)
Example uncategorized_store_categories :
  (get_categories null_first_cmp None (file_of uncategorized_catalog)).1 =
    OkCategories [None; Some (txt "Ficcion")] /\
  getCategories (served_categories (file_of uncategorized_catalog)) =
    (Ok [JStr []], [txt "/api/categories"]).
Proof. split; vm_compute; reflexivity. Qed.

Lemma store_to_snapshot_witness :
  repr sample_catalog (file_of sample_catalog) /\ isMounted mounted0 = true /\
  (get_books None (file_of sample_catalog)).2 = file_of sample_catalog /\
  complete (to_response (get_books None (file_of sample_catalog)).1) mounted0 =
    (publish (map client_book sample_catalog) mounted0, JBool true).
Proof.
  assert (Hr : repr sample_catalog (file_of sample_catalog)) by solve_repr.
  assert (Hm : isMounted mounted0 = true) by reflexivity.
  split; [exact Hr|]. split; [exact Hm|]. exact (store_to_snapshot _ _ _ Hr Hm).
Defined.
