(* ===== verification/Query.v ===== *)
(** * Query: the query parameter from api.js to the handler (api.js, Program.cs)

    [getBooks(title)] of services/api.js requests
    [/api/books?title=<encodeURIComponent(title)>], and the handler of
    [GET /api/books] in Program.cs receives [string? title] from the query
    string, which ASP.NET Core splits at [&] and [=] and decodes: a [+] is
    a space, each [%XX] is a byte, and runs of bytes are UTF-8, turned back
    into UTF-16 code units.  That decoding is the framework's; it is
    written out here for well-formed input ([unescape] is [None] on a
    malformed UTF-8 run, where the framework substitutes a replacement
    character).

    [encode_unescape] is the round trip: whenever [encodeURIComponent]
    succeeds, decoding its output gives the original string back, so
    [getBooks_title_received] follows: the handler receives exactly the
    title [getBooks] was called with. *)

From Stdlib Require Import Ascii.
From S2P Require Import Prelude Text JsNumber JsValue Sync Api.

#[local] Open Scope N_scope.

(** ** Decoding a query string *)

Definition hex_val (c : N) : option N :=
  if decide (48 <= c <= 57) then Some (c - 48)
  else if decide (65 <= c <= 70) then Some (c - 55)
  else if decide (97 <= c <= 102) then Some (c - 87)
  else None.

(** A character of the query string, or a byte written [%XX]. *)
Inductive token := Raw (c : N) | Byte (b : N).

Fixpoint tokens (s : jstr) : list token :=
  match s with
  | c :: ((h1 :: h2 :: s') as rest) =>
      if decide (c = chr "%") then
        match hex_val h1, hex_val h2 with
        | Some v1, Some v2 => Byte (16 * v1 + v2) :: tokens s'
        | _, _ => Raw c :: tokens rest
        end
      else Raw (if decide (c = chr "+") then chr " " else c) :: tokens rest
  | c :: s' => Raw (if decide (c = chr "+") then chr " " else c) :: tokens s'
  | [] => []
  end.

(** A UTF-8 continuation byte. *)
Definition cont (b : N) : bool := bool_decide (0x80 <= b < 0xC0).

(** A code point as UTF-16 code units. *)
Definition utf16 (cp : N) : jstr :=
  if decide (cp < 0x10000) then [cp]
  else [0xD800 + (cp - 0x10000) / 0x400; 0xDC00 + (cp - 0x10000) mod 0x400].

(** The characters of the tokens, each UTF-8 run of bytes decoded. *)
Fixpoint decode_tokens (ts : list token) : option jstr :=
  match ts with
  | [] => Some []
  | Raw c :: ts' => cons c <$> decode_tokens ts'
  | Byte b :: ts' =>
      if decide (b < 0x80) then cons b <$> decode_tokens ts'
      else match ts' with
      | Byte b2 :: ts2 =>
          if bool_decide (0xC0 <= b < 0xE0) && cont b2 then
            List.app (utf16 ((b - 0xC0) * 64 + (b2 - 0x80))) <$> decode_tokens ts2
          else match ts2 with
          | Byte b3 :: ts3 =>
              if bool_decide (0xE0 <= b < 0xF0) && cont b2 && cont b3 then
                List.app (utf16 ((b - 0xE0) * 4096 + (b2 - 0x80) * 64 + (b3 - 0x80))) <$> decode_tokens ts3
              else match ts3 with
              | Byte b4 :: ts4 =>
                  if bool_decide (0xF0 <= b < 0xF8) && cont b2 && cont b3 && cont b4 then
                    List.app (utf16 ((b - 0xF0) * 262144 + (b2 - 0x80) * 4096 + (b3 - 0x80) * 64
                                + (b4 - 0x80))) <$> decode_tokens ts4
                  else None
              | _ => None
              end
          | _ => None
          end
      | _ => None
      end
  end.

(** [Uri.UnescapeDataString] after [+] to space. *)
Definition unescape (s : jstr) : option jstr := decode_tokens (tokens s).

(** The value of parameter [k] in the query of [url]: the first [k=v]
    pair of the part after [?], up to [#]. *)
Fixpoint split_on (d : N) (s : jstr) : list jstr :=
  match s with
  | [] => [[]]
  | c :: s' =>
      if decide (c = d) then [] :: split_on d s'
      else match split_on d s' with
           | w :: ws => (c :: w) :: ws
           | [] => [[c]]
           end
  end.

Definition query_of (url : jstr) : jstr :=
  match split_on (chr "?") url with
  | _ :: q :: _ => hd [] (split_on (chr "#") q)
  | _ => []
  end.

Fixpoint param (k : jstr) (pairs : list jstr) : option jstr :=
  match pairs with
  | [] => None
  | p :: ps =>
      match split_on (chr "=") p with
      | k' :: vs => if decide (unescape k' = Some k) then unescape (join [chr "="] vs)
                    else param k ps
      | [] => param k ps
      end
  end.

Definition query_param (url : jstr) (k : jstr) : option jstr :=
  param k (split_on (chr "&") (query_of url)).

(** ** Lemmas *)

Lemma hex_val_digit d : d < 16 -> hex_val (hex_digit d) = Some d.
Proof.
  intros Hd. unfold hex_val, hex_digit.
  case_decide; repeat case_decide; f_equal; lia.
Qed.

Lemma tokens_pct b r : b < 256 -> tokens (pct b ++ r) = Byte b :: tokens r.
Proof.
  intros Hb. unfold pct. cbn [List.app tokens].
  rewrite decide_True by done.
  rewrite !hex_val_digit by (apply N.Div0.div_lt_upper_bound || apply N.mod_lt; lia).
  f_equal. f_equal. pose proof (N.div_mod b 16). lia.
Qed.

Lemma tokens_pcts bs r :
  Forall (fun b => b < 256) bs -> tokens (concat (map pct bs) ++ r) = map Byte bs ++ tokens r.
Proof.
  induction 1 as [|b bs Hb _ IH]; [done|]. cbn [map concat].
  rewrite <- app_assoc, tokens_pct by done. by rewrite IH.
Qed.

Lemma tokens_raw c r : c <> chr "%" -> c <> chr "+" -> tokens (c :: r) = Raw c :: tokens r.
Proof.
  intros Hp Hs. destruct r as [|h1 [|h2 r]]; simpl;
    rewrite ?(decide_False (P := c = chr "%")), (decide_False (P := c = chr "+")) by done;
    reflexivity.
Qed.

(** Arithmetic with [/] and [mod] by constants: through [Z] and the
    division equations. *)
Ltac div_lia := zify; Z.div_mod_to_equations; Z.quot_rem_to_equations; lia.

Lemma utf8_bytes cp : cp < 0x110000 -> Forall (fun b => b < 256) (utf8 cp).
Proof.
  intros Hcp. unfold utf8.
  repeat case_decide; repeat apply Forall_cons; try apply Forall_nil; div_lia.
Qed.

Ltac decide_lia :=
  repeat first [ rewrite decide_True by div_lia | rewrite decide_False by div_lia
               | rewrite bool_decide_eq_true_2 by div_lia | rewrite bool_decide_eq_false_2 by div_lia ].

Lemma fmap_cons_app (x : N) (o : option jstr) : cons x <$> o = List.app [x] <$> o.
Proof. by destruct o. Qed.

Lemma decode_1 b ts : b < 0x80 -> decode_tokens (Byte b :: ts) = cons b <$> decode_tokens ts.
Proof. intros Hb. simpl. by rewrite decide_True. Qed.

Lemma decode_2 b1 b2 ts :
  0xC0 <= b1 < 0xE0 -> 0x80 <= b2 < 0xC0 ->
  decode_tokens (Byte b1 :: Byte b2 :: ts) =
  List.app (utf16 ((b1 - 0xC0) * 64 + (b2 - 0x80))) <$> decode_tokens ts.
Proof. intros H1 H2. simpl. unfold cont. by decide_lia. Qed.

Lemma decode_3 b1 b2 b3 ts :
  0xE0 <= b1 < 0xF0 -> 0x80 <= b2 < 0xC0 -> 0x80 <= b3 < 0xC0 ->
  decode_tokens (Byte b1 :: Byte b2 :: Byte b3 :: ts) =
  List.app (utf16 ((b1 - 0xE0) * 4096 + (b2 - 0x80) * 64 + (b3 - 0x80))) <$> decode_tokens ts.
Proof. intros H1 H2 H3. simpl. unfold cont. by decide_lia. Qed.

Lemma decode_4 b1 b2 b3 b4 ts :
  0xF0 <= b1 < 0xF8 -> 0x80 <= b2 < 0xC0 -> 0x80 <= b3 < 0xC0 -> 0x80 <= b4 < 0xC0 ->
  decode_tokens (Byte b1 :: Byte b2 :: Byte b3 :: Byte b4 :: ts) =
  List.app (utf16 ((b1 - 0xF0) * 262144 + (b2 - 0x80) * 4096 + (b3 - 0x80) * 64 + (b4 - 0x80)))
    <$> decode_tokens ts.
Proof. intros H1 H2 H3 H4. simpl. unfold cont. by decide_lia. Qed.

(** A UTF-8 run of [utf8] decodes to the code point, as UTF-16. *)
Lemma decode_utf8 cp ts :
  cp < 0x110000 ->
  decode_tokens (map Byte (utf8 cp) ++ ts) = List.app (utf16 cp) <$> decode_tokens ts.
Proof.
  intros Hcp. unfold utf8.
  destruct (decide (cp < 0x80)); [|destruct (decide (cp < 0x800)); [|destruct (decide (cp < 0x10000))]];
    cbn [map List.app].
  - rewrite decode_1 by done. unfold utf16. rewrite decide_True by lia. apply fmap_cons_app.
  - rewrite decode_2 by div_lia. do 3 f_equal. div_lia.
  - rewrite decode_3 by div_lia. do 3 f_equal. div_lia.
  - rewrite decode_4 by div_lia. do 3 f_equal. div_lia.
Qed.

Lemma utf16_bmp c : c < 0x10000 -> utf16 c = [c].
Proof. intros Hc. unfold utf16. by rewrite decide_True. Qed.

Lemma utf16_pair c c2 :
  is_high_surrogate c = true -> is_low_surrogate c2 = true ->
  utf16 ((c - 0xD800) * 0x400 + (c2 - 0xDC00) + 0x10000) = [c; c2].
Proof.
  unfold is_high_surrogate, is_low_surrogate, utf16. rewrite !bool_decide_eq_true. intros H1 H2.
  rewrite decide_False by lia. f_equal; [|f_equal]; div_lia.
Qed.

Lemma pair_bound c c2 :
  is_high_surrogate c = true -> is_low_surrogate c2 = true ->
  (c - 0xD800) * 0x400 + (c2 - 0xDC00) + 0x10000 < 0x110000.
Proof. unfold is_high_surrogate, is_low_surrogate. rewrite !bool_decide_eq_true. lia. Qed.

Lemma unreserved_not_escape c : uri_unreserved c = true -> c <> chr "%" /\ c <> chr "+".
Proof. intros Hu. split; intros ->; discriminate Hu. Qed.

(** ** Theorems *)

(** Round trip: whenever [encodeURIComponent] succeeds on a string of
    UTF-16 code units, the server's query decoding gives the string back. *)
Theorem encode_unescape s e :
  Forall (fun c => c < 0x10000) s -> encode_uri s = Ok e -> unescape e = Some s.
Proof.
  unfold unescape. revert s e. fix IH 1. intros [|c s] e Hs; simpl; [by intros [= <-]|].
  apply list.Forall_cons in Hs as [Hc Hs].
  destruct (uri_unreserved c) eqn:Hu.
  { destruct (encode_uri s) as [r|] eqn:Hr; simpl; [|done]. intros [= <-].
    destruct (unreserved_not_escape c Hu). rewrite tokens_raw by done. simpl.
    by rewrite (IH s r Hs Hr). }
  destruct (is_low_surrogate c); [done|]. destruct (is_high_surrogate c) eqn:Hh.
  - destruct s as [|c2 s]; [done|]. apply list.Forall_cons in Hs as [_ Hs].
    destruct (is_low_surrogate c2) eqn:Hl; [|done].
    destruct (encode_uri s) as [r|] eqn:Hr; simpl; [|done]. intros [= <-].
    pose proof (pair_bound c c2 Hh Hl).
    rewrite tokens_pcts, decode_utf8, (IH s r Hs Hr) by (try apply utf8_bytes; done).
    simpl. by rewrite utf16_pair.
  - destruct (encode_uri s) as [r|] eqn:Hr; simpl; [|done]. intros [= <-].
    rewrite tokens_pcts, decode_utf8, (IH s r Hs Hr) by (try apply utf8_bytes; lia).
    simpl. by rewrite utf16_bmp.
Qed.

(** Membership of a character in a literal, decided by computation. *)
Ltac not_in_lit :=
  match goal with
  | |- ?P -> False => exact (bool_decide_eq_false_1 P eq_refl)
  | |- ¬ ?P => exact (bool_decide_eq_false_1 P eq_refl)
  end.
Ltac in_lit := match goal with |- ?P => exact (bool_decide_eq_true_1 P eq_refl) end.

Lemma split_on_none d s : d ∉ s -> split_on d s = [s].
Proof.
  induction s as [|c s IH]; intros Hd; [done|]. simpl.
  rewrite decide_False by (intros ->; apply Hd; left).
  rewrite IH; [done|]. intros ?. apply Hd. by right.
Qed.

Lemma split_on_app d a b : d ∉ a -> split_on d (a ++ d :: b) = a :: split_on d b.
Proof.
  induction a as [|c a IH]; intros Hd; simpl; [by rewrite decide_True|].
  rewrite decide_False by (intros ->; apply Hd; left).
  rewrite IH; [done|]. intros ?. apply Hd. by right.
Qed.

Lemma tryUrls_requested net ps e0 u : u ∈ (tryUrls net ps e0).2 -> u ∈ ps.
Proof.
  revert e0. induction ps as [|p ps IH]; intros e0; simpl; [done|].
  destruct (fetch_result (net p)) as [d|e]; simpl; [intros ->%list_elem_of_singleton; left|].
  destruct (tryUrls net ps (Some e)) as [r req] eqn:E. simpl.
  rewrite !list.elem_of_cons. intros [->|Hu]; [by left|right].
  apply (IH (Some e)). by rewrite E.
Qed.

Lemma not_in_encoded d s e : d ∈ url_delims -> encode_uri s = Ok e -> d ∉ e.
Proof.
  intros Hd He Hin. pose proof (encode_uri_no_delims s e He) as HF.
  rewrite list.Forall_forall in HF. exact (HF d Hin Hd).
Qed.

(** The query of a URL [getBooks] builds, whatever its base. *)
Lemma query_param_title base e t :
  chr "?" ∉ base -> encode_uri t = Ok e -> unescape e = Some t ->
  query_param (base ++ [chr "?"] ++ txt "title" ++ [chr "="] ++ e) (txt "title") = Some t.
Proof.
  intros Hb He Hu. unfold query_param, query_of. cbn [List.app].
  assert (Hq : chr "?" ∉ txt "title" ++ chr "=" :: e).
  { rewrite list.elem_of_app, list.elem_of_cons. intros [Ht|[Heq|Hin]]; [revert Ht; not_in_lit|vm_compute in Heq; discriminate|].
    by apply (not_in_encoded _ t e) in Hin; [|in_lit|]. }
  rewrite (split_on_app (chr "?")), (split_on_none (chr "?")) by done. cbn [hd].
  assert (Hnot : forall d, d ∈ url_delims -> d ∉ txt "title" -> d <> chr "=" ->
                 d ∉ txt "title" ++ chr "=" :: e).
  { intros d Hd Ht Hne. rewrite list.elem_of_app, list.elem_of_cons.
    intros [?|[?|?]]; [done|done|]. by apply (not_in_encoded d t e). }
  rewrite (split_on_none (chr "#")), (split_on_none (chr "&"))
    by (apply Hnot; [in_lit|not_in_lit|vm_compute; discriminate]).
  cbn [hd param]. rewrite (split_on_app (chr "=")) by not_in_lit.
  rewrite (split_on_none (chr "=") e) by (apply (not_in_encoded _ t); [in_lit|done]).
  rewrite decide_True by reflexivity. cbn [join map concat]. by rewrite app_nil_r.
Qed.

(** The handler receives the title [getBooks] was called with: for a
    non-empty title of UTF-16 code units that [encodeURIComponent]
    accepts, every URL [getBooks] requests carries the title in its
    [title] parameter, and ASP.NET Core's query decoding gives back
    exactly that title, whatever characters ([&], [=], [#], [+],
    accents, emoji) it holds. *)
Theorem getBooks_title_received net t e :
  Forall (fun c => c < 0x10000) t -> t <> [] -> encode_uri t = Ok e ->
  forall u, u ∈ (getBooks net (JStr t)).2 -> query_param u (txt "title") = Some t.
Proof.
  intros Ht Hne He u Hu.
  rewrite (getBooks_requests net (JStr t) ([chr "?"] ++ txt "title" ++ [chr "="] ++ e)) in Hu.
  2: { unfold query_part. cbn [truthy to_string]. rewrite bool_decide_eq_true_2 by done.
       by rewrite He. }
  apply tryUrls_requested in Hu. unfold bases in Hu.
  pose proof (encode_unescape t e Ht He) as Hd.
  repeat (apply list.elem_of_cons in Hu as [->|Hu]); [..|by apply list.elem_of_nil in Hu];
    try rewrite (app_assoc _ api_books); (apply query_param_title; [not_in_lit|done|done]).
Qed.

(** ** Examples *)

(** "Cien años & más" with an emoji: encoded, requested, decoded back. *)
Definition sample_title : jstr :=
  txt "Cien a" ++ [0xF1] ++ txt "os & m" ++ [0xE1] ++ txt "s=1+1 " ++ [0xD83D; 0xDCDA].

Lemma getBooks_title_received_witness :
  Forall (fun c => c < 0x10000) sample_title /\ sample_title <> [] /\
  encode_uri sample_title = Ok (txt "Cien%20a%C3%B1os%20%26%20m%C3%A1s%3D1%2B1%20%F0%9F%93%9A") /\
  forall u, u ∈ (getBooks (fun _ => NetworkFailure) (JStr sample_title)).2 ->
            query_param u (txt "title") = Some sample_title.
Proof.
  assert (H1 : Forall (fun c => c < 0x10000) sample_title) by (repeat constructor; vm_compute; reflexivity).
  assert (H2 : sample_title <> []) by discriminate.
  assert (H3 : encode_uri sample_title = Ok (txt "Cien%20a%C3%B1os%20%26%20m%C3%A1s%3D1%2B1%20%F0%9F%93%9A"))
    by (vm_compute; reflexivity).
  split_and!; [exact H1|exact H2|exact H3|]. exact (getBooks_title_received _ _ _ H1 H2 H3).
Defined.
