(* ===== verification/Views.v ===== *)
(** * Views: the page App.jsx renders, its controls, and components/

    [App] returns (lines 230-240) a header, the [Filters] view, the [Cart]
    view and the [BookList] view, all declared inside [App] (lines
    159-228).  A view is modelled as the data it shows, without markup:

    - [Filters]: the search input (value [query]), the select (value
      [category], one option per entry of [categories]) and the Refrescar
      button;
    - [BookCard]: the image ([src={book.cover}]), title, author, category,
      price text and the button that calls [addToCart(book)];
    - [BookList]: "No se encontraron libros." for an empty [books], else
      one card per book under the key [b.id];
    - the Cart view is [render_cart] of Display.v; it throws when an entry
      has no book, and the whole [App] render throws with it ([App]).

    [control_event] is what a control of a rendered page dispatches;
    [ui_reachable] are the states a user reaches by using the controls of
    the page on screen, interleaved with the events of the environment
    (the lifecycle, timers, listeners, responses).

    The files of components/ ([BookCard.jsx], [BookList.jsx], [Cart.jsx],
    [Filters.jsx]) are standalone versions of these views taking their
    state and handlers as props; [App] does not import them.  They are
    [BookCardJsx], [BookListJsx], [CartJsx] and [FiltersJsx]. *)

From Stdlib Require Import Floats Ascii.
From S2P Require Import Prelude Text JsNumber JsValue ClientBook Filter JsObject Cart Display Sync.

#[local] Open Scope Z_scope.

(** ** The views of App.jsx *)

(** [<option key={c} value={c}>{c}</option>]: its key (none on a literal
    option), its value and its label. *)
Record option_view := mkOption {
  o_key : option jsval;
  o_value : jsval;
  o_label : jsval
}.

Record filters_view := mkFilters {
  f_placeholder : jstr;
  f_query : jstr;                 (** the input's [value] *)
  f_category : jstr;              (** the select's [value] *)
  f_options : list option_view;
  f_refresh : bool                (** a Refrescar button *)
}.

(** One card: the image's [src] and [alt], the texts, the price text, the
    button's label, and the book its [onClick] passes on. *)
Record card_view := mkCard {
  c_src : jsval;
  c_alt : jsval;
  c_title : jsval;
  c_author : jsval;
  c_category : jsval;
  c_price : jstr;
  c_label : jstr;
  c_book : cbook
}.

Inductive list_view :=
| EmptyList                                   (** No se encontraron libros. *)
| Grid (cards : list (jsval * card_view)).    (** [key={b.id}] and the card *)

Record page := mkPage {
  pg_filters : filters_view;
  pg_cart : cart_view;
  pg_list : list_view
}.

Definition Filters (s : app) : filters_view :=
  mkFilters (txt "Buscar por titulo...") (query s) (category s)
            (map (fun c => mkOption (Some c) c c) (categories s)) true.

Definition BookCard (book : cbook) : card_view :=
  mkCard (b_cover book) (b_title book) (b_title book) (b_author book) (b_category book)
         (card_price book) (txt "Agregar al carrito") book.

(** [!books || books.length === 0]; [books] is the state array. *)
Definition BookList (books : list cbook) : list_view :=
  match books with
  | [] => EmptyList
  | _ => Grid (map (fun b => (b_id b, BookCard b)) books)
  end.

(** The render of [App]: it throws when the Cart view does. *)
Definition App (s : app) : result js_exn page :=
  cv ← render_cart (cart s); Ok (mkPage (Filters s) cv (BookList (books s))).

(** ** The controls *)

Inductive control :=
| SearchChange (value : jstr)           (** typing in the search input *)
| CategoryChange (i : nat)              (** choosing the [i]-th option *)
| RefreshClick (time : float)           (** Refrescar *)
| AddClick (i : nat)                    (** the button of the [i]-th card *)
| QtyChange (i : nat) (value : jstr)    (** the quantity input of the [i]-th cart line *)
| RemoveClick (i : nat).                (** Eliminar on the [i]-th cart line *)

(** The handler a control of [p] runs: [handleQueryChange],
    [setCategory(e.target.value)] (the option's value as a string),
    [loadBooks], [addToCart(book)],
    [updateQty(it.book.id, Number(e.target.value))] and
    [removeFromCart(it.book.id)].  [None] for a control not on the page. *)
Definition control_event (p : page) (c : control) : option event :=
  match c with
  | SearchChange v => Some (QueryInput v)
  | CategoryChange i => o ← f_options (pg_filters p) !! i; Some (CategorySelect (to_string (o_value o)))
  | RefreshClick t => if f_refresh (pg_filters p) then Some (Refresh t) else None
  | AddClick i =>
      match pg_list p with
      | Grid cs => kc ← cs !! i; Some (CartEvent (AddToCart (c_book kc.2)))
      | EmptyList => None
      end
  | QtyChange i v =>
      match pg_cart p with
      | CartLines ls _ => l ← ls !! i; Some (CartEvent (UpdateQty (l_key l) (string_to_number v)))
      | EmptyCart => None
      end
  | RemoveClick i =>
      match pg_cart p with
      | CartLines ls _ => l ← ls !! i; Some (CartEvent (RemoveFromCart (l_key l)))
      | EmptyCart => None
      end
  end.

(** The events that do not come from a control of the page. *)
Definition env_event (e : event) : bool :=
  match e with
  | QueryInput _ | CategorySelect _ | Refresh _ | CartEvent _ => false
  | _ => true
  end.

Section UI.
Context `{UnicodeTables}.

Inductive ui_reachable : app -> Prop :=
| ui_init : ui_reachable init_app
| ui_env e s s' : ui_reachable s -> env_event e = true -> step e s = Some s' -> ui_reachable s'
| ui_user c p e s s' :
    ui_reachable s -> App s = Ok p -> control_event p c = Some e -> step e s = Some s' ->
    ui_reachable s'.

(** A session: events of the environment ([inl]) and uses of the controls
    of the page on screen ([inr]), run in order. *)
Fixpoint ui_run (l : list (event + control)) (s : app) : option app :=
  match l with
  | [] => Some s
  | inl e :: l' => if env_event e then s1 ← step e s; ui_run l' s1 else None
  | inr c :: l' =>
      match App s with
      | Ok p => e ← control_event p c; s1 ← step e s; ui_run l' s1
      | Err _ => None
      end
  end.

End UI.

(** ** components/ *)

Definition placeholder_cover : jstr := txt "https://via.placeholder.com/120x160?text=Libro".

(** components/BookCard.jsx: [book.cover ?? placeholder], and the label
    "Añadir al carrito". *)
Definition BookCardJsx (book : cbook) : card_view :=
  mkCard (coalesce (b_cover book) (JStr placeholder_cover)) (b_title book) (b_title book)
         (b_author book) (b_category book) (card_price book)
         (txt "A" ++ [0xF1%N] ++ txt "adir al carrito") book.

(** components/BookList.jsx: the prop [books] may be absent ([None]). *)
Definition BookListJsx (books : option (list cbook)) : list_view :=
  match books with
  | None | Some [] => EmptyList
  | Some l => Grid (map (fun b => (b_id b, BookCardJsx b)) l)
  end.

(** components/Cart.jsx on the prop [items]: the same computation as the
    Cart view of [App]. *)
Definition CartJsx (items : Cart.cart) : result js_exn cart_view :=
  let list := obj_values items in
  total ← sum_entries 0%float list;
  match list with
  | [] => Ok EmptyCart
  | _ => lines ← mapR line_of list; Ok (CartLines lines (toFixed total 2))
  end.

(** components/Filters.jsx: a literal "Todas" option before the
    categories, and no Refrescar button. *)
Definition FiltersJsx (query category : jstr) (categories : list jsval) : filters_view :=
  mkFilters (txt "Buscar por t" ++ [0xED%N] ++ txt "tulo...") query category
            (mkOption None (JStr todas) (JStr todas) :: map (fun c => mkOption (Some c) c c) categories)
            false.

(** The React keys of the cart's lines, [key={it.book.id}] as strings. *)
Definition line_keys (cv : cart_view) : list jstr :=
  match cv with
  | EmptyCart => []
  | CartLines ls _ => map (fun l => key_of (l_key l)) ls
  end.

(** The JavaScript types the views rely on: a title, author and category
    that are not [null] or [undefined], and a truthy cover (so
    [book.cover ?? placeholder] is the cover). *)
Definition book_typed (b : cbook) : bool :=
  negb (nullish (b_title b)) && negb (nullish (b_author b)) && negb (nullish (b_category b)) &&
  truthy (b_cover b).

(** What a card shows and does, without its button's label. *)
Definition card_content (cv : card_view) : jsval * jsval * jsval * jsval * jsval * jstr * cbook :=
  (c_src cv, c_alt cv, c_title cv, c_author cv, c_category cv, c_price cv, c_book cv).

Definition grid_content (lv : list_view) : option (list (jsval * (jsval * jsval * jsval * jsval * jsval * jstr * cbook))) :=
  match lv with
  | EmptyList => None
  | Grid cs => Some (map (fun kc => (kc.1, card_content kc.2)) cs)
  end.

(** ** Lemmas *)

Lemma render_cart_lines_of c ls t :
  render_cart c = Ok (CartLines ls t) -> mapR line_of (obj_values c) = Ok ls.
Proof.
  unfold render_cart. destruct (sum_entries _ _); [|done]. simpl.
  destruct (obj_values c); [done|]. destruct (mapR line_of _); simpl; [inversion 1; done|done].
Qed.

Lemma render_cart_empty c : render_cart c = Ok EmptyCart -> c = [].
Proof.
  unfold render_cart. destruct (sum_entries _ _); [|done]. simpl.
  destruct c as [|x c]; [done|]. cbn [obj_values map]. by destruct (mapR line_of _).
Qed.

(** Under the cart invariant the lines carry the cart's keys, in order. *)
Lemma lines_keys c ls :
  Forall entry_ok c -> mapR line_of (obj_values c) = Ok ls -> map (fun l => key_of (l_key l)) ls = map fst c.
Proof.
  intros HF Hm%mapR_Forall2. revert ls Hm.
  induction HF as [|[k it] c Hk _ IH]; intros ls Hm; inversion Hm as [|? l ? ls' Hl Hls]; subst; [done|].
  simpl. rewrite (IH _ Hls). unfold entry_ok in Hk. unfold line_of in Hl. simpl in *.
  destruct (ce_book it); [|done]. injection Hl as <-. by subst.
Qed.

Lemma render_cart_keys c cv : cart_inv c -> render_cart c = Ok cv -> line_keys cv = map fst c.
Proof.
  intros [_ HF] Hr. destruct cv as [|ls t]; simpl.
  - by rewrite (render_cart_empty _ Hr).
  - exact (lines_keys c ls HF (render_cart_lines_of _ _ _ Hr)).
Qed.

Lemma App_cart s p : App s = Ok p -> render_cart (cart s) = Ok (pg_cart p).
Proof. unfold App. destruct (render_cart (cart s)); simpl; [by intros [= <-]|done]. Qed.

Section UILemmas.
Context `{UnicodeTables}.

(** An event of the environment leaves the cart alone. *)
Lemma env_step_cart e s s' : env_event e = true -> step e s = Some s' -> cart s' = cart s.
Proof.
  intros He Hs. destruct e; simpl in He, Hs; try done;
    [..|apply settle_Some in Hs; subst; edestruct complete_fields as (_ & _ & -> & _); done];
    repeat (case_decide || case_match); simplify_eq; done.
Qed.

(** A control dispatches a handler of the page; a quantity input names
    the key of a line of the Cart view. *)
Lemma control_event_ok p c e :
  control_event p c = Some e ->
  match e with
  | CartEvent (UpdateQty id _) => key_of id ∈ line_keys (pg_cart p)
  | QueryInput _ | CategorySelect _ | Refresh _ | CartEvent _ => True
  | _ => False
  end.
Proof.
  destruct c as [v|i|t|i|i v|i]; simpl; [by intros [= <-]|..].
  - destruct (_ !! i); simpl; [by intros [= <-]|done].
  - destruct (f_refresh _); [by intros [= <-]|done].
  - destruct (pg_list p) as [|cs]; [done|]. destruct (cs !! i); simpl; [by intros [= <-]|done].
  - destruct (pg_cart p) as [|ls t]; [done|]. destruct (ls !! i) eqn:Hl; simpl; [intros [= <-]|done].
    apply list_elem_of_fmap. exists c. split; [done|]. by eapply list_elem_of_lookup_2.
  - destruct (pg_cart p) as [|ls t]; [done|]. destruct (ls !! i); simpl; [by intros [= <-]|done].
Qed.

(** What a control of the page rendered from [s] dispatches keeps the
    cart invariant. *)
Lemma user_step_cart_inv c p e s s' :
  cart_inv (cart s) -> App s = Ok p -> control_event p c = Some e -> step e s = Some s' ->
  cart_inv (cart s').
Proof.
  intros Hinv Happ Hc%control_event_ok Hs. pose proof (render_cart_keys _ _ Hinv (App_cart _ _ Happ)) as Hk.
  destruct e; try done; simpl in Hs; destruct (isMounted s); simplify_eq/=; try done.
  apply cart_step_inv; [|done]. destruct a; simpl; [done|done|right]. by rewrite <- Hk.
Qed.

Lemma ui_cart_inv s : ui_reachable s -> cart_inv (cart s).
Proof.
  induction 1 as [|e s s' _ IH He Hs|c p e s s' _ IH Happ Hc Hs].
  - split; [split; constructor|constructor].
  - by rewrite (env_step_cart e s s' He Hs).
  - exact (user_step_cart_inv c p e s s' IH Happ Hc Hs).
Qed.

End UILemmas.

Lemma entries_books c : Forall entry_ok c -> Forall (fun it => is_Some (ce_book it)) (obj_values c).
Proof.
  intros HF. apply Forall_map. eapply Forall_impl; [|exact HF]. intros [k it]. unfold entry_ok. simpl.
  destruct (ce_book it); [by eexists|done].
Qed.

Lemma sum_entries_Some s l : Forall (fun it => is_Some (ce_book it)) l -> exists t, sum_entries s l = Ok t.
Proof.
  revert s. induction l as [|it l IH]; intros s Hl; [by eexists|]. inversion Hl as [|? ? [b Hb] Hl']; subst.
  simpl. rewrite Hb. exact (IH _ Hl').
Qed.

(** A cart that keeps its invariant renders. *)
Lemma App_Ok s : cart_inv (cart s) -> exists p, App s = Ok p.
Proof.
  intros [Hwf HF]. destruct (sum_entries_Some 0%float _ (entries_books _ HF)) as [t Ht].
  unfold App. destruct (render_cart_lines (cart s) t Ht) as [[_ ->]|[_ (ls & -> & _)]]; by eexists.
Qed.

Lemma coalesce_not_nullish a b : nullish b = false -> nullish (coalesce a b) = false.
Proof. unfold coalesce. by destruct (nullish a) eqn:E. Qed.

Section Types.
Context `{UnicodeTables}.

(** Every record [loadBooks] builds has the types of [book_typed]. *)
Lemma normalize_record_typed o b : normalize_record o = Ok b -> book_typed b = true.
Proof.
  unfold normalize_record. intros Hn.
  repeat match type of Hn with
    | ?r ≫= _ = Ok _ => destruct r eqn:?; [rewrite bind_Ok in Hn|rewrite bind_Err in Hn; done]
    end.
  injection Hn as <-. unfold book_typed. cbn [b_title b_author b_category b_cover].
  rewrite !coalesce_not_nullish by done. cbn [negb andb].
  match goal with Hi : (if ?c then _ else _) = Ok _ |- _ => destruct c eqn:Hc end.
  - match goal with
      Hi : get o ?k ≫= _ = Ok _ |- _ =>
        destruct (get o k); [rewrite bind_Ok in Hi; injection Hi as <-|rewrite bind_Err in Hi; done]
    end.
    cbn [truthy]. apply bool_decide_eq_true. by unfold placeholder_prefix.
  - simplify_eq. apply orb_false_iff in Hc as [_ Hc]. by apply negb_false_iff.
Qed.

Lemma loaded_typed r : Forall (fun b => book_typed b = true) (loaded r).
Proof.
  unfold loaded. destruct (fetch_result r) as [data|]; rewrite ?bind_Ok, ?bind_Err; [|repeat constructor].
  unfold normalize_payload. destruct (mapR normalize_record _) as [l|] eqn:Hl; [|repeat constructor].
  exact (mapR_Forall _ _ _ _ normalize_record_typed Hl).
Qed.

Definition typed_inv (s : app) : Prop :=
  Forall (fun b => book_typed b = true) (allBooks s) /\ Forall (fun b => book_typed b = true) (books s).

Lemma typed_visible l q c :
  Forall (fun b => book_typed b = true) l -> Forall (fun b => book_typed b = true) (visible l q c).
Proof. apply Forall_sublist, visible_sublist. Qed.

Lemma typed_step e s s' : typed_inv s -> step e s = Some s' -> typed_inv s'.
Proof.
  intros [Ha Hb] Hs. destruct e as [t| |h t|v t|t|t|i r|q|c|a].
  7: { destruct (step_settle _ _ _ _ Hs) as [[_ ->]|[_ ->]];
         [split; [apply loaded_typed|apply typed_visible, loaded_typed]|by split]. }
  all: simpl in Hs; repeat (case_decide || case_match); simplify_eq/=; split; try done; by apply typed_visible.
Qed.

End Types.

Lemma truthy_coalesce a b : truthy a = true -> coalesce a b = a.
Proof. unfold coalesce. by destruct a. Qed.

(** A card of components/BookCard.jsx shows what App's card shows when the
    cover is truthy. *)
Lemma BookCardJsx_content b :
  book_typed b = true -> card_content (BookCardJsx b) = card_content (BookCard b).
Proof.
  unfold book_typed. intros Hb. apply andb_true_iff in Hb as [_ Hc].
  unfold card_content, BookCardJsx, BookCard. simpl. by rewrite truthy_coalesce.
Qed.

Section UIRun.
Context `{UnicodeTables}.

Lemma ui_reachable_reachable s : ui_reachable s -> reachable s.
Proof. induction 1; by econstructor. Qed.

Lemma reachable_typed s : reachable s -> typed_inv s.
Proof. induction 1 as [|e s s' _ IH Hs]; [by split|exact (typed_step e s s' IH Hs)]. Qed.

Lemma ui_run_reachable l s s' : ui_reachable s -> ui_run l s = Some s' -> ui_reachable s'.
Proof.
  revert s. induction l as [|[e|c] l IH]; intros s Hs Hr; simpl in Hr; [by injection Hr as <-| |].
  - destruct (env_event e) eqn:He; [|done]. destruct (step e s) as [s1|] eqn:Hst; simpl in Hr; [|done].
    apply (IH s1); [by eapply ui_env|done].
  - destruct (App s) as [p|] eqn:Hp; [|done]. destruct (control_event p c) as [e|] eqn:Hc; simpl in Hr; [|done].
    destruct (step e s) as [s1|] eqn:Hst; simpl in Hr; [|done]. apply (IH s1); [by eapply ui_user|done].
Qed.

End UIRun.

(** ** Theorems *)

Section UITheorems.
Context `{UnicodeTables}.

(** C14: Whatever the user does with the controls on screen, interleaved
    with any timer, listener, lifecycle event or response, the page
    renders: the Cart view never throws (no entry without a book can be
    created from the page), and the React keys of the cart's lines are
    the cart's keys, without duplicates. *)
Theorem ui_render_ok s :
  ui_reachable s ->
  exists p, App s = Ok p /\ line_keys (pg_cart p) = map fst (cart s) /\ NoDup (line_keys (pg_cart p)).
Proof.
  intros Hs%ui_cart_inv. destruct (App_Ok s Hs) as [p Hp]. exists p.
  pose proof (render_cart_keys _ _ Hs (App_cart _ _ Hp)) as Hk. rewrite Hk.
  split_and!; [done|done|apply Hs].
Qed.

(** C15: In every reachable state, every book of the snapshot and of the
    visible list has the JavaScript types the views rely on: its title,
    author and category are neither [null] nor [undefined], and its cover
    is truthy, whatever the service answered (records are normalized,
    failures fall back to the seed catalog). *)
Theorem books_typed s :
  reachable s ->
  Forall (fun b => book_typed b = true) (allBooks s) /\ Forall (fun b => book_typed b = true) (books s).
Proof. apply reachable_typed. Qed.

(** C16: In every reachable state, components/BookList.jsx with App's
    [books] renders the same grid as App's own [BookList]: the same keys,
    and cards with the same image, texts, price and book, only the
    button's label differing; components/Cart.jsx renders App's Cart view. *)
Theorem components_equiv s :
  reachable s ->
  grid_content (BookListJsx (Some (books s))) = grid_content (BookList (books s)) /\
  CartJsx (cart s) = render_cart (cart s).
Proof.
  intros [_ Hb]%reachable_typed. split; [|done].
  destruct (books s) as [|b l]; [done|]. cbn [BookListJsx BookList grid_content]. f_equal. rewrite !map_map.
  apply map_ext_Forall. eapply Forall_impl; [|exact Hb]. intros x Hx. simpl. by rewrite BookCardJsx_content.
Qed.

End UITheorems.

(** ** Sessions *)

(** Mount, the first load answers [resp1], the user adds the first card
    twice and types 5 in its quantity input. *)
Definition session1 : list (event + control) :=
  [inl (Mount 0); inl (Settle 0 resp1); inr (AddClick 0); inr (AddClick 0);
   inr (QtyChange 0 (txt "5"))].

Definition session1_end : app := default init_app (ui_run session1 init_app).

(** The quantity and total texts of the page after a session. *)
Definition cart_texts (l : list (event + control)) : option (list float * jstr) :=
  s ← ui_run l init_app;
  match App s with
  | Ok p => match pg_cart p with CartLines ls t => Some (map l_qty ls, t) | EmptyCart => None end
  | Err _ => None
  end.

(** The quantity input takes any text: typing "abc" stores [NaN]
    ([Number('abc')]), which is not [<= 0], and the total reads "NaN";
    "2.5" stores a fractional quantity.  The specification's quantities are
    positive integers. *)
Example qty_input_not_a_number :
  cart_texts [inl (Mount 0); inl (Settle 0 resp1); inr (AddClick 0); inr (QtyChange 0 (txt "abc"))] =
    Some ([nan], txt "NaN") /\
  cart_texts [inl (Mount 0); inl (Settle 0 resp1); inr (AddClick 0); inr (QtyChange 0 (txt "2.5"))] =
    Some ([2.5%float], txt "24.98").
Proof. split; vm_compute; reflexivity. Qed.

Lemma ui_render_ok_witness :
  ui_reachable session1_end /\
  exists p, App session1_end = Ok p /\ line_keys (pg_cart p) = map fst (cart session1_end) /\
            NoDup (line_keys (pg_cart p)).
Proof.
  assert (Hr : ui_reachable session1_end).
  { apply (ui_run_reachable session1 init_app); [constructor|vm_compute; reflexivity]. }
  split; [exact Hr|exact (ui_render_ok _ Hr)].
Defined.

Lemma session1_reachable : reachable session1_end.
Proof.
  apply ui_reachable_reachable, (ui_run_reachable session1 init_app); [constructor|vm_compute; reflexivity].
Qed.

Lemma books_typed_witness :
  reachable session1_end /\
  Forall (fun b => book_typed b = true) (allBooks session1_end) /\
  Forall (fun b => book_typed b = true) (books session1_end).
Proof. split; [exact session1_reachable|exact (books_typed _ session1_reachable)]. Defined.

Lemma components_equiv_witness :
  reachable session1_end /\
  grid_content (BookListJsx (Some (books session1_end))) = grid_content (BookList (books session1_end)) /\
  CartJsx (cart session1_end) = render_cart (cart session1_end).
Proof. split; [exact session1_reachable|exact (components_equiv _ session1_reachable)]. Defined.

(** The number of options of a [Filters] view whose value is "Todas". *)
Definition todas_options (f : filters_view) : nat :=
  length (filter (fun o => strict_eq_str (o_value o) todas = true) (f_options f)).

(** components/Filters.jsx prepends its own "Todas" option, but the
    [categories] App computes already start with 'Todas': given App's
    state it would list "Todas" twice, where App's view lists it once. *)
Example filters_jsx_todas_twice :
  todas_options (Filters session1_end) = 1%nat /\
  todas_options (FiltersJsx (query session1_end) (category session1_end) (categories session1_end)) = 2%nat.
Proof. split; vm_compute; reflexivity. Qed.

(** On a record that was not normalized ([cover: null]), the two cards
    differ: components/BookCard.jsx shows its placeholder, App's card an
    image without a source. *)
Example raw_cover_differs :
  let b := mkCBook (JNum 1) (JStr (txt "X")) (JStr []) (JStr []) 1%float JNull [] in
  c_src (BookCardJsx b) = JStr placeholder_cover /\ c_src (BookCard b) = JNull.
Proof. split; reflexivity. Qed.
