(* ===== verification/Routing.v ===== *)
(** * Routing: which handler of Program.cs a request reaches

    Program.cs registers its handlers with [app.MapGet], [MapPost],
    [MapPut] and [MapDelete] (lines 63-113) on the route templates
    [/api/books], [/api/books/{id:int}] and [/api/categories], and, when
    the web root holds an [index.html] (lines 38-50, with the web root
    chosen at lines 9-20), [app.MapFallbackToFile("index.html")].

    - [web_root], [spa_fallback]: the host's choices, over the file system
      as an oracle ([host_fs]: [Directory.Exists], [File.Exists]).
    - [parse_int32]: [int.TryParse] with [NumberStyles.Integer] and the
      invariant culture, the [int] route constraint and the binding of
      [int id].
    - [route]: the endpoint a method and path select.  Literal segments
      compare ignoring case ([OrdinalIgnoreCase]) and a trailing slash is
      ignored, as ASP.NET Core routing does; the path is taken as written
      (Kestrel's percent-decoding of the path is not modelled: the client
      never escapes a path).
    - [handle_get]: a GET request, its query bound to [string? title] and
      [string? name] as [Query] decodes it; an unmatched path without a
      file extension is answered with the SPA's [index.html] when the
      fallback is mapped.
    - [handle]: a request of any method: GET as [handle_get], POST, PUT
      and DELETE to their handlers with the route's id, the binding of the
      request body to [Book book] given as an argument (ASP.NET Core's
      [ReadFromJsonAsync] is not modelled; [Cors] uses [handle] behind the
      middleware).
    - [service]: the network as the client sees it, answering relative
      URLs (the page is served by the host, or by Vite's proxy in
      development).

    Theorems: api.js [getBooks] against the service on a file holding a
    catalog resolves to exactly the catalog's books whose title contains
    the query, ignoring case, in order ([getBooks_end_to_end]); App.jsx's
    cache-busted [loadBooks] request reaches [GET /api/books] unfiltered
    and publishes the catalog ([loadBooks_end_to_end]); when the service
    answers every request of App ([served_reachable]), App shows nothing
    until a load settles and the stored catalog from then on
    ([served_snapshot]); the [Location] of a
    [201 Created] routes back to the created book
    ([created_location_resolves]). *)

From Stdlib Require Import Floats Ascii String.
From S2P Require Import Prelude Text BookJson BooksRepository Endpoints JsNumber JsValue ClientBook Filter JsObject Cart Sync Api Wire Query.

#[local] Open Scope Z_scope.

(** ** The host *)

(** [Directory.Exists] and [File.Exists] on the host's file system. *)
Record host_fs := mkHostFs {
  dir_exists : jstr -> bool;
  file_exists : jstr -> bool
}.

(** [Path.Combine(a, b)] for a relative [b] on a Unix host. *)
Definition path_combine (a b : jstr) : jstr :=
  match rev a with
  | c :: _ => if decide (c = chr "/") then a ++ b else a ++ [chr "/"] ++ b
  | [] => b
  end.

(** Lines 9-20: [ClientApp/dist] when it exists, else [wwwroot] when it
    exists; otherwise the host keeps its default, [wwwroot] when that
    directory exists, which it does not: no web root. *)
Definition web_root (content_root : jstr) (fs : host_fs) : option jstr :=
  let clientDist := path_combine (path_combine content_root (txt "ClientApp")) (txt "dist") in
  let wwwrootPath := path_combine content_root (txt "wwwroot") in
  if dir_exists fs clientDist then Some clientDist
  else if dir_exists fs wwwrootPath then Some wwwrootPath
  else None.

(** Lines 39-50: static files are served when the web root is set and
    exists, and the SPA fallback is mapped when it holds [index.html]. *)
Definition spa_fallback (content_root : jstr) (fs : host_fs) : bool :=
  match web_root content_root fs with
  | Some r => negb (bool_decide (r = [])) && dir_exists fs r && file_exists fs (path_combine r (txt "index.html"))
  | None => false
  end.

(** ** The route table *)

Inductive http_method := HGet | HPost | HPut | HDelete.

Inductive endpoint :=
| EBooks              (** MapGet("/api/books") *)
| EBook (id : Z)      (** MapGet("/api/books/{id:int}") *)
| ECategories         (** MapGet("/api/categories") *)
| EPost               (** MapPost("/api/books") *)
| EPut (id : Z)       (** MapPut("/api/books/{id:int}") *)
| EDelete (id : Z).   (** MapDelete("/api/books/{id:int}") *)

(** The white space [NumberStyles.AllowLeadingWhite] and
    [AllowTrailingWhite] accept: U+0009 to U+000D and U+0020. *)
Definition num_ws (c : N) : bool := bool_decide (c = 0x20%N \/ (0x9 <= c <= 0xD)%N).

Fixpoint drop_num_ws (s : jstr) : jstr :=
  match s with
  | c :: s' => if num_ws c then drop_num_ws s' else s
  | [] => []
  end.

(** [int.TryParse(s, NumberStyles.Integer, CultureInfo.InvariantCulture)]:
    white space around, one optional sign, at least one decimal digit, a
    value in the range of [int]. *)
Definition parse_int32 (s : jstr) : option Z :=
  let s' := rev (drop_num_ws (rev (drop_num_ws s))) in
  let '(neg, ds) := match s' with
                    | c :: r => if decide (c = chr "-") then (true, r)
                                else if decide (c = chr "+") then (false, r) else (false, s')
                    | [] => (false, [])
                    end in
  if decide (ds <> [] /\ forallb is_digit ds = true) then
    let z := if neg then - digits_value ds else digits_value ds in
    if decide (in_int32 z) then Some z else None
  else None.

Section Routes.
Context `{OrdinalCasing}.

(** A literal segment of a template, compared ignoring case. *)
Definition seg_is (s : jstr) (lit : String.string) : bool := bool_decide (map cs_upper s = map cs_upper (txt lit)).

(** The path of a URL: what precedes [?] and [#]. *)
Definition url_path (url : jstr) : jstr := hd [] (split_on (chr "#") (hd [] (split_on (chr "?") url))).

(** The segments of an absolute path, a trailing slash ignored. *)
Definition segments (path : jstr) : option (list jstr) :=
  match split_on (chr "/") path with
  | [] :: segs => Some (match rev segs with [] :: r => rev r | _ => segs end)
  | _ => None
  end.

Definition route (m : http_method) (path : jstr) : option endpoint :=
  match segments path with
  | Some [a; b] =>
      if seg_is a "api" && seg_is b "books" then
        match m with HGet => Some EBooks | HPost => Some EPost | _ => None end
      else if seg_is a "api" && seg_is b "categories" then
        match m with HGet => Some ECategories | _ => None end
      else None
  | Some [a; b; c] =>
      if seg_is a "api" && seg_is b "books" then
        id ← parse_int32 c;
        match m with
        | HGet => Some (EBook id) | HPut => Some (EPut id) | HDelete => Some (EDelete id) | HPost => None
        end
      else None
  | _ => None
  end.

(** The [nonfile] constraint of the fallback's [{*path:nonfile}]: the last
    segment has no dot. *)
Definition nonfile (path : jstr) : bool :=
  negb (bool_decide (chr "." ∈ List.last (split_on (chr "/") path) [])).

(** What a request is answered with. *)
Inductive answer :=
| Api (h : http_result)     (** a handler's result *)
| SpaIndex                  (** index.html, status 200 *)
| NoEndpoint.               (** 404 (405 for a path of another method) *)

Variable cmp : option jstr -> option jstr -> comparison.

(** A GET request on the store [f]; [fallback] is [spa_fallback]. *)
Definition handle_get (fallback : bool) (url : jstr) (f : file_state) : answer * file_state :=
  match route HGet (url_path url) with
  | Some EBooks => let '(h, f') := get_books (query_param url (txt "title")) f in (Api h, f')
  | Some (EBook id) => let '(h, f') := get_book id f in (Api h, f')
  | Some ECategories => let '(h, f') := get_categories cmp (query_param url (txt "name")) f in (Api h, f')
  | _ => (if fallback && nonfile (url_path url) then SpaIndex else NoEndpoint, f)
  end.

(** A request of any method (lines 63-113).  [body] is what the minimal
    API's binding of the [Book book] parameter gives: the book, or the
    result it answers with when the body cannot be bound, before the
    handler runs.  A GET is [handle_get]; POST, PUT and DELETE reach their
    handlers on their routes; any other request matches no endpoint (the
    fallback's static file middleware serves only GET and HEAD). *)
Definition handle (fallback : bool) (m : http_method) (url : jstr) (body : result http_result book) (f : file_state) :
    answer * file_state :=
  match m with
  | HGet => handle_get fallback url f
  | _ =>
      match route m (url_path url) with
      | Some EPost => match body with Ok b => let '(h, f') := post_book b f in (Api h, f') | Err h => (Api h, f) end
      | Some (EPut id) => match body with Ok b => let '(h, f') := put_book id b f in (Api h, f') | Err h => (Api h, f) end
      | Some (EDelete id) => let '(h, f') := delete_book id f in (Api h, f')
      | _ => (NoEndpoint, f)
      end
  end.

(** What [fetch] settles to: [res.json()] of [index.html] rejects. *)
Definition answer_response (a : answer) : response :=
  match a with
  | Api h => to_response h
  | SpaIndex => HttpResponse true None
  | NoEndpoint => HttpResponse false None
  end.

(** The network the client sees, for GET requests on the store [f]. *)
Definition service (fallback : bool) (f : file_state) (url : jstr) : response :=
  if decide (hd_error url = Some (chr "/")) then answer_response (handle_get fallback url f).1
  else NetworkFailure.

End Routes.

(** ** What the client receives *)

(** The [Where] of [GET /api/books?title=]:
    [b.Title != null && b.Title.Contains(title, OrdinalIgnoreCase)]. *)
Definition title_hit `{OrdinalCasing} (t : jstr) (b : book) : bool :=
  match Title b with Some x => contains_ic x t | None => false end.

(** The record api.js [normalizeBook] makes of a stored book. *)
Definition api_of (b : book) : api_book :=
  mkApiBook (JNum (Z_to_double (Id b))) (JStr (default [] (Title b))) (JStr (default [] (Author b)))
            (JStr (default [] (Category b))) (Price b) (opt_val (Cover b)).

(** ** Lemmas *)

Lemma normalizeBook_web b : normalizeBook (web_obj b) = Ok (Some (api_of b)).
Proof.
  destruct (get_web b) as (Hid & Ht & Ha & Hc & Hp & Hcv & HT & HA & HC).
  assert (HCv : get (web_obj b) (txt "Cover") = Ok JUndef) by reflexivity.
  unfold normalizeBook, get_either. cbn [truthy negb web_obj].
  rewrite Hid, Ht, HT, Ha, HA, Hc, HC, Hp, Hcv, HCv. unfold api_of. cbn [mbind result_bind].
  destruct (Title b), (Author b), (Category b), (Cover b); reflexivity.
Qed.

Lemma normalize_all_web l : normalize_all (map web_obj l) = Ok (map api_of l).
Proof.
  unfold normalize_all.
  assert (Hm : mapR normalizeBook (map web_obj l) = Ok (map (fun b => Some (api_of b)) l)).
  { induction l as [|b l IH]; [done|]. cbn [map mapR]. rewrite normalizeBook_web, bind_Ok, IH. reflexivity. }
  rewrite Hm, bind_Ok. f_equal. clear Hm. induction l as [|b l IH]; [done|]. cbn [map filter_some]. f_equal. exact IH.
Qed.

Section Received.
Context `{OrdinalCasing}.

Lemma filterR_title t c :
  filterR (title_matches t) (map Some c) = Ok (map Some (filter (fun b => title_hit t b = true) c)).
Proof.
  induction c as [|b c IH]; [done|]. cbn [map filterR title_matches].
  rewrite bind_Ok, IH, bind_Ok. rewrite filter_cons. unfold title_hit.
  by destruct (match Title b with Some x => contains_ic x t | None => false end).
Qed.

Lemma to_response_books l :
  Forall wf_book l -> to_response (OkBooks (map Some l)) = HttpResponse true (Some (JArr (map web_obj l))).
Proof.
  intros Hl. pose proof (web_json_value l Hl) as Hw. unfold to_response.
  destruct (web_json (map Some l)); [|done]. by injection Hw as ->.
Qed.

Lemma seg_is_refl lit : seg_is (txt lit) lit = true.
Proof. by apply bool_decide_eq_true_2. Qed.

Lemma route_books : route HGet api_books = Some EBooks.
Proof.
  unfold route. change (segments api_books) with (Some [txt "api"; txt "books"]). lazy beta iota.
  by rewrite (seg_is_refl "api"), (seg_is_refl "books").
Qed.

(** The path of a URL [base?query] whose base has no [?] or [#]. *)
Lemma url_path_query base q :
  chr "?" ∉ base -> chr "#" ∉ base -> url_path (base ++ [chr "?"] ++ q) = base.
Proof. intros Hq Hh. unfold url_path. cbn [List.app]. rewrite split_on_app by done. simpl. by rewrite split_on_none. Qed.

(** The query of a URL [base?q] whose base and query hold no [?]. *)
Lemma query_param_after base q k :
  chr "?" ∉ base -> chr "?" ∉ q ->
  query_param (base ++ [chr "?"] ++ q) k = param k (split_on (chr "&") (hd [] (split_on (chr "#") q))).
Proof.
  intros Hb Hq. unfold query_param, query_of. cbn [List.app].
  rewrite split_on_app by done. by rewrite (split_on_none _ q Hq).
Qed.

(** The cache-busting parameter [_t=...] is not a [title]. *)
Lemma no_title_param d :
  chr "&" ∉ d -> chr "=" ∉ d -> param (txt "title") (split_on (chr "&") (txt "_t=" ++ d)) = None.
Proof.
  intros Ha He. rewrite split_on_none.
  - change (txt "_t=" ++ d) with (txt "_t" ++ chr "=" :: d). cbn [param].
    rewrite split_on_app by not_in_lit. rewrite (split_on_none _ d He).
    rewrite decide_False by (vm_compute; discriminate). done.
  - rewrite list.elem_of_app. intros [Hin|Hin]; [revert Hin; not_in_lit|done].
Qed.

End Received.

(** ** Reading back an id *)

Lemma digit_facts c :
  is_digit c = true ->
  num_ws c = false /\ c <> chr "-" /\ c <> chr "+" /\ c <> chr "/" /\ c <> chr "?" /\ c <> chr "#".
Proof.
  unfold is_digit, num_ws. intros Hd%bool_decide_eq_true_1.
  rewrite bool_decide_eq_false_2 by lia. split_and!; [done|..]; intros ->; vm_compute in Hd; destruct Hd as [H1 H2]; first [apply H1; reflexivity|apply H2; reflexivity].
Qed.

Lemma N_to_txt_nonempty n : N_to_txt n <> [].
Proof.
  intros He. pose proof (digits_value_N_to_txt n) as Hv. rewrite He in Hv.
  destruct n; [discriminate|]. unfold digits_value in Hv. simpl in Hv. lia.
Qed.

Lemma drop_num_ws_digit c s : is_digit c = true -> drop_num_ws (c :: s) = c :: s.
Proof. intros Hd. simpl. by rewrite (proj1 (digit_facts c Hd)). Qed.

(** The sign and the digits of [Z_to_txt z]. *)
Lemma Z_to_txt_shape z :
  exists (neg : bool) (ds : jstr), Z_to_txt z = (if neg then [chr "-"] else []) ++ ds /\ ds <> [] /\
    Forall (fun c => is_digit c = true) ds /\ (if neg then - digits_value ds else digits_value ds) = z.
Proof.
  unfold Z_to_txt. destruct (z <? 0) eqn:Hz.
  - exists true, (N_to_txt (Z.abs_N z)). split_and!; [done|apply N_to_txt_nonempty|apply N_to_txt_digits|].
    rewrite digits_value_N_to_txt. apply Z.ltb_lt in Hz. lia.
  - exists false, (N_to_txt (Z.to_N z)). split_and!; [done|apply N_to_txt_nonempty|apply N_to_txt_digits|].
    rewrite digits_value_N_to_txt. apply Z.ltb_ge in Hz. lia.
Qed.

(** [int.TryParse] reads back the text of an [int]. *)
Lemma parse_int32_Z_to_txt z : in_int32 z -> parse_int32 (Z_to_txt z) = Some z.
Proof.
  intros Hz. destruct (Z_to_txt_shape z) as (neg & ds & -> & Hne & Hd & Hv).
  destruct ds as [|d ds']; [done|]. pose proof (Forall_inv Hd) as Hd0.
  assert (Hlast : exists init x, d :: ds' = init ++ [x] /\ is_digit x = true).
  { destruct (exists_last (l:=d :: ds')) as (init & x & Hx); [done|]. exists init, x. split; [done|].
    rewrite Hx in Hd. by apply Forall_app in Hd as [_ Hx'%Forall_inv]. }
  destruct Hlast as (init & x & Heq & Hx). unfold parse_int32.
  assert (Hdrop : drop_num_ws ((if neg then [chr "-"] else []) ++ d :: ds') = (if neg then [chr "-"] else []) ++ d :: ds').
  { destruct neg; [reflexivity|by apply drop_num_ws_digit]. }
  rewrite Hdrop, Heq, app_assoc, rev_unit. rewrite drop_num_ws_digit by done.
  cbn [rev]. rewrite rev_involutive, <- app_assoc, <- Heq.
  destruct (digit_facts d Hd0) as (_ & Hm & Hp & _).
  destruct neg; cbn [List.app];
    [rewrite decide_True by done|rewrite decide_False by done; rewrite decide_False by done];
    (rewrite decide_True by (split; [done|apply forallb_forall, Forall_forall, Hd]));
    (rewrite decide_True by (rewrite Hv; exact Hz)); by rewrite Hv.
Qed.

Lemma Z_to_txt_chars z c : c ∈ Z_to_txt z -> c = chr "-" \/ is_digit c = true.
Proof.
  destruct (Z_to_txt_shape z) as (neg & ds & -> & _ & Hd & _). rewrite list.Forall_forall in Hd.
  intros [Hc|Hc]%list.elem_of_app; [|by right; apply Hd].
  destruct neg; [left; by apply list_elem_of_singleton|by apply list.elem_of_nil in Hc].
Qed.

(** A character that is neither a digit nor ['-'] is not in [Z_to_txt z]. *)
Lemma Z_to_txt_not_in z c :
  c <> chr "-" -> (forall d, is_digit d = true -> d <> c) -> c ∉ Z_to_txt z.
Proof. intros Hm Hd [->|Hc]%Z_to_txt_chars; [done|exact (Hd c Hc eq_refl)]. Qed.

(** A character outside the digits and ['-'] is not in [Z_to_txt z]. *)
Lemma Z_to_txt_no_sym z c : c <> chr "-" -> (c < 48 \/ 57 < c)%N -> c ∉ Z_to_txt z.
Proof.
  intros Hm Hr [->|Hd]%Z_to_txt_chars; [done|]. unfold is_digit in Hd. apply bool_decide_eq_true_1 in Hd. lia.
Qed.

Ltac no_sym := apply Z_to_txt_no_sym; [discriminate|first [left; reflexivity|right; reflexivity]].

Lemma Z_to_txt_nonempty z : Z_to_txt z <> [].
Proof. destruct (Z_to_txt_shape z) as (neg & ds & -> & Hne & _). destruct neg; [done|exact Hne]. Qed.

(** The book [Catalog.add] appends is the first with its id. *)
Lemma get_added c b : Catalog.get (Id (Catalog.add b c).1) (Catalog.add b c).2 = Some (Catalog.add b c).1.
Proof.
  unfold Catalog.get, Catalog.add. cbn [fst snd]. rewrite list_find_app_r.
  - simpl. by rewrite decide_True.
  - apply list_find_None, list.Forall_forall. intros x Hx. pose proof (cat_next_id_gt c x Hx). simpl. lia.
Qed.

Section Location.
Context `{OrdinalCasing}.

Lemma url_path_location z : url_path (books_route ++ Z_to_txt z) = books_route ++ Z_to_txt z.
Proof.
  unfold url_path.
  assert (Hn : forall c, c <> chr "-" -> (forall d, is_digit d = true -> d <> c) -> c ∉ books_route ->
               c ∉ books_route ++ Z_to_txt z).
  { intros c Hm Hd Hb [?|?]%list.elem_of_app; [done|by apply (Z_to_txt_not_in z c)]. }
  rewrite (split_on_none (chr "?")); cbn [hd].
  - rewrite (split_on_none (chr "#")); [done|]. apply Hn; [discriminate| |not_in_lit].
    intros d Hd. apply (digit_facts d Hd).
  - apply Hn; [discriminate| |not_in_lit]. intros d Hd. apply (digit_facts d Hd).
Qed.

Lemma segments_location z : segments (books_route ++ Z_to_txt z) = Some [txt "api"; txt "books"; Z_to_txt z].
Proof.
  assert (Hs : chr "/" ∉ Z_to_txt z).
  { apply Z_to_txt_not_in; [discriminate|]. intros d Hd. apply (digit_facts d Hd). }
  unfold segments.
  change (books_route ++ Z_to_txt z)
    with ([] ++ chr "/" :: (txt "api" ++ chr "/" :: (txt "books" ++ chr "/" :: Z_to_txt z))).
  rewrite !split_on_app by not_in_lit. rewrite (split_on_none (chr "/") (Z_to_txt z) Hs). cbn [rev List.app].
  destruct (Z_to_txt z) eqn:E; [by apply Z_to_txt_nonempty in E|reflexivity].
Qed.

(** The [Location] of a created book routes to [GET /api/books/{id:int}]
    with its id. *)
(** The path [/api/books/<id>] selects, for each method, the endpoint
    registered on [/api/books/{id:int}]. *)
Lemma route_id m z :
  in_int32 z -> route m (url_path (books_route ++ Z_to_txt z)) =
    match m with HGet => Some (EBook z) | HPut => Some (EPut z) | HDelete => Some (EDelete z) | HPost => None end.
Proof.
  intros Hz. rewrite url_path_location. unfold route. rewrite segments_location. lazy beta iota.
  rewrite (seg_is_refl "api"), (seg_is_refl "books"). cbn [andb]. rewrite parse_int32_Z_to_txt by done.
  by destruct m.
Qed.

Lemma route_location z : in_int32 z -> route HGet (url_path (books_route ++ Z_to_txt z)) = Some (EBook z).
Proof. apply (route_id HGet). Qed.

End Location.

(** ** Examples *)

(** The route table on sample paths: case and a trailing slash do not
    matter, [int.TryParse] takes a sign, and an id that is not an [int]
    matches no template. *)
Example route_samples :
  route HGet (txt "/api/books") = Some EBooks /\ route HGet (txt "/API/Books/") = Some EBooks /\
  route HGet (txt "/api/books/+7") = Some (EBook 7) /\ route HDelete (txt "/api/books/-3") = Some (EDelete (-3)) /\
  route HGet (txt "/api/books/abc") = None /\ route HGet (txt "/api/books/2147483648") = None /\
  route HPost (txt "/api/books/7") = None /\ route HGet (txt "/api/categories") = Some ECategories.
Proof. split_and!; vm_compute; reflexivity. Qed.

(** ** Theorems *)

Section EndToEnd.
Context `{OrdinalCasing}.
Variable cmp : option jstr -> option jstr -> comparison.

(** [GET /api/books?title=<e>], for the encoding [e] of a non-empty
    title, on a file holding a catalog, answers with the catalog's books
    whose title contains the query (all of them for white space). *)
Lemma handle_get_title fb c f t e :
  repr c f -> Forall (fun u => (u < 0x10000)%N) t -> encode_uri t = Ok e ->
  (handle_get cmp fb (api_books ++ [chr "?"] ++ txt "title" ++ [chr "="] ++ e) f).1 =
    Api (OkBooks (map Some (if is_null_or_white_space (Some t) then c else filter (fun b => title_hit t b = true) c))).
Proof.
  intros Hr Ht He.
  unfold handle_get. rewrite url_path_query by not_in_lit. rewrite route_books.
  rewrite (query_param_title api_books e t); [|not_in_lit|done|exact (encode_unescape t e Ht He)].
  unfold get_books. cbn [st_all repo_store]. rewrite (GetAll_repr c f Hr). cbn [fst respond].
  destruct (is_null_or_white_space _); [done|]. by rewrite bind_Ok, filterR_title.
Qed.

(** The query api.js appends for a non-empty title. *)
Lemma query_part_title t e :
  t <> [] -> encode_uri t = Ok e -> query_part (txt "title") (JStr t) = Ok ([chr "?"] ++ txt "title" ++ [chr "="] ++ e).
Proof. intros Hne He. unfold query_part. cbn [truthy to_string]. rewrite bool_decide_eq_true_2 by done. by rewrite He. Qed.

(** What [fetchJson] settles to on a [200] response listing the books [l]. *)
Lemma fetch_books l :
  Forall wf_book l -> fetch_result (to_response (OkBooks (map Some l))) = Ok (JArr (map web_obj l)).
Proof. intros Hl. by rewrite (to_response_books l Hl). Qed.

(** The books a title query selects are well formed. *)
Lemma title_books_wf c f t :
  repr c f -> Forall wf_book (if is_null_or_white_space (Some t) then c else filter (fun b => title_hit t b = true) c).
Proof.
  intros Hr. destruct (is_null_or_white_space _); [apply Hr|].
  eapply Forall_sublist; [apply sublist_filter|apply Hr].
Qed.

(** C17: End to end, api.js [getBooks(title)] against the service on a file
    holding a catalog: for a non-empty title that [encodeURIComponent]
    accepts, the first URL answers, and the promise resolves to the
    records [normalizeBook] makes of exactly the catalog's books whose
    title contains the query ignoring case, in the catalog's order (all
    books when the title is white space). *)
Theorem getBooks_end_to_end fb c f t e :
  repr c f -> Forall (fun u => (u < 0x10000)%N) t -> t <> [] -> encode_uri t = Ok e ->
  getBooks (service cmp fb f) (JStr t) =
    (Ok (map api_of (if is_null_or_white_space (Some t) then c else filter (fun b => title_hit t b = true) c)),
     [api_books ++ [chr "?"] ++ txt "title" ++ [chr "="] ++ e]).
Proof.
  intros Hr Ht Hne He. unfold getBooks. rewrite (query_part_title t e Hne He). unfold bases. cbn [tryUrls fetchJson]. unfold service at 1.
  rewrite decide_True by reflexivity. rewrite (handle_get_title fb c f t e Hr Ht He). cbn [answer_response].
  pose proof (title_books_wf c f t Hr) as Hl.
  set (l := if is_null_or_white_space (Some t) then c else filter (fun b => title_hit t b = true) c) in *.
  rewrite (fetch_books l Hl). cbn [fetch_result]. by rewrite bind_Ok, normalize_all_web.
Qed.

(** C20: Round trip through the route table: when [POST /api/books]
    answers [201 Created] on a file holding a catalog, a GET of its
    [Location] header reaches [GET /api/books/{id:int}] with the new id and
    answers [200] with the created book, without touching the file. *)
Theorem created_location_resolves fb c f b loc created f' :
  repr c f -> is_finite (Price b) = true -> in_int32 (Catalog.cat_next_id c) ->
  post_book b f = (Created loc created, f') ->
  handle_get cmp fb loc f' = (Api (OkBook created), f').
Proof.
  intros Hr Hp Hn Hpost. unfold post_book in Hpost.
  destruct (is_null_or_white_space (Title b)); [discriminate|].
  destruct (Add_correct c f b Hr Hp Hn) as (f'' & Hadd & Hr'). cbn [st_add repo_store] in Hpost.
  rewrite Hadd, bind_Ok in Hpost. cbn [respond] in Hpost.
  assert (loc = books_route ++ Z_to_txt (Id (Catalog.add b c).1) /\ created = (Catalog.add b c).1 /\ f' = f'')
    as (-> & -> & ->) by (split_and!; congruence).
  unfold handle_get. rewrite route_location by exact Hn.
  unfold get_book. cbn [st_get repo_store]. rewrite (GetById_correct _ _ _ Hr'). by rewrite get_added.
Qed.

End EndToEnd.

Section Load.
Context `{OrdinalCasing} `{UnicodeTables}.
Variable cmp : option jstr -> option jstr -> comparison.

(** The cache-busted request of [loadBooks] is answered with the whole
    catalog. *)
Lemma service_cache_busted fb c f time z :
  repr c f -> float_to_Z_exact time = Some z -> Z.abs z <= 2 ^ 53 ->
  service cmp fb f (cache_buster_url api_books time) = HttpResponse true (Some (JArr (map web_obj c))).
Proof.
  intros Hr Hz Hb. unfold cache_buster_url. rewrite (number_to_string_int time z Hz Hb).
  assert (Hi : includes api_books [chr "?"] = false) by reflexivity. rewrite Hi. cbv beta iota.
  unfold service. rewrite decide_True by reflexivity. unfold handle_get.
  rewrite url_path_query by not_in_lit. rewrite route_books.
  rewrite query_param_after; [|not_in_lit|].
  2: { rewrite list.elem_of_app. intros [Hin|Hin]; [revert Hin; not_in_lit|revert Hin; no_sym]. }
  rewrite (split_on_none (chr "#")).
  2: { rewrite list.elem_of_app. intros [Hin|Hin]; [revert Hin; not_in_lit|revert Hin; no_sym]. }
  cbn [hd]. rewrite no_title_param by no_sym.
  unfold get_books. cbn [st_all repo_store]. rewrite (GetAll_repr c f Hr). cbn [fst respond].
  rewrite bind_Ok. cbn [is_null_or_white_space answer_response respond].
  exact (to_response_books c (proj1 Hr)).
Qed.

(** What a mounted App does with that answer. *)
Lemma complete_catalog c s :
  isMounted s = true ->
  complete (HttpResponse true (Some (JArr (map web_obj c)))) s = (publish (map client_book c) s, JBool true).
Proof.
  intros Hm. unfold complete. cbn [fetch_result]. rewrite bind_Ok.
  unfold normalize_payload. rewrite normalize_web. by rewrite Hm.
Qed.

(** C18: End to end, App.jsx [loadBooks] against the service on a file
    holding a catalog: the cache-busted request [/api/books?_t=<time>]
    (an integral time below 2^53) reaches [GET /api/books] without a
    title filter, and when it settles on a mounted App it publishes
    exactly the records the specification derives from the catalog, in
    order, and resolves to [true]. *)
Theorem loadBooks_end_to_end fb c f s time z :
  repr c f -> isMounted s = true -> float_to_Z_exact time = Some z -> Z.abs z <= 2 ^ 53 ->
  complete (service cmp fb f (cache_buster_url api_books time)) s = (publish (map client_book c) s, JBool true).
Proof.
  intros Hr Hm Hz Hb. rewrite (service_cache_busted fb c f time z Hr Hz Hb). exact (complete_catalog c s Hm).
Qed.

End Load.

(** ** The App against a healthy service *)

(** The time stamps [new Date().getTime()] gives: integral, below 2^53. *)
Definition time_ok (t : float) : Prop := exists z, float_to_Z_exact t = Some z /\ Z.abs z <= 2 ^ 53.

Definition event_time (e : event) : option float :=
  match e with
  | Mount t | Tick _ t | Visibility _ t | Focus t | Refresh t => Some t
  | _ => None
  end.

Section Served.
Context `{OrdinalCasing} `{UnicodeTables}.
Variable cmp : option jstr -> option jstr -> comparison.
Variables (fb : bool) (f : file_state).

(** An event the environment may deliver when every request is answered
    by the service on the file [f]: its time stamp is a time value, and a
    settlement answers a request in flight with the service's response to
    its URL. *)
Definition served_event (s : app) (e : event) : Prop :=
  (forall t, event_time e = Some t -> time_ok t) /\
  (forall i r, e = Settle i r -> exists u, in_flight s !! i = Some u /\ r = service cmp fb f u).

(** The states of App when every request in flight is answered by the
    service on the file [f], in any order and at any time. *)
Inductive served_reachable : app -> Prop :=
| served_init : served_reachable init_app
| served_step e s s' : served_reachable s -> served_event s e -> step e s = Some s' -> served_reachable s'.

Variable c : Catalog.catalog.
Hypothesis Hrepr : repr c f.

Definition served_inv (s : app) : Prop :=
  Forall (fun u => exists t, u = cache_buster_url api_books t /\ time_ok t) (in_flight s) /\
  ((allBooks s = [] /\ categories s = []) \/
   (allBooks s = map client_book c /\ categories s = categories_of (map client_book c))).

Lemma served_inv_start t s : time_ok t -> served_inv s -> served_inv (start_load t s).
Proof.
  intros Ht [Hf Ha]. split; [|done]. simpl. apply Forall_app. split; [done|]. repeat constructor. by exists t.
Qed.

(** A request in flight is answered with the catalog. *)
Lemma served_loaded s i u :
  served_inv s -> in_flight s !! i = Some u -> loaded (service cmp fb f u) = map client_book c.
Proof.
  intros [Hf _] Hu. pose proof (Forall_lookup_1 _ _ _ _ Hf Hu) as (t & -> & z & Hz & Hb).
  rewrite (service_cache_busted cmp fb c f t z Hrepr Hz Hb). unfold loaded.
  cbn [fetch_result]. rewrite bind_Ok. unfold normalize_payload. by rewrite normalize_web.
Qed.

Lemma served_inv_step e s s' : served_inv s -> served_event s e -> step e s = Some s' -> served_inv s'.
Proof.
  intros Hi [Ht Hs] Hst. destruct e as [t| |h t|v t|t|t|i r|q|cat|a].
  7: { destruct (Hs i r eq_refl) as (u & Hu & ->). pose proof (served_loaded s i u Hi Hu) as Hl.
       destruct Hi as [Hf Ha].
       destruct (step_settle _ _ _ _ Hst) as [[Hm ->]|[Hm ->]]; split;
         try (simpl; by apply Forall_delete); [|done].
       right. by rewrite Hl. }
  all: try specialize (Ht _ eq_refl); simpl in Hst;
    repeat (case_decide || case_match); simplify_eq/=; try done;
    try (by apply served_inv_start); try (by destruct Hi).
Qed.

(** Once the snapshot holds the catalog, no served event takes it away:
    only a settlement publishes, and it publishes the catalog. *)
Lemma served_loaded_step e s s' :
  served_inv s -> served_event s e -> step e s = Some s' ->
  allBooks s = map client_book c -> categories s = categories_of (map client_book c) ->
  allBooks s' = map client_book c /\ categories s' = categories_of (map client_book c).
Proof.
  intros Hi [Ht Hs] Hst Ha Hc. destruct e as [t| |h t|v t|t|t|i r|q|cat|a].
  7: { destruct (Hs i r eq_refl) as (u & Hu & ->). pose proof (served_loaded s i u Hi Hu) as Hl.
       destruct (step_settle _ _ _ _ Hst) as [[Hm ->]|[Hm ->]]; [|done]. simpl. by rewrite Hl. }
  all: simpl in Hst; repeat (case_decide || case_match); simplify_eq/=; done.
Qed.

Lemma served_reachable_reachable s : served_reachable s -> reachable s.
Proof. induction 1 as [|e s s' _ IH [Ht _] Hst]; [constructor|]. by eapply reach_step. Qed.

Lemma served_inv_reach s : served_reachable s -> served_inv s.
Proof.
  induction 1 as [|e s s' _ IH He Hst]; [split; [constructor|by left]|].
  exact (served_inv_step e s s' IH He Hst).
Qed.

End Served.

Section ServedTheorem.
Context `{OrdinalCasing} `{UnicodeTables}.
Variable cmp : option jstr -> option jstr -> comparison.

(** App shows the catalog derived from [c]: the snapshot, the categories
    and the visible list. *)
Definition shows_catalog (c : Catalog.catalog) (s : app) : Prop :=
  allBooks s = map client_book c /\ categories s = categories_of (map client_book c) /\
  books s = visible (map client_book c) (query s) (category s).

(** C19: When every request is answered by the service on a file holding
    a catalog (responses arriving in any order, at any time, with the
    timers, listeners and mounts interleaved), App never shows anything
    but that catalog: every reachable state shows either nothing (no
    load has settled on a mounted App) or the records the specification
    derives from the catalog, with the categories derived from it and the
    visible list its filter; and once a state shows the catalog, every
    event the environment delivers next leads to a state that still shows
    it, so the snapshot never goes back to empty and the seed catalog is
    never published. *)
Theorem served_snapshot fb f c s e s' :
  repr c f -> served_reachable cmp fb f s -> served_event cmp fb f s e -> step e s = Some s' ->
  ((allBooks s = [] /\ categories s = [] /\ books s = []) \/ shows_catalog c s) /\
  (shows_catalog c s -> shows_catalog c s').
Proof.
  intros Hr Hs He Hst.
  assert (Hs' : served_reachable cmp fb f s') by (eapply served_step; eauto).
  pose proof (reachable_books_visible s (served_reachable_reachable cmp fb f s Hs)) as Hb.
  pose proof (reachable_books_visible s' (served_reachable_reachable cmp fb f s' Hs')) as Hb'.
  pose proof (served_inv_reach cmp fb f c Hr s Hs) as Hi. unfold shows_catalog.
  split.
  - destruct Hi as [_ [[Ha Hc]|[Ha Hc]]]; rewrite Hb, Ha;
      [left; split_and!; [done|done|apply visible_nil]|right; done].
  - intros (Ha & Hc & _). destruct (served_loaded_step cmp fb f c Hr e s s' Hi He Hst Ha Hc) as [Ha' Hc'].
    by rewrite Hb', Ha', Hc'.
Qed.

End ServedTheorem.

(** A host whose content root holds [ClientApp/dist/index.html]. *)
Definition built_host : host_fs :=
  mkHostFs (fun d => bool_decide (d = txt "/app/ClientApp/dist"))
           (fun p => bool_decide (p = txt "/app/ClientApp/dist/index.html")).

(** With the built client the web root is [ClientApp/dist] and the SPA
    fallback is mapped; then [GET /api/books/abc], whose id is not an
    [int], matches no API route and is answered with [index.html] and
    status 200 (404 without the fallback). *)
Example spa_fallback_answers_api_path :
  web_root (txt "/app") built_host = Some (txt "/app/ClientApp/dist") /\
  spa_fallback (txt "/app") built_host = true /\
  (handle_get null_first_cmp true (txt "/api/books/abc") (file_of sample_catalog)).1 = SpaIndex /\
  (handle_get null_first_cmp false (txt "/api/books/abc") (file_of sample_catalog)).1 = NoEndpoint /\
  fetch_result (service null_first_cmp true (file_of sample_catalog) (txt "/api/books/abc")) = Err FetchError.
Proof. split_and!; vm_compute; reflexivity. Qed.

(** api.js [getBooks('ALQUI')] against the service on the sample file. *)
Example getBooks_sample :
  getBooks (service null_first_cmp true (file_of sample_catalog)) (JStr (txt "ALQUI")) =
    (Ok [api_of (set_Id 1 (sample_book "El alquimista" 12.5))], [txt "/api/books?title=ALQUI"]).
Proof. vm_compute. reflexivity. Qed.

(** ** Witnesses *)

Lemma getBooks_end_to_end_witness :
  repr sample_catalog (file_of sample_catalog) /\ Forall (fun u => (u < 0x10000)%N) (txt "ALQUI") /\
  txt "ALQUI" <> [] /\ encode_uri (txt "ALQUI") = Ok (txt "ALQUI") /\
  getBooks (service null_first_cmp true (file_of sample_catalog)) (JStr (txt "ALQUI")) =
    (Ok (map api_of (if is_null_or_white_space (Some (txt "ALQUI")) then sample_catalog
                     else filter (fun b => title_hit (txt "ALQUI") b = true) sample_catalog)),
     [api_books ++ [chr "?"] ++ txt "title" ++ [chr "="] ++ txt "ALQUI"]).
Proof.
  assert (Hr : repr sample_catalog (file_of sample_catalog)) by solve_repr.
  assert (Ht : Forall (fun u => (u < 0x10000)%N) (txt "ALQUI")) by (repeat constructor).
  assert (Hne : txt "ALQUI" <> []) by discriminate.
  assert (He : encode_uri (txt "ALQUI") = Ok (txt "ALQUI")) by (vm_compute; reflexivity).
  split_and!; [exact Hr|exact Ht|exact Hne|exact He|].
  exact (getBooks_end_to_end null_first_cmp true _ _ _ _ Hr Ht Hne He).
Defined.

Lemma created_location_resolves_witness :
  repr sample_catalog (file_of sample_catalog) /\ is_finite (Price (sample_book "Cien anos" 12.5)) = true /\
  in_int32 (Catalog.cat_next_id sample_catalog) /\
  post_book (sample_book "Cien anos" 12.5) (file_of sample_catalog) =
    (Created (txt "/api/books/3") (set_Id 3 (sample_book "Cien anos" 12.5)),
     file_of (sample_catalog ++ [set_Id 3 (sample_book "Cien anos" 12.5)])) /\
  handle_get null_first_cmp true (txt "/api/books/3")
             (file_of (sample_catalog ++ [set_Id 3 (sample_book "Cien anos" 12.5)])) =
    (Api (OkBook (set_Id 3 (sample_book "Cien anos" 12.5))),
     file_of (sample_catalog ++ [set_Id 3 (sample_book "Cien anos" 12.5)])).
Proof.
  assert (Hr : repr sample_catalog (file_of sample_catalog)) by solve_repr.
  assert (Hp : is_finite (Price (sample_book "Cien anos" 12.5)) = true) by reflexivity.
  assert (Hn : in_int32 (Catalog.cat_next_id sample_catalog)) by (vm_compute; split; discriminate).
  assert (Hpost : post_book (sample_book "Cien anos" 12.5) (file_of sample_catalog) =
    (Created (txt "/api/books/3") (set_Id 3 (sample_book "Cien anos" 12.5)),
     file_of (sample_catalog ++ [set_Id 3 (sample_book "Cien anos" 12.5)]))) by (vm_compute; reflexivity).
  split_and!; [exact Hr|exact Hp|exact Hn|exact Hpost|].
  exact (created_location_resolves null_first_cmp true _ _ _ _ _ _ Hr Hp Hn Hpost).
Defined.

Lemma loadBooks_end_to_end_witness :
  repr sample_catalog (file_of sample_catalog) /\ isMounted mounted0 = true /\
  float_to_Z_exact 1700000000000%float = Some 1700000000000 /\ Z.abs 1700000000000 <= 2 ^ 53 /\
  complete (service null_first_cmp true (file_of sample_catalog) (cache_buster_url api_books 1700000000000%float))
           mounted0 = (publish (map client_book sample_catalog) mounted0, JBool true).
Proof.
  assert (Hr : repr sample_catalog (file_of sample_catalog)) by solve_repr.
  assert (Hm : isMounted mounted0 = true) by reflexivity.
  assert (Hz : float_to_Z_exact 1700000000000%float = Some 1700000000000) by (vm_compute; reflexivity).
  assert (Hb : Z.abs 1700000000000 <= 2 ^ 53) by lia.
  split_and!; [exact Hr|exact Hm|exact Hz|exact Hb|].
  exact (loadBooks_end_to_end null_first_cmp true _ _ _ _ _ Hr Hm Hz Hb).
Defined.

(** Mount at time 0, then the first request is answered by the service. *)
Definition served_end : app :=
  default init_app (step (Settle 0 (service null_first_cmp true (file_of sample_catalog)
                                       (cache_buster_url api_books 0))) mounted0).

(** Then the App is torn down. *)
Definition served_after : app := default init_app (step Unmount served_end).

Lemma served_snapshot_witness :
  repr sample_catalog (file_of sample_catalog) /\
  served_reachable null_first_cmp true (file_of sample_catalog) served_end /\
  served_event null_first_cmp true (file_of sample_catalog) served_end Unmount /\
  step Unmount served_end = Some served_after /\
  ((allBooks served_end = [] /\ categories served_end = [] /\ books served_end = []) \/
   shows_catalog sample_catalog served_end) /\
  (shows_catalog sample_catalog served_end -> shows_catalog sample_catalog served_after).
Proof.
  assert (Hr : repr sample_catalog (file_of sample_catalog)) by solve_repr.
  assert (Hm : served_reachable null_first_cmp true (file_of sample_catalog) mounted0).
  { apply (served_step _ _ _ (Mount 0) init_app); [constructor| |reflexivity]. split; [|done].
    intros t [= <-]. exists 0. split; [vm_compute; reflexivity|lia]. }
  assert (Hs : served_reachable null_first_cmp true (file_of sample_catalog) served_end).
  { apply (served_step _ _ _ (Settle 0 (service null_first_cmp true (file_of sample_catalog)
                                           (cache_buster_url api_books 0))) mounted0);
      [exact Hm| |vm_compute; reflexivity]. split; [done|].
    intros i r [= <- <-]. exists (cache_buster_url api_books 0). split; reflexivity. }
  assert (He : served_event null_first_cmp true (file_of sample_catalog) served_end Unmount) by (split; done).
  assert (Hst : step Unmount served_end = Some served_after) by (vm_compute; reflexivity).
  split_and!; [exact Hr|exact Hs|exact He|exact Hst| |];
    [exact (proj1 (served_snapshot null_first_cmp true _ _ _ _ _ Hr Hs He Hst))
    |exact (proj2 (served_snapshot null_first_cmp true _ _ _ _ _ Hr Hs He Hst))].
Defined.
