(* ===== verification/JsonText.v ===== *)
(** * JsonText: the text of a JSON document, written and read

    The files of the store and the bodies of the API are JSON texts.
    [BookJson] and [Wire] work on the document trees; this file writes the
    trees as text the way [System.Text.Json]'s [Utf8JsonWriter] does and
    reads a text back the way the two readers of the program do (the
    server's [Utf8JsonReader] and the browser's [JSON.parse]).

    - [write_node]: the writer.  A string is written between quotes with the
      escaping of [JavaScriptEncoder.Default]: the quote character as
      [\u0022], the backslash and the five control characters that have one as a short
      escape ([\b \t \n \f \r]), every other control character, DEL, every
      non-ASCII code unit and the HTML-sensitive characters
      [& ' + < > `] as [\uXXXX] with upper-case hex digits.  An [int] is
      written in decimal; the digits of a [double] are the runtime's and
      are a parameter [double_text] of the writer.  [Compact] is the
      layout of the API responses; [Indented nl] is [WriteIndented = true]
      of [BooksRepository.Save], with two spaces per level and [nl] the
      platform's [Environment.NewLine].
    - [parse_text]: the grammar of RFC 8259 over code units.  [jtext] is
      the syntax tree it yields, a number kept as its literal text, so
      that the server ([server_node]: an integer literal as [IntLit], any
      other as the nearest double, strings that are well-formed UTF-16, at
      most 64 levels of nesting) and the client ([client_value]: every
      number through StringToNumber, an object built member by member with
      CreateDataProperty) each convert it their own way.  The parser runs
      on fuel; [parse_text] gives it twice the length of the text, which
      [parse_write] shows is enough for every text the writer produces. *)

From Stdlib Require Import Floats Ascii String.
From S2P Require Import Prelude Text BookJson JsNumber JsValue JsObject Api.

#[local] Open Scope N_scope.

(** ** Writing *)

Definition quote : N := 34.
Definition backslash : N := 92.

Definition hex4 (c : N) : jstr := map (fun i => hex_digit ((c / 16 ^ i) mod 16)) [3; 2; 1; 0].

Definition u_escape (c : N) : jstr := backslash :: chr "u" :: hex4 c.

Definition short_escape (c : N) : option N :=
  if decide (c = 8) then Some (chr "b")
  else if decide (c = 9) then Some (chr "t")
  else if decide (c = 10) then Some (chr "n")
  else if decide (c = 12) then Some (chr "f")
  else if decide (c = 13) then Some (chr "r")
  else if decide (c = backslash) then Some backslash
  else None.

Definition html_sensitive (c : N) : bool := bool_decide (c ∈ [38; 39; 43; 60; 62; 96]).

(** One UTF-16 code unit as [JavaScriptEncoder.Default] writes it. *)
Definition escape_unit (c : N) : jstr :=
  if decide (c = quote) then u_escape c
  else match short_escape c with
       | Some e => [backslash; e]
       | None => if bool_decide (c < 32 \/ 127 <= c) || html_sensitive c then u_escape c else [c]
       end.

Definition write_string (s : jstr) : jstr := quote :: concat (map escape_unit s) ++ [quote].

Inductive json_layout :=
| Compact
| Indented (nl : jstr).

(** The line break and indentation before an item at depth [d]. *)
Definition line (lay : json_layout) (d : nat) : jstr :=
  match lay with Compact => [] | Indented nl => nl ++ repeat (chr " ") (2 * d) end.

Definition name_sep (lay : json_layout) : jstr :=
  match lay with Compact => [chr ":"] | Indented _ => [chr ":"; chr " "] end.

(** An array or object at depth [d] with the written [items]. *)
Definition enclose (lay : json_layout) (d : nat) (o c : N) (items : list jstr) : jstr :=
  match items with
  | [] => [o; c]
  | i :: r => o :: line lay (S d) ++ i ++ concat (map (fun j => chr "," :: line lay (S d) ++ j) r)
                ++ line lay d ++ [c]
  end.

Section Writer.
Variable double_text : float -> jstr.

Definition write_num (n : jnum) : jstr :=
  match n with IntLit z => Z_to_txt z | DblLit f => double_text f end.

Fixpoint write_node (lay : json_layout) (d : nat) (n : jnode) : jstr :=
  match n with
  | NNull => txt "null"
  | NBool true => txt "true"
  | NBool false => txt "false"
  | NNum m => write_num m
  | NStr s => write_string s
  | NArr l => enclose lay d (chr "[") (chr "]") (map (write_node lay (S d)) l)
  | NObj ps => enclose lay d (chr "{") (chr "}")
                 (map (fun '(k, v) => write_string k ++ name_sep lay ++ write_node lay (S d) v) ps)
  end.

(** [JsonSerializer.Serialize]: a document at depth 0. *)
Definition serialize_text (lay : json_layout) (n : jnode) : jstr := write_node lay 0 n.

End Writer.

(** *** The digits of a double

    [double.ToString("R")] of .NET Core 3.0 and later, which
    [Utf8JsonWriter.WriteNumberValue(double)] writes: the shortest digits
    [s] (k of them) that round back to the number, with decimal exponent
    [n] (the value is [0.s * 10^n]); positional when [-3 <= n <= 15], else
    [d.dddE+XX] with a signed exponent of at least two digits.  The
    theorems below hold for any [double_text]; this one is the instance the
    examples run. *)

Definition exponent_digits (e : Z) : jstr :=
  let t := N_to_txt (Z.abs_N e) in
  (if decide (e < 0)%Z then chr "-" else chr "+") :: (if decide (length t < 2)%nat then chr "0" :: t else t).

Definition dotnet_layout (s n k : Z) : jstr :=
  let d := N_to_txt (Z.to_N s) in
  if decide (-3 <= n <= 15)%Z then
    if decide (k <= n)%Z then d ++ zeros (n - k)
    else if decide (0 < n)%Z then take (Z.to_nat n) d ++ chr "." :: drop (Z.to_nat n) d
    else chr "0" :: chr "." :: zeros (- n) ++ d
  else take 1 d ++ (if decide (k = 1)%Z then [] else chr "." :: drop 1 d)
         ++ chr "E" :: exponent_digits (n - 1).

Definition dotnet_double_text (x : float) : jstr :=
  match float_parts x with
  | None => txt "NaN"
  | Some (neg, m, e) =>
      let sign := if neg then [chr "-"] else [] in
      if decide (m = 0)%Z then sign ++ txt "0"
      else
        let num := if decide (0 <= e)%Z then (m * 2 ^ e)%Z else m in
        let den := if decide (0 <= e)%Z then 1%Z else (2 ^ (- e))%Z in
        let '(s, n, k) := shortest_digits (PrimFloat.abs x) num den (decimal_exponent num den) 1 16 in
        sign ++ dotnet_layout s n k
  end.

(** ** Reading *)

Definition json_ws (c : N) : bool := bool_decide (c ∈ [32; 9; 10; 13]).

Fixpoint skip_ws (s : jstr) : jstr :=
  match s with c :: r => if json_ws c then skip_ws r else s | [] => [] end.

Definition hex_value (c : N) : option N :=
  if decide (48 <= c <= 57) then Some (c - 48)
  else if decide (65 <= c <= 70) then Some (c - 55)
  else if decide (97 <= c <= 102) then Some (c - 87)
  else None.

(** The code unit of a one-character escape [\e]. *)
Definition unescape_char (e : N) : option N :=
  if decide (e = quote) then Some quote
  else if decide (e = backslash) then Some backslash
  else if decide (e = chr "/") then Some (chr "/")
  else if decide (e = chr "b") then Some 8
  else if decide (e = chr "f") then Some 12
  else if decide (e = chr "n") then Some 10
  else if decide (e = chr "r") then Some 13
  else if decide (e = chr "t") then Some 9
  else None.

(** The characters of a string after its opening quote, up to the closing
    quote: the code units and the rest of the text. *)
Fixpoint parse_chars (s : jstr) : option (jstr * jstr) :=
  match s with
  | [] => None
  | c :: r =>
      if decide (c = quote) then Some ([], r)
      else if decide (c = backslash) then
        match r with
        | e :: r1 =>
            if decide (e = chr "u") then
              match r1 with
              | h1 :: h2 :: h3 :: h4 :: r2 =>
                  match hex_value h1, hex_value h2, hex_value h3, hex_value h4 with
                  | Some a, Some b, Some c', Some d =>
                      '(t, rest) ← parse_chars r2; Some (((a * 16 + b) * 16 + c') * 16 + d :: t, rest)
                  | _, _, _, _ => None
                  end
              | _ => None
              end
            else match unescape_char e with
                 | Some u => '(t, rest) ← parse_chars r1; Some (u :: t, rest)
                 | None => None
                 end
        | [] => None
        end
      else if decide (c < 32) then None
      else '(t, rest) ← parse_chars r; Some (c :: t, rest)
  end.

(** *** Numbers: [-? (0 | [1-9][0-9]* ) (. [0-9]+)? ([eE] [+-]? [0-9]+)?] *)

Fixpoint span_digits (s : jstr) : jstr * jstr :=
  match s with
  | c :: r => if is_digit c then let '(ds, t) := span_digits r in (c :: ds, t) else ([], s)
  | [] => ([], [])
  end.

Definition scan_int (s : jstr) : option (jstr * jstr) :=
  match s with
  | c :: r => if decide (c = chr "0") then Some ([c], r)
              else if is_digit c then let '(ds, t) := span_digits r in Some (c :: ds, t)
              else None
  | [] => None
  end.

Definition scan_frac (s : jstr) : option (jstr * jstr) :=
  match s with
  | c :: r => if decide (c = chr ".") then
                let '(ds, t) := span_digits r in
                if decide (ds = []) then None else Some (c :: ds, t)
              else Some ([], s)
  | [] => Some ([], [])
  end.

Definition scan_exp (s : jstr) : option (jstr * jstr) :=
  match s with
  | c :: r => if decide (c = chr "e" \/ c = chr "E") then
                let '(sg, r1) := match r with
                                 | d :: t => if decide (d = chr "+" \/ d = chr "-") then ([d], t) else ([], r)
                                 | [] => ([], r)
                                 end in
                let '(ds, t) := span_digits r1 in
                if decide (ds = []) then None else Some (c :: sg ++ ds, t)
              else Some ([], s)
  | [] => Some ([], [])
  end.

(** The longest number literal at the start of [s] and the rest. *)
Definition scan_number (s : jstr) : option (jstr * jstr) :=
  let '(sg, s1) := match s with
                   | c :: r => if decide (c = chr "-") then ([c], r) else ([], s)
                   | [] => ([], s)
                   end in
  '(ip, s2) ← scan_int s1; '(fp, s3) ← scan_frac s2; '(ep, s4) ← scan_exp s3;
  Some (sg ++ ip ++ fp ++ ep, s4).

(** *** Values *)

Inductive jtext :=
| TNull
| TBool (b : bool)
| TNum (lit : jstr)
| TStr (s : jstr)
| TArr (l : list jtext)
| TObj (ps : list (jstr * jtext)).

Fixpoint parse_value (n : nat) (s : jstr) : option (jtext * jstr) :=
  match n with
  | O => None
  | S n =>
      match skip_ws s with
      | [] => None
      | c :: r =>
          if decide (c = chr "[") then
            match skip_ws r with
            | c' :: r' => if decide (c' = chr "]") then Some (TArr [], r')
                          else '(vs, r'') ← parse_elems n r; Some (TArr vs, r'')
            | [] => None
            end
          else if decide (c = chr "{") then
            match skip_ws r with
            | c' :: r' => if decide (c' = chr "}") then Some (TObj [], r')
                          else '(ps, r'') ← parse_members n r; Some (TObj ps, r'')
            | [] => None
            end
          else if decide (c = quote) then '(t, rest) ← parse_chars r; Some (TStr t, rest)
          else if prefixb (txt "true") (c :: r) then Some (TBool true, drop 4 (c :: r))
          else if prefixb (txt "false") (c :: r) then Some (TBool false, drop 5 (c :: r))
          else if prefixb (txt "null") (c :: r) then Some (TNull, drop 4 (c :: r))
          else '(lit, rest) ← scan_number (c :: r); Some (TNum lit, rest)
      end
  end
(** The elements of a non-empty array after its [[], through its []]. *)
with parse_elems (n : nat) (s : jstr) : option (list jtext * jstr) :=
  match n with
  | O => None
  | S n =>
      '(v, r) ← parse_value n s;
      match skip_ws r with
      | c :: r' => if decide (c = chr ",") then '(vs, r'') ← parse_elems n r'; Some (v :: vs, r'')
                   else if decide (c = chr "]") then Some ([v], r')
                   else None
      | [] => None
      end
  end
(** The members of a non-empty object after its [{], through its [}]. *)
with parse_members (n : nat) (s : jstr) : option (list (jstr * jtext) * jstr) :=
  match n with
  | O => None
  | S n =>
      match skip_ws s with
      | c :: r =>
          if decide (c = quote) then
            '(k, r1) ← parse_chars r;
            match skip_ws r1 with
            | c' :: r2 =>
                if decide (c' = chr ":") then
                  '(v, r3) ← parse_value n r2;
                  match skip_ws r3 with
                  | d :: r4 => if decide (d = chr ",") then '(ps, r5) ← parse_members n r4; Some ((k, v) :: ps, r5)
                               else if decide (d = chr "}") then Some ([(k, v)], r4)
                               else None
                  | [] => None
                  end
                else None
            | [] => None
            end
          else None
      | [] => None
      end
  end.

(** A whole text: one value between optional whitespace. *)
Definition parse_text (s : jstr) : option jtext :=
  '(v, r) ← parse_value (S (2 * length s)) s;
  if decide (skip_ws r = []) then Some v else None.

(** ** The syntax tree of a written document *)

Section Syntax.
Variable double_text : float -> jstr.

(** The tree [parse_text] yields for the text of [n]: each number as the
    literal written for it. *)
Fixpoint text_tree (n : jnode) : jtext :=
  match n with
  | NNull => TNull
  | NBool b => TBool b
  | NNum m => TNum (write_num double_text m)
  | NStr s => TStr s
  | NArr l => TArr (map text_tree l)
  | NObj ps => TObj (map (fun '(k, v) => (k, text_tree v)) ps)
  end.

(** A property of every number and of every string and name of a document. *)
Fixpoint node_all (pn : jnum -> bool) (ps : jstr -> bool) (n : jnode) : bool :=
  match n with
  | NNum m => pn m
  | NStr s => ps s
  | NArr l => forallb (node_all pn ps) l
  | NObj kvs => forallb (fun '(k, v) => ps k && node_all pn ps v) kvs
  | _ => true
  end.

Definition unit16 (c : N) : bool := bool_decide (c < 65536).

(** [lit] is one whole number literal of the grammar. *)
Definition number_lit (lit : jstr) : bool := bool_decide (scan_number lit = Some (lit, [])).

(** What the writer's text needs to read back as the document: every code
    unit of a string a UTF-16 unit, every double written as a literal. *)
Definition writable (n : jnode) : bool :=
  node_all (fun m => match m with IntLit _ => true | DblLit f => number_lit (double_text f) end)
           (forallb unit16) n.

End Syntax.

Definition layout_ok (lay : json_layout) : bool :=
  match lay with Compact => true | Indented nl => forallb json_ws nl end.

(** ** Lemmas *)

(** Induction on documents, with the hypothesis on every element. *)
Lemma jnode_ind' (P : jnode -> Prop) :
  P NNull -> (forall b, P (NBool b)) -> (forall m, P (NNum m)) -> (forall s, P (NStr s)) ->
  (forall l, Forall P l -> P (NArr l)) -> (forall ps, Forall (fun p => P p.2) ps -> P (NObj ps)) ->
  forall n, P n.
Proof.
  intros Hn Hb Hm Hs Ha Ho. fix go 1. intros [| | | |l|ps]; [exact Hn|apply Hb|apply Hm|apply Hs| |].
  - apply Ha. revert l. fix gol 1. intros [|x l]; constructor; [apply go|apply gol].
  - apply Ho. revert ps. fix gop 1. intros [|[k v] ps]; constructor; [apply go|apply gop].
Qed.

(** *** Strings *)

Lemma hex_value_digit d : d < 16 -> hex_value (hex_digit d) = Some d.
Proof.
  intros Hd. unfold hex_digit, hex_value.
  case_decide; repeat case_decide; try lia; f_equal; lia.
Qed.

Lemma hex4_spec c : c < 65536 ->
  exists d1 d2 d3 d4, hex4 c = map hex_digit [d1; d2; d3; d4] /\ d1 < 16 /\ d2 < 16 /\ d3 < 16 /\ d4 < 16 /\
    ((d1 * 16 + d2) * 16 + d3) * 16 + d4 = c.
Proof.
  intros Hc. exists (c / 4096 mod 16), (c / 256 mod 16), (c / 16 mod 16), (c / 1 mod 16).
  split; [reflexivity|]. split_and!; try (apply N.mod_lt; lia).
  assert (E1 : c / 256 = c / 16 / 16) by (rewrite N.Div0.div_div; reflexivity).
  assert (E2 : c / 4096 = c / 256 / 16) by (rewrite N.Div0.div_div; reflexivity).
  assert (c / 4096 < 16) by (apply N.Div0.div_lt_upper_bound; lia).
  rewrite (N.mod_small (c / 4096)), N.div_1_r by lia.
  pose proof (N.div_mod c 16) as D1. pose proof (N.div_mod (c / 16) 16) as D2.
  pose proof (N.div_mod (c / 256) 16) as D3. rewrite <- E1, <- E2 in *. lia.
Qed.

Lemma parse_chars_u c t : c < 65536 ->
  parse_chars (u_escape c ++ t) = '(u, r) ← parse_chars t; Some (c :: u, r).
Proof.
  intros Hc. destruct (hex4_spec c Hc) as (d1 & d2 & d3 & d4 & Hh & H1 & H2 & H3 & H4 & Hs).
  unfold u_escape. rewrite Hh. cbn [map List.app parse_chars].
  rewrite decide_False by done. rewrite decide_True by done. rewrite decide_True by done.
  rewrite !hex_value_digit by done. by rewrite Hs.
Qed.

(** Reading a written code unit gives it back. *)
Lemma parse_chars_escape c t : c < 65536 ->
  parse_chars (escape_unit c ++ t) = '(u, r) ← parse_chars t; Some (c :: u, r).
Proof.
  intros Hc. unfold escape_unit. case_decide as Hq; [by apply parse_chars_u|].
  destruct (short_escape c) as [e|] eqn:He.
  - unfold short_escape in He. repeat case_decide; simplify_eq; reflexivity.
  - destruct (bool_decide _ || _) eqn:Hb; [by apply parse_chars_u|].
    apply orb_false_iff in Hb as [Hb _]. apply bool_decide_eq_false in Hb.
    unfold short_escape in He. cbn [List.app parse_chars].
    rewrite decide_False by done. rewrite decide_False by (repeat case_decide; congruence).
    rewrite decide_False by lia. reflexivity.
Qed.

Lemma parse_chars_string s t : forallb unit16 s = true ->
  parse_chars (concat (map escape_unit s) ++ quote :: t) = Some (s, t).
Proof.
  induction s as [|c s IH]; intros Hs; [reflexivity|].
  apply andb_true_iff in Hs as [Hc Hs]. apply bool_decide_eq_true in Hc.
  cbn [map concat]. rewrite <- app_assoc, parse_chars_escape by done. by rewrite IH.
Qed.

(** *** Numbers *)

(** What may follow a value in a text the writer produces. *)
Definition delim (rest : jstr) : Prop :=
  match rest with [] => True | c :: _ => json_ws c = true \/ c ∈ [chr ","; chr "]"; chr "}"] end.

Lemma delim_head c r : delim (c :: r) ->
  is_digit c = false /\ c <> chr "." /\ c <> chr "e" /\ c <> chr "E" /\ c <> chr "+" /\ c <> chr "-".
Proof.
  intros [Hw|Hc]; [unfold json_ws in Hw; apply bool_decide_eq_true in Hw; rename Hw into Hc|];
    repeat rewrite elem_of_cons in Hc; rewrite ?elem_of_nil in Hc; destruct_or! Hc; subst; split_and!; done.
Qed.

Lemma span_digits_app s ds t rest :
  span_digits s = (ds, t) -> (t = [] -> delim rest) -> span_digits (s ++ rest) = (ds, t ++ rest).
Proof.
  revert ds t. induction s as [|c s IH]; intros ds t Hs Ht; simpl in Hs.
  - injection Hs as <- <-. destruct rest as [|c r]; [done|].
    destruct (delim_head c r (Ht eq_refl)) as [Hd _]. simpl. by rewrite Hd.
  - simpl. destruct (is_digit c); [|by injection Hs as <- <-].
    destruct (span_digits s) as [ds' t'] eqn:E. injection Hs as <- <-.
    by rewrite (IH ds' t').
Qed.

Lemma span_digits_all ds : Forall (fun c => is_digit c = true) ds -> span_digits ds = (ds, []).
Proof. induction 1 as [|c ds Hc _ IH]; simpl; [done|]. by rewrite Hc, IH. Qed.

Lemma scan_int_app s p t rest :
  scan_int s = Some (p, t) -> (t = [] -> delim rest) -> scan_int (s ++ rest) = Some (p, t ++ rest).
Proof.
  destruct s as [|c r]; [done|]. simpl. intros Hs Ht.
  case_decide; [by injection Hs as <- <-|]. destruct (is_digit c); [|done].
  destruct (span_digits r) as [ds t'] eqn:E. injection Hs as <- <-.
  by rewrite (span_digits_app r ds t').
Qed.

Lemma scan_frac_app s p t rest :
  scan_frac s = Some (p, t) -> (t = [] -> delim rest) -> scan_frac (s ++ rest) = Some (p, t ++ rest).
Proof.
  destruct s as [|c r]; cbn [scan_frac List.app]; intros Hs Ht.
  - injection Hs as <- <-. destruct rest as [|c r]; [done|].
    destruct (delim_head c r (Ht eq_refl)) as (_ & Hp & _). unfold scan_frac. by rewrite decide_False.
  - destruct (decide (c = chr ".")); [|by injection Hs as <- <-].
    destruct (span_digits r) as [ds t'] eqn:E.
    destruct (decide (ds = [])); [done|]. injection Hs as <- <-.
    rewrite (span_digits_app r ds t' rest E Ht). by rewrite decide_False.
Qed.

Lemma scan_exp_app s p t rest :
  scan_exp s = Some (p, t) -> (t = [] -> delim rest) -> scan_exp (s ++ rest) = Some (p, t ++ rest).
Proof.
  destruct s as [|c r]; cbn [scan_exp List.app]; intros Hs Ht.
  - injection Hs as <- <-. destruct rest as [|c r]; [done|].
    destruct (delim_head c r (Ht eq_refl)) as (_ & _ & He & HE & _).
    unfold scan_exp. rewrite decide_False by (intros [?|?]; contradiction). done.
  - destruct (decide (c = chr "e" \/ c = chr "E")); [|by injection Hs as <- <-].
    destruct r as [|d r]; cbn [List.app] in Hs |- *; [done|].
    destruct (decide (d = chr "+" \/ d = chr "-"));
      [destruct (span_digits r) as [ds t'] eqn:E|destruct (span_digits (d :: r)) as [ds t'] eqn:E];
      (destruct (decide (ds = [])); [done|]); injection Hs as <- <-;
      [rewrite (span_digits_app r ds t' rest E Ht)|rewrite app_comm_cons, (span_digits_app (d :: r) ds t' rest E Ht)];
      by rewrite decide_False.
Qed.

Lemma scan_parts_app sg s lit rest :
  ('(ip, s2) ← scan_int s; '(fp, s3) ← scan_frac s2; '(ep, s4) ← scan_exp s3;
   Some (sg ++ ip ++ fp ++ ep, s4)) = Some (lit, []) -> delim rest ->
  ('(ip, s2) ← scan_int (s ++ rest); '(fp, s3) ← scan_frac s2; '(ep, s4) ← scan_exp s3;
   Some (sg ++ ip ++ fp ++ ep, s4)) = Some (lit, rest).
Proof.
  intros H Hr.
  destruct (scan_int s) as [[ip s2]|] eqn:E1; [|done]. simpl in H.
  destruct (scan_frac s2) as [[fp s3]|] eqn:E2; [|done]. simpl in H.
  destruct (scan_exp s3) as [[ep s4]|] eqn:E3; [|done]. simpl in H. injection H as <- ->.
  rewrite (scan_int_app _ _ _ rest E1 (fun _ => Hr)). simpl.
  rewrite (scan_frac_app _ _ _ rest E2 (fun _ => Hr)). simpl.
  by rewrite (scan_exp_app _ _ _ rest E3 (fun _ => Hr)).
Qed.

(** A whole literal followed by a delimiter is read up to the delimiter. *)
Lemma scan_number_app lit rest :
  number_lit lit = true -> delim rest -> scan_number (lit ++ rest) = Some (lit, rest).
Proof.
  unfold number_lit. rewrite bool_decide_eq_true. intros Hl Hr.
  destruct lit as [|c r]; [done|]. unfold scan_number in *. cbn [List.app] in *.
  destruct (decide (c = chr "-")); [by apply scan_parts_app|].
  rewrite app_comm_cons. by apply scan_parts_app.
Qed.

Lemma N_to_txt_lead n t : N_to_txt n = chr "0" :: t -> t = [].
Proof.
  assert (E : N.to_uint n = Decimal.unorm (N.to_uint n)).
  { rewrite <- DecimalN.Unsigned.to_of, DecimalN.Unsigned.of_to. reflexivity. }
  unfold N_to_txt. rewrite E. unfold Decimal.unorm.
  assert (Hz : forall u v, Decimal.nzhead u <> Decimal.D0 v) by (induction u; intros v; simpl; try discriminate; auto).
  destruct (Decimal.nzhead (N.to_uint n)) eqn:Hn; try discriminate; [by intros [=]|].
  exfalso. by eapply Hz.
Qed.

Lemma scan_int_N_to_txt n : scan_int (N_to_txt n) = Some (N_to_txt n, []).
Proof.
  pose proof (N_to_txt_digits n) as Hd. pose proof (N_to_txt_lead n) as Hl.
  destruct (N_to_txt n) as [|c t] eqn:E.
  { pose proof (digits_value_N_to_txt n) as Hv. rewrite E in Hv.
    assert (n = 0) as -> by (unfold digits_value in Hv; simpl in Hv; lia). discriminate E. }
  cbn [scan_int]. case_decide; [subst; by rewrite (Hl t eq_refl)|].
  rewrite list.Forall_cons in Hd. destruct Hd as [-> Hd]. by rewrite span_digits_all.
Qed.

(** The decimal text of an [int] is a number literal. *)
Lemma number_lit_Z z : number_lit (Z_to_txt z) = true.
Proof.
  unfold number_lit, Z_to_txt, scan_number. apply bool_decide_eq_true.
  destruct (z <? 0)%Z.
  - rewrite decide_True by reflexivity. rewrite scan_int_N_to_txt. simpl. by rewrite app_nil_r.
  - pose proof (N_to_txt_head (Z.to_N z)) as Hh. pose proof (scan_int_N_to_txt (Z.to_N z)) as Hs.
    destruct (N_to_txt (Z.to_N z)) as [|c t]; [done|].
    rewrite decide_False by (intros ->; by apply Hh). rewrite Hs. simpl. by rewrite app_nil_r.
Qed.

(** *** Whitespace and layout *)

Lemma skip_ws_ws w s : forallb json_ws w = true -> skip_ws (w ++ s) = skip_ws s.
Proof. induction w as [|c w IH]; simpl; [done|]. intros [-> Hw]%andb_true_iff. auto. Qed.

Lemma skip_ws_head c s : json_ws c = false -> skip_ws (c :: s) = c :: s.
Proof. simpl. by intros ->. Qed.

Lemma line_ws lay d : layout_ok lay = true -> forallb json_ws (line lay d) = true.
Proof.
  destruct lay as [|nl]; [done|]. intros Hnl. cbn [line layout_ok] in *. rewrite forallb_app, Hnl. cbn [andb].
  generalize (2 * d)%nat. intros k. induction k as [|k IH]; [done|]. cbn [repeat forallb]. by rewrite IH.
Qed.

Lemma name_sep_ws lay : layout_ok lay = true -> exists w, name_sep lay = chr ":" :: w /\ forallb json_ws w = true.
Proof. destruct lay; simpl; intros _; eauto. Qed.

(** A closing bracket after a line break is a delimiter. *)
Lemma delim_close lay d c s : layout_ok lay = true -> c = chr "]" \/ c = chr "}" -> delim (line lay d ++ c :: s).
Proof.
  intros Hl Hc. pose proof (line_ws lay d Hl) as Hw.
  destruct (line lay d) as [|x w]; simpl in *.
  - right. destruct Hc as [->| ->]; repeat constructor.
  - left. by apply andb_true_iff in Hw as [-> _].
Qed.

(** The unfolding equations of the reader on positive fuel. *)
Lemma parse_value_S n s : parse_value (S n) s =
  match skip_ws s with
  | [] => None
  | c :: r =>
      if decide (c = chr "[") then
        match skip_ws r with
        | c' :: r' => if decide (c' = chr "]") then Some (TArr [], r')
                      else '(vs, r'') ← parse_elems n r; Some (TArr vs, r'')
        | [] => None
        end
      else if decide (c = chr "{") then
        match skip_ws r with
        | c' :: r' => if decide (c' = chr "}") then Some (TObj [], r')
                      else '(ps, r'') ← parse_members n r; Some (TObj ps, r'')
        | [] => None
        end
      else if decide (c = quote) then '(t, rest) ← parse_chars r; Some (TStr t, rest)
      else if prefixb (txt "true") (c :: r) then Some (TBool true, drop 4 (c :: r))
      else if prefixb (txt "false") (c :: r) then Some (TBool false, drop 5 (c :: r))
      else if prefixb (txt "null") (c :: r) then Some (TNull, drop 4 (c :: r))
      else '(lit, rest) ← scan_number (c :: r); Some (TNum lit, rest)
  end.
Proof. reflexivity. Qed.

Lemma parse_elems_S n s : parse_elems (S n) s =
  '(v, r) ← parse_value n s;
  match skip_ws r with
  | c :: r' => if decide (c = chr ",") then '(vs, r'') ← parse_elems n r'; Some (v :: vs, r'')
               else if decide (c = chr "]") then Some ([v], r')
               else None
  | [] => None
  end.
Proof. reflexivity. Qed.

Lemma parse_members_S n s : parse_members (S n) s =
  match skip_ws s with
  | c :: r =>
      if decide (c = quote) then
        '(k, r1) ← parse_chars r;
        match skip_ws r1 with
        | c' :: r2 =>
            if decide (c' = chr ":") then
              '(v, r3) ← parse_value n r2;
              match skip_ws r3 with
              | d :: r4 => if decide (d = chr ",") then '(ps, r5) ← parse_members n r4; Some ((k, v) :: ps, r5)
                           else if decide (d = chr "}") then Some ([(k, v)], r4)
                           else None
              | [] => None
              end
            else None
        | [] => None
        end
      else None
  | [] => None
  end.
Proof. reflexivity. Qed.

Lemma parse_value_ws g w s : forallb json_ws w = true -> parse_value (S g) (w ++ s) = parse_value (S g) s.
Proof. intros Hw. rewrite !parse_value_S. by rewrite skip_ws_ws. Qed.

(** *** Items of arrays and objects *)

(** [i] is the text of a value that reads as [t] before any delimiter,
    with enough fuel. *)
Definition parses (i : jstr) (t : jtext) : Prop :=
  (exists c i', i = c :: i' /\ json_ws c = false /\ c <> chr "]") /\
  forall g rest, delim rest -> (2 * length i <= g)%nat -> parse_value g (i ++ rest) = Some (t, rest).

(** The inside of a non-empty array or object, up to its closing [c]. *)
Definition body (lay : json_layout) (d : nat) (c : N) (items : list jstr) : jstr :=
  match items with
  | [] => []
  | i :: r => line lay (S d) ++ i ++ concat (map (fun j => chr "," :: line lay (S d) ++ j) r) ++ line lay d ++ [c]
  end.

Lemma enclose_body lay d o c i r : enclose lay d o c (i :: r) = o :: body lay d c (i :: r).
Proof. reflexivity. Qed.

Lemma body_one lay d c i : body lay d c [i] = line lay (S d) ++ i ++ line lay d ++ [c].
Proof. reflexivity. Qed.

Lemma body_cons lay d c i j r :
  body lay d c (i :: j :: r) = line lay (S d) ++ i ++ chr "," :: body lay d c (j :: r).
Proof. simpl. by rewrite <- !app_assoc. Qed.

Section Items.
Context {A : Type}.

Lemma parse_elems_body lay d (item : A -> jstr) (tr : A -> jtext) xs f rest :
  layout_ok lay = true -> Forall (fun x => parses (item x) (tr x)) xs -> xs <> [] -> delim rest ->
  (2 * length (body lay d (chr "]") (map item xs)) <= f)%nat ->
  parse_elems f (body lay d (chr "]") (map item xs) ++ rest) = Some (map tr xs, rest).
Proof.
  intros Hl Hxs. revert f. induction Hxs as [|x xs [_ Hp] Hxs IH]; [done|]. intros f _ Hr Hf.
  pose proof (line_ws lay (S d) Hl) as Hw.
  destruct xs as [|y xs]; cbn [map] in *.
  - rewrite body_one in *. rewrite !length_app in Hf. cbn [length] in Hf.
    destruct f as [|[|f]]; [lia|destruct (item x); simpl in Hf; lia|]. rewrite parse_elems_S.
    rewrite <- !app_assoc, parse_value_ws by done. cbn [List.app].
    rewrite Hp by first [lia | apply delim_close; auto]. simpl.
    rewrite (skip_ws_ws (line lay d)) by (apply line_ws, Hl). reflexivity.
  - rewrite body_cons in *. rewrite !length_app in Hf. cbn [length] in Hf.
    destruct f as [|[|f]]; [lia|destruct (item x); simpl in Hf; lia|]. rewrite parse_elems_S.
    rewrite <- !app_assoc, parse_value_ws by done. cbn [List.app].
    rewrite Hp by first [lia | repeat constructor]. cbn [mbind option_bind].
    rewrite skip_ws_head, decide_True by reflexivity.
    rewrite IH by (done || lia). reflexivity.
Qed.

Lemma parse_members_body lay d (item : A -> jstr) (key : A -> jstr) (vtext : A -> jstr) (vtree : A -> jtext)
    (tr : A -> jstr * jtext) xs f rest :
  layout_ok lay = true ->
  (forall x, item x = write_string (key x) ++ name_sep lay ++ vtext x) -> (forall x, tr x = (key x, vtree x)) ->
  Forall (fun x => forallb unit16 (key x) = true /\ parses (vtext x) (vtree x)) xs ->
  xs <> [] -> delim rest ->
  (2 * length (body lay d (chr "}") (map item xs)) <= f)%nat ->
  parse_members f (body lay d (chr "}") (map item xs) ++ rest) = Some (map tr xs, rest).
Proof.
  intros Hl Hitem Htr Hxs. revert f. induction Hxs as [|x xs [Hk [_ Hp]] Hxs IH]; [done|]. intros f _ Hr Hf.
  destruct (name_sep_ws lay Hl) as (w & Hsep & Hw).
  destruct xs as [|y xs]; cbn [map] in *;
    [rewrite body_one in *|rewrite body_cons in *; set (B := body lay d (chr "}") (item y :: map item xs)) in *];
    rewrite (Htr x) in *; rewrite (Hitem x) in *; rewrite Hsep in Hf |- *; unfold write_string in Hf |- *;
    rewrite !length_app in Hf; cbn [length] in Hf; rewrite ?length_app in Hf; cbn [length] in Hf;
    (destruct f as [|f]; [lia|]); rewrite parse_members_S, <- !app_assoc;
    rewrite (skip_ws_ws (line lay (S d))) by (apply line_ws, Hl);
    cbn [List.app]; rewrite skip_ws_head, decide_True by reflexivity;
    rewrite <- !app_assoc; cbn [List.app]; rewrite parse_chars_string by done; cbn [mbind option_bind];
    rewrite skip_ws_head, decide_True by reflexivity;
    (destruct f as [|f]; [destruct (vtext x); simpl in Hf; lia|]); rewrite parse_value_ws by done.
  - rewrite Hp by first [lia | apply delim_close; auto]. cbn [mbind option_bind].
    rewrite (skip_ws_ws (line lay d)) by (apply line_ws, Hl). reflexivity.
  - rewrite Hp by first [lia | repeat constructor]. cbn [mbind option_bind].
    rewrite skip_ws_head, decide_True by reflexivity.
    subst B. rewrite IH by (done || lia). reflexivity.
Qed.

Lemma enclose_map lay d o c (item : A -> jstr) x xs :
  enclose lay d o c (map item (x :: xs)) = o :: body lay d c (map item (x :: xs)).
Proof. reflexivity. Qed.

Lemma skip_ws_body lay d c items rest c0 i' :
  layout_ok lay = true -> hd_error items = Some (c0 :: i') -> json_ws c0 = false ->
  exists X, skip_ws (body lay d c items ++ rest) = c0 :: X.
Proof.
  intros Hl Hi Hc. destruct items as [|i r]; [done|]. injection Hi as ->. cbn [body].
  rewrite <- !app_assoc, skip_ws_ws by (apply line_ws, Hl).
  cbn [List.app]. rewrite skip_ws_head by done. by eexists.
Qed.

End Items.

(** The whitespace before the first item of an array or object. *)
Ltac skip_to_item c0 :=
  match goal with
  | |- context [skip_ws (body ?l ?d ?c ?M ++ ?r)] =>
      let X := fresh "X" in
      destruct (skip_ws_body l d c M r c0 _ ltac:(assumption) eq_refl ltac:(done)) as [X ->]
  end.

(** *** Values *)

Lemma number_lit_head lit : number_lit lit = true ->
  exists c r, lit = c :: r /\ (c = chr "-" \/ is_digit c = true).
Proof.
  unfold number_lit. rewrite bool_decide_eq_true. destruct lit as [|c r]; [done|]. intros H.
  exists c, r. split; [done|]. unfold scan_number in H.
  destruct (decide (c = chr "-")); [by left|right].
  unfold scan_int in H. destruct (decide (c = chr "0")) as [->|]; [done|].
  by destruct (is_digit c).
Qed.

Lemma number_head c : c = chr "-" \/ is_digit c = true ->
  json_ws c = false /\ c <> chr "[" /\ c <> chr "{" /\ c <> quote /\ c <> chr "]" /\
  c <> chr "t" /\ c <> chr "f" /\ c <> chr "n".
Proof.
  intros [->|Hd]; [split_and!; try discriminate; reflexivity|].
  unfold is_digit in Hd. apply bool_decide_eq_true in Hd.
  split_and!; [|unfold quote, chr; cbn; lia ..].
  unfold json_ws. apply bool_decide_eq_false. intros Hc.
  repeat rewrite elem_of_cons in Hc. rewrite elem_of_nil in Hc. lia.
Qed.

Lemma prefixb_cons_false x p c s : x <> c -> prefixb (x :: p) (c :: s) = false.
Proof. intros Hx. simpl. by rewrite bool_decide_eq_false_2. Qed.

Lemma parse_value_number g lit rest :
  number_lit lit = true -> delim rest -> parse_value (S g) (lit ++ rest) = Some (TNum lit, rest).
Proof.
  intros Hl Hr. pose proof (scan_number_app lit rest Hl Hr) as Hs.
  destruct (number_lit_head lit Hl) as (c & r & -> & Hc).
  destruct (number_head c Hc) as (Hw & H1 & H2 & H3 & _ & Ht & Hf & Hn).
  rewrite parse_value_S. cbn [List.app] in *. rewrite skip_ws_head by done.
  rewrite !decide_False by done.
  change (txt "true") with (chr "t" :: txt "rue"). change (txt "false") with (chr "f" :: txt "alse").
  change (txt "null") with (chr "n" :: txt "ull").
  rewrite !prefixb_cons_false by congruence. by rewrite Hs.
Qed.

Section RoundTrip.
Variable double_text : float -> jstr.
Variable lay : json_layout.
Hypothesis Hlay : layout_ok lay = true.

Lemma writable_num m : writable double_text (NNum m) = true -> number_lit (write_num double_text m) = true.
Proof. destruct m; simpl; [intros _; apply number_lit_Z|done]. Qed.

Lemma writable_arr l : writable double_text (NArr l) = true -> Forall (fun e => writable double_text e = true) l.
Proof.
  unfold writable. simpl. intros H. apply List.Forall_forall. intros x Hx.
  exact (proj1 (forallb_forall _ _) H x Hx).
Qed.

Lemma writable_obj ps : writable double_text (NObj ps) = true ->
  Forall (fun p => forallb unit16 p.1 = true /\ writable double_text p.2 = true) ps.
Proof.
  unfold writable. simpl. intros H. apply List.Forall_forall. intros [k v] Hkv.
  apply andb_true_iff. exact (proj1 (forallb_forall _ _) H _ Hkv).
Qed.

(** The text of every writable document reads back as its syntax tree,
    followed by anything that may follow a value. *)
Lemma write_parses n : writable double_text n = true ->
  forall d, parses (write_node double_text lay d n) (text_tree double_text n).
Proof.
  induction n as [|b|m|s|l IH|ps IH] using jnode_ind'; intros Hw d.
  - split; [by eexists _, _|]. intros [|g] rest _ Hg; [simpl in Hg; lia|]. reflexivity.
  - split; [destruct b; by eexists _, _|]. intros [|g] rest _ Hg; [destruct b; simpl in Hg; lia|].
    destruct b; reflexivity.
  - apply writable_num in Hw. destruct (number_lit_head _ Hw) as (c & r & Hcr & Hc).
    destruct (number_head c Hc) as (Hcw & _ & _ & _ & Hb & _).
    split; [exists c, r; by rewrite <- Hcr|]. intros [|g] rest Hr Hg; [cbn [write_node] in Hg; rewrite Hcr in Hg; simpl in Hg; lia|].
    by apply parse_value_number.
  - split; [by eexists _, _|]. intros [|g] rest _ Hg; [simpl in Hg; lia|].
    rewrite parse_value_S. cbn [write_node write_string List.app]. rewrite skip_ws_head by reflexivity.
    rewrite !decide_False by discriminate. rewrite decide_True by done.
    rewrite <- app_assoc. cbn [List.app]. rewrite parse_chars_string by exact Hw. reflexivity.
  - apply writable_arr in Hw.
    destruct l as [|e l]; [split; [by eexists _, _|]; intros [|g] rest _ Hg; [simpl in Hg; lia|reflexivity]|].
    assert (Hits : Forall (fun x => parses (write_node double_text lay (S d) x) (text_tree double_text x)) (e :: l)).
    { eapply list.Forall_impl; [apply Forall_and; [exact IH|exact Hw]|]. intros x [Hx Hwx]. exact (Hx Hwx (S d)). }
    inversion Hits as [|? ? [(c & i' & Hci & Hc & Hcb) _] _]; subst.
    split; [by eexists _, _|]. intros [|g] rest Hr Hg; [simpl in Hg; lia|].
    cbn [write_node text_tree] in Hg |- *. rewrite enclose_map in Hg |- *. cbn [length] in Hg.
    rewrite parse_value_S. cbn [List.app]. rewrite skip_ws_head, decide_True by reflexivity.
    destruct (skip_ws_body lay d (chr "]") (map (write_node double_text lay (S d)) (e :: l)) rest c i' Hlay)
      as [X ->]; [by rewrite <- Hci|done|].
    rewrite decide_False by done. by rewrite (parse_elems_body lay d _ (text_tree double_text)) by (done || lia).
  - apply writable_obj in Hw.
    destruct ps as [|[k v] ps]; [split; [by eexists _, _|]; intros [|g] rest _ Hg; [simpl in Hg; lia|reflexivity]|].
    split; [by eexists _, _|]. intros [|g] rest Hr Hg; [simpl in Hg; lia|].
    cbn [write_node text_tree] in Hg |- *. rewrite enclose_map in Hg |- *. cbn [length] in Hg.
    rewrite parse_value_S. cbn [List.app]. rewrite skip_ws_head by reflexivity.
    rewrite decide_False by discriminate. rewrite decide_True by reflexivity.
    skip_to_item quote.
    rewrite decide_False by discriminate.
    rewrite (parse_members_body lay d _ fst (fun p => write_node double_text lay (S d) p.2)
               (fun p => text_tree double_text p.2) (fun '(k, v) => (k, text_tree double_text v)));
      [done|done|by intros []|by intros []| |done|done|lia].
    eapply list.Forall_impl; [apply Forall_and; [exact IH|exact Hw]|].
    intros [k' v'] [Hx [Hk Hwx]]. split; [done|]. exact (Hx Hwx (S d)).
Qed.

End RoundTrip.

(** The reader reads the writer's whole text back, with the fuel
    [parse_text] gives it. *)
Lemma parse_serialize_text double_text lay n :
  layout_ok lay = true -> writable double_text n = true ->
  parse_text (serialize_text double_text lay n) = Some (text_tree double_text n).
Proof.
  intros Hl Hw. unfold parse_text, serialize_text.
  destruct (write_parses double_text lay Hl n Hw 0) as [_ Hp].
  specialize (Hp (S (2 * length (write_node double_text lay 0 n))) [] I ltac:(lia)).
  rewrite app_nil_r in Hp. by rewrite Hp.
Qed.

(** *** The written text is ASCII *)

Definition is_ascii_unit (c : N) : Prop := c < 128.

Lemma span_digits_ascii s ds t : span_digits s = (ds, t) -> Forall is_ascii_unit ds.
Proof.
  revert ds t. induction s as [|c s IH]; intros ds t Hs; simpl in Hs; [by injection Hs as <- _|].
  destruct (is_digit c) eqn:Hc; [|by injection Hs as <- _].
  destruct (span_digits s) as [ds' t'] eqn:E. injection Hs as <- _. constructor; [|by eapply IH].
  unfold is_digit in Hc. apply bool_decide_eq_true in Hc. unfold is_ascii_unit. lia.
Qed.

Lemma scan_parts_ascii sg s p t :
  Forall is_ascii_unit sg ->
  ('(ip, s2) ← scan_int s; '(fp, s3) ← scan_frac s2; '(ep, s4) ← scan_exp s3;
   Some (sg ++ ip ++ fp ++ ep, s4)) = Some (p, t) -> Forall is_ascii_unit p.
Proof.
  assert (Hc : forall c, c ∈ [chr "-"; chr "+"; chr "."; chr "0"; chr "e"; chr "E"] -> is_ascii_unit c).
  { intros c Hc. repeat rewrite elem_of_cons in Hc. rewrite elem_of_nil in Hc.
    unfold is_ascii_unit. destruct_or! Hc; subst; reflexivity. }
  intros Hsg H.
  destruct (scan_int s) as [[ip s2]|] eqn:E1; [|done]. simpl in H.
  destruct (scan_frac s2) as [[fp s3]|] eqn:E2; [|done]. simpl in H.
  destruct (scan_exp s3) as [[ep s4]|] eqn:E3; [|done]. simpl in H. injection H as <- _.
  apply Forall_app; split; [done|apply Forall_app; split; [|apply Forall_app; split]].
  - destruct s as [|c r]; [done|]. cbn [scan_int] in E1. destruct (decide (c = chr "0")).
    + injection E1 as <- _. constructor; [|constructor]. apply Hc. subst. repeat constructor.
    + destruct (is_digit c) eqn:Hd; [|done]. destruct (span_digits r) as [ds t'] eqn:Es.
      injection E1 as <- _. constructor; [|by eapply span_digits_ascii].
      unfold is_digit in Hd. apply bool_decide_eq_true in Hd. unfold is_ascii_unit. lia.
  - destruct s2 as [|c r]; cbn [scan_frac] in E2; [by injection E2 as <- _|].
    destruct (decide (c = chr ".")); [|by injection E2 as <- _].
    destruct (span_digits r) as [ds t'] eqn:Es. destruct (decide (ds = [])); [done|].
    injection E2 as <- _. constructor; [|by eapply span_digits_ascii]. apply Hc. subst. repeat constructor.
  - destruct s3 as [|c r]; cbn [scan_exp] in E3; [by injection E3 as <- _|].
    destruct (decide (c = chr "e" \/ c = chr "E")) as [He|]; [|by injection E3 as <- _].
    destruct r as [|d r].
    + destruct (span_digits []) as [ds t'] eqn:Es. destruct (decide (ds = [])); [done|].
      injection E3 as <- _. constructor; [apply Hc; destruct He as [-> | ->]; repeat constructor|].
      by eapply span_digits_ascii.
    + destruct (decide (d = chr "+" \/ d = chr "-")) as [Hd|].
      * destruct (span_digits r) as [ds t'] eqn:Es. destruct (decide (ds = [])); [done|].
        injection E3 as <- _. constructor; [apply Hc; destruct He as [-> | ->]; repeat constructor|].
        constructor; [apply Hc; destruct Hd as [-> | ->]; repeat constructor|by eapply span_digits_ascii].
      * destruct (span_digits (d :: r)) as [ds t'] eqn:Es. destruct (decide (ds = [])); [done|].
        injection E3 as <- _. constructor; [apply Hc; destruct He as [-> | ->]; repeat constructor|].
        by eapply span_digits_ascii.
Qed.

(** A number literal is made of digits, signs, the point and the exponent letters. *)
Lemma number_lit_ascii lit : number_lit lit = true -> Forall is_ascii_unit lit.
Proof.
  unfold number_lit. rewrite bool_decide_eq_true. unfold scan_number.
  destruct lit as [|c r]; [done|]. destruct (decide (c = chr "-")) as [->|]; intros H.
  - eapply scan_parts_ascii; [|exact H]. constructor; [reflexivity|constructor].
  - eapply scan_parts_ascii; [|exact H]. constructor.
Qed.

Lemma escape_unit_ascii c : Forall is_ascii_unit (escape_unit c).
Proof.
  assert (Hh : forall d, is_ascii_unit (hex_digit (d mod 16))).
  { intros d. pose proof (N.mod_lt d 16 ltac:(lia)). unfold is_ascii_unit, hex_digit. case_decide; lia. }
  assert (Hu : forall c, Forall is_ascii_unit (u_escape c)).
  { intros c'. unfold u_escape, hex4. cbn [map]. repeat constructor; apply Hh. }
  unfold escape_unit. case_decide; [apply Hu|].
  destruct (short_escape c) as [e|] eqn:He.
  - unfold short_escape in He. repeat case_decide; simplify_eq; repeat constructor.
  - destruct (bool_decide _ || _) eqn:Hb; [apply Hu|].
    apply orb_false_iff in Hb as [Hb _]. apply bool_decide_eq_false in Hb.
    constructor; [unfold is_ascii_unit; lia|constructor].
Qed.

Lemma write_string_ascii s : Forall is_ascii_unit (write_string s).
Proof.
  unfold write_string. constructor; [reflexivity|]. apply Forall_app. split; [|repeat constructor].
  induction s as [|c s IH]; [constructor|]. cbn [map concat]. apply Forall_app. split; [apply escape_unit_ascii|exact IH].
Qed.

Lemma line_ascii lay d : layout_ok lay = true -> Forall is_ascii_unit (line lay d).
Proof.
  intros Hl. pose proof (line_ws lay d Hl) as Hw. apply List.Forall_forall. intros c Hc.
  pose proof (proj1 (forallb_forall _ _) Hw c Hc) as Hc'. unfold json_ws in Hc'.
  apply bool_decide_eq_true in Hc'. repeat rewrite elem_of_cons in Hc'. rewrite elem_of_nil in Hc'.
  unfold is_ascii_unit. destruct_or! Hc'; subst; reflexivity.
Qed.

Lemma enclose_ascii lay d o c items : layout_ok lay = true -> is_ascii_unit o -> is_ascii_unit c ->
  Forall (Forall is_ascii_unit) items -> Forall is_ascii_unit (enclose lay d o c items).
Proof.
  intros Hl Ho Hc Hi. destruct items as [|i r]; [by repeat constructor|].
  inversion Hi as [|? ? Hi1 Hr]; subst. cbn [enclose]. constructor; [done|].
  repeat (apply Forall_app; split); try (by apply line_ascii); [done| |by repeat constructor].
  clear Hi. induction Hr as [|j r Hj _ IH]; [constructor|]. cbn [map concat]. apply Forall_app. split; [|exact IH].
  constructor; [reflexivity|]. apply Forall_app. split; [by apply line_ascii|done].
Qed.

(** The text [JsonSerializer.Serialize] writes for a writable document
    is 7-bit ASCII in either layout: every non-ASCII code unit, the
    control characters and the HTML-sensitive ones are escaped, so
    [File.WriteAllText]'s UTF-8 encoding writes one byte per character. *)
Theorem serialize_text_ascii double_text lay n :
  layout_ok lay = true -> writable double_text n = true ->
  Forall is_ascii_unit (serialize_text double_text lay n).
Proof.
  intros Hl. unfold serialize_text. generalize 0%nat.
  induction n as [|b|m|s|l IH|ps IH] using jnode_ind'; intros d Hw.
  - repeat constructor.
  - destruct b; repeat constructor.
  - apply number_lit_ascii. by apply writable_num.
  - apply write_string_ascii.
  - apply writable_arr in Hw. cbn [write_node]. apply enclose_ascii; [done|reflexivity|reflexivity|].
    apply List.Forall_map. eapply list.Forall_impl; [apply Forall_and; [exact IH|exact Hw]|].
    intros x [Hx Hwx]. exact (Hx (S d) Hwx).
  - apply writable_obj in Hw. cbn [write_node]. apply enclose_ascii; [done|reflexivity|reflexivity|].
    apply List.Forall_map. eapply list.Forall_impl; [apply Forall_and; [exact IH|exact Hw]|].
    intros [k v] [Hx [_ Hwx]]. simpl in Hx.
    apply Forall_app. split; [apply write_string_ascii|]. apply Forall_app. split; [|exact (Hx (S d) Hwx)].
    destruct lay; repeat constructor.
Qed.

(** Reading back the text [JsonSerializer.Serialize] writes for a
    document, in either layout, gives the document's syntax tree: every
    string and property name code unit for code unit, every number as the
    literal written for it, arrays and objects item for item; twice the
    length of the text is fuel enough for the reader. *)
Theorem parse_write double_text lay n :
  layout_ok lay = true -> writable double_text n = true ->
  parse_text (serialize_text double_text lay n) = Some (text_tree double_text n).
Proof. apply parse_serialize_text. Qed.

(** ** Examples *)

(** A saved catalog with a non-ASCII title, markup characters, a quote, a
    backslash, a line break and a surrogate pair in a cover, and a null
    element. *)
Definition sample_doc : jnode :=
  NArr [NObj [(txt "Id", NNum (IntLit 1)); (txt "Title", NStr (txt "Cien a" ++ [241] ++ txt "os <1967> & 'mas'"));
              (txt "Author", NNull); (txt "Price", NNum (DblLit 12.5)); (txt "Cover", NStr [34; 92; 10; 0xD83D; 0xDE00])];
        NObj [(txt "Id", NNum (IntLit (-7))); (txt "Price", NNum (DblLit 1e21))];
        NNull].

(** The escapes [JavaScriptEncoder.Default] writes. *)
Example write_string_escapes :
  write_string (txt "a<b>&'+`" ++ [241; 34; 92; 10; 1; 127]) =
  [quote] ++ txt "a\u003Cb\u003E\u0026\u0027\u002B\u0060\u00F1\u0022\\\n\u0001\u007F" ++ [quote].
Proof. vm_compute. reflexivity. Qed.

(** The digits of [double.ToString("R")]. *)
Example dotnet_double_text_samples :
  map dotnet_double_text [12.5; 100; 1e15; 1e14; 0.0001; 0.00001; -0; 0.1; 2.5e-300]%float =
  [txt "12.5"; txt "100"; txt "1E+15"; txt "100000000000000"; txt "0.0001"; txt "1E-05"; txt "-0";
   txt "0.1"; txt "2.5E-300"].
Proof. vm_compute. reflexivity. Qed.

Lemma parse_write_witness :
  layout_ok (Indented [10]) = true /\ writable dotnet_double_text sample_doc = true /\
  parse_text (serialize_text dotnet_double_text (Indented [10]) sample_doc) = Some (text_tree dotnet_double_text sample_doc).
Proof.
  split; [reflexivity|]. split; [vm_compute; reflexivity|].
  apply parse_write; vm_compute; reflexivity.
Defined.

Lemma serialize_text_ascii_witness :
  layout_ok Compact = true /\ writable dotnet_double_text sample_doc = true /\
  Forall is_ascii_unit (serialize_text dotnet_double_text Compact sample_doc).
Proof.
  split; [reflexivity|]. split; [vm_compute; reflexivity|].
  apply serialize_text_ascii; vm_compute; reflexivity.
Defined.
