(* ===== verification/TextLayer.v ===== *)
(** * TextLayer: the store's file and the API's bodies as text

    [BooksRepository] keeps the file as a document tree and [Wire] hands
    the client the value [JSON.parse] builds from a body.  This file puts
    the text of [JsonText] in between and shows that nothing is lost on
    the way, for the documents the program writes.

    - The server's reader ([server_read]): [parse_text], then at most 64
      levels of nesting ([JsonReaderOptions.MaxDepth]), then the tree:
      a string or name must be well-formed UTF-16 (the reader transcodes
      to UTF-8 and refuses a lone surrogate), an integer literal is kept
      as [IntLit], any other literal is read as the nearest double and
      refused beyond the double range.
    - The client's reader ([json_parse]): [JSON.parse], every number
      through StringToNumber, an object built member by member with
      CreateDataProperty ([obj_set]).
    - The text store: the file is missing ([None]) or holds a text.
      [BooksRepository_text], [GetAll_text] and [Save_text] are the
      constructor, [GetAll] and [Save] of Data/BooksRepository.cs on the
      text ([File.WriteAllText] of "[]", [File.ReadAllText] then
      [Deserialize], [Serialize] with [WriteIndented] then
      [File.WriteAllText]); [file_of_text] is the tree the text denotes.
    - [to_response_text]: what [fetch] settles to when the body is the
      compact text of the web document and the client parses it.

    The digits of a double and the line break are the runtime's
    ([double_text], [nl]); the theorems hold for any of them whose digits
    read back, a condition checked per number ([book_text_ok]). *)

From Stdlib Require Import Floats Ascii String.
From S2P Require Import Prelude Text BookJson BooksRepository Endpoints JsNumber JsValue JsObject.
From S2P Require Import ClientBook Sync Api Wire JsonText.

#[local] Open Scope Z_scope.

(** ** The server's reader *)

(** No lone surrogate: a high surrogate is followed by a low one, a low
    one follows a high one. *)
Fixpoint utf16_wf (s : jstr) : bool :=
  match s with
  | [] => true
  | c :: r =>
      if is_high_surrogate c then
        match r with c2 :: r' => is_low_surrogate c2 && utf16_wf r' | [] => false end
      else negb (is_low_surrogate c) && utf16_wf r
  end.

(** A number literal as the reader keeps it: an integer literal for
    [GetInt32], any other as the nearest double for [GetDouble]. *)
Definition number_node (lit : jstr) : result exn jnum :=
  let '(neg, u) := match lit with
                   | c :: u => if decide (c = chr "-") then (true, u) else (false, lit)
                   | [] => (false, lit)
                   end in
  match parse_unsigned_decimal u with
  | Some (m, e) =>
      if forallb is_digit u then Ok (IntLit (if neg then - m else m))
      else let f := round_decimal neg m e in
           if is_finite f then Ok (DblLit f) else throw JsonException
  | None => throw JsonException
  end.

Fixpoint text_depth (t : jtext) : nat :=
  match t with
  | TArr l => S (list_max (map text_depth l))
  | TObj ps => S (list_max (map (fun '(_, v) => text_depth v) ps))
  | _ => O
  end.

Fixpoint server_tree (t : jtext) : result exn jnode :=
  match t with
  | TNull => Ok NNull
  | TBool b => Ok (NBool b)
  | TNum lit => NNum <$> number_node lit
  | TStr s => if utf16_wf s then Ok (NStr s) else throw JsonException
  | TArr l => NArr <$> mapR server_tree l
  | TObj ps => NObj <$> mapR (fun '(k, v) => if utf16_wf k then v' ← server_tree v; Ok (k, v')
                                             else throw JsonException) ps
  end.

(** [JsonSerializer.Deserialize]'s reading of a text into a document. *)
Definition server_read (s : jstr) : result exn jnode :=
  match parse_text s with
  | Some t => if decide (text_depth t <= 64)%nat then server_tree t else throw JsonException
  | None => throw JsonException
  end.

(** ** The client's reader *)

Fixpoint client_value (t : jtext) : jsval :=
  match t with
  | TNull => JNull
  | TBool b => JBool b
  | TNum lit => JNum (string_to_number lit)
  | TStr s => JStr s
  | TArr l => JArr (map client_value l)
  | TObj ps => JObj (fold_left (fun o '(k, v) => obj_set o k v) (map (fun '(k, v) => (k, client_value v)) ps) [])
  end.

(** [JSON.parse]: [None] is the SyntaxError that makes [res.json()] reject. *)
Definition json_parse (s : jstr) : option jsval := client_value <$> parse_text s.

(** ** The store and the bodies as text *)

Section Text.
Context `{OrdinalCasing}.
Variable double_text : float -> jstr.
Variable nl : jstr.

(** The constructor: [File.WriteAllText(_filePath, "[]")] when missing. *)
Definition BooksRepository_text (t : option jstr) : option jstr :=
  match t with None => Some (txt "[]") | _ => t end.

(** [GetAll]: [File.ReadAllText], [Deserialize<List<Book>>], [?? new List<Book>()]. *)
Definition GetAll_text (t : option jstr) : result exn (list slot) :=
  match t with
  | None => throw FileNotFoundException
  | Some s => d ← server_read s; deserialize_list d
  end.

(** [Save]: [Serialize(list, WriteIndented = true)], the text for [File.WriteAllText]. *)
Definition Save_text (l : list slot) : result exn jstr :=
  d ← serialize_list l; Ok (serialize_text double_text (Indented nl) d).

(** The state of [BooksRepository.v] a file's text denotes. *)
Definition file_of_text (t : option jstr) : file_state :=
  match t with
  | None => FileMissing
  | Some s => match server_read s with Ok d => FileJson d | Err _ => FileCorrupt end
  end.

(** The compact text of a response body with the web defaults. *)
Definition body_text (n : jnode) : jstr := serialize_text double_text Compact (camel_node n).

(** What [fetch] settles to for a handler's result when the client parses
    the body text. *)
Definition to_response_text (h : http_result) : response :=
  match h with
  | OkBooks l =>
      match serialize_list l with
      | Ok n => HttpResponse true (json_parse (body_text n))
      | Err _ => HttpResponse false None
      end
  | OkBook b | Created _ b =>
      match serialize_book b with
      | Ok n => HttpResponse true (json_parse (body_text n))
      | Err _ => HttpResponse false None
      end
  | OkCategories l => HttpResponse true (json_parse (body_text (NArr (map str_node l))))
  | NoContent => HttpResponse true None
  | NotFound | BadRequest _ | ServerError _ => HttpResponse false None
  end.

(** *** What the round trips need of a book *)

(** A string both readers take back. *)
Definition text_ok (s : jstr) : bool := forallb unit16 s && utf16_wf s.

Definition opt_text_ok (s : option jstr) : bool := from_option text_ok true s.

(** The literal of a number reads back as the same number: on the server
    for a double, in the browser for both. *)
Definition server_double_ok (f : float) : bool :=
  number_lit (double_text f) &&
  match number_node (double_text f) with
  | Ok m => match double_of_node (NNum m) with Ok g => PrimFloat.Leibniz.eqb g f | Err _ => false end
  | Err _ => false
  end.

Definition client_num_ok (m : jnum) : bool :=
  match m with
  | IntLit z => PrimFloat.Leibniz.eqb (string_to_number (Z_to_txt z)) (Z_to_double z)
  | DblLit f => number_lit (double_text f) && PrimFloat.Leibniz.eqb (string_to_number (double_text f)) f
  end.

Definition book_text_ok (b : book) : bool :=
  opt_text_ok (Title b) && opt_text_ok (Author b) && opt_text_ok (Category b) && opt_text_ok (Cover b) &&
  server_double_ok (Price b) && client_num_ok (IntLit (Id b)) && client_num_ok (DblLit (Price b)).

(** Every object of a document has distinct names, none of them an array
    index, so that [JSON.parse] keeps its members in document order. *)
Fixpoint keys_plain (n : jnode) : bool :=
  match n with
  | NArr l => forallb keys_plain l
  | NObj ps => bool_decide (NoDup (map fst ps)) &&
               forallb (fun '(k, v) => bool_decide (array_index k = None) && keys_plain v) ps
  | _ => true
  end.

Definition response_text_ok (h : http_result) : bool :=
  match h with
  | OkBooks l => forallb (from_option book_text_ok true) l
  | OkBook b | Created _ b => book_text_ok b
  | OkCategories l => forallb opt_text_ok l
  | _ => true
  end.

(** A response body both sides agree on. *)
Definition web_ok (n : jnode) : bool :=
  writable double_text n && keys_plain n && node_all client_num_ok (fun _ => true) n.

End Text.

(** ** Lemmas *)

(** *** Integer literals on the server *)

Lemma take_digits_all ds acc n : Forall (fun c => is_digit c = true) ds ->
  take_digits 10 ds acc n = (fold_left digit_step ds acc, (n + length ds)%nat, []).
Proof.
  intros Hd. revert acc n. induction Hd as [|c ds Hc _ IH]; intros acc n; simpl; [by rewrite Nat.add_0_r|].
  unfold is_digit in Hc. apply bool_decide_eq_true in Hc. unfold digit_value.
  rewrite decide_True by lia. rewrite decide_True by lia. rewrite IH.
  replace (acc * 10 + (Z.of_N c - 48)) with (digit_step acc c) by (unfold digit_step; lia).
  f_equal. f_equal. lia.
Qed.

Lemma parse_unsigned_decimal_digits ds : ds <> [] -> Forall (fun c => is_digit c = true) ds ->
  parse_unsigned_decimal ds = Some (digits_value ds, 0).
Proof.
  intros Hne Hd. unfold parse_unsigned_decimal. rewrite take_digits_all by done. simpl.
  rewrite decide_False by (destruct ds; [done|simpl; lia]). reflexivity.
Qed.

(** The server reads the text of an [int] as that integer literal. *)
Lemma number_node_Z z : number_node (Z_to_txt z) = Ok (IntLit z).
Proof.
  assert (Hn : forall n, N_to_txt n <> []).
  { intros n E. pose proof (digits_value_N_to_txt n) as Hv. rewrite E in Hv.
    assert (n = 0%N) as -> by (unfold digits_value in Hv; simpl in Hv; lia). discriminate E. }
  unfold number_node, Z_to_txt. destruct (Z.ltb_spec z 0).
  - rewrite decide_True by reflexivity.
    rewrite parse_unsigned_decimal_digits by (apply Hn || apply N_to_txt_digits).
    rewrite (proj2 (forallb_forall _ _)); [|intros c Hc; exact (proj1 (List.Forall_forall _ _) (N_to_txt_digits _) c Hc)].
    rewrite digits_value_N_to_txt. f_equal. f_equal. lia.
  - pose proof (N_to_txt_head (Z.to_N z)) as Hh.
    destruct (N_to_txt (Z.to_N z)) as [|c t] eqn:E; [by apply Hn in E|].
    rewrite decide_False by (intros ->; by apply Hh). rewrite <- E.
    rewrite parse_unsigned_decimal_digits by (apply Hn || apply N_to_txt_digits).
    rewrite (proj2 (forallb_forall _ _)); [|intros d Hd; exact (proj1 (List.Forall_forall _ _) (N_to_txt_digits _) d Hd)].
    rewrite digits_value_N_to_txt. f_equal. f_equal. lia.
Qed.

(** *** Reading back a saved book *)

Section Server.
Context `{OrdinalCasing}.
Variable double_text : float -> jstr.

Lemma server_str s : opt_text_ok s = true -> server_tree (text_tree double_text (str_node s)) = Ok (str_node s).
Proof. destruct s as [s|]; simpl; [|done]. unfold text_ok. by intros [_ ->]%andb_true_iff. Qed.

Lemma server_double f : server_double_ok double_text f = true ->
  number_lit (double_text f) = true /\ exists m, number_node (double_text f) = Ok m /\ double_of_node (NNum m) = Ok f.
Proof.
  unfold server_double_ok. intros [Hl Hf]%andb_true_iff. split; [done|].
  destruct (number_node (double_text f)) as [m|]; [|done]. exists m. split; [done|].
  destruct (double_of_node (NNum m)) as [g|]; [|done]. by apply FloatAxioms.Leibniz.eqb_spec in Hf as ->.
Qed.

(** Two lists of properties that set every book the same way. *)
Lemma set_properties_ext b ps qs :
  Forall2 (fun p q => forall b, set_property b p.1 p.2 = set_property b q.1 q.2) ps qs ->
  set_properties b ps = set_properties b qs.
Proof.
  intros Hpq. revert b. induction Hpq as [|[k v] [k' v'] ps qs Hpq _ IH]; intros b; [done|].
  cbn [set_properties]. simpl in Hpq. rewrite Hpq. destruct (set_property b k' v'); [apply IH|done].
Qed.

Lemma set_property_price b m f : double_of_node (NNum m) = Ok f ->
  set_property b (txt "Price") (NNum m) = set_property b (txt "Price") (NNum (DblLit f)).
Proof.
  intros Hm. unfold set_property.
  rewrite !name_eq_ascii by (unfold is_ascii; repeat constructor).
  cbn -[double_of_node]. by rewrite Hm.
Qed.

(** The server reads the saved text of a book as a document that
    deserializes to the same book. *)
Lemma server_book b nb : book_text_ok double_text b = true -> serialize_book b = Ok nb ->
  exists nb', server_tree (text_tree double_text nb) = Ok nb' /\ deserialize_slot nb' = deserialize_slot nb.
Proof.
  unfold book_text_ok. intros Hb Hs. repeat apply andb_true_iff in Hb as [Hb ?].
  destruct (server_double (Price b)) as [_ (m & Hm & Hd)]; [done|].
  unfold serialize_book, double_node in Hs. destruct (is_finite (Price b)); [|done]. injection Hs as <-.
  eexists. split.
  - cbn [text_tree map write_num server_tree mapR].
    rewrite number_node_Z, Hm, !server_str by done.
    change (utf16_wf (txt "Id")) with true. change (utf16_wf (txt "Title")) with true.
    change (utf16_wf (txt "Author")) with true. change (utf16_wf (txt "Category")) with true.
    change (utf16_wf (txt "Price")) with true. change (utf16_wf (txt "Cover")) with true.
    reflexivity.
  - cbn [deserialize_slot]. erewrite set_properties_ext; [reflexivity|].
    do 4 (constructor; [intros; reflexivity|]).
    constructor; [intros; by apply set_property_price|].
    constructor; [intros; reflexivity|constructor].
Qed.

Lemma node_all_str pn s : opt_text_ok s = true -> node_all pn (forallb unit16) (str_node s) = true.
Proof. destruct s as [s|]; simpl; [|done]. unfold text_ok. by intros [-> _]%andb_true_iff. Qed.

Lemma text_depth_str s : text_depth (text_tree double_text (str_node s)) = O.
Proof. by destruct s. Qed.

(** The document of a book the checks accept is written as text that reads
    back, one level deep. *)
Lemma book_writable b nb : book_text_ok double_text b = true -> serialize_book b = Ok nb ->
  writable double_text nb = true /\ (text_depth (text_tree double_text nb) <= 1)%nat.
Proof.
  unfold book_text_ok. intros Hb Hs. repeat apply andb_true_iff in Hb as [Hb ?].
  destruct (server_double (Price b)) as [Hl _]; [done|].
  unfold serialize_book, double_node in Hs. destruct (is_finite (Price b)); [|done]. injection Hs as <-.
  split.
  - unfold writable. cbn [node_all forallb]. rewrite !node_all_str by done. cbn beta iota. rewrite Hl.
    reflexivity.
  - cbn [text_tree map text_depth]. rewrite !text_depth_str. reflexivity.
Qed.

Lemma server_slots l ns : Forall (from_option (fun b => book_text_ok double_text b = true) True) l ->
  Forall2 (fun x y => serialize_slot x = Ok y) l ns ->
  exists ns', mapR server_tree (map (text_tree double_text) ns) = Ok ns' /\
    mapR deserialize_slot ns' = mapR deserialize_slot ns /\
    Forall (fun y => writable double_text y = true /\ (text_depth (text_tree double_text y) <= 1)%nat) ns.
Proof.
  intros Hl Hs. induction Hs as [|x y l ns Hxy _ IH]; [by exists []|].
  inversion Hl as [|? ? Hx Hl']; subst. destruct (IH Hl') as (ns' & Hm & Hd & Hw).
  destruct x as [b|]; simpl in Hxy.
  - destruct (server_book b y Hx Hxy) as (y' & Hy & Hy'). exists (y' :: ns').
    cbn [map mapR]. rewrite Hy, Hm. split; [done|]. split; [cbn [mapR]; by rewrite Hy', Hd|].
    constructor; [by apply (book_writable b)|done].
  - injection Hxy as <-. exists (NNull :: ns'). cbn [map mapR]. rewrite Hm.
    split; [done|]. split; [cbn [mapR]; by rewrite Hd|]. constructor; [split; [reflexivity|simpl; lia]|done].
Qed.

End Server.

Section Store.
Context `{OrdinalCasing}.
Variable double_text : float -> jstr.
Variable nl : jstr.
Hypothesis Hnl : forallb json_ws nl = true.

Lemma depth_le_one ns : Forall (fun y => (text_depth (text_tree double_text y) <= 1)%nat) ns ->
  (text_depth (text_tree double_text (NArr ns)) <= 2)%nat.
Proof.
  intros Hd. cbn [text_tree text_depth]. rewrite map_map.
  enough (list_max (map (fun y => text_depth (text_tree double_text y)) ns) <= 1)%nat by lia.
  apply list_max_le, List.Forall_map. exact Hd.
Qed.

(** C13: The text store keeps what it is given: the text [Save] writes for
    a list of books (with an [int] id, strings of UTF-16 code units without
    a lone surrogate, a price whose digits read back) is read by [GetAll]
    as the same list, null elements included. *)
Theorem save_text_roundtrip l t :
  Forall (from_option (fun b => in_int32 (Id b) /\ book_text_ok double_text b = true) True) l ->
  Save_text double_text nl l = Ok t -> GetAll_text (Some t) = Ok l.
Proof.
  intros Hl. unfold Save_text. destruct (serialize_list l) as [d|] eqn:Hd; [|done]. intros [= <-].
  pose proof Hd as Hd'. unfold serialize_list in Hd'.
  destruct (mapR serialize_slot l) as [ns|] eqn:Hns; [|done]. injection Hd' as <-.
  destruct (server_slots double_text l ns) as (ns' & Hm & Hdes & Hw);
    [eapply list.Forall_impl; [exact Hl|]; intros [b|]; simpl; tauto|by apply mapR_Forall2|].
  unfold GetAll_text, server_read. rewrite parse_serialize_text; [|exact Hnl|].
  2: { unfold writable. cbn [node_all]. apply forallb_forall. intros y Hy.
       exact (proj1 (proj1 (List.Forall_forall _ _) Hw y Hy)). }
  rewrite decide_True by (pose proof (depth_le_one ns ltac:(eapply list.Forall_impl; [exact Hw|]; naive_solver)); lia).
  cbn [text_tree server_tree]. rewrite Hm. cbn [fmap result_fmap mbind result_bind deserialize_list]. rewrite Hdes.
  apply (deserialize_serialize_list l (NArr ns)); [|exact Hd].
  eapply list.Forall_impl; [exact Hl|]. intros [b|]; simpl; tauto.
Qed.

End Store.

(** *** Reading a body in the browser *)

(** [CreateDataProperty] of fresh names that are not array indices
    appends them in order. *)
Lemma fold_obj_set {A} (o ps : list (jstr * A)) :
  NoDup (map fst (o ++ ps)) -> Forall (fun p => array_index p.1 = None) ps ->
  fold_left (fun o '(k, v) => obj_set o k v) ps o = o ++ ps.
Proof.
  intros Hnd Hps. revert o Hnd. induction Hps as [|[k v] ps Hk _ IH]; intros o Hnd; [by rewrite app_nil_r|].
  cbn [fold_left]. simpl in Hk.
  assert (Hko : k ∉ map fst o).
  { intros Hin. rewrite map_app in Hnd. cbn [map fst] in Hnd.
    apply list.NoDup_app in Hnd as (_ & Hdis & _). apply (Hdis k Hin). constructor. }
  unfold obj_set. rewrite decide_False by done. rewrite Hk.
  rewrite IH; [by rewrite <- app_assoc|]. rewrite <- app_assoc. exact Hnd.
Qed.

Section Client.
Variable double_text : float -> jstr.

(** [JSON.parse] of the syntax tree of a document is the value [Wire]
    assigns it, when its numbers read back and its objects have plain,
    distinct names. *)
Lemma client_text_tree n :
  node_all (client_num_ok double_text) (fun _ => true) n = true -> keys_plain n = true ->
  client_value (text_tree double_text n) = json_value n.
Proof.
  induction n as [|b|m|s|l IH|ps IH] using jnode_ind'; intros Hn Hk; try reflexivity.
  - destruct m as [z|f]; cbn in Hn |- *; [apply FloatAxioms.Leibniz.eqb_spec in Hn; by rewrite Hn|].
    apply andb_true_iff in Hn as [_ Hn]. apply FloatAxioms.Leibniz.eqb_spec in Hn. by rewrite Hn.
  - cbn [text_tree client_value json_value]. f_equal. rewrite map_map. apply map_ext_Forall.
    cbn [node_all keys_plain] in Hn, Hk. rewrite forallb_forall in Hn, Hk.
    apply List.Forall_forall. intros x Hx. apply (proj1 (List.Forall_forall _ _) IH x Hx); auto.
  - cbn [text_tree client_value json_value]. f_equal. cbn [node_all keys_plain] in Hn, Hk.
    apply andb_true_iff in Hk as [Hnd Hk]. apply bool_decide_eq_true in Hnd.
    rewrite forallb_forall in Hn, Hk.
    assert (Hv : map (fun '(k, v) => (k, client_value v)) (map (fun '(k, v) => (k, text_tree double_text v)) ps) =
                 map (fun '(k, v) => (k, json_value v)) ps).
    { rewrite map_map. apply map_ext_Forall, List.Forall_forall. intros [k v] Hx.
      pose proof (proj1 (List.Forall_forall _ _) IH _ Hx) as IHx. simpl in IHx.
      specialize (Hn _ Hx). specialize (Hk _ Hx). apply andb_true_iff in Hk as [_ Hk].
      simpl in Hn. by rewrite IHx. }
    rewrite Hv. apply (fold_obj_set [] _).
    + rewrite app_nil_l, map_map. erewrite map_ext; [exact Hnd|]. by intros [].
    + apply List.Forall_map, List.Forall_forall. intros [k v] Hx. specialize (Hk _ Hx).
      apply andb_true_iff in Hk as [Hk _]. by apply bool_decide_eq_true in Hk.
Qed.

End Client.

(** *** The response bodies *)

Section Responses.
Context `{OrdinalCasing}.
Variable double_text : float -> jstr.

Lemma camel_str s : camel_node (str_node s) = str_node s.
Proof. by destruct s. Qed.

Lemma keys_plain_str s : keys_plain (str_node s) = true.
Proof. by destruct s. Qed.

Lemma node_all_str_true pn s : node_all pn (fun _ => true) (str_node s) = true.
Proof. by destruct s. Qed.

Lemma web_ok_arr l : Forall (fun n => web_ok double_text n = true) l -> web_ok double_text (NArr l) = true.
Proof.
  intros Hl. unfold web_ok, writable. cbn [node_all keys_plain].
  rewrite !(proj2 (forallb_forall _ _)); [done|..]; intros x Hx;
    pose proof (proj1 (List.Forall_forall _ _) Hl x Hx) as Hw; unfold web_ok, writable in Hw;
    repeat apply andb_true_iff in Hw as [Hw ?]; done.
Qed.

Lemma json_parse_body n : web_ok double_text (camel_node n) = true ->
  json_parse (body_text double_text n) = Some (json_value (camel_node n)).
Proof.
  unfold web_ok. intros Hok. apply andb_true_iff in Hok as [Hok Hn]. apply andb_true_iff in Hok as [Hw Hk].
  unfold json_parse, body_text. rewrite parse_serialize_text by done.
  cbn [fmap option_fmap option_map]. f_equal. by apply client_text_tree.
Qed.

(** The web document of a book the checks accept is a body both sides
    agree on. *)
Lemma web_ok_book b nb : book_text_ok double_text b = true -> serialize_book b = Ok nb ->
  web_ok double_text (camel_node nb) = true.
Proof.
  unfold book_text_ok. intros Hb Hs. repeat apply andb_true_iff in Hb as [Hb ?].
  destruct (server_double double_text (Price b)) as [Hl _]; [done|].
  unfold serialize_book, double_node in Hs. destruct (is_finite (Price b)); [|done]. injection Hs as <-.
  unfold web_ok, writable. cbn [camel_node map node_all keys_plain forallb]. rewrite !camel_str.
  rewrite !node_all_str by done. rewrite !node_all_str_true, !keys_plain_str. cbn beta iota.
  rewrite Hl. rewrite H1, H0. reflexivity.
Qed.

Lemma web_ok_slots l ns : Forall (fun s => from_option (book_text_ok double_text) true s = true) l ->
  Forall2 (fun x y => serialize_slot x = Ok y) l ns -> Forall (fun y => web_ok double_text (camel_node y) = true) ns.
Proof.
  intros Hl Hs. induction Hs as [|x y l ns Hxy _ IH]; constructor; inversion Hl; subst; [|auto].
  destruct x as [b|]; simpl in Hxy; [by apply (web_ok_book b)|by injection Hxy as <-].
Qed.

(** The API's bodies as text change nothing the client sees: for
    every handler result whose books and strings the checks accept, what
    [fetch] settles to when the server writes the compact text of the web
    document and [res.json()] parses it is the response [Wire.to_response]
    gives, for every status. *)
Theorem text_response_refines h :
  response_text_ok double_text h = true -> to_response_text double_text h = to_response h.
Proof.
  destruct h as [l|b|l| |msg|loc b| |e]; cbn [response_text_ok to_response_text to_response]; intros Hok;
    try reflexivity.
  - unfold web_json. destruct (serialize_list l) as [n|] eqn:Hn; [|done]. cbn [fmap result_fmap].
    rewrite json_parse_body; [done|].
    unfold serialize_list in Hn. destruct (mapR serialize_slot l) as [ns|] eqn:Hns; [|done].
    injection Hn as <-. cbn [camel_node]. apply web_ok_arr, List.Forall_map.
    apply (web_ok_slots l); [|by apply mapR_Forall2].
    apply List.Forall_forall. intros x Hx. exact (proj1 (forallb_forall _ _) Hok x Hx).
  - destruct (serialize_book b) as [n|] eqn:Hn; [|done]. cbn [fmap result_fmap].
    rewrite json_parse_body; [done|]. by apply (web_ok_book b).
  - rewrite json_parse_body.
    + cbn [camel_node json_value]. rewrite !map_map. do 3 f_equal. apply map_ext. intros s. by rewrite camel_str.
    + cbn [camel_node]. rewrite map_map. apply web_ok_arr, List.Forall_map, List.Forall_forall. intros s Hs.
      rewrite camel_str. pose proof (proj1 (forallb_forall _ _) Hok s Hs) as Hs'.
      unfold web_ok, writable. rewrite node_all_str, keys_plain_str, node_all_str_true by done. reflexivity.
  - destruct (serialize_book b) as [n|] eqn:Hn; [|done]. cbn [fmap result_fmap].
    rewrite json_parse_body; [done|]. by apply (web_ok_book b).
Qed.

End Responses.

(** *** The file's text and the document model *)

Lemma jtext_ind' (P : jtext -> Prop) :
  P TNull -> (forall b, P (TBool b)) -> (forall lit, P (TNum lit)) -> (forall s, P (TStr s)) ->
  (forall l, Forall P l -> P (TArr l)) -> (forall ps, Forall (fun p => P p.2) ps -> P (TObj ps)) ->
  forall t, P t.
Proof.
  intros Hn Hb Hm Hs Ha Ho. fix go 1. intros [| | | |l|ps]; [exact Hn|apply Hb|apply Hm|apply Hs| |].
  - apply Ha. revert l. fix gol 1. intros [|x l]; constructor; [apply go|apply gol].
  - apply Ho. revert ps. fix gop 1. intros [|[k v] ps]; constructor; [apply go|apply gop].
Qed.

(** Every text the server refuses, it refuses with a [JsonException]. *)
Lemma server_tree_Err t e : server_tree t = Err e -> e = JsonException.
Proof.
  induction t as [| | lit | s | l IH | ps IH] using jtext_ind'; cbn [server_tree]; try done.
  - unfold number_node. match goal with |- context [let '(neg, u) := ?M in _] => destruct M as [neg u] end.
    destruct (parse_unsigned_decimal u) as [[m ex]|]; [|by intros [= <-]].
    destruct (forallb is_digit u); [done|]. by destruct (is_finite _); intros [= <-].
  - by destruct (utf16_wf s); intros [= <-].
  - destruct (mapR server_tree l) as [l'|e'] eqn:Hl; [done|]. intros [= <-].
    destruct (mapR_Err _ _ _ Hl) as (x & Hx & Hf). exact (proj1 (list.Forall_forall _ _) IH x Hx Hf).
  - destruct (mapR _ ps) as [ps'|e'] eqn:Hl; [done|]. intros [= <-].
    destruct (mapR_Err _ _ _ Hl) as ([k v] & Hx & Hf). destruct (utf16_wf k); [|by injection Hf].
    destruct (server_tree v) as [v'|e''] eqn:Hv; [done|]. injection Hf as <-.
    exact (proj1 (list.Forall_forall _ _) IH (k, v) Hx Hv).
Qed.


(** The text store and the document store of [BooksRepository.v]
    agree through [file_of_text]: [GetAll] on a text is [GetAll] on the
    document the text denotes (a text the reader refuses is the corrupt
    file), and the constructor's ["[]"] denotes the empty array the
    model's constructor creates. *)
Theorem file_of_text_refines `{OrdinalCasing} t :
  GetAll_text t = (GetAll (file_of_text t)).1 /\
  file_of_text (BooksRepository_text t) = BooksRepository (file_of_text t).
Proof.
  destruct t as [s|]; [|split; reflexivity]. cbn [GetAll_text file_of_text BooksRepository_text].
  split; [|by destruct (server_read s)].
  destruct (server_read s) as [d|e] eqn:Hs; [reflexivity|]. cbn. f_equal.
  unfold server_read in Hs. destruct (parse_text s) as [t|]; [|by injection Hs as <-].
  destruct (decide _); [|by injection Hs as <-]. by apply server_tree_Err in Hs.
Qed.

(** ** Examples *)

(** The sample catalog of [BooksRepository.v], a null element and a book
    with a non-ASCII title and a surrogate pair in its cover. *)
Definition sample_slots : list slot :=
  map Some sample_catalog ++
  [None; Some (mkBook 3 (Some (txt "Cien a" ++ [241%N] ++ txt "os")) None (Some (txt "Novela")) 9.99%float
                      (Some [0xD83D; 0xDE00]%N))].

Ltac slots_ok :=
  unfold sample_slots, sample_catalog; cbn [map List.app];
  repeat apply List.Forall_cons; try apply List.Forall_nil; cbn [from_option]; try exact I;
  (split; [unfold in_int32, int32_min, int32_max; simpl; lia|vm_compute; reflexivity]).

Lemma save_text_roundtrip_witness :
  forallb json_ws [10%N] = true /\
  Forall (from_option (fun b => in_int32 (Id b) /\ book_text_ok dotnet_double_text b = true) True) sample_slots /\
  exists t, Save_text dotnet_double_text [10%N] sample_slots = Ok t /\
            @GetAll_text ascii_casing (Some t) = Ok sample_slots.
Proof.
  split; [reflexivity|]. split; [slots_ok|].
  eexists. split; [vm_compute; reflexivity|].
  apply (save_text_roundtrip dotnet_double_text [10%N]); [reflexivity|slots_ok|].
  vm_compute; reflexivity.
Defined.

Lemma text_response_refines_witness :
  response_text_ok dotnet_double_text (OkBooks sample_slots) = true /\
  to_response_text dotnet_double_text (OkBooks sample_slots) = to_response (OkBooks sample_slots).
Proof.
  split; [vm_compute; reflexivity|]. apply text_response_refines. vm_compute. reflexivity.
Defined.

(** A [File.WriteAllText] cut short (a crash while saving) leaves a file
    that every later [GetAll] refuses: here for every proper prefix of the
    saved text of the sample. *)
Example truncated_save_rejected :
  exists t, Save_text dotnet_double_text [10%N] sample_slots = Ok t /\
  forallb (fun k => match @GetAll_text ascii_casing (Some (take k t)) with Err JsonException => true | _ => false end)
          (seq 0 (length t)) = true.
Proof. eexists. split; [vm_compute; reflexivity|]. vm_compute. reflexivity. Qed.

(** The server reads at most 64 levels of nesting; [JSON.parse] has no such
    limit. *)
Example nesting_limit :
  server_read (repeat (chr "[") 64 ++ repeat (chr "]") 64) = Ok (Nat.iter 63 (fun n => NArr [n]) (NArr [])) /\
  server_read (repeat (chr "[") 65 ++ repeat (chr "]") 65) = Err JsonException /\
  json_parse (repeat (chr "[") 65 ++ repeat (chr "]") 65) = Some (Nat.iter 64 (fun v => JArr [v]) (JArr [])).
Proof. split_and!; vm_compute; reflexivity. Qed.

(** The two readers differ on a number: the server keeps [12.0] as a
    double literal, which an [int] property refuses; the browser reads a
    number either way. *)
Example number_readers :
  number_node (txt "12") = Ok (IntLit 12) /\ number_node (txt "-0") = Ok (IntLit 0) /\
  number_node (txt "12.0") = Ok (DblLit 12) /\ number_node (txt "1e400") = Err JsonException /\
  json_parse (txt "-0") = Some (JNum (-0)%float).
Proof. split_and!; vm_compute; reflexivity. Qed.
