(* ===== verification/Cors.v ===== *)
(** * Cors: the CORS policy of Program.cs and the browser's CORS checks

    Program.cs registers the policy ["AllowReact"] (lines 25-31:
    [WithOrigins("http://localhost:5173").AllowAnyHeader().AllowAnyMethod()])
    and applies it to every request with [app.UseCors("AllowReact")]
    (line 57).  services/api.js tries, after the relative URL, the absolute
    URLs [https://localhost:5001/...] and [http://localhost:5000/...]: from
    a page of another origin those are cross-origin requests, which the
    browser only lets the page read when the service's CORS headers allow
    its origin.

    - [resolve]: the origin and the path a URL of api.js designates, from
      the page's origin (the WHATWG URL parser for path-absolute URLs and
      for absolute [http]/[https] URLs: host lowercased, default port
      dropped from the origin).
    - [cors_policy], [AllowReact]: the policy as [CorsPolicyBuilder]
      builds it (origins lowercased by [WithOrigins]).
    - [cors_headers], [with_cors]: ASP.NET Core's [CorsMiddleware] and
      [CorsService]: a request without [Origin] passes through; a
      preflight ([OPTIONS] with [Access-Control-Request-Method]) is
      answered [204] with the policy's headers and does not reach the
      endpoints; any other request runs the endpoints and gets
      [Access-Control-Allow-Origin] when its origin is allowed.
    - [book_app]: the endpoints behind the middleware: GET requests as
      [Routing.handle] answers them, the binding of a request body to
      [Book book] being a parameter ([bind]: ASP.NET Core's
      [ReadFromJsonAsync] with the web defaults, not modelled).
    - [browser_fetch]: the Fetch standard's main fetch for the page's
      origin: same-origin requests go straight to the server; a
      cross-origin simple request is sent and its response read only
      when the CORS check passes; any other cross-origin request is sent
      only after a preflight whose response allows the origin, the method
      and the headers.

    Theorems: for the allowed origin a cross-origin GET reads exactly what
    the same request made from the service's own page reads, and a page of
    the service's origin sees [Routing.service]; the Vite development page
    gets the catalog from api.js [getBooks] through the third URL when the
    first two fail; a DELETE from the Vite page is preflighted, reaches
    [MapDelete] and removes the book; a page of any other origin never
    delivers a non-simple request (the file is untouched) and reads no
    response, so api.js fails from [http://127.0.0.1:5173]. *)

From Stdlib Require Import Floats Ascii String.
From S2P Require Import Prelude Text BookJson BooksRepository Endpoints JsNumber JsValue ClientBook Filter JsObject Cart Sync Api Wire Query Routing.

#[local] Open Scope Z_scope.

(** ** URLs and origins *)

Definition ascii_lower (c : N) : N := if decide (65 <= c <= 90)%N then (c + 32)%N else c.

(** The authority of an absolute URL ends at the first [/], [?] or [#]. *)
Definition authority_end (c : N) : bool := bool_decide (c = chr "/" \/ c = chr "?" \/ c = chr "#").

Fixpoint split_authority (s : jstr) : jstr * jstr :=
  match s with
  | [] => ([], [])
  | c :: r => if authority_end c then ([], s) else let '(a, p) := split_authority r in (c :: a, p)
  end.

(** The origin's serialization omits the scheme's default port. *)
Definition serialize_origin (scheme : jstr) (port_default : jstr) (auth : jstr) : jstr :=
  let a := map ascii_lower auth in
  if decide (length port_default < length a /\ drop (length a - length port_default) a = port_default)%nat
  then scheme ++ take (length a - length port_default) a
  else scheme ++ a.

(** The origin and the path (with the query) a URL designates from a page
    of origin [page]; [None] for the forms api.js does not use. *)
Definition resolve (page url : jstr) : option (jstr * jstr) :=
  match url with
  | c :: _ =>
      if decide (c = chr "/") then Some (page, url)
      else if prefixb (txt "http://") url then
        let '(a, p) := split_authority (drop 7 url) in
        if decide (a = []) then None
        else Some (serialize_origin (txt "http://") (txt ":80") a, match p with [] => [chr "/"] | _ => p end)
      else if prefixb (txt "https://") url then
        let '(a, p) := split_authority (drop 8 url) in
        if decide (a = []) then None
        else Some (serialize_origin (txt "https://") (txt ":443") a, match p with [] => [chr "/"] | _ => p end)
      else None
  | [] => None
  end.

(** ** The server side: CorsMiddleware *)

(** A request as the server receives it. *)
Record request := mkRequest {
  rq_method : jstr;
  rq_path : jstr;
  rq_origin : option jstr;   (** [Origin] *)
  rq_acrm : option jstr;     (** [Access-Control-Request-Method] *)
  rq_acrh : list jstr;       (** [Access-Control-Request-Headers] *)
  rq_body : option jstr
}.

(** The CORS response headers. *)
Record cors_hdrs := mkHdrs {
  h_origin : option jstr;    (** [Access-Control-Allow-Origin] *)
  h_methods : list jstr;     (** [Access-Control-Allow-Methods] *)
  h_headers : list jstr      (** [Access-Control-Allow-Headers] *)
}.

Definition no_hdrs : cors_hdrs := mkHdrs None [] [].

(** A response with its CORS headers. *)
Record reply := mkReply { rp_response : response; rp_cors : cors_hdrs }.

(** [CorsPolicy]: [None] for [AllowAny...]. *)
Record cors_policy := mkPolicy {
  p_origins : option (list jstr);
  p_methods : option (list jstr);
  p_headers : option (list jstr)
}.

(** Lines 27-30: [WithOrigins] stores each origin [ToLowerInvariant]. *)
Definition AllowReact : cors_policy :=
  mkPolicy (Some [map ascii_lower (txt "http://localhost:5173")]) None None.

(** The origins in play: the Vite page the policy names, and the two
    absolute bases of api.js. *)
Definition dev_origin : jstr := txt "http://localhost:5173".
Definition https_origin : jstr := txt "https://localhost:5001".
Definition http_origin : jstr := txt "http://localhost:5000".

(** [HttpMethods.IsOptions]: an ordinal case-insensitive comparison. *)
Definition is_method (m : jstr) (name : String.string) : bool := bool_decide (map ascii_lower m = map ascii_lower (txt name)).

Definition is_preflight (rq : request) : bool := is_method (rq_method rq) "OPTIONS" && bool_decide (is_Some (rq_acrm rq)).

(** [CorsService.IsOriginAllowed]: an empty origin never; otherwise any
    origin, or one of the policy's, compared ordinally. *)
Definition origin_allowed (p : cors_policy) (o : jstr) : bool :=
  bool_decide (o <> []) && match p_origins p with None => true | Some os => bool_decide (o ∈ os) end.

(** [EvaluatePolicy] and [ApplyResult]: no header for an origin the policy
    refuses; [*] for any origin, else the origin itself; for a preflight,
    the requested method and headers when any is allowed, else the
    policy's lists. *)
Definition cors_headers (p : cors_policy) (rq : request) (o : jstr) : cors_hdrs :=
  if origin_allowed p o then
    mkHdrs (Some (match p_origins p with None => txt "*" | Some _ => o end))
           (if is_preflight rq then from_option id (option_list (rq_acrm rq)) (p_methods p) else [])
           (if is_preflight rq then from_option id (rq_acrh rq) (p_headers p) else [])
  else no_hdrs.

Section Middleware.
Variable S : Type.

(** [app.UseCors(policy)] in front of the endpoints [next]. *)
Definition with_cors (p : cors_policy) (next : request -> S -> response * S) (rq : request) (s : S) : reply * S :=
  match rq_origin rq with
  | None => let '(r, s') := next rq s in (mkReply r no_hdrs, s')
  | Some o =>
      if is_preflight rq then (mkReply (HttpResponse true None) (cors_headers p rq o), s)
      else let '(r, s') := next rq s in (mkReply r (cors_headers p rq o), s')
  end.

End Middleware.

Arguments with_cors {S} p next rq s.

(** The method of a request, compared as the endpoints' method metadata
    compares it (ignoring case). *)
Definition method_of (m : jstr) : option http_method :=
  if is_method m "GET" then Some HGet
  else if is_method m "POST" then Some HPost
  else if is_method m "PUT" then Some HPut
  else if is_method m "DELETE" then Some HDelete
  else None.

(** The endpoints of Program.cs behind the middleware, as [handle]
    answers them; [bind] is the minimal API's binding of a request body
    to [Book book]. *)
Definition book_app `{OrdinalCasing} (cmp : option jstr -> option jstr -> comparison) (fb : bool)
    (bind : option jstr -> result http_result book) (rq : request) (f : file_state) : response * file_state :=
  match method_of (rq_method rq) with
  | Some m => let '(a, f') := handle cmp fb m (rq_path rq) (bind (rq_body rq)) f in (answer_response a, f')
  | None => (answer_response NoEndpoint, f)
  end.

(** ** The browser side: the Fetch standard *)

(** A fetch of the page: its method, URL, the names (lowercase) of the
    request headers that are not CORS-safelisted, and its body. *)
Record fetch_req := mkFetch { f_method : jstr; f_url : jstr; f_headers : list jstr; f_body : option jstr }.

Definition get_req (url : jstr) : fetch_req := mkFetch (txt "GET") url [] None.

(** CORS-safelisted methods. *)
Definition simple_method (m : jstr) : bool := bool_decide (m ∈ [txt "GET"; txt "HEAD"; txt "POST"]).

Definition simple_request (rq : fetch_req) : bool := simple_method (f_method rq) && bool_decide (f_headers rq = []).

(** The CORS check (the request's credentials mode is [same-origin]). *)
Definition cors_check (page : jstr) (h : cors_hdrs) : bool :=
  match h_origin h with Some a => bool_decide (a = txt "*" \/ a = page) | None => false end.

(** The CORS-preflight fetch succeeds: an ok status, the CORS check, the
    method and every header allowed (a wildcard counts, as the request
    carries no credentials). *)
Definition preflight_ok (page : jstr) (rq : fetch_req) (rp : reply) : bool :=
  match rp_response rp with HttpResponse true _ => true | _ => false end &&
  cors_check page (rp_cors rp) &&
  (simple_method (f_method rq) || bool_decide (f_method rq ∈ h_methods (rp_cors rp) \/ txt "*" ∈ h_methods (rp_cors rp))) &&
  forallb (fun h => bool_decide (h ∈ map (map ascii_lower) (h_headers (rp_cors rp)) \/ txt "*" ∈ h_headers (rp_cors rp))) (f_headers rq).

Section Browser.
Variable S : Type.
(** The servers listening at each origin. *)
Variable servers : jstr -> option (request -> S -> reply * S).

(** A cross-origin response is read only through the CORS check. *)
Definition read_checked (page : jstr) (rp : reply) : response :=
  if cors_check page (rp_cors rp) then rp_response rp else NetworkFailure.

(** [fetch(url, init)] from a page of origin [page]: what the promise
    settles to, and the servers' state after the requests it sent. *)
Definition browser_fetch (page : jstr) (rq : fetch_req) (s : S) : response * S :=
  match resolve page (f_url rq) with
  | None => (NetworkFailure, s)
  | Some (o, path) =>
      match servers o with
      | None => (NetworkFailure, s)
      | Some srv =>
          let m := f_method rq in
          if decide (o = page) then
            let hdr := if bool_decide (m ∈ [txt "GET"; txt "HEAD"]) then None else Some page in
            let '(rp, s') := srv (mkRequest m path hdr None [] (f_body rq)) s in (rp_response rp, s')
          else if simple_request rq then
            let '(rp, s') := srv (mkRequest m path (Some page) None [] (f_body rq)) s in (read_checked page rp, s')
          else
            let '(pre, s1) := srv (mkRequest (txt "OPTIONS") path (Some page) (Some m) (f_headers rq) None) s in
            if preflight_ok page rq pre then
              let '(rp, s2) := srv (mkRequest m path (Some page) None [] (f_body rq)) s1 in (read_checked page rp, s2)
            else (NetworkFailure, s1)
      end
  end.

(** api.js's [fetch(url)] on servers in the state [s]. *)
Definition browser_net (page : jstr) (s : S) (url : jstr) : response := (browser_fetch page (get_req url) s).1.

End Browser.

Arguments browser_fetch {S} servers page rq s.
Arguments browser_net {S} servers page s url.

(** ** Lemmas *)

Lemma resolve_rel page url : hd_error url = Some (chr "/") -> resolve page url = Some (page, url).
Proof. destruct url as [|c u]; [done|]. intros [= ->]. unfold resolve. by rewrite decide_True. Qed.

Lemma resolve_http_base page p :
  hd_error p = Some (chr "/") -> resolve page (txt "http://localhost:5000" ++ p) = Some (http_origin, p).
Proof. destruct p as [|c p]; [done|]. intros [= ->]. reflexivity. Qed.

Lemma resolve_https_base page p :
  hd_error p = Some (chr "/") -> resolve page (txt "https://localhost:5001" ++ p) = Some (https_origin, p).
Proof. destruct p as [|c p]; [done|]. intros [= ->]. reflexivity. Qed.

Lemma AllowReact_origin o : origin_allowed AllowReact o = bool_decide (o = dev_origin).
Proof.
  unfold origin_allowed. cbn [p_origins AllowReact].
  change (map ascii_lower (txt "http://localhost:5173")) with dev_origin.
  destruct (decide (o = dev_origin)) as [->|Hn]; [reflexivity|].
  rewrite (bool_decide_eq_false_2 (o = _)) by done.
  rewrite (bool_decide_eq_false_2 (o ∈ _)); [apply andb_false_r|]. by rewrite list_elem_of_singleton.
Qed.

Lemma cors_check_headers p rq page :
  cors_check page (cors_headers p rq page) = origin_allowed p page.
Proof.
  unfold cors_headers. destruct (origin_allowed p page) eqn:Ha; [|done].
  unfold cors_check. cbn [h_origin]. apply bool_decide_eq_true_2.
  destruct (p_origins p); [by right|by left].
Qed.

Lemma GET_simple : simple_method (txt "GET") = true.
Proof. reflexivity. Qed.

(** Only a request with [Access-Control-Request-Method] is a preflight. *)
Lemma no_acrm_not_preflight m p h hs b : is_preflight (mkRequest m p h None hs b) = false.
Proof. unfold is_preflight. cbn [rq_acrm]. rewrite (bool_decide_eq_false_2 (is_Some None)); [apply andb_false_r|]. by intros []. Qed.

Section Fetch.
Variable S : Type.
Variable servers : jstr -> option (request -> S -> reply * S).

(** A GET from the service's own page, or from the page the policy
    allows, reaches the endpoints and is read as they answer it. *)
Lemma browser_get next page o url path s :
  servers o = Some (with_cors AllowReact next) -> resolve page url = Some (o, path) ->
  page = o \/ page = dev_origin ->
  browser_fetch servers page (get_req url) s =
    next (mkRequest (txt "GET") path (if decide (o = page) then None else Some page) None [] None) s.
Proof.
  intros Hs Hr Hp. unfold browser_fetch. cbn [f_url f_method f_headers get_req]. rewrite Hr, Hs.
  destruct (decide (o = page)) as [<-|Hne].
  - rewrite bool_decide_eq_true_2 by (left; done). unfold with_cors. cbn [rq_origin].
    by destruct (next _ s).
  - destruct Hp as [-> | ->]; [done|].
    change (simple_request (get_req url)) with true.
    unfold with_cors. cbn [rq_origin]. rewrite no_acrm_not_preflight.
    destruct (next _ s) as [r s']. unfold read_checked. cbn [rp_cors rp_response].
    by rewrite cors_check_headers, AllowReact_origin, bool_decide_eq_true_2.
Qed.

(** No server at the URL's origin: the fetch rejects with a [TypeError]. *)
Lemma browser_no_server page o url path rq s :
  resolve page url = Some (o, path) -> servers o = None -> f_url rq = url ->
  browser_fetch servers page rq s = (NetworkFailure, s).
Proof. intros Hr Hs <-. unfold browser_fetch. by rewrite Hr, Hs. Qed.

(** From a page the policy does not list, a fetch reads nothing, and a
    preflighted one leaves the server's state as it was. *)
Lemma browser_blocked next page o rq path s :
  servers o = Some (with_cors AllowReact next) -> resolve page (f_url rq) = Some (o, path) ->
  page <> o -> page <> dev_origin ->
  (browser_fetch servers page rq s).1 = NetworkFailure /\
  (simple_request rq = false -> (browser_fetch servers page rq s).2 = s).
Proof.
  intros Hs Hr Hne Hdev.
  assert (Hc : forall rq', cors_check page (cors_headers AllowReact rq' page) = false).
  { intros rq'. by rewrite cors_check_headers, AllowReact_origin, bool_decide_eq_false_2. }
  unfold browser_fetch. rewrite Hr, Hs. rewrite decide_False by congruence.
  destruct (simple_request rq) eqn:Hsim.
  - unfold with_cors. cbn [rq_origin].
    rewrite no_acrm_not_preflight. destruct (next _ s) as [r s'].
    unfold read_checked. cbn [rp_cors]. rewrite Hc. split; [done|congruence].
  - set (pre := mkRequest (txt "OPTIONS") path (Some page) (Some (f_method rq)) (f_headers rq) None).
    assert (Hpre : with_cors AllowReact next pre s = (mkReply (HttpResponse true None) (cors_headers AllowReact pre page), s))
      by reflexivity.
    rewrite Hpre. unfold preflight_ok. cbn [rp_cors rp_response]. rewrite Hc, andb_false_r, !andb_false_l. done.
Qed.

(** C24: A page of any origin other than the service's own and
    [http://localhost:5173] reads no response of a service behind
    [UseCors("AllowReact")] (the promise of [fetch] rejects), and a request
    that needs a preflight (a method other than GET, HEAD and POST, or a
    header such as [Content-Type: application/json]) never reaches the
    endpoints: the preflight is answered by the middleware and refused
    by the browser, so the server's state is unchanged. *)
Theorem cors_blocks_other_origins next page o rq path s :
  servers o = Some (with_cors AllowReact next) -> resolve page (f_url rq) = Some (o, path) ->
  page <> o -> page <> dev_origin ->
  (browser_fetch servers page rq s).1 = NetworkFailure /\
  (simple_request rq = false -> (browser_fetch servers page rq s).2 = s).
Proof. apply browser_blocked. Qed.

(** C25: api.js [getBooks(title)] from a page of any origin the policy
    does not list, other than the service's own two: when the page's own
    server does not answer [/api/books] with JSON, both absolute URLs are
    refused by the browser (nothing listens at [https://localhost:5001],
    or a service behind the same policy does), so the promise rejects
    after requesting the three URLs, whatever the title and whatever the
    endpoints behind the middleware. *)
Theorem getBooks_other_origin_rejects next page f title q :
  page <> dev_origin -> page <> http_origin -> page <> https_origin ->
  query_part (txt "title") title = Ok q ->
  (exists err, fetch_result (browser_net servers page f (api_books ++ q)) = Err err) ->
  servers http_origin = Some (with_cors AllowReact next) ->
  (servers https_origin = None \/ exists next', servers https_origin = Some (with_cors AllowReact next')) ->
  getBooks (browser_net servers page f) title = (Err FetchError, bases (api_books ++ q)).
Proof.
  intros Hdev Hhttp Hhttps Hq [err Herr] Hs Hs'.
  assert (Hp : hd_error (api_books ++ q) = Some (chr "/")) by reflexivity.
  assert (H2 : browser_net servers page f (txt "https://localhost:5001" ++ api_books ++ q) = NetworkFailure).
  { unfold browser_net. destruct Hs' as [Hn|[n' Hn]].
    - by rewrite (browser_no_server page https_origin _ _ (get_req _) f (resolve_https_base page _ Hp) Hn eq_refl).
    - exact (proj1 (browser_blocked n' page https_origin (get_req _) _ f Hn (resolve_https_base page _ Hp) Hhttps Hdev)). }
  assert (H3 : browser_net servers page f (txt "http://localhost:5000" ++ api_books ++ q) = NetworkFailure).
  { unfold browser_net.
    exact (proj1 (browser_blocked next page http_origin (get_req _) _ f Hs (resolve_http_base page _ Hp) Hhttp Hdev)). }
  unfold getBooks. rewrite Hq. unfold bases. cbn [tryUrls fetchJson]. rewrite Herr, H2, H3. reflexivity.
Qed.

End Fetch.

(** [book_app] answers a GET as [handle_get], whatever its [Origin]. *)
Lemma book_app_get `{OrdinalCasing} cmp fb bind path h f :
  book_app cmp fb bind (mkRequest (txt "GET") path h None [] None) f =
    let '(a, f') := handle_get cmp fb path f in (answer_response a, f').
Proof. reflexivity. Qed.

(** ** Theorems *)

Section Service.
Context `{OrdinalCasing}.
Variable cmp : option jstr -> option jstr -> comparison.
Variables (fb : bool) (bind : option jstr -> result http_result book).
Variable servers : jstr -> option (request -> file_state -> reply * file_state).

(** C21: Refinement of the network model of [Routing]: a GET through the
    browser, from a page of the service's own origin or of the origin the
    policy allows, reads the response and leaves the file exactly as
    [handle_get] does; the CORS layer adds nothing and takes nothing. *)
Theorem cors_get_refines page o url path f :
  servers o = Some (with_cors AllowReact (book_app cmp fb bind)) ->
  resolve page url = Some (o, path) -> page = o \/ page = dev_origin ->
  browser_fetch servers page (get_req url) f = (let '(a, f') := handle_get cmp fb path f in (answer_response a, f')).
Proof. intros Hs Hr Hp. rewrite (browser_get _ servers _ page o url path f Hs Hr Hp). apply book_app_get. Qed.

(** A page served by the service itself sees, for its relative URLs, the
    network [Routing.service] describes. *)
Lemma same_origin_service page f url :
  servers page = Some (with_cors AllowReact (book_app cmp fb bind)) -> hd_error url = Some (chr "/") ->
  browser_net servers page f url = service cmp fb f url.
Proof.
  intros Hs Hu. unfold browser_net.
  rewrite (browser_get _ servers _ page page url url f Hs (resolve_rel page url Hu) (or_introl eq_refl)), book_app_get.
  unfold service. rewrite decide_True by done. by destruct (handle_get cmp fb url f).
Qed.

(** The service's answer to the third URL api.js tries from the Vite page. *)
Lemma dev_page_third_url f path :
  servers http_origin = Some (with_cors AllowReact (book_app cmp fb bind)) -> hd_error path = Some (chr "/") ->
  browser_net servers dev_origin f (txt "http://localhost:5000" ++ path) = answer_response (handle_get cmp fb path f).1.
Proof.
  intros Hs Hp. unfold browser_net.
  rewrite (browser_get _ servers _ dev_origin http_origin _ path f Hs (resolve_http_base _ path Hp) (or_intror eq_refl)).
  rewrite book_app_get. by destruct (handle_get cmp fb path f).
Qed.

(** C22: api.js [getBooks(title)] on the Vite development page
    ([http://localhost:5173]) whose server does not answer [/api/books]
    with JSON (no proxy: Vite serves [index.html]) and with nothing at
    [https://localhost:5001]: the third URL, [http://localhost:5000],
    reaches the service across origins, the policy lets the page read it,
    and the promise resolves to the catalog's books whose title contains
    the query, after requesting the three URLs in order. *)
Theorem getBooks_dev_page c f t e :
  repr c f -> Forall (fun u => (u < 0x10000)%N) t -> t <> [] -> encode_uri t = Ok e ->
  (exists err, fetch_result (browser_net servers dev_origin f (api_books ++ [chr "?"] ++ txt "title" ++ [chr "="] ++ e)) = Err err) ->
  servers https_origin = None ->
  servers http_origin = Some (with_cors AllowReact (book_app cmp fb bind)) ->
  getBooks (browser_net servers dev_origin f) (JStr t) =
    (Ok (map api_of (if is_null_or_white_space (Some t) then c else filter (fun b => title_hit t b = true) c)),
     bases (api_books ++ [chr "?"] ++ txt "title" ++ [chr "="] ++ e)).
Proof.
  intros Hr Ht Hne He [err Herr] Hnone Hs.
  set (path := api_books ++ [chr "?"] ++ txt "title" ++ [chr "="] ++ e) in *.
  assert (Hp : hd_error path = Some (chr "/")) by reflexivity.
  unfold getBooks. rewrite (query_part_title t e Hne He). fold path. unfold bases. cbn [tryUrls fetchJson].
  rewrite Herr. unfold browser_net at 1.
  rewrite (browser_no_server _ servers dev_origin https_origin _ path (get_req (txt "https://localhost:5001" ++ path)) f
             (resolve_https_base _ path Hp) Hnone eq_refl).
  cbn [fst fetch_result]. rewrite (dev_page_third_url f path Hs Hp), (handle_get_title cmp fb c f t e Hr Ht He).
  cbn [answer_response]. pose proof (title_books_wf c f t Hr) as Hl.
  set (l := if is_null_or_white_space (Some t) then c else filter (fun b => title_hit t b = true) c) in *.
  rewrite (fetch_books l Hl). cbn [fetch_result]. by rewrite bind_Ok, normalize_all_web.
Qed.

(** C23: End to end through CORS: [DELETE http://localhost:5000/api/books/<id>]
    from the Vite page [http://localhost:5173] is preflighted, the
    middleware answers the preflight with the policy's headers, the
    browser sends the request, it reaches [MapDelete] with the id, and the
    page reads [204] when the catalog held the id ([404] otherwise); the
    file then holds the catalog without the id's books. *)
Theorem delete_dev_page c f id :
  repr c f -> in_int32 id ->
  servers http_origin = Some (with_cors AllowReact (book_app cmp fb bind)) ->
  exists f', browser_fetch servers dev_origin (mkFetch (txt "DELETE") (txt "http://localhost:5000" ++ books_route ++ Z_to_txt id) [] None) f =
               (to_response (if bool_decide (Exists (fun x => Id x = id) c) then NoContent else NotFound), f') /\
             repr (filter (fun x => Id x <> id) c) f'.
Proof.
  intros Hr Hid Hs.
  assert (Hr0 : st_repr c f) by exact Hr.
  destruct (delete_book_spec c f id Hr0) as (f' & Hd & Hr').
  exists f'. split; [|exact Hr'].
  assert (Hp : hd_error (books_route ++ Z_to_txt id) = Some (chr "/")) by reflexivity.
  unfold browser_fetch. cbn [f_url f_method f_headers f_body].
  rewrite (resolve_http_base dev_origin _ Hp), Hs. rewrite decide_False by discriminate.
  change (simple_request (mkFetch (txt "DELETE") (txt "http://localhost:5000" ++ books_route ++ Z_to_txt id) [] None)) with false.
  cbv beta iota. unfold with_cors at 1. cbn [rq_origin].
  rewrite (eq_refl : is_preflight (mkRequest (txt "OPTIONS") (books_route ++ Z_to_txt id) (Some dev_origin) (Some (txt "DELETE")) [] None) = true).
  rewrite (eq_refl : preflight_ok dev_origin (mkFetch (txt "DELETE") (txt "http://localhost:5000" ++ books_route ++ Z_to_txt id) [] None)
             (mkReply (HttpResponse true None) (cors_headers AllowReact
                (mkRequest (txt "OPTIONS") (books_route ++ Z_to_txt id) (Some dev_origin) (Some (txt "DELETE")) [] None) dev_origin)) = true).
  unfold with_cors. cbn [rq_origin]. rewrite no_acrm_not_preflight.
  unfold book_app. cbn [rq_method rq_path rq_body].
  rewrite (eq_refl : method_of (txt "DELETE") = Some HDelete).
  unfold handle. rewrite (route_id HDelete id Hid). cbn iota. rewrite Hd. cbn [answer_response].
  unfold read_checked. cbn [rp_cors rp_response]. by rewrite cors_check_headers, AllowReact_origin, bool_decide_eq_true_2.
Qed.

End Service.

(** ** Examples *)

(** Vite's development server without a proxy: [index.html] for every
    path, with status 200 and no CORS headers. *)
Definition vite_index (rq : request) (f : file_state) : reply * file_state :=
  (mkReply (HttpResponse true None) no_hdrs, f).

(** The examples send no request body; binding one answers 400. *)
Definition no_body (body : option jstr) : result http_result book := Err (BadRequest []).

Definition loopback_origin : jstr := txt "http://127.0.0.1:5173".

(** The development setup: Vite on port 5173, reachable as [localhost]
    and as [127.0.0.1], and the service on [http://localhost:5000]. *)
Definition dev_servers (o : jstr) : option (request -> file_state -> reply * file_state) :=
  if decide (o = dev_origin \/ o = loopback_origin) then Some vite_index
  else if decide (o = http_origin) then Some (with_cors AllowReact (book_app null_first_cmp true no_body))
  else None.

(** On the Vite page without a proxy, api.js [getBooks('ALQUI')]
    reaches the service through its third URL when the page is opened as
    [http://localhost:5173], and rejects when the same page is opened as
    [http://127.0.0.1:5173], which the policy does not list; App.jsx's
    own [loadBooks] requests only the relative URL, gets [index.html] and
    falls back to the seed catalog on either.  A DELETE from the loopback
    page is stopped at the preflight and leaves the file as it was; from
    the listed page it passes the preflight and deletes the book. *)
Example dev_page_origins :
  getBooks (browser_net dev_servers dev_origin (file_of sample_catalog)) (JStr (txt "ALQUI")) =
    (Ok [api_of (set_Id 1 (sample_book "El alquimista" 12.5))], bases (txt "/api/books?title=ALQUI")) /\
  getBooks (browser_net dev_servers loopback_origin (file_of sample_catalog)) (JStr (txt "ALQUI")) =
    (Err FetchError, bases (txt "/api/books?title=ALQUI")) /\
  complete (browser_net dev_servers dev_origin (file_of sample_catalog) (cache_buster_url api_books 0)) mounted0 =
    (publish defaultBooks mounted0, JBool false) /\
  browser_fetch dev_servers loopback_origin (mkFetch (txt "DELETE") (txt "http://localhost:5000/api/books/1") [] None)
    (file_of sample_catalog) = (NetworkFailure, file_of sample_catalog) /\
  (browser_fetch dev_servers dev_origin (mkFetch (txt "DELETE") (txt "http://localhost:5000/api/books/1") [] None)
    (file_of sample_catalog)).1 = HttpResponse true None /\
  GetAll (browser_fetch dev_servers dev_origin (mkFetch (txt "DELETE") (txt "http://localhost:5000/api/books/1") [] None)
    (file_of sample_catalog)).2 = (Ok (map Some (filter (fun b => Id b <> 1) sample_catalog)),
    (browser_fetch dev_servers dev_origin (mkFetch (txt "DELETE") (txt "http://localhost:5000/api/books/1") [] None)
    (file_of sample_catalog)).2).
Proof. split_and!; vm_compute; reflexivity. Qed.

(** ** Witnesses *)

Lemma cors_get_refines_witness :
  dev_servers http_origin = Some (with_cors AllowReact (book_app null_first_cmp true no_body)) /\
  resolve dev_origin (txt "http://localhost:5000/api/books") = Some (http_origin, txt "/api/books") /\
  (dev_origin = http_origin \/ dev_origin = dev_origin) /\
  browser_fetch dev_servers dev_origin (get_req (txt "http://localhost:5000/api/books")) (file_of sample_catalog) =
    (let '(a, f') := handle_get null_first_cmp true (txt "/api/books") (file_of sample_catalog) in (answer_response a, f')).
Proof.
  assert (Hs : dev_servers http_origin = Some (with_cors AllowReact (book_app null_first_cmp true no_body))) by reflexivity.
  assert (Hr : resolve dev_origin (txt "http://localhost:5000/api/books") = Some (http_origin, txt "/api/books"))
    by (vm_compute; reflexivity).
  assert (Hp : dev_origin = http_origin \/ dev_origin = dev_origin) by (right; reflexivity).
  split_and!; [exact Hs|exact Hr|exact Hp|].
  exact (cors_get_refines null_first_cmp true no_body dev_servers _ _ _ _ _ Hs Hr Hp).
Defined.

Lemma getBooks_dev_page_witness :
  repr sample_catalog (file_of sample_catalog) /\ Forall (fun u => (u < 0x10000)%N) (txt "ALQUI") /\
  txt "ALQUI" <> [] /\ encode_uri (txt "ALQUI") = Ok (txt "ALQUI") /\
  (exists err, fetch_result (browser_net dev_servers dev_origin (file_of sample_catalog)
                              (api_books ++ [chr "?"] ++ txt "title" ++ [chr "="] ++ txt "ALQUI")) = Err err) /\
  dev_servers https_origin = None /\
  dev_servers http_origin = Some (with_cors AllowReact (book_app null_first_cmp true no_body)) /\
  getBooks (browser_net dev_servers dev_origin (file_of sample_catalog)) (JStr (txt "ALQUI")) =
    (Ok (map api_of (if is_null_or_white_space (Some (txt "ALQUI")) then sample_catalog
                     else filter (fun b => title_hit (txt "ALQUI") b = true) sample_catalog)),
     bases (api_books ++ [chr "?"] ++ txt "title" ++ [chr "="] ++ txt "ALQUI")).
Proof.
  assert (Hr : repr sample_catalog (file_of sample_catalog)) by solve_repr.
  assert (Ht : Forall (fun u => (u < 0x10000)%N) (txt "ALQUI")) by (repeat constructor).
  assert (Hne : txt "ALQUI" <> []) by discriminate.
  assert (He : encode_uri (txt "ALQUI") = Ok (txt "ALQUI")) by (vm_compute; reflexivity).
  assert (H1 : exists err, fetch_result (browser_net dev_servers dev_origin (file_of sample_catalog)
                              (api_books ++ [chr "?"] ++ txt "title" ++ [chr "="] ++ txt "ALQUI")) = Err err)
    by (exists FetchError; vm_compute; reflexivity).
  assert (H2 : dev_servers https_origin = None) by (vm_compute; reflexivity).
  assert (H3 : dev_servers http_origin = Some (with_cors AllowReact (book_app null_first_cmp true no_body))) by reflexivity.
  split_and!; [exact Hr|exact Ht|exact Hne|exact He|exact H1|exact H2|exact H3|].
  exact (getBooks_dev_page null_first_cmp true no_body dev_servers _ _ _ _ Hr Ht Hne He H1 H2 H3).
Defined.

Lemma cors_blocks_other_origins_witness :
  dev_servers http_origin = Some (with_cors AllowReact (book_app null_first_cmp true no_body)) /\
  resolve loopback_origin (txt "http://localhost:5000/api/books/1") = Some (http_origin, txt "/api/books/1") /\
  loopback_origin <> http_origin /\ loopback_origin <> dev_origin /\
  (browser_fetch dev_servers loopback_origin (mkFetch (txt "DELETE") (txt "http://localhost:5000/api/books/1") [] None)
     (file_of sample_catalog)).1 = NetworkFailure /\
  (simple_request (mkFetch (txt "DELETE") (txt "http://localhost:5000/api/books/1") [] None) = false ->
   (browser_fetch dev_servers loopback_origin (mkFetch (txt "DELETE") (txt "http://localhost:5000/api/books/1") [] None)
      (file_of sample_catalog)).2 = file_of sample_catalog).
Proof.
  assert (Hs : dev_servers http_origin = Some (with_cors AllowReact (book_app null_first_cmp true no_body))) by reflexivity.
  assert (Hr : resolve loopback_origin (txt "http://localhost:5000/api/books/1") = Some (http_origin, txt "/api/books/1"))
    by (vm_compute; reflexivity).
  assert (H1 : loopback_origin <> http_origin) by discriminate.
  assert (H2 : loopback_origin <> dev_origin) by discriminate.
  split_and!; [exact Hs|exact Hr|exact H1|exact H2| |];
    [exact (proj1 (cors_blocks_other_origins _ dev_servers _ _ _ (mkFetch (txt "DELETE") (txt "http://localhost:5000/api/books/1") [] None) _ _ Hs Hr H1 H2))
    |exact (proj2 (cors_blocks_other_origins _ dev_servers _ _ _ (mkFetch (txt "DELETE") (txt "http://localhost:5000/api/books/1") [] None) _ _ Hs Hr H1 H2))].
Defined.

Lemma delete_dev_page_witness :
  repr sample_catalog (file_of sample_catalog) /\ in_int32 1 /\
  dev_servers http_origin = Some (with_cors AllowReact (book_app null_first_cmp true no_body)) /\
  exists f', browser_fetch dev_servers dev_origin
               (mkFetch (txt "DELETE") (txt "http://localhost:5000" ++ books_route ++ Z_to_txt 1) [] None) (file_of sample_catalog) =
             (to_response (if bool_decide (Exists (fun x => Id x = 1) sample_catalog) then NoContent else NotFound), f') /\
             repr (filter (fun x => Id x <> 1) sample_catalog) f'.
Proof.
  assert (Hr : repr sample_catalog (file_of sample_catalog)) by solve_repr.
  assert (Hid : in_int32 1) by (split; discriminate).
  assert (Hs : dev_servers http_origin = Some (with_cors AllowReact (book_app null_first_cmp true no_body))) by reflexivity.
  split_and!; [exact Hr|exact Hid|exact Hs|].
  exact (delete_dev_page null_first_cmp true no_body dev_servers _ _ _ Hr Hid Hs).
Defined.

Lemma getBooks_other_origin_rejects_witness :
  loopback_origin <> dev_origin /\ loopback_origin <> http_origin /\ loopback_origin <> https_origin /\
  query_part (txt "title") (JStr (txt "ALQUI")) = Ok (txt "?title=ALQUI") /\
  (exists err, fetch_result (browser_net dev_servers loopback_origin (file_of sample_catalog) (api_books ++ txt "?title=ALQUI")) = Err err) /\
  dev_servers http_origin = Some (with_cors AllowReact (book_app null_first_cmp true no_body)) /\
  (dev_servers https_origin = None \/ exists next', dev_servers https_origin = Some (with_cors AllowReact next')) /\
  getBooks (browser_net dev_servers loopback_origin (file_of sample_catalog)) (JStr (txt "ALQUI")) =
    (Err FetchError, bases (api_books ++ txt "?title=ALQUI")).
Proof.
  assert (H1 : loopback_origin <> dev_origin) by discriminate.
  assert (H2 : loopback_origin <> http_origin) by discriminate.
  assert (H3 : loopback_origin <> https_origin) by discriminate.
  assert (Hq : query_part (txt "title") (JStr (txt "ALQUI")) = Ok (txt "?title=ALQUI")) by (vm_compute; reflexivity).
  assert (He : exists err, fetch_result (browser_net dev_servers loopback_origin (file_of sample_catalog)
                 (api_books ++ txt "?title=ALQUI")) = Err err) by (exists FetchError; vm_compute; reflexivity).
  assert (Hs : dev_servers http_origin = Some (with_cors AllowReact (book_app null_first_cmp true no_body))) by reflexivity.
  assert (Hs' : dev_servers https_origin = None \/ exists next', dev_servers https_origin = Some (with_cors AllowReact next'))
    by (left; vm_compute; reflexivity).
  split_and!; [exact H1|exact H2|exact H3|exact Hq|exact He|exact Hs|exact Hs'|].
  exact (getBooks_other_origin_rejects _ dev_servers _ _ _ _ _ H1 H2 H3 Hq He Hs Hs').
Defined.
